(* ===== verification/_CoqProject ===== *)
-Q . S2P
Prelude.v
GoLib.v
Demo.v
Json.v
Domain.v
MemState.v
Transactions.v
Policies.v
Receipts.v
Encoding.v
Registry.v
State.v
Store.v
PolicySets.v
StoreSecrets.v
StoreSpec.v
StoreModel.v
StoreContract.v
VaultModel.v
MemRefine.v
MemVault.v
PgDb.v
Migrate.v
PgStore.v
PgSecrets.v
PgSim.v
PgRefine.v
PgVault.v
Auth.v
AuthSpec.v
ReceiptChain.v
ReceiptTamper.v
ArchiveModel.v
MemArchive.v
LogModel.v
MemLog.v
Authority.v
Jev.v
LocalKeys.v
Net.v
Integrations.v
Upstream.v
UrlText.v
IntegrationSpec.v
Gateway.v
GatewaySpec.v
Api.v
ApiMcp.v
Mux.v
Handler.v
ApiSpec.v
Interleave.v
PgChain.v
PgArchive.v
PgLog.v
Safety.v
SafetySteps.v
SafetyRules.v
SafetyRules2.v
ProposalSpec.v
ExecutionSpec.v
ApprovalSpec.v
AnyStore.v
SafetyOps.v
SafetyApi.v
SafetyServer.v
References.v
McpSpec.v
MuteSpec.v
IntegrationFlow.v
Serial.v
Boot.v
PgBoot.v
Scenario.v
Authorization.v
Witnesses.v
LiveWitnesses.v
PgWitnesses.v
AnyStoreWitnesses.v
Findings.v
