(* ===== verification/Prelude.v ===== *)
(** * SettleAgent in Rocq

    SettleAgent stands between autonomous agents and the tools they use.  An
    agent proposes an action inside a transaction; delegated authority, the
    organization's policies and an optional risk screen decide it; a human
    approves what needs approval; the tool runs; a chained and signed receipt
    records the outcome; uncertain outcomes are reconciled and failed
    transactions compensated.  This library models that core (the Go packages
    under src/internal) and proves what it guarantees, alone and under every
    interleaving of concurrent requests.

    ** How the program is modelled

    State.  [State.World] is the whole server: the memory store, the tool
    registry, the signer, the rate limiter, how many identifiers and clock
    ticks have been drawn, and a ghost trace of the calls of tools,
    compensators and reconcilers.

    Steps.  A method of MemoryStore holds the mutex for its whole body: it is
    one critical section, a function [M A := World -> A * World].  The service
    and the handlers call many methods and hold no lock in between: they are
    programs [prog A] whose nodes are critical sections ([let@]), with calls
    as [let!].  [run] executes a program alone; [Interleave.pool_step] runs
    any number of them interleaved, one critical section at a time.  Steps and
    programs are polymorphic in the state: a method of PGStore is a program
    over [PgDb.Pg], whose nodes are the statements it sends.  Pointers
    shared between the store and the service (AddAction, AppendReceipt) are
    the identifier or index of the cell, and each assignment through them is a
    step of its own.

    Environment.  What is not the program's is a parameter: the class
    [GoLib.Runtime] (identifiers, the clock, the order of range over a map,
    sort, SHA-256, float formatting, contexts) with the documented facts the
    proofs use as [GoLib.RuntimeLaws]; [Auth.Secrets] (bcrypt, random source);
    [Jev.JevEnv] (environment variables and the remote judge);
    [Api.UuidParse]; [Net.Net] (HTTP transport, URL parsing, DNS, the decoding
    of JSON answers, a session with an external database); [LocalKeys.Crypto]
    (ed25519 and AES-GCM) with [LocalKeys.CryptoLaws]; [Boot.SecretsLaws] of
    the random source and bcrypt; [PgDb.PgEnv] (the database server: which
    statements it refuses, the order of rows, its clock, what JSON columns
    make of a value) with [PgSim.PgLaws], [PgVault.PgJsonLaws],
    [PgArchive.PgConfigLaws] and [PgLog.PgAuditLaws], which say of JSON
    columns only that plain texts (ASCII without NUL), flags and integers come
    back;
    [Migrate.Migrations] (the embedded files and their effect).  [Demo]
    satisfies every law of the runtime, [LiveWitnesses] those of the keys,
    [PgWitnesses] those of the database, and [Scenario] is a concrete history
    the witnesses use.  What no documentation promises is not a law but a
    premise of the theorems that need it: [PgSim.Undisturbed] (during the run
    no statement is refused from outside the constraints of the schema, for a
    lost connection or a text Postgres does not take, and no result is cut
    off), [PgChain.StatementsApart] (each statement reads a later now()) and
    [PgLog.MicroClock] (each reading of the process's clock is of a later
    microsecond).  What happens without them is in the findings.

    Values.  int and int64 are Z with [wrap64] written out where the code can
    overflow, float64 is the standard library's binary64 ([SpecFloat]), time
    is nanoseconds since the epoch in UTC, strings are byte strings, maps are
    stdpp's gmap and values of type any are [GoLib.value].

    ** Files, and what they model

    - this file: record update, tactics, generic lemmas.
    - [GoLib], [Json]: the parts of Go's library the program uses and
      encoding/json's encoder; [Demo]: a runtime that satisfies the laws.
    - [Domain] (domain.go), [Transactions] (statemachine.go), [Policies]
      (engine.go), [Receipts] (chain.go), [Registry] (executor.go).
    - [MemState], [State], [Store], [StoreSecrets]: store/memory.go, every
      method; [Encoding]: the hexadecimal and base64 codecs.
      [PolicySets], [StoreSpec], [ReceiptChain], [ReceiptTamper]: the store's
      theorems.
    - [StoreModel] (store.go): the contract of the Store interface as an
      abstract machine over a ledger; [StoreContract]: the class of its
      implementations and what follows for each of them; [MemRefine]: the
      memory store is one.  [VaultModel]: the other half of the contract, the
      keys, tokens, secrets and servers, as a vault beside the ledger;
      [MemVault]: the memory store keeps it.  [ArchiveModel]: the third part,
      receipts and configurations, as an archive; [MemArchive]: the memory
      store keeps that too.  [LogModel]: the fourth, the audit trail, as a log;
      [MemLog].
    - [PgDb]: the tables of internal/store/migrations, statements and
      transactions; [PgStore], [PgSecrets]: store/postgres.go, every method;
      [PgSim]: the simulation relation and the symbolic execution of
      statements; [PgRefine]: the Postgres store implements the contract;
      [PgVault]: and keeps the vault; [PgChain]: its receipt chain;
      [PgArchive]: the archive; [PgLog]: the log; [Migrate]:
      store/migrate.go.
    - [Auth], [AuthSpec]: auth.go.  [Authority]: gateway/authority.go.
      [Jev]: jev.go and the verdict of gateway/risk.go.
    - [Gateway]: gateway/service.go, risk.go, simulate.go; [GatewaySpec],
      [ProposalSpec], [ExecutionSpec]: what its operations do run alone.
    - [Net]: what the clients of remote services see of the outside world;
      [LocalKeys]: keys/keys.go; [Integrations] (stripe.go, github.go) and
      [Upstream] (http.go, postgres.go, mcp.go, real.go): the live tool
      handlers of internal/integrations; [UrlText], [IntegrationSpec]: what
      they may send, and what they report.
    - [Api]: api/server.go, grants.go, policies.go, reconcile.go,
      transactions.go; [ApiMcp]: api/mcp.go, api/integrations.go and the
      handler of each route; [Mux]: the table of patterns in server.go and the
      ServeMux that reads it; [Handler]: api/cors.go, observe/observe.go and
      the chain of middlewares, a whole HTTP request; [ApiSpec], [ApprovalSpec], [McpSpec]: who may do what, what a
      human decision does, what registering an upstream server does;
      [MuteSpec]: which requests reach a tool at all, and the proxied call;
      [IntegrationFlow]: from the operator's configuration to the handlers.
    - [Interleave]: the concurrent semantics and a rely-guarantee logic [wp]
      for it; [Safety]: the invariant [inv] and the relation [mono] no step
      breaks; [SafetySteps], [SafetyRules], [SafetyRules2]: one rule per
      critical section; [SafetyOps], [SafetyApi], [SafetyServer]: every
      operation and every route keeps them; [Authorization]: the theorems that
      follow for all reachable states.  [References]: the same clients keep the
      references between agents, transactions, actions, approvals, receipts,
      grants and credentials, by a rely-guarantee logic without ownership.
    - [AnyStore]: Commit and the decision of an approval as programs over the
      calls of the Store interface, proved on every store that keeps the
      contract.
    - [Serial]: the worlds of a server that serves its requests one after
      another; there a tool is called at most once per idempotency key, which
      [Findings] shows to fail under concurrency.
    - [Boot], [PgBoot]: apps/api/main.go up to the moment the server listens,
      on the memory store and on a database.
    - [Scenario]: a concrete history.
    - [Witnesses], [LiveWitnesses], [PgWitnesses], [AnyStoreWitnesses]: the
      theorems at concrete inputs; [Findings]: concrete runs that show what the program does not
      guarantee.

    ** What the theorems show

    Reachable states ([Authorization]): no tool is executed for an action
    that was not allowed or approved, denial is final, statuses and receipts
    tell the truth, idempotency keys are unique, references resolve, the
    receipt chain verifies, history is append-only; one request at a time,
    execution happens at most once ([Serial]).  Operations alone: the full outcome of proposing,
    executing, reconciling, deciding an approval, committing, compensating and
    simulating.  Components: authentication is exact and gates every handler,
    agents cannot use operator routes or act as others, authority and policy
    evaluation are sound and complete, the screen fails closed, store reads
    are scoped to the tenant, policy activation is exclusive, the rate limit
    holds, the receipt chain commits to the history (or exhibits a SHA-256
    collision), issued signatures verify.  Integrations: credentials are handed
    to the client for their own provider only, http.request and postgres.query
    pass their gates or send nothing, silence is reported as uncertain; but
    the HTTP client follows redirects ([Net.client_do]), and where they lead
    nothing checks.  The reconciler
    confirms on evidence, a stored credential is what a handler reads, and a
    boot ends in a state all of the above holds in.  The two stores: each
    refines the contract of the interface, so what the contract implies holds
    of both, and what they seal they open: a revoked key stays revoked, a
    secret is read as it was written; receipts are listed as they were appended
    and signed and form chains that verify, as long as the appends to a database
    do not overlap and its now() increases; the audit trail returns what was
    emitted, newest first on a clock that moves.  All of this is said of a
    database while it is undisturbed, of calls that are admissible
    ([StoreModel.admissible]: what they refer to exists, identifiers are well
    formed, what is kept as JSON is plain), and with a key provider that opens
    what it sealed.  On both stores Commit and the decision of an approval are
    exact.  Migrations are applied once and in order, and a boot seeds an empty
    database only.  The server from the outside: a request reaches the most specific route that matches it, a
    preflight changes nothing, and without a credential only the health check
    and the API description answer.

    Loops are structural recursions on the lists they range over, so no fuel
    is needed anywhere; the loop of [Net.client_do] counts the redirects
    net/http follows by default.

    ** What is not modelled

    The bytes of HTTP: a request is its method, escaped path, query, headers
    and the body as each decoder leaves it, a response its status and value,
    the headers of the middlewares included and Content-Type not; CONNECT
    requests and the locations of the redirects the server itself answers with.
    What net/http copies of headers to a redirected request is a parameter.
    The client of the remote judge (jev.go) is the reply it gets.  Spans of the
    tracer (they change no state), listening, signals and shutdown, the
    dashboard and the SDKs.
    SQL as a language: a statement is its effect on the tables, and a
    transaction is one step whose failed commit rolls back (no isolation
    anomalies inside it; the statements outside transactions do interleave).
    Close and Pool of the Postgres store.  The gateway and the handlers run on
    the memory store; for the Postgres store it is the contract of the
    interface that is proved, and on it Commit and the decision of an approval.
    A context that is cancelled in the middle of an operation is seen by tool
    handlers only, as in the code. *)

From stdpp Require Export base tactics gmap strings list pretty sorting.
From Stdlib Require Export ZArith Lia.

#[global] Set Default Goal Selector "!".

(** ** Record update

    [r <| f := v |>] is the record [r] with field [f] set to [v] and
    [r <| f ::= g |>] applies [g] to the field.  A record gets the notation
    from one [Eta] instance, which lists its projections. *)

Class Eta (R : Type) := eta_expand : R -> R.
Class Setter {R T : Type} (proj : R -> T) := set_field : (T -> T) -> R -> R.
Arguments set_field {R T} proj {_} _ _ : assert.

Ltac derive_setter :=
  lazymatch goal with
  | |- @Setter ?R ?T ?proj =>
      let g := fresh "g" in
      let r := fresh "r" in
      intros g r;
      let body := constr:(@eta_expand R _ r) in
      let body := eval hnf in body in
      lazymatch eval pattern (proj r) in body with
      | ?ctx _ => let res := eval cbv beta in (ctx (g (proj r))) in exact res
      end
  end.

#[export] Hint Extern 0 (Setter _) => derive_setter : typeclass_instances.

Declare Scope go_scope.
Delimit Scope go_scope with go.
Open Scope go_scope.

Notation "r <| f := v |>" := (set_field f (fun _ => v) r)
  (at level 1, f at level 9, v at level 200, left associativity,
   format "r  <|  f  :=  v  |>") : go_scope.
Notation "r <| f ::= g |>" := (set_field f g r)
  (at level 1, f at level 9, g at level 200, left associativity,
   format "r  <|  f  ::=  g  |>") : go_scope.

(** ** Hint databases of the development

    [go_inv] holds the lemmas that an operation preserves a store invariant. *)

Create HintDb go_inv.

(** ** Tactics *)

(** Case analysis on the first match or if in the goal. *)
Ltac case_match_goal :=
  match goal with
  | |- context [ match ?x with _ => _ end ] =>
      lazymatch x with context [ match _ with _ => _ end ] => fail | _ => idtac end;
      let E := fresh "E" in destruct x eqn:E
  end.

(** The same in a hypothesis. *)
Ltac case_match_hyp H :=
  match type of H with
  | context [ match ?x with _ => _ end ] =>
      lazymatch x with context [ match _ with _ => _ end ] => fail | _ => idtac end;
      let E := fresh "E" in destruct x eqn:E
  end.

(** Boolean guards of the code as propositions. *)
Ltac bool_guards :=
  repeat match goal with
  | H : String.eqb _ _ = true |- _ => apply String.eqb_eq in H
  | H : String.eqb _ _ = false |- _ => apply String.eqb_neq in H
  | H : bool_decide _ = true |- _ => apply bool_decide_eq_true in H
  | H : bool_decide _ = false |- _ => apply bool_decide_eq_false in H
  | H : andb _ _ = true |- _ => apply andb_true_iff in H as [? ?]
  | H : orb _ _ = false |- _ => apply orb_false_iff in H as [? ?]
  | H : negb _ = true |- _ => apply negb_true_iff in H
  | H : negb _ = false |- _ => apply negb_false_iff in H
  end.

(** ** Generic lemmas *)

(** Loops of the code that set a flag when an element satisfies a test. *)
Definition any {A} (f : A -> bool) (l : list A) : bool := existsb f l.

Lemma any_true {A} (f : A -> bool) l :
  any f l = true <-> exists x, x ∈ l /\ f x = true.
Proof.
  unfold any. rewrite existsb_exists.
  split; intros (x & Hx & Hf); exists x; split; auto; by apply list_elem_of_In.
Qed.

Lemma any_false {A} (f : A -> bool) l :
  any f l = false <-> forall x, x ∈ l -> f x = false.
Proof.
  split.
  - intros Hf x Hx. destruct (f x) eqn:E; [|done].
    assert (any f l = true) by (apply any_true; eauto). congruence.
  - intros Hall. destruct (any f l) eqn:E; [|done].
    apply any_true in E as (x & Hx & Hf). rewrite Hall in Hf; done.
Qed.

Lemma any_Permutation {A} (f : A -> bool) (l k : list A) :
  l ≡ₚ k -> any f l = any f k.
Proof.
  intros Hp. destruct (any f k) eqn:E.
  - apply any_true in E as (x & Hx & Hf). apply any_true.
    exists x. by rewrite Hp.
  - apply any_false. intros x Hx. rewrite Hp in Hx.
    by apply (proj1 (any_false f k) E).
Qed.

(** Updates of a map that a view of its values does not see. *)
Section Views.
Context {A B : Type}.
Implicit Types (f : A -> B) (g : A -> A) (m : gmap string A).

Lemma fmap_insert_same f m k x y : m !! k = Some x -> f y = f x -> f <$> <[ k := y ]> m = f <$> m.
Proof. intros Hx Hf. rewrite fmap_insert, Hf. apply insert_id. by rewrite lookup_fmap, Hx. Qed.

Lemma fmap_alter_same f g m k : (forall x, f (g x) = f x) -> f <$> alter g k m = f <$> m.
Proof.
  intros Hf. apply map_eq. intros i. rewrite !lookup_fmap. destruct (decide (k = i)) as [<-|].
  - rewrite lookup_alter_eq. destruct (m !! k); [cbn; by rewrite Hf|done].
  - by rewrite lookup_alter_ne.
Qed.

Lemma fmap_rows_same g m : (forall k x, m !! k = Some x -> g x = x) -> g <$> m = m.
Proof.
  intros Hg. apply map_eq. intros k. rewrite lookup_fmap. destruct (m !! k) as [x|] eqn:E; [|done]. cbn. f_equal. by eapply Hg.
Qed.

End Views.

Lemma string_eqb_refl (s : string) : String.eqb s s = true.
Proof. by apply String.eqb_eq. Qed.

Lemma string_app_inj_l (s t1 t2 : string) : s +:+ t1 = s +:+ t2 -> t1 = t2.
Proof. apply (inj (String.append s)). Qed.

Lemma string_app_assoc (s t u : string) : (s +:+ t) +:+ u = s +:+ (t +:+ u).
Proof. induction s as [|c s IH]; [done|]. exact (f_equal (String c) IH). Qed.

Lemma string_app_nil_r (s : string) : s +:+ EmptyString = s.
Proof. induction s as [|c s IH]; [done|]. exact (f_equal (String c) IH). Qed.

Lemma last_snoc_lookup {A} (l : list A) (x : A) :
  (l ++ [x]) !! length l = Some x.
Proof. by rewrite lookup_app_r, Nat.sub_diag by done. Qed.

Lemma StronglySorted_lookup_lt {A} (R : relation A) (l : list A) i j x y :
  StronglySorted R l -> l !! i = Some x -> l !! j = Some y -> i < j -> R x y.
Proof.
  intros Hs. revert i j. induction Hs as [|z l Hs IH Hall]; intros i j Hi Hj Hlt; [done|].
  destruct i as [|i], j as [|j]; simpl in *; try lia.
  - injection Hi as ->. rewrite Forall_forall in Hall. apply Hall.
    by eapply list_elem_of_lookup_2.
  - apply (IH i j); auto; lia.
Qed.
