(* ===== verification/GoLib.v ===== *)
(** * GoLib: the Go types, values and library calls the program uses

    Machine integers, [float64], [time.Time] in UTC, the dynamically typed
    values of [map[string]any], string functions of package [strings], and
    the class [Runtime] that gathers what one run of the program observes of
    its environment: fresh identifiers, clock readings, the iteration order
    of maps, the result of unstable sorting. *)

From Stdlib Require Import SpecFloat.
From S2P Require Export Prelude.

Open Scope Z_scope.

(** ** Machine integers *)

Definition int64_min : Z := - 2 ^ 63.
Definition int64_max : Z := 2 ^ 63 - 1.

Definition in_int64 (z : Z) : bool := (int64_min <=? z) && (z <=? int64_max).

(** Two's complement wrap-around of [int64] (and [int] on 64-bit targets). *)
Definition wrap64 (z : Z) : Z := (z + 2 ^ 63) mod 2 ^ 64 - 2 ^ 63.

Lemma wrap64_id z : in_int64 z = true -> wrap64 z = z.
Proof.
  unfold in_int64, wrap64, int64_min, int64_max. intros H.
  rewrite Z.mod_small by lia. lia.
Qed.

Lemma wrap64_range z : in_int64 (wrap64 z) = true.
Proof.
  unfold in_int64, wrap64, int64_min, int64_max.
  pose proof (Z.mod_pos_bound (z + 2 ^ 63) (2 ^ 64) ltac:(lia)). lia.
Qed.

(** ** Time: nanoseconds since the Unix epoch, UTC *)

Abbreviation time := Z (only parsing).

Definition nanosecond : Z := 1.
Definition second : Z := 1000000000.
Definition hour_ns : Z := 3600 * second.
Definition day_ns : Z := 24 * hour_ns.

(** [now.Hour()]. *)
Definition time_Hour (t : time) : Z := (t / hour_ns) mod 24.

(** [now.Weekday()], 0 is Sunday; 1970-01-01 was a Thursday. *)
Definition time_Weekday (t : time) : Z := (t / day_ns + 4) mod 7.

Lemma time_Hour_range t : 0 <= time_Hour t < 24.
Proof. apply Z.mod_pos_bound. lia. Qed.

Lemma time_Weekday_range t : 0 <= time_Weekday t < 7.
Proof. apply Z.mod_pos_bound. lia. Qed.

(** ** Strings *)

Definition HasPrefix (s prefix : string) : bool := String.prefix prefix s.

Fixpoint drop_string (n : nat) (s : string) : string :=
  match n, s with
  | O, _ => s
  | S n, String _ s => drop_string n s
  | S _, EmptyString => EmptyString
  end.

Fixpoint take_string (n : nat) (s : string) : string :=
  match n, s with
  | O, _ | _, EmptyString => EmptyString
  | S n, String c s => String c (take_string n s)
  end.

Definition TrimPrefix (s prefix : string) : string :=
  if HasPrefix s prefix then drop_string (String.length prefix) s else s.

(** [strings.Cut(s, sep)] for a one-character separator. *)
Fixpoint Cut (s : string) (sep : Ascii.ascii) : string * string * bool :=
  match s with
  | EmptyString => (EmptyString, EmptyString, false)
  | String c s' =>
      if Ascii.eqb c sep then (EmptyString, s', true)
      else let '(a, b, found) := Cut s' sep in (String c a, if found then b else EmptyString, found)
  end.

(** [strings.Split(s, sep)] for a one-character separator: never empty. *)
Fixpoint Split (s : string) (sep : Ascii.ascii) : list string :=
  match s with
  | EmptyString => [EmptyString]
  | String c s' =>
      if Ascii.eqb c sep then EmptyString :: Split s' sep
      else match Split s' sep with
           | p :: ps => String c p :: ps
           | [] => [String c EmptyString]
           end
  end.

Fixpoint all_chars (f : Ascii.ascii -> bool) (s : string) : bool :=
  match s with
  | EmptyString => true
  | String c s => f c && all_chars f s
  end.

Fixpoint Join (l : list string) (sep : string) : string :=
  match l with
  | [] => EmptyString
  | [x] => x
  | x :: l => x +:+ sep +:+ Join l sep
  end.

Lemma all_chars_app f (s t : string) :
  all_chars f (s +:+ t) = all_chars f s && all_chars f t.
Proof.
  induction s as [|c s IH]; [done|].
  change (f c && all_chars f (s +:+ t) = f c && all_chars f s && all_chars f t).
  by rewrite IH, andb_assoc.
Qed.

(** Text without the separator is determined by the first separator. *)
Definition free_of (c : Ascii.ascii) (s : string) : bool :=
  all_chars (fun x => negb (Ascii.eqb x c)) s.

Lemma separated c (s1 s2 t1 t2 : string) :
  free_of c s1 = true -> free_of c s2 = true ->
  s1 +:+ String c t1 = s2 +:+ String c t2 -> s1 = s2 /\ t1 = t2.
Proof.
  assert (Hcons : forall c s t, (String c s) +:+ t = String c (s +:+ t)) by done.
  unfold free_of.
  revert s2. induction s1 as [|d s1 IH]; intros [|e s2] H1 H2 Heq; cbn [all_chars] in *.
  - split; [done|]. by injection Heq.
  - rewrite Hcons in Heq. injection Heq as -> _. by rewrite Ascii.eqb_refl in H2.
  - rewrite Hcons in Heq. injection Heq as -> _. by rewrite Ascii.eqb_refl in H1.
  - rewrite !Hcons in Heq. injection Heq as -> Heq.
    apply andb_true_iff in H1 as [_ H1]. apply andb_true_iff in H2 as [_ H2].
    destruct (IH s2 H1 H2 Heq) as [-> ->]. done.
Qed.

Lemma HasPrefix_app (p s : string) : HasPrefix (p +:+ s) p = true.
Proof.
  unfold HasPrefix. induction p as [|c p IH]; [by destruct s|].
  change (String c p +:+ s) with (String c (p +:+ s)). simpl.
  destruct (Ascii.ascii_dec c c); [done|congruence].
Qed.

Lemma HasPrefix_inv (p s : string) :
  HasPrefix s p = true -> exists r, s = p +:+ r.
Proof.
  unfold HasPrefix. revert s. induction p as [|c p IH]; intros s H; [by exists s|].
  destruct s as [|d s]; simpl in H; [done|].
  destruct (Ascii.ascii_dec c d) as [->|]; [|done].
  destruct (IH s H) as [r ->]. by exists r.
Qed.

Lemma drop_string_app (p s : string) : drop_string (String.length p) (p +:+ s) = s.
Proof. induction p as [|c p IH]; [done|]. exact IH. Qed.

Lemma take_drop_string n s : take_string n s +:+ drop_string n s = s.
Proof.
  revert n. induction s as [|c s IH]; intros [|n]; [done..|]. cbn.
  change (String c (take_string n s) +:+ drop_string n s) with (String c (take_string n s +:+ drop_string n s)).
  by rewrite IH.
Qed.

Lemma TrimPrefix_app (p s : string) : TrimPrefix (p +:+ s) p = s.
Proof. unfold TrimPrefix. by rewrite HasPrefix_app, drop_string_app. Qed.

Lemma TrimPrefix_changed (s p : string) : TrimPrefix s p <> s -> s = p +:+ TrimPrefix s p.
Proof.
  intros Hne. assert (Hp : HasPrefix s p = true).
  { unfold TrimPrefix in Hne. by destruct (HasPrefix s p). }
  apply HasPrefix_inv in Hp as [r ->]. by rewrite TrimPrefix_app.
Qed.

Lemma Cut_spec s c :
  let '(a, b, found) := Cut s c in
  if found then s = a +:+ String c b /\ free_of c a = true else free_of c s = true.
Proof.
  unfold free_of. induction s as [|d s IH]; cbn; [done|].
  destruct (Ascii.eqb d c) eqn:E; [by apply Ascii.eqb_eq in E as ->|].
  destruct (Cut s c) as [[a b] []]; [|exact IH].
  destruct IH as [-> Ha]. cbn. by rewrite E.
Qed.

Lemma Cut_app a b c : free_of c a = true -> Cut (a +:+ String c b) c = (a, b, true).
Proof.
  unfold free_of. intros Ha. induction a as [|d a IH]; cbn [all_chars] in Ha.
  - change (EmptyString +:+ String c b) with (String c b). cbn [Cut]. by rewrite Ascii.eqb_refl.
  - apply andb_true_iff in Ha as [Hd Ha]. apply negb_true_iff in Hd.
    change (String d a +:+ String c b) with (String d (a +:+ String c b)). cbn [Cut].
    by rewrite Hd, IH.
Qed.

(** ** Dynamically typed values ([any]) *)

(** The dynamic types that reach the program: values decoded from JSON
    ([nil], [bool], [float64], [string], [[]any], [map[string]any]), the
    [int] and [int64] that Go callers pass, [[]string], and [time.Time] (in
    the receipt payload).  A nested map keeps its entries in key order. *)
Inductive value : Type :=
  | VNil
  | VBool (b : bool)
  | VInt (n : Z)
  | VInt64 (n : Z)
  | VFloat (f : spec_float)
  | VString (s : string)
  | VTime (t : time)
  | VStrings (l : list string)
  | VList (l : list value)
  | VMap (m : list (string * value)).

(** A [map[string]any]; [None] is the nil map, on which lookups miss. *)
Abbreviation gomap := (option (gmap string value)).

Definition index (m : gomap) (k : string) : option value :=
  m ≫= fun m' => m' !! k.

(** ** Floating point *)

Definition float_of_Z (z : Z) : spec_float := binary_normalize 53 1024 z 0 false.

(** The integer part, towards zero; [None] for NaN and infinities. *)
Definition float_trunc (f : spec_float) : option Z :=
  match f with
  | S754_zero _ => Some 0
  | S754_infinity _ | S754_nan => None
  | S754_finite s m e =>
      let z := if 0 <=? e then Z.pos m * 2 ^ e else Z.pos m / 2 ^ (- e) in
      Some (if s then - z else z)
  end.

(** [x * 100] on [float64]. *)
Definition float_mul_100 (f : spec_float) : spec_float := SFmul 53 1024 f (float_of_Z 100).

(** The decimal [n / 10^k] as the nearest [float64], as [encoding/json] reads it. *)
Definition float_of_decimal (n : Z) (k : Z) : spec_float :=
  SFdiv 53 1024 (float_of_Z n) (float_of_Z (10 ^ k)).

(** ** Decimal integers *)

Definition digit_of (c : Ascii.ascii) : option Z :=
  let n := Z.of_nat (Ascii.nat_of_ascii c) in
  if (48 <=? n) && (n <=? 57) then Some (n - 48) else None.

Fixpoint digits_value (acc : Z) (s : string) : option Z :=
  match s with
  | EmptyString => Some acc
  | String c s => d ← digit_of c; digits_value (10 * acc + d) s
  end.

(** [strconv.Atoi]; [None] is a syntax or range error. *)
Definition Atoi (s : string) : option Z :=
  let '(neg, ds) :=
    match s with
    | String c r => if Ascii.eqb c (Ascii.ascii_of_nat 45) then (true, r)
                    else if Ascii.eqb c (Ascii.ascii_of_nat 43) then (false, r)
                    else (false, s)
    | EmptyString => (false, s)
    end in
  match ds with
  | EmptyString => None
  | _ =>
      n ← digits_value 0 ds;
      let z := if neg : bool then - n else n in
      if in_int64 z then Some z else None
  end.

Example Atoi_examples :
  Atoi "70" = Some 70 /\ Atoi "-3" = Some (-3) /\ Atoi "+5" = Some 5 /\ Atoi "" = None /\
  Atoi "7x" = None /\ Atoi "9223372036854775808" = None /\
  Atoi "-9223372036854775808" = Some int64_min.
Proof. repeat split; vm_compute; reflexivity. Qed.

(** ** The environment of a run *)

Class Runtime := {
  (** the n-th identifier drawn from google/uuid *)
  uuid : nat -> string;
  (** the n-th reading of [time.Now().UTC()] *)
  clock : nat -> time;
  (** the order in which the n-th [range] loop meets the entries of a map *)
  range_map : forall {A : Type}, nat -> gmap string A -> list (string * A);
  (** [sort.Slice] with the given less function *)
  sort_slice : forall {A : Type}, (A -> A -> bool) -> list A -> list A;
  (** [strings.EqualFold] *)
  EqualFold : string -> string -> bool;
  (** [sha256.Sum256] as the 32 bytes of the digest *)
  sha256 : string -> string;
  (** the shortest decimal form [encoding/json] prints a finite float with *)
  format_float : spec_float -> string;
  (** [int64(x)] when the value does not fit: implementation dependent *)
  float_overflow : spec_float -> Z;
  (** [strconv.Quote], the verb %q *)
  Quote : string -> string;
  (** the trace identifier in force at the n-th clock tick *)
  trace_id : nat -> string;
  (** the error of the request context when it is already done *)
  ctx_err : nat -> option string
}.

Definition lower_ascii (c : Ascii.ascii) : Ascii.ascii :=
  let n := Ascii.nat_of_ascii c in
  if (Nat.leb 65 n && Nat.leb n 90)%bool then Ascii.ascii_of_nat (n + 32) else c.

Definition upper_ascii (c : Ascii.ascii) : Ascii.ascii :=
  let n := Ascii.nat_of_ascii c in
  if (Nat.leb 97 n && Nat.leb n 122)%bool then Ascii.ascii_of_nat (n - 32) else c.

Fixpoint map_string (f : Ascii.ascii -> Ascii.ascii) (s : string) : string :=
  match s with
  | EmptyString => EmptyString
  | String c s => String (f c) (map_string f s)
  end.

Definition is_ascii_char (c : Ascii.ascii) : bool := Nat.ltb (Ascii.nat_of_ascii c) 128.

Fixpoint is_ascii (s : string) : bool :=
  match s with
  | EmptyString => true
  | String c s => is_ascii_char c && is_ascii s
  end.

(** What the documentation of those calls promises. *)
Class RuntimeLaws `{RT : Runtime} := {
  uuid_inj :: Inj (=) (=) uuid;
  range_map_perm : forall A n (m : gmap string A), range_map n m ≡ₚ map_to_list m;
  sort_slice_perm : forall A (less : A -> A -> bool) l, sort_slice less l ≡ₚ l;
  sort_slice_sorted : forall A (key : A -> Z) l,
    StronglySorted (fun x y => key x <= key y) (sort_slice (fun x y => key x <? key y) l);
  sha256_length : forall s, String.length (sha256 s) = 32%nat;
  EqualFold_ascii : forall s t, is_ascii s = true -> is_ascii t = true ->
    EqualFold s t = String.eqb (map_string lower_ascii s) (map_string lower_ascii t)
}.

Section Runtime.
Context `{RT : Runtime}.

(** [int64(x)] for a [float64]. *)
Definition int64_of_float (f : spec_float) : Z :=
  match float_trunc f with
  | Some z => if in_int64 z then z else float_overflow f
  | None => float_overflow f
  end.

End Runtime.

Lemma range_map_elem `{RuntimeLaws} {A} n (m : gmap string A) k x :
  (k, x) ∈ range_map n m <-> m !! k = Some x.
Proof. rewrite range_map_perm. apply elem_of_map_to_list. Qed.
