(* ===== verification/Demo.v ===== *)
(** * Demo: a concrete runtime

    An environment that satisfies every law of [RuntimeLaws], used to apply
    the theorems to concrete inputs: identifiers u0, u1, ..., a clock that
    advances by a millisecond, maps iterated in key-encoding order, insertion
    sort, and the last 32 bytes of the input in place of the SHA-256 digest. *)

From Stdlib Require Import SpecFloat.
From S2P Require Export GoLib.

Open Scope Z_scope.

Fixpoint insert_by {A} (less : A -> A -> bool) (x : A) (l : list A) : list A :=
  match l with
  | [] => [x]
  | y :: l => if less y x then y :: insert_by less x l else x :: y :: l
  end.

Definition insertion_sort {A} (less : A -> A -> bool) (l : list A) : list A :=
  foldr (insert_by less) [] l.

Definition demo_clock (n : nat) : time := 1789300800000000000 + Z.of_nat n * 1000000.

Definition demo_pad : string := "00000000000000000000000000000000".

Definition demo_digest (s : string) : string :=
  drop_string (String.length s) (demo_pad +:+ s).

Definition demo : Runtime := {|
  uuid := fun n => "u" +:+ pretty n;
  clock := demo_clock;
  range_map := fun A _ m => map_to_list m;
  sort_slice := fun A => insertion_sort;
  EqualFold := fun s t => String.eqb (map_string lower_ascii s) (map_string lower_ascii t);
  sha256 := demo_digest;
  format_float := fun _ => "0";
  float_overflow := fun _ => int64_min;
  Quote := fun s => String (Ascii.ascii_of_nat 34) (s +:+ String (Ascii.ascii_of_nat 34) EmptyString);
  trace_id := fun _ => "trace";
  ctx_err := fun _ => None
|}.

Lemma insert_by_perm {A} less (x : A) l : insert_by less x l ≡ₚ x :: l.
Proof.
  induction l as [|y l IH]; simpl; [done|]. destruct (less y x); [|done].
  rewrite IH. apply Permutation_swap.
Qed.

Lemma insertion_sort_perm {A} less (l : list A) : insertion_sort less l ≡ₚ l.
Proof.
  induction l as [|x l IH]; simpl; [done|].
  by rewrite insert_by_perm, IH.
Qed.

Lemma insert_by_sorted {A} (key : A -> Z) x l :
  StronglySorted (fun x y => key x <= key y) l ->
  StronglySorted (fun x y => key x <= key y) (insert_by (fun x y => key x <? key y) x l).
Proof.
  induction 1 as [|y l Hs IH Hall]; simpl; [repeat constructor|].
  destruct (Z.ltb_spec (key y) (key x)).
  - constructor; [done|]. rewrite insert_by_perm. constructor; [lia|done].
  - constructor; [by constructor|]. constructor; [done|].
    eapply Forall_impl; [exact Hall|]. simpl. lia.
Qed.

Lemma drop_string_length n s :
  String.length (drop_string n s) = (String.length s - n)%nat.
Proof.
  revert s. induction n as [|n IH]; intros [|c s]; cbn; try done.
Qed.

Lemma string_length_app s t :
  String.length (s +:+ t) = (String.length s + String.length t)%nat.
Proof. induction s as [|c s IH]; [done|]. exact (f_equal S IH). Qed.

Lemma demo_digest_length s : String.length (demo_digest s) = 32%nat.
Proof.
  unfold demo_digest. rewrite drop_string_length, string_length_app.
  change (String.length demo_pad) with 32%nat. lia.
Qed.

Lemma demo_laws : @RuntimeLaws demo.
Proof.
  split; cbn.
  - intros n k H. apply string_app_inj_l in H. by apply (inj pretty) in H.
  - done.
  - intros. apply insertion_sort_perm.
  - intros A key l. induction l as [|x l IH]; simpl; [constructor|].
    by apply insert_by_sorted.
  - apply demo_digest_length.
  - done.
Qed.
