(* ===== verification/Json.v ===== *)
(** * Json: [encoding/json.Marshal] on the values the program hashes

    [encode] returns [None] where [Marshal] returns an error (NaN and
    infinities, years outside 0..9999).  [quote] escapes strings as the
    package does with HTML escaping on: invalid UTF-8 becomes the
    replacement character, so it is injective on ASCII text, not on all
    byte strings. *)

From Stdlib Require Import SpecFloat Ascii.
From S2P Require Export Demo.

Open Scope Z_scope.

(** ** Strings *)

Definition hex_digit (n : nat) : ascii :=
  match String.get n "0123456789abcdef" with Some c => c | None => "0"%char end.

Definition backslash : ascii := "092"%char.
Definition dquote : ascii := "034"%char.

Definition byte_in (lo hi : nat) (c : ascii) : bool :=
  Nat.leb lo (nat_of_ascii c) && Nat.leb (nat_of_ascii c) hi.

(** The escape of one ASCII character. *)
Definition escape_char (c : ascii) : string :=
  let n := nat_of_ascii c in
  if Ascii.eqb c dquote || Ascii.eqb c backslash then String backslash (String c EmptyString)
  else if Nat.eqb n 8 then String backslash "b"
  else if Nat.eqb n 12 then String backslash "f"
  else if Nat.eqb n 10 then String backslash "n"
  else if Nat.eqb n 13 then String backslash "r"
  else if Nat.eqb n 9 then String backslash "t"
  else if Nat.ltb n 32 || Ascii.eqb c "<"%char || Ascii.eqb c ">"%char || Ascii.eqb c "&"%char then
    String backslash ("u00" +:+ String (hex_digit (Nat.div n 16)) (String (hex_digit (Nat.modulo n 16)) EmptyString))
  else String c EmptyString.

Definition cont (c : ascii) : bool := byte_in 128 191 c.

Definition second_ok (b0 b1 : ascii) : bool :=
  let n := nat_of_ascii b0 in
  if Nat.eqb n 224 then byte_in 160 191 b1
  else if Nat.eqb n 237 then byte_in 128 159 b1
  else if Nat.eqb n 240 then byte_in 144 191 b1
  else if Nat.eqb n 244 then byte_in 128 143 b1
  else cont b1.

Definition replacement : string := String backslash "ufffd".

Definition escape_3 (b0 b1 b2 : ascii) : string :=
  if Nat.eqb (nat_of_ascii b0) 226 && Nat.eqb (nat_of_ascii b1) 128 && byte_in 168 169 b2
  then String backslash ("u202" +:+ String (hex_digit (nat_of_ascii b2 - 160)) EmptyString)
  else String b0 (String b1 (String b2 EmptyString)).

Fixpoint quote_body (s : string) : string :=
  match s with
  | EmptyString => EmptyString
  | String b0 s1 =>
      if is_ascii_char b0 then escape_char b0 +:+ quote_body s1
      else
        match s1 with
        | String b1 s2 =>
            if byte_in 194 223 b0 && cont b1 then String b0 (String b1 (quote_body s2))
            else
              match s2 with
              | String b2 s3 =>
                  if byte_in 224 239 b0 && second_ok b0 b1 && cont b2
                  then escape_3 b0 b1 b2 +:+ quote_body s3
                  else
                    match s3 with
                    | String b3 s4 =>
                        if byte_in 240 244 b0 && second_ok b0 b1 && cont b2 && cont b3
                        then String b0 (String b1 (String b2 (String b3 (quote_body s4))))
                        else replacement +:+ quote_body s1
                    | EmptyString => replacement +:+ quote_body s1
                    end
              | EmptyString => replacement +:+ quote_body s1
              end
        | EmptyString => replacement +:+ quote_body s1
        end
  end.

Definition quote (s : string) : string :=
  String dquote (quote_body s +:+ String dquote EmptyString).

(** ** Times: RFC 3339 with nanoseconds *)

(** Year, month, day of a day number counted from 1970-01-01. *)
Definition civil_from_days (days : Z) : Z * Z * Z :=
  let z := days + 719468 in
  let era := z / 146097 in
  let doe := z mod 146097 in
  let yoe := (doe - doe / 1460 + doe / 36524 - doe / 146096) / 365 in
  let doy := doe - (365 * yoe + yoe / 4 - yoe / 100) in
  let mp := (5 * doy + 2) / 153 in
  let d := doy - (153 * mp + 2) / 5 + 1 in
  let m := if mp <? 10 then mp + 3 else mp - 9 in
  let y := yoe + era * 400 + (if m <=? 2 then 1 else 0) in
  (y, m, d).

(** [n] in decimal, left padded with zeros to the given width. *)
Fixpoint digits (width : nat) (n : Z) : string :=
  match width with
  | O => EmptyString
  | S w => digits w (n / 10) +:+ String (hex_digit (Z.to_nat (n mod 10))) EmptyString
  end.

(** Fraction digits without trailing zeros. *)
Fixpoint fraction (width : nat) (n : Z) : string :=
  match width with
  | O => EmptyString
  | S w => if n mod 10 =? 0 then fraction w (n / 10) else digits (S w) n
  end.

Definition format_time (t : time) : option string :=
  let '(y, m, d) := civil_from_days (t / day_ns) in
  let secs := (t mod day_ns) / second in
  let ns := t mod second in
  if (0 <=? y) && (y <=? 9999) then
    Some (digits 4 y +:+ "-" +:+ digits 2 m +:+ "-" +:+ digits 2 d +:+ "T" +:+
          digits 2 (secs / 3600) +:+ ":" +:+ digits 2 ((secs / 60) mod 60) +:+ ":" +:+
          digits 2 (secs mod 60) +:+
          (if ns =? 0 then EmptyString else "." +:+ fraction 9 ns) +:+ "Z")
  else None.

Example format_time_epoch : format_time 0 = Some "1970-01-01T00:00:00Z".
Proof. reflexivity. Qed.

Example format_time_2026 :
  format_time 1789300800120000000 = Some "2026-09-13T12:00:00.12Z".
Proof. vm_compute. reflexivity. Qed.

(** ** Values *)

Section Encode.
Context `{RT : Runtime}.

Fixpoint encode (v : value) : option string :=
  let fix encode_list (l : list value) : option (list string) :=
    match l with
    | [] => Some []
    | v :: l => x ← encode v; xs ← encode_list l; Some (x :: xs)
    end in
  let fix encode_entries (l : list (string * value)) : option (list string) :=
    match l with
    | [] => Some []
    | (k, v) :: l =>
        x ← encode v; xs ← encode_entries l; Some ((quote k +:+ ":" +:+ x) :: xs)
    end in
  match v with
  | VNil => Some "null"
  | VBool b => Some (if b then "true" else "false")
  | VInt n | VInt64 n => Some (pretty n)
  | VFloat f =>
      match f with
      | S754_infinity _ | S754_nan => None
      | _ => Some (format_float f)
      end
  | VString s => Some (quote s)
  | VTime t => s ← format_time t; Some (String dquote (s +:+ String dquote EmptyString))
  | VStrings l => Some ("[" +:+ Join (map quote l) "," +:+ "]")
  | VList l => xs ← encode_list l; Some ("[" +:+ Join xs "," +:+ "]")
  | VMap m => xs ← encode_entries m; Some ("{" +:+ Join xs "," +:+ "}")
  end.

End Encode.

(** The entries of a map in the order [Marshal] prints them: sorted by key. *)
Definition key_le (x y : string * value) : Prop := String.leb x.1 y.1 = true.

#[export] Instance key_le_dec : RelDecision key_le :=
  fun x y => decide (String.leb x.1 y.1 = true).

Definition sorted_entries (m : gmap string value) : list (string * value) :=
  merge_sort key_le (map_to_list m).

Definition value_of_map (m : gomap) : value :=
  match m with
  | None => VNil
  | Some m => VMap (sorted_entries m)
  end.

(** ** Round trip of ASCII strings *)

Definition hex_value (c : ascii) : nat :=
  let n := nat_of_ascii c in
  if byte_in 48 57 c then n - 48 else n - 87.

(** Reads one escaped character; [None] at the closing quote. *)
Definition unescape (s : string) : option (ascii * string) :=
  match s with
  | EmptyString => None
  | String c r =>
      if Ascii.eqb c dquote then None
      else if Ascii.eqb c backslash then
        match r with
        | String e r' =>
            if Ascii.eqb e "b"%char then Some (ascii_of_nat 8, r')
            else if Ascii.eqb e "f"%char then Some (ascii_of_nat 12, r')
            else if Ascii.eqb e "n"%char then Some (ascii_of_nat 10, r')
            else if Ascii.eqb e "r"%char then Some (ascii_of_nat 13, r')
            else if Ascii.eqb e "t"%char then Some (ascii_of_nat 9, r')
            else if Ascii.eqb e "u"%char then
              match r' with
              | String _ (String _ (String h (String l r''))) =>
                  Some (ascii_of_nat (16 * hex_value h + hex_value l), r'')
              | _ => None
              end
            else Some (e, r')
        | EmptyString => None
        end
      else Some (c, r)
  end.

Lemma unescape_escape c r :
  is_ascii_char c = true -> unescape (escape_char c +:+ r) = Some (c, r).
Proof.
  destruct c as [b0 b1 b2 b3 b4 b5 b6 b7].
  destruct b0, b1, b2, b3, b4, b5, b6, b7; intros H; vm_compute in H; try discriminate H;
    vm_compute; reflexivity.
Qed.

(** A quoted ASCII string followed by anything is read back exactly. *)
Lemma quote_body_inj s1 s2 r1 r2 :
  is_ascii s1 = true -> is_ascii s2 = true ->
  quote_body s1 +:+ String dquote r1 = quote_body s2 +:+ String dquote r2 ->
  s1 = s2 /\ r1 = r2.
Proof.
  assert (step : forall c s r, is_ascii_char c = true ->
    quote_body (String c s) +:+ r = escape_char c +:+ (quote_body s +:+ r)).
  { intros c s r Hc. cbn [quote_body]. by rewrite Hc, string_app_assoc. }
  assert (done_ : forall r, unescape (String dquote r) = None) by reflexivity.
  revert s2. induction s1 as [|c1 s1 IH]; intros [|c2 s2] H1 H2 Heq;
    cbn [is_ascii] in H1, H2.
  - cbn in Heq. injection Heq. auto.
  - apply andb_true_iff in H2 as [Hc2 _].
    rewrite step in Heq by done. apply (f_equal unescape) in Heq.
    rewrite unescape_escape in Heq by done. cbn in Heq. discriminate.
  - apply andb_true_iff in H1 as [Hc1 _].
    rewrite step in Heq by done. apply (f_equal unescape) in Heq.
    rewrite unescape_escape in Heq by done. cbn in Heq. discriminate.
  - apply andb_true_iff in H1 as [Hc1 H1]. apply andb_true_iff in H2 as [Hc2 H2].
    rewrite !step in Heq by done. apply (f_equal unescape) in Heq.
    rewrite !unescape_escape in Heq by done. injection Heq as -> Heq.
    destruct (IH s2 H1 H2 Heq) as [-> ->]. done.
Qed.

Lemma quote_inj_app s1 s2 r1 r2 :
  is_ascii s1 = true -> is_ascii s2 = true ->
  quote s1 +:+ r1 = quote s2 +:+ r2 -> s1 = s2 /\ r1 = r2.
Proof.
  intros H1 H2 Heq. unfold quote in Heq.
  change (String dquote ((quote_body s1 +:+ String dquote "") +:+ r1) =
          String dquote ((quote_body s2 +:+ String dquote "") +:+ r2)) in Heq.
  injection Heq as Heq. rewrite !string_app_assoc in Heq.
  by apply quote_body_inj.
Qed.

(** ** Formatted times *)

Lemma hex_digit_not_dquote n : Ascii.eqb (hex_digit n) dquote = false.
Proof. do 17 (destruct n as [|n]; [reflexivity|]). reflexivity. Qed.

Lemma digits_free w n : free_of dquote (digits w n) = true.
Proof.
  unfold free_of. revert n. induction w as [|w IH]; intros n; cbn [digits]; [done|].
  rewrite all_chars_app, IH. cbn [all_chars]. by rewrite hex_digit_not_dquote.
Qed.

Lemma fraction_free w n : free_of dquote (fraction w n) = true.
Proof.
  revert n. induction w as [|w IH]; intros n; cbn [fraction]; [done|].
  destruct (n mod 10 =? 0); [apply IH|apply digits_free].
Qed.

Lemma free_of_app c s t :
  free_of c s = true -> free_of c t = true -> free_of c (s +:+ t) = true.
Proof. unfold free_of. intros Hs Ht. by rewrite all_chars_app, Hs. Qed.

Lemma format_time_free t s : format_time t = Some s -> free_of dquote s = true.
Proof.
  unfold format_time. destruct (civil_from_days _) as [[y m] d].
  destruct ((0 <=? y) && (y <=? 9999)); [|done]. intros H. apply (inj Some) in H as <-.
  repeat (apply free_of_app; [first [apply digits_free|reflexivity]|]).
  apply free_of_app; [|reflexivity]. destruct (_ =? 0); [reflexivity|].
  apply free_of_app; [reflexivity|apply fraction_free].
Qed.

Lemma quoted_time_inj t t' s s' r r' :
  format_time t = Some s -> format_time t' = Some s' ->
  String dquote (s +:+ String dquote EmptyString) +:+ r =
  String dquote (s' +:+ String dquote EmptyString) +:+ r' -> s = s' /\ r = r'.
Proof.
  intros Hs Hs' Heq. apply format_time_free in Hs, Hs'.
  change (String dquote ((s +:+ String dquote EmptyString) +:+ r) =
          String dquote ((s' +:+ String dquote EmptyString) +:+ r')) in Heq.
  injection Heq as Heq. rewrite !string_app_assoc in Heq.
  by apply (separated dquote).
Qed.
