(* ===== verification/Domain.v ===== *)
(** * Domain: the data model (internal/domain/domain.go)

    One record per struct, in the order of its fields, with a short prefix
    for field names; one inductive type per closed set of string constants.
    Pointers to numbers and times are options.  Strings that only ever carry
    constants of the program (statuses) are enumerations with the zero value
    [""] as a constructor; strings that can arrive from a request
    ([PolicyEffect], action classes) keep every other value. *)

From S2P Require Export Json.

Open Scope Z_scope.

(** ** Constants *)

Abbreviation ActionClass := string (only parsing).

Definition ClassReadOnly : ActionClass := "READ_ONLY".
Definition ClassReversible : ActionClass := "REVERSIBLE".
Definition ClassCompensable : ActionClass := "COMPENSABLE".
Definition ClassIrreversible : ActionClass := "IRREVERSIBLE".
Definition ClassFinancial : ActionClass := "FINANCIAL".
Definition ClassDestructive : ActionClass := "DESTRUCTIVE".
Definition ClassExternalCommunication : ActionClass := "EXTERNAL_COMMUNICATION".
Definition ClassPrivileged : ActionClass := "PRIVILEGED".
Definition ClassUnknown : ActionClass := "UNKNOWN".

Inductive TxnStatus :=
  | TxnZero
  | TxnCreated
  | TxnPlanning
  | TxnAwaitingApproval
  | TxnExecuting
  | TxnCommitted
  | TxnAborting
  | TxnCompensating
  | TxnRolledBack
  | TxnPartiallyCompensated
  | TxnFailed.

#[export] Instance TxnStatus_eq_dec : EqDecision TxnStatus.
Proof. solve_decision. Defined.

Definition TxnStatus_str (s : TxnStatus) : string :=
  match s with
  | TxnZero => ""
  | TxnCreated => "CREATED"
  | TxnPlanning => "PLANNING"
  | TxnAwaitingApproval => "AWAITING_APPROVAL"
  | TxnExecuting => "EXECUTING"
  | TxnCommitted => "COMMITTED"
  | TxnAborting => "ABORTING"
  | TxnCompensating => "COMPENSATING"
  | TxnRolledBack => "ROLLED_BACK"
  | TxnPartiallyCompensated => "PARTIALLY_COMPENSATED"
  | TxnFailed => "FAILED"
  end.

Inductive PolicyEffect :=
  | EffectAllow
  | EffectDeny
  | EffectRequireApproval
  | EffectAllowWithConstraints
  | EffectOther (s : string).

#[export] Instance PolicyEffect_eq_dec : EqDecision PolicyEffect.
Proof. solve_decision. Defined.

Definition PolicyEffect_str (e : PolicyEffect) : string :=
  match e with
  | EffectAllow => "ALLOW"
  | EffectDeny => "DENY"
  | EffectRequireApproval => "REQUIRE_APPROVAL"
  | EffectAllowWithConstraints => "ALLOW_WITH_CONSTRAINTS"
  | EffectOther s => s
  end.

Definition PolicyEffect_of_str (s : string) : PolicyEffect :=
  if String.eqb s "ALLOW" then EffectAllow
  else if String.eqb s "DENY" then EffectDeny
  else if String.eqb s "REQUIRE_APPROVAL" then EffectRequireApproval
  else if String.eqb s "ALLOW_WITH_CONSTRAINTS" then EffectAllowWithConstraints
  else EffectOther s.

(** The statuses of [TxnAction.Status], a plain string in the source. *)
Inductive ActionStatus :=
  | StZero
  | StProposed
  | StAllowed
  | StDenied
  | StAwaitingApproval
  | StApproved
  | StExecuted
  | StUnknown
  | StFailed
  | StCompensated
  | StCompensationFailed.

#[export] Instance ActionStatus_eq_dec : EqDecision ActionStatus.
Proof. solve_decision. Defined.

Definition ActionStatus_str (s : ActionStatus) : string :=
  match s with
  | StZero => ""
  | StProposed => "proposed"
  | StAllowed => "allowed"
  | StDenied => "denied"
  | StAwaitingApproval => "awaiting_approval"
  | StApproved => "approved"
  | StExecuted => "executed"
  | StUnknown => "unknown"
  | StFailed => "failed"
  | StCompensated => "compensated"
  | StCompensationFailed => "compensation_failed"
  end.

Inductive ApprovalStatus := ApZero | ApPending | ApApproved | ApDenied.

#[export] Instance ApprovalStatus_eq_dec : EqDecision ApprovalStatus.
Proof. solve_decision. Defined.

Inductive PolicySetStatus := PsDraft | PsActive | PsDisabled.

#[export] Instance PolicySetStatus_eq_dec : EqDecision PolicySetStatus.
Proof. solve_decision. Defined.

Definition PrincipalOrganization : string := "ORGANIZATION".

Definition ReasonAllowed : string := "ALLOWED".
Definition ReasonAuthorityExceeded : string := "AUTHORITY_EXCEEDED".
Definition ReasonPolicyDenied : string := "POLICY_DENIED".
Definition ReasonApprovalRequired : string := "APPROVAL_REQUIRED".

(** ** Structs *)

Record Organization := MkOrganization {
  o_ID : string; o_Name : string; o_CreatedAt : time }.

Record Principal := MkPrincipal {
  p_ID : string; p_OrgID : string; p_Type : string; p_Name : string; p_CreatedAt : time }.

Record Agent := MkAgent {
  ag_ID : string;
  ag_OrgID : string;
  ag_PrincipalID : string;
  ag_Name : string;
  ag_Groups : list string;
  ag_Environment : string;
  ag_Status : string;
  ag_CreatedAt : time }.

(** Weekdays: 0 is Sunday; StartHour inclusive, EndHour exclusive. *)
Record TimeWindow := MkTimeWindow {
  tw_Weekdays : list Z; tw_StartHour : Z; tw_EndHour : Z }.

Record PolicyMatch := MkPolicyMatch {
  pm_AgentGroups : list string;
  pm_Tool : string;
  pm_Action : string;
  pm_MaxAmountCents : option Z;
  pm_MinAmountCents : option Z;
  pm_MinRecipients : option Z;
  pm_Environment : string;
  pm_Classifications : list string;
  pm_Environments : list string;
  pm_ResourcePrefix : string;
  pm_TimeWindow : option TimeWindow }.

Record PolicyRule := MkPolicyRule {
  pr_ID : string;
  pr_OrgID : string;
  pr_Name : string;
  pr_Description : string;
  pr_Priority : Z;
  pr_Match : PolicyMatch;
  pr_Effect : PolicyEffect;
  pr_Explanation : string }.

Record PolicyDecision := MkPolicyDecision {
  d_Effect : PolicyEffect;
  d_RuleID : string;
  d_Explanation : string;
  d_ReasonCode : string;
  d_PolicyVersion : Z }.

Record PolicySet := MkPolicySet {
  ps_ID : string;
  ps_OrgID : string;
  ps_Version : Z;
  ps_Rules : list PolicyRule;
  ps_Status : PolicySetStatus;
  ps_CreatedBy : string;
  ps_CreatedAt : time }.

Record GrantConstraints := MkGrantConstraints {
  gc_MaxAmountCents : option Z; gc_Environments : list string }.

Record AuthorityGrant := MkAuthorityGrant {
  g_ID : string;
  g_OrgID : string;
  g_PrincipalID : string;
  g_AgentID : string;
  g_Scope : list string;
  g_Constraints : GrantConstraints;
  g_Environment : string;
  g_IssuedBy : string;
  g_IssuedAt : time;
  g_ExpiresAt : option time;
  g_RevokedAt : option time;
  g_Bootstrap : bool }.

Record TxnAction := MkTxnAction {
  a_ID : string;
  a_OrgID : string;
  a_TransactionID : string;
  a_Seq : Z;
  a_Tool : string;
  a_Action : string;
  a_Arguments : gomap;
  a_ArgumentsHash : string;
  a_Classes : list ActionClass;
  a_AmountCents : option Z;
  a_IdempotencyKey : string;
  a_Decision : option PolicyDecision;
  a_Status : ActionStatus;
  a_Result : gomap;
  a_Error : string;
  a_LatencyMS : Z;
  a_CreatedAt : time }.

Record Transaction := MkTransaction {
  t_ID : string;
  t_OrgID : string;
  t_AgentID : string;
  t_PrincipalID : string;
  t_SessionID : string;
  t_Objective : string;
  t_Status : TxnStatus;
  t_RiskBudgetCents : option Z;
  t_CreatedAt : time;
  t_UpdatedAt : time }.

Record Approval := MkApproval {
  ap_ID : string;
  ap_OrgID : string;
  ap_TransactionID : string;
  ap_ActionID : option string;
  ap_RequestedBy : string;
  ap_Reason : string;
  ap_ExposureCents : option Z;
  ap_Status : ApprovalStatus;
  ap_DecidedBy : string;
  ap_DecidedAt : option time;
  ap_CreatedAt : time }.

Record Receipt := MkReceipt {
  r_ID : string;
  r_OrgID : string;
  r_TransactionID : string;
  r_ActionID : string;
  r_AgentID : string;
  r_PrincipalID : string;
  r_Tool : string;
  r_Action : string;
  r_ArgumentsHash : string;
  r_Decision : PolicyEffect;
  r_ResultHash : string;
  r_FinancialCents : option Z;
  r_Compensation : string;
  r_PrevHash : string;
  r_Hash : string;
  r_KeyID : string;
  r_Signature : string;
  r_PolicyVersion : Z;
  r_StartedAt : time;
  r_CompletedAt : time }.

Record AuditEvent := MkAuditEvent {
  e_ID : string;
  e_OrgID : string;
  e_TransactionID : string;
  e_ActorType : string;
  e_ActorID : string;
  e_Type : string;
  e_Payload : list (string * value);
  e_CreatedAt : time }.

Record MCPTool := MkMCPTool { mt_Name : string; mt_Description : string }.

Record MCPServer := MkMCPServer {
  ms_ID : string;
  ms_OrgID : string;
  ms_Name : string;
  ms_URL : string;
  ms_HasToken : bool;
  ms_Tools : list MCPTool;
  ms_Classes : gmap string (list ActionClass);
  ms_CreatedAt : time }.

(** ** Field update *)

#[export] Instance eta_Agent : Eta Agent := fun a =>
  MkAgent (ag_ID a) (ag_OrgID a) (ag_PrincipalID a) (ag_Name a) (ag_Groups a) (ag_Environment a)
    (ag_Status a) (ag_CreatedAt a).

#[export] Instance eta_PolicyRule : Eta PolicyRule := fun r =>
  MkPolicyRule (pr_ID r) (pr_OrgID r) (pr_Name r) (pr_Description r) (pr_Priority r) (pr_Match r)
    (pr_Effect r) (pr_Explanation r).

#[export] Instance eta_PolicyDecision : Eta PolicyDecision := fun d =>
  MkPolicyDecision (d_Effect d) (d_RuleID d) (d_Explanation d) (d_ReasonCode d)
    (d_PolicyVersion d).

#[export] Instance eta_PolicySet : Eta PolicySet := fun p =>
  MkPolicySet (ps_ID p) (ps_OrgID p) (ps_Version p) (ps_Rules p) (ps_Status p)
    (ps_CreatedBy p) (ps_CreatedAt p).

#[export] Instance eta_AuthorityGrant : Eta AuthorityGrant := fun g =>
  MkAuthorityGrant (g_ID g) (g_OrgID g) (g_PrincipalID g) (g_AgentID g) (g_Scope g)
    (g_Constraints g) (g_Environment g) (g_IssuedBy g) (g_IssuedAt g) (g_ExpiresAt g)
    (g_RevokedAt g) (g_Bootstrap g).

#[export] Instance eta_TxnAction : Eta TxnAction := fun a =>
  MkTxnAction (a_ID a) (a_OrgID a) (a_TransactionID a) (a_Seq a) (a_Tool a) (a_Action a)
    (a_Arguments a) (a_ArgumentsHash a) (a_Classes a) (a_AmountCents a)
    (a_IdempotencyKey a) (a_Decision a) (a_Status a) (a_Result a) (a_Error a)
    (a_LatencyMS a) (a_CreatedAt a).

#[export] Instance eta_Transaction : Eta Transaction := fun t =>
  MkTransaction (t_ID t) (t_OrgID t) (t_AgentID t) (t_PrincipalID t) (t_SessionID t)
    (t_Objective t) (t_Status t) (t_RiskBudgetCents t) (t_CreatedAt t) (t_UpdatedAt t).

#[export] Instance eta_Approval : Eta Approval := fun a =>
  MkApproval (ap_ID a) (ap_OrgID a) (ap_TransactionID a) (ap_ActionID a) (ap_RequestedBy a)
    (ap_Reason a) (ap_ExposureCents a) (ap_Status a) (ap_DecidedBy a) (ap_DecidedAt a)
    (ap_CreatedAt a).

#[export] Instance eta_Receipt : Eta Receipt := fun r =>
  MkReceipt (r_ID r) (r_OrgID r) (r_TransactionID r) (r_ActionID r) (r_AgentID r)
    (r_PrincipalID r) (r_Tool r) (r_Action r) (r_ArgumentsHash r) (r_Decision r)
    (r_ResultHash r) (r_FinancialCents r) (r_Compensation r) (r_PrevHash r) (r_Hash r)
    (r_KeyID r) (r_Signature r) (r_PolicyVersion r) (r_StartedAt r) (r_CompletedAt r).

#[export] Instance eta_AuditEvent : Eta AuditEvent := fun e =>
  MkAuditEvent (e_ID e) (e_OrgID e) (e_TransactionID e) (e_ActorType e) (e_ActorID e)
    (e_Type e) (e_Payload e) (e_CreatedAt e).

#[export] Instance eta_MCPServer : Eta MCPServer := fun s =>
  MkMCPServer (ms_ID s) (ms_OrgID s) (ms_Name s) (ms_URL s) (ms_HasToken s) (ms_Tools s)
    (ms_Classes s) (ms_CreatedAt s).

(** ** Facts about the constants *)

Lemma PolicyEffect_of_str_str s : PolicyEffect_str (PolicyEffect_of_str s) = s.
Proof.
  unfold PolicyEffect_of_str.
  repeat (case_match_goal; bool_guards; subst; [done|]). done.
Qed.

(** Composite literals of the source: absent fields are zero values. *)
Definition zero_time : time := -62135596800000000000.

Definition no_match : PolicyMatch := MkPolicyMatch [] "" "" None None None "" [] [] "" None.

#[export] Instance eta_PolicyMatch : Eta PolicyMatch := fun m =>
  MkPolicyMatch (pm_AgentGroups m) (pm_Tool m) (pm_Action m) (pm_MaxAmountCents m)
    (pm_MinAmountCents m) (pm_MinRecipients m) (pm_Environment m) (pm_Classifications m)
    (pm_Environments m) (pm_ResourcePrefix m) (pm_TimeWindow m).

Definition zero_action : TxnAction :=
  MkTxnAction "" "" "" 0 "" "" None "" [] None "" None StZero None "" 0 zero_time.

Definition zero_receipt : Receipt :=
  MkReceipt "" "" "" "" "" "" "" "" "" (EffectOther "") "" None "" "" "" "" "" 0
    zero_time zero_time.

Definition zero_event : AuditEvent := MkAuditEvent "" "" "" "" "" "" [] zero_time.
