(* ===== verification/MemState.v ===== *)
(** * MemState: the data of the memory store

    [MemoryStore] holds the maps of internal/store/memory.go.  A map of
    pointers is a map of the cells themselves: a cell is allocated once,
    under the identifier drawn for it, so the identifier names it; [byIdem],
    which shares the cells of [actions], holds those names.  Receipts live in
    one list that only grows, so a [*domain.Receipt] is an index into it. *)

From S2P Require Export Domain.

Open Scope Z_scope.

(** ** Key provider (internal/keys/keys.go, the interface) *)

(** [Seal] draws a nonce: it takes the index of the clock tick. *)
Record Provider := MkProvider {
  kp_KeyID : string;
  kp_Sign : string -> string;
  kp_Verify : string -> string -> bool;
  kp_Seal : nat -> string -> option string;
  kp_Open : string -> option string }.

(** ** The memory store *)

Record credRef := MkCredRef {
  cr_orgID : string; cr_agentID : string; cr_hash : string;
  cr_revoked : bool; cr_lastUsed : time }.

Record opToken := MkOpToken {
  ot_orgID : string; ot_name : string; ot_hash : string;
  ot_revoked : bool; ot_lastUsed : time }.

Record mcpEntry := MkMcpEntry { me_server : MCPServer; me_token : string }.

Record MemoryStore := MkMemoryStore {
  st_orgs : gmap string Organization;
  st_principals : gmap string Principal;
  st_agents : gmap string Agent;
  st_credentials : gmap string string;
  st_credByKey : gmap string credRef;
  st_opTokens : gmap string opToken;
  st_mcpServers : gmap string mcpEntry;
  st_grants : gmap string AuthorityGrant;
  st_policySets : gmap string (list PolicySet);
  st_integCreds : gmap string string;
  st_integConfig : gmap string (gmap string value);
  st_keyProvider : option Provider;
  st_policies : gmap string (list PolicyRule);
  st_txns : gmap string Transaction;
  st_actions : gmap string TxnAction;
  st_byIdem : gmap string string;
  st_approvals : gmap string Approval;
  st_receiptsList : list Receipt;
  st_lastHash : gmap string string;
  st_audit : list AuditEvent }.

Definition New : MemoryStore :=
  MkMemoryStore ∅ ∅ ∅ ∅ ∅ ∅ ∅ ∅ ∅ ∅ ∅ None ∅ ∅ ∅ ∅ ∅ [] ∅ [].

#[export] Instance eta_credRef : Eta credRef := fun c =>
  MkCredRef (cr_orgID c) (cr_agentID c) (cr_hash c) (cr_revoked c) (cr_lastUsed c).

#[export] Instance eta_opToken : Eta opToken := fun c =>
  MkOpToken (ot_orgID c) (ot_name c) (ot_hash c) (ot_revoked c) (ot_lastUsed c).

#[export] Instance eta_MemoryStore : Eta MemoryStore := fun s =>
  MkMemoryStore (st_orgs s) (st_principals s) (st_agents s) (st_credentials s)
    (st_credByKey s) (st_opTokens s) (st_mcpServers s) (st_grants s) (st_policySets s)
    (st_integCreds s) (st_integConfig s) (st_keyProvider s) (st_policies s) (st_txns s)
    (st_actions s) (st_byIdem s) (st_approvals s) (st_receiptsList s) (st_lastHash s)
    (st_audit s).

(** What the live integrations read of the store. *)
Definition secrets_of (s : MemoryStore) :=
  (st_integCreds s, st_integConfig s, st_keyProvider s).
