(* ===== verification/Transactions.v ===== *)
(** * Transactions: the transaction state machine
    (internal/transactions/statemachine.go) *)

From S2P Require Export Domain.

Definition allowed (from : TxnStatus) : list TxnStatus :=
  match from with
  | TxnCreated => [TxnPlanning; TxnAborting; TxnFailed]
  | TxnPlanning => [TxnExecuting; TxnAwaitingApproval; TxnAborting; TxnFailed]
  | TxnAwaitingApproval => [TxnExecuting; TxnAborting; TxnFailed]
  | TxnExecuting => [TxnCommitted; TxnAwaitingApproval; TxnAborting; TxnCompensating; TxnFailed]
  | TxnAborting => [TxnCompensating; TxnRolledBack; TxnFailed]
  | TxnCompensating => [TxnRolledBack; TxnPartiallyCompensated; TxnFailed]
  | _ => []
  end.

Definition is_terminal (s : TxnStatus) : bool :=
  match s with
  | TxnCommitted | TxnRolledBack | TxnPartiallyCompensated | TxnFailed => true
  | _ => false
  end.

Definition CanTransition (from to : TxnStatus) : bool :=
  if bool_decide (from = to) then true
  else if is_terminal from then false
  else any (fun s => bool_decide (s = to)) (allowed from).

(** Returns the transaction with its new status, or the error; the source
    mutates [t] only when the transition is legal. *)
Definition MustTransition (t : Transaction) (to : TxnStatus) : Transaction + string :=
  if negb (CanTransition (t_Status t) to)
  then inr ("illegal transaction transition " +:+ TxnStatus_str (t_Status t) +:+ " -> " +:+
            TxnStatus_str to)
  else inl (t <| t_Status := to |>).

(** The status after [_ = MustTransition(t, to)], whose error is dropped. *)
Definition TryTransition (t : Transaction) (to : TxnStatus) : Transaction :=
  match MustTransition t to with inl t' => t' | inr _ => t end.

(** [safe] inside OrderActions. *)
Definition order_safe (a : TxnAction) : bool :=
  negb (any (fun c => String.eqb c ClassIrreversible || String.eqb c ClassDestructive)
          (a_Classes a)).

(** The loop of OrderActions with its two accumulators. *)
Fixpoint order_loop (actions s r : list TxnAction) : list TxnAction :=
  match actions with
  | [] => s ++ r
  | a :: actions =>
      if order_safe a then order_loop actions (s ++ [a]) r
      else order_loop actions s (r ++ [a])
  end.

Definition OrderActions (actions : list TxnAction) (reorderable : bool) : list TxnAction :=
  if negb reorderable then actions else order_loop actions [] [].

(** ** Lemmas *)

Lemma CanTransition_spec from to :
  CanTransition from to = true <-> from = to \/ (is_terminal from = false /\ to ∈ allowed from).
Proof.
  unfold CanTransition. destruct (decide (from = to)) as [->|Hne].
  - rewrite bool_decide_true by done. tauto.
  - rewrite bool_decide_false by done. destruct (is_terminal from) eqn:Et.
    + split; [done|]. intros [?|[? _]]; done.
    + rewrite any_true. split.
      * intros (s & Hs & Heq). apply bool_decide_eq_true in Heq as ->. auto.
      * intros [?|[_ Hin]]; [done|]. exists to. split; [done|]. by apply bool_decide_eq_true.
Qed.

Lemma TryTransition_status t to :
  t_Status (TryTransition t to) =
  if CanTransition (t_Status t) to then to else t_Status t.
Proof. unfold TryTransition, MustTransition. by destruct (CanTransition _ _). Qed.

Lemma TryTransition_other t to :
  t_ID (TryTransition t to) = t_ID t /\ t_OrgID (TryTransition t to) = t_OrgID t.
Proof. unfold TryTransition, MustTransition. by destruct (CanTransition _ _). Qed.

(** The rank that every step between different states decreases, except
    AWAITING_APPROVAL <-> EXECUTING, the only cycle. *)
Definition phase (s : TxnStatus) : nat :=
  match s with
  | TxnZero => 0
  | TxnCreated => 6
  | TxnPlanning => 5
  | TxnAwaitingApproval | TxnExecuting => 4
  | TxnAborting => 3
  | TxnCompensating => 2
  | _ => 1
  end.

Lemma order_loop_spec actions s r :
  order_loop actions s r =
  s ++ base.filter (fun a => order_safe a = true) actions ++
  r ++ base.filter (fun a => order_safe a = false) actions.
Proof.
  revert s r. induction actions as [|a l IH]; intros s r; simpl.
  - by rewrite app_nil_r.
  - rewrite !filter_cons. destruct (order_safe a) eqn:Ea.
    + rewrite decide_True, decide_False by (try done; congruence).
      rewrite IH. by rewrite <- !app_assoc.
    + rewrite decide_False, decide_True by (try done; congruence).
      rewrite IH. by rewrite <- !app_assoc.
Qed.

Lemma CanTransition_phase from to :
  CanTransition from to = true ->
  from = to \/ (phase to < phase from)%nat \/
  (phase to = phase from /\ from ∈ [TxnAwaitingApproval; TxnExecuting] /\
   to ∈ [TxnAwaitingApproval; TxnExecuting]).
Proof.
  destruct from, to; intros H; vm_compute in H; try discriminate H; auto;
    right; (left; simpl; lia) || (right; split; [done|split; set_solver]).
Qed.

(** ** Properties *)

Definition lifecycle (from to : TxnStatus) : Prop := CanTransition from to = true.

(** No sequence of legal transitions leaves a terminal state. *)
Theorem terminal_states_absorb from to :
  is_terminal from = true -> rtc lifecycle from to -> to = from.
Proof.
  intros Ht Hpath. induction Hpath as [|x y z Hxy _ IH]; [done|].
  apply CanTransition_spec in Hxy as [<-|[Hn _]]; [auto|congruence].
Qed.

Lemma terminal_states_absorb_witness :
  TxnCommitted = TxnCommitted.
Proof. apply (terminal_states_absorb TxnCommitted TxnCommitted); [reflexivity|constructor]. Defined.

(** Two different states lie on a common cycle of the lifecycle only when
    they are AWAITING_APPROVAL and EXECUTING; every other move is final. *)
Theorem lifecycle_cycles from to :
  from <> to -> rtc lifecycle from to -> rtc lifecycle to from ->
  (from = TxnAwaitingApproval /\ to = TxnExecuting) \/
  (from = TxnExecuting /\ to = TxnAwaitingApproval).
Proof.
  assert (Hmono : forall x y, rtc lifecycle x y ->
    x = y \/ (phase y < phase x)%nat \/
    (phase y = phase x /\ x ∈ [TxnAwaitingApproval; TxnExecuting] /\
     y ∈ [TxnAwaitingApproval; TxnExecuting])).
  { intros x y Hxy. induction Hxy as [|x y z Hxy _ IH]; [auto|].
    apply CanTransition_phase in Hxy.
    destruct Hxy as [->|[?|(? & ? & ?)]]; [done|..];
      destruct IH as [<-|[?|(? & ? & ?)]];
      first [by auto | right; left; lia | right; right; split; [lia|done]]. }
  intros Hne Hab Hba.
  destruct (Hmono _ _ Hab) as [?|[?|(_ & Hf & Ht)]]; [done| |].
  - destruct (Hmono _ _ Hba) as [?|[?|(? & _ & _)]]; [congruence|lia|lia].
  - rewrite !elem_of_cons, elem_of_nil in Hf, Ht.
    destruct Hf as [->|[->|[]]], Ht as [->|[->|[]]]; auto; done.
Qed.

Lemma lifecycle_cycles_witness :
  (TxnExecuting = TxnAwaitingApproval /\ TxnAwaitingApproval = TxnExecuting) \/
  (TxnExecuting = TxnExecuting /\ TxnAwaitingApproval = TxnAwaitingApproval).
Proof.
  apply (lifecycle_cycles TxnExecuting TxnAwaitingApproval);
    [discriminate|apply rtc_once; reflexivity|apply rtc_once; reflexivity].
Defined.

(** MustTransition performs exactly the legal moves: it changes nothing
    but the status, refuses with the transaction untouched otherwise, and
    reaches COMMITTED only from EXECUTING (or from COMMITTED itself). *)
Theorem MustTransition_spec t to :
  match MustTransition t to with
  | inl t' => CanTransition (t_Status t) to = true /\ t' = t <| t_Status := to |> /\
              (to = TxnCommitted -> t_Status t = TxnExecuting \/ t_Status t = TxnCommitted)
  | inr _ => CanTransition (t_Status t) to = false /\ t_Status t <> to
  end.
Proof.
  unfold MustTransition. destruct (CanTransition (t_Status t) to) eqn:Ec; simpl.
  - split; [done|]. split; [done|]. intros ->.
    destruct (t_Status t); vm_compute in Ec; try discriminate Ec; auto.
  - split; [done|]. intros Heq. rewrite Heq in Ec.
    unfold CanTransition in Ec. by rewrite bool_decide_true in Ec.
Qed.

(** Reordering for safety is a stable partition: every action is kept
    once, the irreversible or destructive ones come last, and both groups
    keep their order; without the reorder flag nothing moves. *)
Theorem OrderActions_partition actions :
  OrderActions actions false = actions /\
  OrderActions actions true ≡ₚ actions /\
  OrderActions actions true =
    base.filter (fun a => order_safe a = true) actions ++
    base.filter (fun a => order_safe a = false) actions.
Proof.
  unfold OrderActions; simpl. rewrite order_loop_spec. simpl.
  split; [done|]. split; [|done].
  induction actions as [|a l IH]; [done|]. rewrite !filter_cons.
  destruct (order_safe a) eqn:Ea.
  - rewrite decide_True, decide_False by (try done; congruence). simpl. by rewrite IH.
  - rewrite decide_False, decide_True by (try done; congruence).
    by rewrite <- Permutation_middle, IH.
Qed.
