(* ===== verification/Policies.v ===== *)
(** * Policies: the policy engine (internal/policies/engine.go)

    [Evaluate] sorts a copy of the rules by priority with [sort.Slice] and
    returns the first rule that matches.  Every rule with a time window reads
    the clock for itself: [clk i] is the reading the i-th rule of the sorted
    list would get. *)

From Stdlib Require Import SpecFloat.
From S2P Require Export Domain.

Open Scope Z_scope.

Record EvalInput := MkEvalInput { in_Agent : Agent; in_Action : TxnAction }.

Section Engine.
Context `{RT : Runtime}.

(** A number of one of the three types the code accepts. *)
Definition number_of (v : value) : option Z :=
  match v with
  | VInt64 n | VInt n => Some n
  | VFloat f => Some (int64_of_float f)
  | _ => None
  end.

Definition amountOf (a : TxnAction) : Z :=
  match a_AmountCents a with
  | Some n => n
  | None =>
      match index (a_Arguments a) "amount_cents" with
      | Some v => default 0 (number_of v)
      | None => 0
      end
  end.

Definition recipientsOf (a : TxnAction) : Z :=
  let count :=
    match index (a_Arguments a) "recipient_count" with
    | Some (VInt n) => n
    | Some (VFloat f) => int64_of_float f
    | _ => 0
    end in
  match index (a_Arguments a) "recipients" with
  | Some (VList s) => Z.of_nat (length s)
  | _ => count
  end.

Definition inWindow (w : TimeWindow) (now : time) : bool :=
  if negb (bool_decide (tw_Weekdays w = [])) &&
     negb (any (fun d => time_Weekday now =? d) (tw_Weekdays w))
  then false
  else
    let h := time_Hour now in
    if tw_StartHour w <=? tw_EndHour w
    then (tw_StartHour w <=? h) && (h <? tw_EndHour w)
    else (tw_StartHour w <=? h) || (h <? tw_EndHour w).

(** A list-valued condition: absent, or hit by one of its entries. *)
Definition hits {A} (l : list A) (f : A -> bool) : bool :=
  match l with [] => true | _ => any f l end.

Definition ruleMatches (now : time) (rule : PolicyRule) (i : EvalInput) : bool :=
  let m := pr_Match rule in
  let action := in_Action i in
  let agent := in_Agent i in
  if negb (String.eqb (pm_Tool m) "") && negb (String.eqb (pm_Tool m) "*") &&
     negb (String.eqb (pm_Tool m) (a_Tool action)) then false
  else if negb (String.eqb (pm_Action m) "") && negb (String.eqb (pm_Action m) "*") &&
     negb (String.eqb (pm_Action m) (a_Action action)) then false
  else if negb (hits (pm_AgentGroups m)
     (fun g => any (fun ag => String.eqb g ag) (ag_Groups agent))) then false
  else if negb (String.eqb (pm_Environment m) "") &&
     negb (String.eqb (pm_Environment m) (ag_Environment agent)) then false
  else
    let amt := amountOf action in
    if match pm_MaxAmountCents m with Some mx => mx <? amt | None => false end then false
    else if match pm_MinAmountCents m with Some mn => amt <? mn | None => false end then false
    else if match pm_MinRecipients m with
            | Some mn => recipientsOf action <? mn | None => false end then false
    else if negb (hits (pm_Classifications m)
       (fun want => any (fun c => String.eqb c want) (a_Classes action))) then false
    else if negb (hits (pm_Environments m)
       (fun e => EqualFold e (ag_Environment agent))) then false
    else if negb (String.eqb (pm_ResourcePrefix m) "") &&
       negb (HasPrefix
               (match index (a_Arguments action) "resource" with
                | Some (VString s) => s | _ => "" end)
               (pm_ResourcePrefix m)) then false
    else if match pm_TimeWindow m with
            | Some w => negb (inWindow w now) | None => false end then false
    else true.

(** The loop over the sorted rules; [n] counts the rules passed. *)
Fixpoint first_match (clk : nat -> time) (n : nat) (sorted : list PolicyRule) (i : EvalInput)
    : option PolicyRule :=
  match sorted with
  | [] => None
  | r :: sorted =>
      if ruleMatches (clk n) r i then Some r else first_match clk (S n) sorted i
  end.

Definition default_decision (i : EvalInput) : PolicyDecision :=
  if any (fun c => negb (String.eqb c ClassReadOnly)) (a_Classes (in_Action i)) then
    MkPolicyDecision EffectRequireApproval ""
      (a_Tool (in_Action i) +:+ "." +:+ a_Action (in_Action i) +:+
       " has no matching policy; default require approval.") "" 0
  else
    MkPolicyDecision EffectAllow ""
      "Pure read-only action with no matching policy; allowed." "" 0.

Definition sort_rules (rules : list PolicyRule) : list PolicyRule :=
  sort_slice (fun x y => pr_Priority x <? pr_Priority y) rules.

Definition Evaluate (clk : nat -> time) (rules : list PolicyRule) (version : Z) (i : EvalInput)
    : PolicyDecision :=
  match first_match clk 0 (sort_rules rules) i with
  | Some r => MkPolicyDecision (pr_Effect r) (pr_ID r) (pr_Explanation r) "" version
  | None => default_decision i
  end.

Definition DefaultSupportPolicies (orgID : string) : list PolicyRule :=
  let rule id name prio m eff expl := MkPolicyRule id orgID name "" prio m eff expl in
  let refund mn mx := no_match <| pm_AgentGroups := ["support"] |> <| pm_Tool := "stripe" |>
    <| pm_Action := "refund" |> <| pm_MinAmountCents := mn |> <| pm_MaxAmountCents := mx |> in
  [ rule "pol-no-iam" "deny-iam" 1 (no_match <| pm_Tool := "iam" |>)
      EffectDeny "Agents cannot modify IAM permissions.";
    rule "pol-prod-db" "prod-db-delete-approval" 2
      (no_match <| pm_Tool := "postgres" |> <| pm_Action := "delete_database" |>)
      EffectRequireApproval "Production database deletion always requires human approval.";
    rule "pol-refund-auto" "refund-auto" 10 (refund None (Some 10000))
      EffectAllow "Support agents may refund up to $100 automatically.";
    rule "pol-refund-approval" "refund-approval" 11 (refund (Some 10001) (Some 50000))
      EffectRequireApproval "Refunds between $100-$500 require manager approval.";
    rule "pol-refund-deny" "refund-deny" 12 (refund (Some 50001) None)
      EffectDeny "Refunds above $500 are prohibited for support agents.";
    rule "pol-crm" "crm-allow" 20
      (no_match <| pm_Tool := "crm" |> <| pm_Action := "update_record" |>)
      EffectAllow "CRM record updates are reversible and allowed.";
    rule "pol-email-bulk" "email-bulk-approval" 30
      (no_match <| pm_Tool := "email" |> <| pm_MinRecipients := Some 51 |>)
      EffectRequireApproval "Sending email to more than 50 recipients requires approval.";
    rule "pol-email" "email-allow" 31 (no_match <| pm_Tool := "email" |>)
      EffectAllow "Single-recipient customer email allowed.";
    rule "pol-deploy-staging" "deploy-staging" 40
      (no_match <| pm_Tool := "deploy" |> <| pm_Action := "deploy" |>
         <| pm_Environment := "staging" |>)
      EffectAllow "Agents may deploy to staging automatically.";
    rule "pol-deploy-prod" "deploy-prod" 41
      (no_match <| pm_Tool := "deploy" |> <| pm_Action := "deploy" |>
         <| pm_Environment := "production" |>)
      EffectRequireApproval "Production deployment requires approval." ].

End Engine.

(** ** Lemmas *)

Section EngineLemmas.
Context `{RL : RuntimeLaws}.

Lemma sort_rules_perm rules : sort_rules rules ≡ₚ rules.
Proof. apply sort_slice_perm. Qed.

Lemma sort_rules_sorted rules :
  StronglySorted (fun x y => pr_Priority x <= pr_Priority y) (sort_rules rules).
Proof. apply (sort_slice_sorted _ pr_Priority). Qed.

(** With pairwise distinct priorities the sorted list is determined. *)
Lemma sort_rules_unique rules sorted :
  rules ≡ₚ sorted -> NoDup (pr_Priority <$> sorted) ->
  StronglySorted (fun x y => pr_Priority x <= pr_Priority y) sorted ->
  sort_rules rules = sorted.
Proof.
  intros Hp Hnd Hs.
  assert (Hperm : sort_rules rules ≡ₚ sorted) by (by rewrite sort_rules_perm).
  apply (StronglySorted_unique_strong (fun x y => pr_Priority x <= pr_Priority y));
    [| apply sort_rules_sorted | exact Hs | exact Hperm].
  intros x y Hx Hy Hxy Hyx. rewrite Hperm in Hx.
  apply list_elem_of_lookup in Hx as [n Hn]. apply list_elem_of_lookup in Hy as [k Hk].
  assert (n = k) as ->.
  { apply (NoDup_lookup _ n k (pr_Priority x) Hnd); rewrite list_lookup_fmap.
    - by rewrite Hn.
    - rewrite Hk. simpl. f_equal. lia. }
  congruence.
Qed.

Lemma first_match_spec clk n sorted i :
  match first_match clk n sorted i with
  | Some r => exists k, sorted !! k = Some r /\ ruleMatches (clk (n + k)%nat) r i = true /\
                forall j r', (j < k)%nat -> sorted !! j = Some r' ->
                  ruleMatches (clk (n + j)%nat) r' i = false
  | None => forall j r', sorted !! j = Some r' -> ruleMatches (clk (n + j)%nat) r' i = false
  end.
Proof.
  revert n. induction sorted as [|r sorted IH]; intros n; simpl; [done|].
  destruct (ruleMatches (clk n) r i) eqn:Em.
  - exists 0%nat. rewrite Nat.add_0_r. split; [done|]. split; [done|]. intros; lia.
  - specialize (IH (S n)). destruct (first_match clk (S n) sorted i) as [r'|].
    + destruct IH as (k & Hk & Hm & Hbefore). exists (S k).
      rewrite <- Nat.add_succ_comm. split; [done|]. split; [done|].
      intros [|j] r'' Hj Hl.
      * injection Hl as <-. by rewrite Nat.add_0_r.
      * rewrite <- Nat.add_succ_comm. apply (Hbefore j); [lia|done].
    + intros [|j] r'' Hl.
      * injection Hl as <-. by rewrite Nat.add_0_r.
      * rewrite <- Nat.add_succ_comm. by apply IH.
Qed.

End EngineLemmas.

(** ** Properties *)

Section EngineProperties.
Context `{RL : RuntimeLaws}.

(** C37: at an instant [now], Evaluate returns a matching rule of the set such
    that no rule of strictly lower priority number matches; when no rule
    matches it returns the default decision. *)
Theorem Evaluate_lowest_priority_wins now rules version i :
  (exists r, r ∈ rules /\ ruleMatches now r i = true /\
     (forall r', r' ∈ rules -> pr_Priority r' < pr_Priority r -> ruleMatches now r' i = false) /\
     Evaluate (fun _ => now) rules version i =
       MkPolicyDecision (pr_Effect r) (pr_ID r) (pr_Explanation r) "" version) \/
  ((forall r, r ∈ rules -> ruleMatches now r i = false) /\
   Evaluate (fun _ => now) rules version i = default_decision i).
Proof.
  unfold Evaluate. pose proof (sort_rules_perm rules) as Hperm.
  pose proof (sort_rules_sorted rules) as Hsort.
  pose proof (first_match_spec (fun _ => now) 0 (sort_rules rules) i) as Hf.
  destruct (first_match _ _ _ _) as [r|].
  - left. destruct Hf as (k & Hk & Hm & Hbefore). exists r.
    split; [rewrite <- Hperm; by eapply list_elem_of_lookup_2|]. split; [done|].
    split; [|done]. intros r' Hr' Hlt. rewrite <- Hperm in Hr'.
    apply list_elem_of_lookup in Hr' as [j Hj].
    destruct (decide (j < k)%nat) as [Hjk|Hjk]; [by apply (Hbefore j)|].
    exfalso. destruct (decide (j = k)) as [->|Hne].
    { rewrite Hk in Hj. injection Hj as ->. lia. }
    pose proof (StronglySorted_lookup_lt _ _ k j r r' Hsort Hk Hj ltac:(lia)) as Hle.
    simpl in Hle. lia.
  - right. split; [|done]. intros r Hr. rewrite <- Hperm in Hr.
    apply list_elem_of_lookup in Hr as [j Hj]. by apply (Hf j).
Qed.

(** When priorities are pairwise distinct the decision does not depend
    on the order in which the rules are stored. *)
Theorem Evaluate_order_independent now rules rules' version i :
  rules ≡ₚ rules' -> NoDup (pr_Priority <$> rules) ->
  Evaluate (fun _ => now) rules version i = Evaluate (fun _ => now) rules' version i.
Proof.
  intros Hp Hnd. unfold Evaluate.
  rewrite (sort_rules_unique rules (sort_rules rules')); [done| | |].
  - by rewrite sort_rules_perm.
  - rewrite sort_rules_perm, <- Hp. done.
  - apply sort_rules_sorted.
Qed.

(** Nothing is allowed by default but reads: a decision ALLOW comes from
    a matching ALLOW rule of the set or from an action whose classes are all
    READ_ONLY. *)
Theorem Evaluate_allow_justified clk rules version i :
  d_Effect (Evaluate clk rules version i) = EffectAllow ->
  (exists r n, r ∈ rules /\ ruleMatches (clk n) r i = true /\ pr_Effect r = EffectAllow) \/
  (forall c, c ∈ a_Classes (in_Action i) -> c = ClassReadOnly).
Proof.
  unfold Evaluate. pose proof (first_match_spec clk 0 (sort_rules rules) i) as Hf.
  destruct (first_match _ _ _ _) as [r|]; intros Heff.
  - left. destruct Hf as (k & Hk & Hm & _). exists r, k. simpl in Hm.
    split; [|done]. rewrite <- (sort_rules_perm rules). by eapply list_elem_of_lookup_2.
  - right. revert Heff. unfold default_decision.
    destruct (any _ _) eqn:Ea; [done|]. intros _ c Hc.
    pose proof (proj1 (any_false _ _) Ea c Hc) as Hn. cbn beta in Hn. by bool_guards.
Qed.

Lemma default_rules_sorted orgID :
  sort_rules (DefaultSupportPolicies orgID) = DefaultSupportPolicies orgID.
Proof.
  apply sort_rules_unique; [done| |].
  - apply (bool_decide_unpack _). vm_compute. exact I.
  - unfold DefaultSupportPolicies. repeat constructor; cbn; lia.
Qed.

(** The seeded policy set decides refunds of support agents by amount:
    up to 10000 cents ALLOW, up to 50000 REQUIRE_APPROVAL, above DENY. *)
Theorem default_refund_tiers clk orgID version i :
  "support" ∈ ag_Groups (in_Agent i) ->
  a_Tool (in_Action i) = "stripe" -> a_Action (in_Action i) = "refund" ->
  d_Effect (Evaluate clk (DefaultSupportPolicies orgID) version i) =
    if amountOf (in_Action i) <=? 10000 then EffectAllow
    else if amountOf (in_Action i) <=? 50000 then EffectRequireApproval
    else EffectDeny.
Proof.
  intros Hg Ht Ha. unfold Evaluate. rewrite default_rules_sorted.
  assert (Hany : any (fun ag => String.eqb "support" ag) (ag_Groups (in_Agent i)) = true).
  { apply any_true. exists "support". split; [done|apply string_eqb_refl]. }
  unfold DefaultSupportPolicies. cbn [first_match].
  unfold ruleMatches; cbn -[any amountOf recipientsOf Z.ltb Z.leb String.eqb].
  rewrite Ht, Ha; cbn -[any amountOf recipientsOf Z.ltb Z.leb].
  set (amt := amountOf (in_Action i)).
  unfold hits, any in *; cbn -[existsb amountOf recipientsOf Z.ltb Z.leb String.eqb].
  cbn [existsb]. rewrite Hany.
  destruct (Z.leb_spec amt 10000).
  - rewrite (proj2 (Z.ltb_ge 10000 amt)) by lia. done.
  - rewrite (proj2 (Z.ltb_lt 10000 amt)) by lia.
    destruct (Z.leb_spec amt 50000).
    + rewrite (proj2 (Z.ltb_ge 50000 amt)), (proj2 (Z.ltb_ge amt 10001)) by lia. done.
    + rewrite (proj2 (Z.ltb_lt 50000 amt)), (proj2 (Z.ltb_ge amt 50001)) by lia. done.
Qed.

(** The seeded policy set denies every IAM action, whatever else holds
    of it. *)
Theorem default_iam_denied clk orgID version i :
  a_Tool (in_Action i) = "iam" ->
  d_Effect (Evaluate clk (DefaultSupportPolicies orgID) version i) = EffectDeny.
Proof.
  intros Ht. unfold Evaluate. rewrite default_rules_sorted.
  unfold DefaultSupportPolicies. cbn [first_match].
  unfold ruleMatches; cbn -[any String.eqb]. by rewrite Ht.
Qed.

End EngineProperties.
