(* ===== verification/Receipts.v ===== *)
(** * Receipts: canonical hashes and the receipt chain
    (internal/receipts/chain.go)

    Hashes are hexadecimal strings.  The digest function is the [sha256] of
    the runtime; statements about tampering exhibit two different inputs with
    the same digest instead of assuming there are none. *)

From Stdlib Require Import Ascii.
From S2P Require Export Domain.

Open Scope Z_scope.

(** [hex.EncodeToString]. *)
Fixpoint hex_encode (s : string) : string :=
  match s with
  | EmptyString => EmptyString
  | String c s =>
      let n := Ascii.nat_of_ascii c in
      String (hex_digit (Nat.div n 16)) (String (hex_digit (Nat.modulo n 16)) (hex_encode s))
  end.

Definition nul : string := String "000"%char EmptyString.

Section Hashes.
Context `{RT : Runtime}.

(** [json.Marshal] with its error dropped: the bytes are then empty. *)
Definition marshal (v : value) : string := default EmptyString (encode v).

Definition Canonical (v : value) : string := hex_encode (sha256 (marshal v)).

(** Binds the previous receipt hash to the canonical payload. *)
Definition ChainHash (prevHash : string) (payload : value) : string :=
  hex_encode (sha256 (prevHash +:+ nul +:+ marshal payload)).

End Hashes.

(** ** Lemmas *)

Lemma hex_digit_pair_inj c d :
  hex_digit (Nat.div (Ascii.nat_of_ascii c) 16) = hex_digit (Nat.div (Ascii.nat_of_ascii d) 16) ->
  hex_digit (Nat.modulo (Ascii.nat_of_ascii c) 16) =
    hex_digit (Nat.modulo (Ascii.nat_of_ascii d) 16) -> c = d.
Proof.
  assert (Hval : forall c, Ascii.ascii_of_nat
    (16 * hex_value (hex_digit (Nat.div (Ascii.nat_of_ascii c) 16)) +
     hex_value (hex_digit (Nat.modulo (Ascii.nat_of_ascii c) 16))) = c).
  { intros [b0 b1 b2 b3 b4 b5 b6 b7].
    destruct b0, b1, b2, b3, b4, b5, b6, b7; vm_compute; reflexivity. }
  intros H1 H2. rewrite <- (Hval c), <- (Hval d). by rewrite H1, H2.
Qed.

Lemma hex_encode_inj s t : hex_encode s = hex_encode t -> s = t.
Proof.
  revert t. induction s as [|c s IH]; intros [|d t]; cbn [hex_encode]; try done.
  intros H. injection H as H1 H2 H3. f_equal; [by apply hex_digit_pair_inj|by apply IH].
Qed.

(** No NUL byte: true of every stored hash. *)
Definition no_nul (s : string) : bool := free_of "000"%char s.

Lemma hex_encode_no_nul s : no_nul (hex_encode s) = true.
Proof.
  assert (Hd : forall c, Ascii.eqb (hex_digit (Nat.div (Ascii.nat_of_ascii c) 16)) "000"%char = false /\
    Ascii.eqb (hex_digit (Nat.modulo (Ascii.nat_of_ascii c) 16)) "000"%char = false).
  { intros [b0 b1 b2 b3 b4 b5 b6 b7].
    destruct b0, b1, b2, b3, b4, b5, b6, b7; vm_compute; split; reflexivity. }
  unfold no_nul, free_of.
  induction s as [|c s IH]; cbn [hex_encode all_chars]; [done|].
  destruct (Hd c) as [-> ->]. by rewrite IH.
Qed.

Lemma nul_separated s1 s2 t1 t2 :
  no_nul s1 = true -> no_nul s2 = true ->
  s1 +:+ nul +:+ t1 = s2 +:+ nul +:+ t2 -> s1 = s2 /\ t1 = t2.
Proof. apply separated. Qed.

(** Equal chain hashes come from equal inputs, or they are a collision. *)
Definition sha256_collision `{Runtime} (x y : string) : Prop :=
  x <> y /\ sha256 x = sha256 y.

Lemma ChainHash_inj `{Runtime} p1 p2 v1 v2 :
  no_nul p1 = true -> no_nul p2 = true ->
  ChainHash p1 v1 = ChainHash p2 v2 ->
  (p1 = p2 /\ marshal v1 = marshal v2) \/
  sha256_collision (p1 +:+ nul +:+ marshal v1) (p2 +:+ nul +:+ marshal v2).
Proof.
  intros H1 H2 Heq. apply hex_encode_inj in Heq.
  destruct (decide (p1 +:+ nul +:+ marshal v1 = p2 +:+ nul +:+ marshal v2)) as [He|Hne].
  - left. by apply nul_separated.
  - right. by split.
Qed.
