(* ===== verification/Encoding.v ===== *)
(** * Encoding: hexadecimal and standard base64 (encoding/hex,
    encoding/base64), with their round trips *)

From Stdlib Require Import Ascii.
From S2P Require Export Receipts.

Open Scope Z_scope.

(** ** Hexadecimal *)

(** [hex.DecodeString]. *)
Definition hex_nibble (c : ascii) : option nat :=
  let n := nat_of_ascii c in
  if byte_in 48 57 c then Some (n - 48)%nat
  else if byte_in 97 102 c then Some (n - 87)%nat
  else if byte_in 65 70 c then Some (n - 55)%nat
  else None.

Fixpoint hex_decode (s : string) : option string :=
  match s with
  | EmptyString => Some EmptyString
  | String c1 (String c2 s) =>
      h ← hex_nibble c1; l ← hex_nibble c2; r ← hex_decode s;
      Some (String (ascii_of_nat (16 * h + l)) r)
  | String _ EmptyString => None
  end.

Lemma hex_nibbles c :
  (h ← hex_nibble (hex_digit (Nat.div (Ascii.nat_of_ascii c) 16));
   l ← hex_nibble (hex_digit (Nat.modulo (Ascii.nat_of_ascii c) 16));
   Some (Ascii.ascii_of_nat (16 * h + l))) = Some c.
Proof.
  destruct c as [b0 b1 b2 b3 b4 b5 b6 b7].
  destruct b0, b1, b2, b3, b4, b5, b6, b7; vm_compute; reflexivity.
Qed.

Lemma hex_decode_encode s : hex_decode (hex_encode s) = Some s.
Proof.
  induction s as [|c s IH]; [done|]. cbn [hex_encode hex_decode]. rewrite IH.
  pose proof (hex_nibbles c) as Hc.
  destruct (hex_nibble (hex_digit (Nat.div (Ascii.nat_of_ascii c) 16))) as [h|];
    cbn [mbind option_bind] in *; [|discriminate Hc].
  destruct (hex_nibble (hex_digit (Nat.modulo (Ascii.nat_of_ascii c) 16))) as [l|];
    cbn [mbind option_bind] in *; [|discriminate Hc].
  apply (inj Some) in Hc. by rewrite Hc.
Qed.

(** ** Base64 *)

Definition b64_alphabet : string :=
  "ABCDEFGHIJKLMNOPQRSTUVWXYZabcdefghijklmnopqrstuvwxyz0123456789+/".

Definition byte_of (c : ascii) : Z := Z.of_nat (nat_of_ascii c).
Definition char_of (z : Z) : ascii := ascii_of_nat (Z.to_nat z).

Definition b64_char (i : Z) : ascii :=
  match String.get (Z.to_nat i) b64_alphabet with Some c => c | None => "="%char end.

Fixpoint index_of (c : ascii) (s : string) (i : Z) : option Z :=
  match s with
  | EmptyString => None
  | String d s => if Ascii.eqb c d then Some i else index_of c s (i + 1)
  end.

Definition b64_value (c : ascii) : option Z := index_of c b64_alphabet 0.

Definition pad : ascii := "="%char.

(** [EncodeToString]. *)
Fixpoint b64_encode (s : string) : string :=
  match s with
  | EmptyString => EmptyString
  | String a EmptyString =>
      let a := byte_of a in
      String (b64_char (a / 4)) (String (b64_char (a mod 4 * 16)) (String pad (String pad EmptyString)))
  | String a (String b EmptyString) =>
      let a := byte_of a in let b := byte_of b in
      String (b64_char (a / 4)) (String (b64_char (a mod 4 * 16 + b / 16))
        (String (b64_char (b mod 16 * 4)) (String pad EmptyString)))
  | String a (String b (String c s)) =>
      let a := byte_of a in let b := byte_of b in let c := byte_of c in
      String (b64_char (a / 4)) (String (b64_char (a mod 4 * 16 + b / 16))
        (String (b64_char (b mod 16 * 4 + c / 64)) (String (b64_char (c mod 64)) (b64_encode s))))
  end.

Definition is_newline (c : ascii) : bool := Nat.eqb (nat_of_ascii c) 10 || Nat.eqb (nat_of_ascii c) 13.

Fixpoint strip_newlines (s : string) : string :=
  match s with
  | EmptyString => EmptyString
  | String c s => if is_newline c then strip_newlines s else String c (strip_newlines s)
  end.

(** Quanta of four characters, padding only in the last one; trailing bits
    are not required to be zero. *)
Fixpoint b64_quanta (s : string) : option string :=
  match s with
  | EmptyString => Some EmptyString
  | String c1 (String c2 (String c3 (String c4 s))) =>
      v1 ← b64_value c1; v2 ← b64_value c2;
      let x := char_of (v1 * 4 + v2 / 16) in
      if Ascii.eqb c3 pad then
        if Ascii.eqb c4 pad && String.eqb s "" then Some (String x EmptyString) else None
      else
        v3 ← b64_value c3;
        let y := char_of (v2 mod 16 * 16 + v3 / 4) in
        if Ascii.eqb c4 pad then
          if String.eqb s "" then Some (String x (String y EmptyString)) else None
        else
          v4 ← b64_value c4;
          r ← b64_quanta s;
          Some (String x (String y (String (char_of (v3 mod 4 * 64 + v4)) r)))
  | _ => None
  end.

(** [DecodeString]; line ends are skipped. *)
Definition b64_decode (s : string) : option string := b64_quanta (strip_newlines s).

Example b64_examples :
  b64_encode "Man" = "TWFu" /\ b64_encode "Ma" = "TWE=" /\ b64_encode "M" = "TQ==" /\
  b64_decode "TWE=" = Some "Ma" /\ b64_decode "TW=E" = None /\ b64_decode "TQ" = None.
Proof. repeat split; vm_compute; reflexivity. Qed.

(** ** Round trip *)

Lemma byte_of_range c : 0 <= byte_of c < 256.
Proof. unfold byte_of. pose proof (nat_ascii_bounded c). lia. Qed.

Lemma char_of_byte c z : z = byte_of c -> char_of z = c.
Proof. intros ->. unfold char_of, byte_of. rewrite Nat2Z.id. apply ascii_nat_embedding. Qed.

Lemma b64_table : forallb (fun i => match b64_value (b64_char i) with Some j => j =? i | None => false end &&
  negb (Ascii.eqb (b64_char i) pad) && negb (is_newline (b64_char i))) (seqZ 0 64) = true.
Proof. vm_compute. reflexivity. Qed.

Lemma b64_char_facts i : 0 <= i < 64 ->
  b64_value (b64_char i) = Some i /\ Ascii.eqb (b64_char i) pad = false /\ is_newline (b64_char i) = false.
Proof.
  intros Hi. pose proof (proj1 (forallb_forall _ _) b64_table i) as H.
  assert (Hin : In i (seqZ 0 64)) by (apply list_elem_of_In, elem_of_seqZ; lia). specialize (H Hin).
  apply andb_true_iff in H as [H H3]. apply andb_true_iff in H as [H1 H2].
  destruct (b64_value (b64_char i)); [|done]. apply Z.eqb_eq in H1 as ->.
  split; [done|]. split; by apply negb_true_iff.
Qed.

Lemma strip_plain c s : is_newline c = false -> strip_newlines (String c s) = String c (strip_newlines s).
Proof. intros H. cbn. by rewrite H. Qed.

(** Three bytes at a time. *)
Lemma string_ind3 (P : string -> Prop) :
  P EmptyString -> (forall a, P (String a EmptyString)) -> (forall a b, P (String a (String b EmptyString))) ->
  (forall a b c s, P s -> P (String a (String b (String c s)))) -> forall s, P s.
Proof.
  intros H0 H1 H2 H3. fix IH 1. intros [|a [|b [|c s]]]; [done|done|done|]. apply H3, IH.
Qed.

Ltac b64_fact i := let H := fresh in
  assert (H : 0 <= i < 64) by (Z.to_euclidean_division_equations; lia);
  destruct (b64_char_facts i H) as (? & ? & ?); clear H.

Ltac b64_rewrite := repeat match goal with
  | H : b64_value _ = Some _ |- _ => rewrite H; clear H
  | H : Ascii.eqb (b64_char _) pad = false |- _ => rewrite H; clear H
  end; cbn.

Lemma strip_encode s : strip_newlines (b64_encode s) = b64_encode s.
Proof.
  induction s as [|a|a b|a b c s IH] using string_ind3; [done| | |]; cbn [b64_encode]; cbv zeta;
    pose proof (byte_of_range a) as Ha; try (pose proof (byte_of_range b) as Hb); try (pose proof (byte_of_range c) as Hc).
  - b64_fact (byte_of a / 4). b64_fact (byte_of a mod 4 * 16). by rewrite !strip_plain.
  - b64_fact (byte_of a / 4). b64_fact (byte_of a mod 4 * 16 + byte_of b / 16). b64_fact (byte_of b mod 16 * 4).
    by rewrite !strip_plain.
  - b64_fact (byte_of a / 4). b64_fact (byte_of a mod 4 * 16 + byte_of b / 16).
    b64_fact (byte_of b mod 16 * 4 + byte_of c / 64). b64_fact (byte_of c mod 64).
    by rewrite !strip_plain, IH.
Qed.

Lemma quanta_encode s : b64_quanta (b64_encode s) = Some s.
Proof.
  induction s as [|a|a b|a b c s IH] using string_ind3; [done| | |]; cbn [b64_encode]; cbv zeta;
    pose proof (byte_of_range a) as Ha; try (pose proof (byte_of_range b) as Hb); try (pose proof (byte_of_range c) as Hc).
  - b64_fact (byte_of a / 4). b64_fact (byte_of a mod 4 * 16). cbn [b64_quanta].
    b64_rewrite. do 2 f_equal. apply char_of_byte. Z.to_euclidean_division_equations; lia.
  - b64_fact (byte_of a / 4). b64_fact (byte_of a mod 4 * 16 + byte_of b / 16). b64_fact (byte_of b mod 16 * 4).
    cbn [b64_quanta]. b64_rewrite. do 2 f_equal; [|f_equal]; apply char_of_byte;
      Z.to_euclidean_division_equations; lia.
  - b64_fact (byte_of a / 4). b64_fact (byte_of a mod 4 * 16 + byte_of b / 16).
    b64_fact (byte_of b mod 16 * 4 + byte_of c / 64). b64_fact (byte_of c mod 64).
    cbn [b64_quanta]. rewrite IH. b64_rewrite.
    do 2 f_equal; [|f_equal; [|f_equal]]; apply char_of_byte; Z.to_euclidean_division_equations; lia.
Qed.

Lemma b64_decode_encode s : b64_decode (b64_encode s) = Some s.
Proof. unfold b64_decode. by rewrite strip_encode, quanta_encode. Qed.
