(* ===== verification/Registry.v ===== *)
(** * Registry: tools, compensators, reconcilers
    (internal/actions/executor.go)

    A handler is called with the store, from which live integrations read
    their credentials, and with the index of the clock tick of the call,
    through which it observes its context and the outside world. *)

From S2P Require Export MemState.

Open Scope Z_scope.

(** ** Errors *)

(** A plain error, an [UncertainError], and an error that wraps another with
    [%w] under a message of its own. *)
Inductive GoError : Type :=
  | ErrPlain (msg : string)
  | ErrUncertain (inner : GoError)
  | ErrWrap (msg : string) (inner : GoError).

Definition Uncertain (err : GoError) : GoError := ErrUncertain err.

Fixpoint err_Error (e : GoError) : string :=
  match e with
  | ErrPlain msg => msg
  | ErrUncertain inner => "execution uncertain: " +:+ err_Error inner
  | ErrWrap msg _ => msg
  end.

(** [errors.As(err, &ue)]: the first UncertainError on the chain. *)
Fixpoint as_uncertain (e : GoError) : option GoError :=
  match e with
  | ErrPlain _ => None
  | ErrUncertain inner => Some (ErrUncertain inner)
  | ErrWrap _ inner => as_uncertain inner
  end.

(** ** Handlers *)

Definition ToolHandler : Type := MemoryStore -> nat -> TxnAction -> gomap + GoError.
Definition Compensator : Type := nat -> TxnAction -> option GoError.
Definition Reconciler : Type := MemoryStore -> nat -> TxnAction -> (bool * gomap) + GoError.

Record Registry := MkRegistry {
  reg_handlers : gmap string ToolHandler;
  reg_compensators : gmap string Compensator;
  reg_reconcilers : gmap string Reconciler;
  reg_meta : gmap string (list ActionClass) }.

#[export] Instance eta_Registry : Eta Registry := fun r =>
  MkRegistry (reg_handlers r) (reg_compensators r) (reg_reconcilers r) (reg_meta r).

Definition key (tool action : string) : string := tool +:+ "." +:+ action.

Definition shortKey (s : string) (n : nat) : string :=
  if Nat.ltb (String.length s) n then s else take_string n s.

Section Handlers.
Context `{RT : Runtime}.

(** [ok(result)]: waits 5 ms unless the context is done. *)
Definition mock_ok (result : gmap string value) : ToolHandler := fun _ n _ =>
  match ctx_err n with
  | Some e => inr (ErrPlain e)
  | None => inl (Some result)
  end.

Definition mock_refund : ToolHandler := fun _ n a =>
  let amt := default VNil (index (a_Arguments a) "amount_cents") in
  match ctx_err n with
  | Some e => inr (ErrPlain e)
  | None =>
      match index (a_Arguments a) "__fail_after" with
      | Some (VBool true) => inr (ErrPlain "injected downstream failure after refund")
      | _ => inl (Some {[ "refunded_cents" := amt;
                          "refund_id" := VString ("re_" +:+ shortKey (a_IdempotencyKey a) 8) ]})
      end
  end.

Definition mock_refuse (msg : string) : ToolHandler := fun _ _ _ => inr (ErrPlain msg).

Definition mock_undo : Compensator := fun _ _ => None.

Definition DefaultRegistry : Registry := {|
  reg_handlers := {[
    "crm.lookup_customer" := mock_ok {[ "customer" := VString "cust_9182"; "tier" := VString "pro" ]};
    "crm.update_record" := mock_ok {[ "updated" := VBool true ]};
    "stripe.refund" := mock_refund;
    "email.send" := mock_ok {[ "sent" := VBool true ]};
    "fs.read" := mock_ok {[ "content" := VString "(mock file)" ]};
    "fs.write" := mock_ok {[ "written" := VBool true ]};
    "http.fetch" := mock_ok {[ "status" := VInt 200 ]};
    "github.create_issue" := mock_ok {[ "issue" := VInt 1 ]};
    "shell.exec" := mock_refuse "shell.exec requires explicit approval and is disabled in sandbox demo";
    "postgres.delete_database" := mock_refuse "refusing to execute destructive db delete in demo without approval path";
    "deploy.deploy" := mock_ok {[ "deployed" := VBool true ]};
    "iam.grant" := mock_refuse "iam.grant is never executed by policy" ]};
  reg_compensators := {[
    "stripe.refund" := mock_undo;
    "crm.update_record" := mock_undo;
    "fs.write" := mock_undo;
    "deploy.deploy" := mock_undo;
    "github.create_issue" := mock_undo ]};
  reg_reconcilers := ∅;
  reg_meta := {[
    "crm.lookup_customer" := [ClassReadOnly];
    "crm.update_record" := [ClassReversible];
    "stripe.refund" := [ClassFinancial; ClassCompensable];
    "email.send" := [ClassExternalCommunication; ClassIrreversible];
    "fs.read" := [ClassReadOnly];
    "fs.write" := [ClassReversible];
    "shell.exec" := [ClassPrivileged; ClassDestructive];
    "postgres.delete_database" := [ClassDestructive; ClassPrivileged; ClassIrreversible];
    "github.create_issue" := [ClassReversible];
    "http.fetch" := [ClassReadOnly];
    "deploy.deploy" := [ClassPrivileged; ClassCompensable];
    "iam.grant" := [ClassPrivileged; ClassDestructive] ]} |}.

End Handlers.

(** ** Operations *)

(** Both branches of the source's last test return UNKNOWN. *)
Definition Classes (r : Registry) (tool action : string) : list ActionClass :=
  match reg_meta r !! key tool action with
  | Some c => c
  | None =>
      if HasPrefix tool "crm." || String.eqb tool "crm" then [ClassUnknown] else [ClassUnknown]
  end.

Definition Execute (r : Registry) (st : MemoryStore) (n : nat) (a : TxnAction) : gomap + GoError :=
  match reg_handlers r !! key (a_Tool a) (a_Action a) with
  | None => inr (ErrPlain ("unknown tool action " +:+ a_Tool a +:+ "." +:+ a_Action a))
  | Some h => h st n a
  end.

Definition Compensate (r : Registry) (n : nat) (a : TxnAction) : option GoError :=
  match reg_compensators r !! key (a_Tool a) (a_Action a) with
  | None => Some (ErrPlain ("no compensation defined for " +:+ a_Tool a +:+ "." +:+ a_Action a +:+
                            " (treated as irreversible)"))
  | Some c => c n a
  end.

Definition RegisterReconciler (tool action : string) (rec : Reconciler) (r : Registry) : Registry :=
  r <| reg_reconcilers ::= <[ key tool action := rec ]> |>.

Definition ReconcilerFor (r : Registry) (tool action : string) : option Reconciler :=
  reg_reconcilers r !! key tool action.

(** A nil handler or compensator leaves the entry of the map as it is. *)
Definition Register (tool action : string) (classes : list ActionClass) (h : option ToolHandler)
    (c : option Compensator) (r : Registry) : Registry :=
  let classes := match classes with [] => [ClassUnknown] | _ => classes end in
  let r := r <| reg_meta ::= <[ key tool action := classes ]> |> in
  let r := match h with
           | Some h => r <| reg_handlers ::= <[ key tool action := h ]> |>
           | None => r end in
  match c with
  | Some c => r <| reg_compensators ::= <[ key tool action := c ]> |>
  | None => r
  end.

Definition IsReversible (a : TxnAction) : bool :=
  any (fun c => String.eqb c ClassReversible) (a_Classes a).

Definition IsCompensable (a : TxnAction) : bool :=
  any (fun c => String.eqb c ClassCompensable || String.eqb c ClassReversible) (a_Classes a).

Definition IsIrreversible (a : TxnAction) : bool :=
  any (fun c => String.eqb c ClassIrreversible || String.eqb c ClassDestructive) (a_Classes a).

(** ** Lemmas and properties *)

(** Every registered tool action has at least one class. *)
Definition registry_ok (r : Registry) : Prop :=
  map_Forall (fun _ c => c <> []) (reg_meta r).

Lemma Register_ok tool action classes h c r :
  registry_ok r -> registry_ok (Register tool action classes h c r).
Proof.
  intros Hr. unfold registry_ok, Register.
  destruct h, c, classes; cbn; apply map_Forall_insert_2; done.
Qed.

Lemma DefaultRegistry_ok `{Runtime} : registry_ok DefaultRegistry.
Proof.
  unfold registry_ok, DefaultRegistry; cbn [reg_meta].
  repeat (apply map_Forall_insert_2; [done|]). apply map_Forall_empty.
Qed.

#[export] Hint Resolve Register_ok DefaultRegistry_ok : go_inv.

Inductive registry_reachable `{Runtime} : Registry -> Prop :=
  | reach_default : registry_reachable DefaultRegistry
  | reach_register tool action classes h c r :
      registry_reachable r -> registry_reachable (Register tool action classes h c r)
  | reach_reconciler tool action rec r :
      registry_reachable r -> registry_reachable (RegisterReconciler tool action rec r).

(** A registry built from the default one by any registrations never
    reports an empty class list, so an unregistered or unclassified action is
    UNKNOWN and never passes for a pure read. *)
Theorem Classes_never_empty `{Runtime} r tool action :
  registry_reachable r ->
  Classes r tool action <> [] /\
  (reg_meta r !! key tool action = None -> Classes r tool action = [ClassUnknown]).
Proof.
  intros Hr. assert (Hok : registry_ok r).
  { induction Hr; auto with go_inv. }
  unfold Classes. destruct (reg_meta r !! key tool action) as [c|] eqn:Ec.
  - split; [|done]. by apply (Hok _ _ Ec).
  - by destruct (_ || _).
Qed.

Lemma Classes_never_empty_witness :
  Classes (@DefaultRegistry demo) "crm" "drop_table" <> [] /\
  (reg_meta (@DefaultRegistry demo) !! key "crm" "drop_table" = None ->
   Classes (@DefaultRegistry demo) "crm" "drop_table" = [ClassUnknown]).
Proof. apply (@Classes_never_empty demo). constructor. Defined.

(** Register replaces the classes and, when given one, the handler, and
    touches no other tool action; registering with a nil compensator leaves
    the previous compensator of that tool action in force. *)
Theorem Register_effect tool action classes h c r a st n :
  let r' := Register tool action classes h c r in
  (key (a_Tool a) (a_Action a) <> key tool action ->
     Execute r' st n a = Execute r st n a /\ Compensate r' n a = Compensate r n a /\
     Classes r' (a_Tool a) (a_Action a) = Classes r (a_Tool a) (a_Action a)) /\
  (a_Tool a = tool -> a_Action a = action ->
     Classes r' tool action = match classes with [] => [ClassUnknown] | _ => classes end /\
     Execute r' st n a = match h with Some h => h st n a | None => Execute r st n a end /\
     Compensate r' n a = match c with Some c => c n a | None => Compensate r n a end).
Proof.
  cbv zeta. unfold Execute, Compensate, Classes, Register. split.
  - intros Hne. destruct h, c; cbn; rewrite ?lookup_insert_ne by done; done.
  - intros -> ->. destruct h, c; cbn; rewrite ?lookup_insert_eq; done.
Qed.

Lemma Register_effect_witness :
  Compensate (Register "stripe" "refund" [] None None (@DefaultRegistry demo)) 0%nat
    (zero_action <| a_Tool := "stripe" |> <| a_Action := "refund" |>) = None.
Proof.
  pose proof (Register_effect "stripe" "refund" [] None None (@DefaultRegistry demo)
    (zero_action <| a_Tool := "stripe" |> <| a_Action := "refund" |>) New 0%nat) as [_ H].
  destruct (H eq_refl eq_refl) as (_ & _ & ->). reflexivity.
Defined.
