(* ===== verification/State.v ===== *)
(** * State: the process state and the two layers of programs over it

    [M] is the type of one critical section: a body that runs under the
    store's mutex (or reads no shared state).  [prog] is the type of the code
    that strings critical sections together without holding a lock: handlers
    and gateway operations.  [run] executes a program alone; the interleaving
    semantics executes several at once. *)

From S2P Require Export Registry Receipts.

Open Scope Z_scope.

(** ** The world *)

(** The calls made to tools, in order: what the outside world saw. *)
Inductive ToolCall :=
  | CallExecute (a : TxnAction)
  | CallCompensate (a : TxnAction)
  | CallReconcile (a : TxnAction).

(** The rate limiter of internal/auth/auth.go. *)
Record bucket := MkBucket { bk_count : Z; bk_start : time }.

Record Limiter := MkLimiter {
  lim_hits : gmap string bucket; lim_max : Z; lim_window : Z }.

#[export] Instance eta_Limiter : Eta Limiter := fun l =>
  MkLimiter (lim_hits l) (lim_max l) (lim_window l).

(** The server of internal/api/server.go and the service of
    internal/gateway/service.go (store, tools, signer, which is also the
    verifier, limiter), the counters of identifiers and clock ticks drawn so
    far, and the trace of tool calls. *)
Record World := MkWorld {
  w_store : MemoryStore;
  w_tools : Registry;
  w_signer : option Provider;
  w_limiter : Limiter;
  w_uid : nat;
  w_tick : nat;
  w_calls : list ToolCall }.

#[export] Instance eta_World : Eta World := fun w =>
  MkWorld (w_store w) (w_tools w) (w_signer w) (w_limiter w) (w_uid w) (w_tick w)
    (w_calls w).

(** The server [New] of internal/api/server.go makes: 120 requests a minute. *)
Definition NewLimiter (mx window : Z) : Limiter := MkLimiter ∅ mx window.

Definition new_world (tools : Registry) : World :=
  MkWorld New tools None (NewLimiter 120 (60 * second)) 0 0 [].

(** ** Critical sections *)

(** One atomic step over a state [W]: the server of this library's theorems
    is [World]; the Postgres store has a state of its own. *)
Definition step (W A : Type) : Type := W -> A * W.

Abbreviation M := (step World).

Definition m_ret {W A} (x : A) : step W A := fun w => (x, w).

Definition m_bind {W A B} (m : step W A) (k : A -> step W B) : step W B := fun w =>
  let '(x, w') := m w in k x w'.

Notation "'let*' x := m 'in' k" := (m_bind m (fun x => k))
  (at level 10, x binder, m at level 200, k at level 200,
   format "'[v' 'let*'  x  :=  m  'in' '/' k ']'") : go_scope.
Notation "'let*' ' p := m 'in' k" := (m_bind m (fun x => match x with p => k end))
  (at level 10, p strict pattern, m at level 200, k at level 200) : go_scope.

Definition get_store : M MemoryStore := fun w => (w_store w, w).

Definition modify_store (f : MemoryStore -> MemoryStore) : M unit := fun w =>
  (tt, w <| w_store ::= f |>).

Definition get_tools : M Registry := fun w => (w_tools w, w).

Section Draws.
Context `{RT : Runtime}.

(** [uid()]. *)
Definition uid : M string := fun w => (uuid (w_uid w), w <| w_uid ::= S |>).

Definition tick : M nat := fun w => (w_tick w, w <| w_tick ::= S |>).

(** [now()]. *)
Definition now : M time := fun w => (clock (w_tick w), w <| w_tick ::= S |>).

(** The entries of a map in the order of one [range] loop. *)
Definition ranging {A} (m : gmap string A) : M (list (string * A)) := fun w =>
  (range_map (w_tick w) m, w <| w_tick ::= S |>).

End Draws.

(** ** Programs *)

Inductive program (W A : Type) : Type :=
  | Ret (a : A)
  | Atomic {X : Type} (m : step W X) (k : X -> program W A).
Arguments Ret {W A} a.
Arguments Atomic {W A X} m k.

Abbreviation prog := (program World).

Fixpoint pbind {W A B} (p : program W A) (f : A -> program W B) : program W B :=
  match p with
  | Ret a => f a
  | Atomic m k => Atomic m (fun x => pbind (k x) f)
  end.

(** [let@ x := m in k] is one critical section, [let! x := p in k] a call. *)
Notation "'let@' x := m 'in' k" := (Atomic m (fun x => k))
  (at level 10, x binder, m at level 200, k at level 200,
   format "'[v' 'let@'  x  :=  m  'in' '/' k ']'") : go_scope.
Notation "'let!' x := p 'in' k" := (pbind p (fun x => k))
  (at level 10, x binder, p at level 200, k at level 200,
   format "'[v' 'let!'  x  :=  p  'in' '/' k ']'") : go_scope.

Fixpoint run {W A} (p : program W A) (w : W) : A * W :=
  match p with
  | Ret a => (a, w)
  | Atomic m k => let '(x, w') := m w in run (k x) w'
  end.

(** A [for] loop over a list with an accumulator. *)
Fixpoint for_each {W A S} (body : A -> S -> program W S) (l : list A) (s : S) : program W S :=
  match l with
  | [] => Ret s
  | x :: l => let! s := body x s in for_each body l s
  end.

Lemma run_pbind {W A B} (p : program W A) (f : A -> program W B) w :
  run (pbind p f) w = let '(a, w') := run p w in run (f a) w'.
Proof.
  revert w. induction p as [a|X m k IH]; intros w; simpl; [done|].
  destruct (m w) as [x w']. apply IH.
Qed.

(** The result of a Go function [(T, error)]: on an error the value may or
    may not be nil. *)
Inductive goresult (A : Type) : Type :=
  | Ok (a : A)
  | Err (a : option A) (e : GoError).
Arguments Ok {A} a.
Arguments Err {A} a e.

Definition fail {A} (msg : string) : prog (goresult A) := Ret (Err None (ErrPlain msg)).
