(* ===== verification/Store.v ===== *)
(** * Store: MemoryStore (internal/store/memory.go)

    One definition per method, each the body of one critical section.  Where
    Go ranges over a map the body draws an iteration order from the runtime,
    so nothing can be proved of the order of the results. *)

From S2P Require Export State.

Open Scope Z_scope.

Section MemoryStore.
Context `{RT : Runtime}.

(** ** Organizations, agents *)

Definition SeedOrg (name : string) : M (Organization * Principal) :=
  let* oid := uid in
  let* ot := now in
  let* pid := uid in
  let* pt := now in
  let o := MkOrganization oid name ot in
  let p := MkPrincipal pid oid PrincipalOrganization name pt in
  let* _ := modify_store (fun s => s <| st_orgs ::= <[ oid := o ]> |>
                                     <| st_principals ::= <[ pid := p ]> |>) in
  m_ret (o, p).

Definition CreateAgent (orgID principalID name env : string) (groups : list string)
    (secretHash : string) : M Agent :=
  let* id := uid in
  let* t := now in
  let a := MkAgent id orgID principalID name groups env "active" t in
  let* _ := modify_store (fun s => s <| st_agents ::= <[ id := a ]> |>
                                     <| st_credentials ::= <[ id := secretHash ]> |>) in
  m_ret a.

Definition GetAgent (orgID agentID : string) : M (option Agent) :=
  let* s := get_store in
  m_ret (a ← st_agents s !! agentID;
         if String.eqb (ag_OrgID a) orgID then Some a else None).

Definition CredentialHash (agentID : string) : M (option string) :=
  let* s := get_store in
  m_ret (st_credentials s !! agentID).

(** ** Policy sets *)

Definition sets_of (s : MemoryStore) (orgID : string) : list PolicySet :=
  default [] (st_policySets s !! orgID).

Definition latest_version (sets : list PolicySet) : Z :=
  foldl (fun mx p => if mx <? ps_Version p then ps_Version p else mx) 0 sets.

Definition latestVersionLocked (orgID : string) : M Z :=
  let* s := get_store in
  m_ret (latest_version (sets_of s orgID)).

Definition is_active (p : PolicySet) : bool := bool_decide (ps_Status p = PsActive).

Definition Policies (orgID : string) : M (list PolicyRule) :=
  let* s := get_store in
  m_ret (match List.find is_active (sets_of s orgID) with
         | Some p => ps_Rules p
         | None => default [] (st_policies s !! orgID)
         end).

Definition CreatePolicySet (orgID : string) (rules : list PolicyRule) (createdBy : string)
    : M PolicySet :=
  let* id := uid in
  let* v := latestVersionLocked orgID in
  let* t := now in
  let set := MkPolicySet id orgID (v + 1) rules PsDraft createdBy t in
  let* _ := modify_store (fun s =>
    s <| st_policySets ::= <[ orgID := sets_of s orgID ++ [set] ]> |>) in
  m_ret set.

Definition activate_one (version : Z) (p : PolicySet) : PolicySet :=
  if ps_Version p =? version then p <| ps_Status := PsActive |>
  else if is_active p then p <| ps_Status := PsDisabled |>
  else p.

Definition ActivatePolicySet (orgID : string) (version : Z) : M bool :=
  let* s := get_store in
  if any (fun p => ps_Version p =? version) (sets_of s orgID) then
    let* _ := modify_store (fun s =>
      s <| st_policySets ::= <[ orgID := activate_one version <$> sets_of s orgID ]> |>) in
    m_ret true
  else m_ret false.

Definition PolicySets (orgID : string) : M (list PolicySet) :=
  let* s := get_store in
  m_ret (sets_of s orgID).

Definition ActivePolicySet (orgID : string) : M (option PolicySet) :=
  let* s := get_store in
  m_ret (List.find is_active (sets_of s orgID)).

(** Three critical sections: the version is read without the lock. *)
Definition SetPolicies (orgID : string) (rules : list PolicyRule) : prog unit :=
  let@ _ := CreatePolicySet orgID rules "system" in
  let@ v := latestVersionLocked orgID in
  let@ _ := ActivatePolicySet orgID v in
  Ret tt.

(** ** Audit *)

Definition emitLocked (e : AuditEvent) : M unit :=
  modify_store (fun s => s <| st_audit ::= fun l => l ++ [e] |>).

Definition Emit (e : AuditEvent) : M unit :=
  let* id := uid in
  let* t := now in
  emitLocked (e <| e_ID := id |> <| e_CreatedAt := t |>).

(** The backward loop of Audit over the reversed list. *)
Fixpoint audit_loop (orgID txnID : string) (limit : Z) (l out : list AuditEvent)
    : list AuditEvent :=
  match l with
  | [] => out
  | e :: l =>
      if Z.of_nat (length out) <? limit then
        if negb (String.eqb (e_OrgID e) orgID) then audit_loop orgID txnID limit l out
        else if negb (String.eqb txnID "") && negb (String.eqb (e_TransactionID e) txnID)
        then audit_loop orgID txnID limit l out
        else audit_loop orgID txnID limit l (out ++ [e])
      else out
  end.

Definition Audit (orgID txnID : string) (limit : Z) : M (list AuditEvent) :=
  let* s := get_store in
  m_ret (audit_loop orgID txnID limit (reverse (st_audit s)) []).

(** ** Transactions *)

Definition CreateTxn (t : Transaction) : M Transaction :=
  let* id := uid in
  let* at_ := now in
  let t := t <| t_ID := id |> <| t_CreatedAt := at_ |> <| t_UpdatedAt := at_ |> in
  let t := if bool_decide (t_Status t = TxnZero) then t <| t_Status := TxnCreated |> else t in
  let* _ := modify_store (fun s => s <| st_txns ::= <[ id := t ]> |>) in
  let* eid := uid in
  let* et := now in
  let* _ := emitLocked (MkAuditEvent eid (t_OrgID t) (t_ID t) "agent" (t_AgentID t)
                          "transaction.created" [] et) in
  m_ret t.

Definition GetTxn (orgID id : string) : M (option Transaction) :=
  let* s := get_store in
  m_ret (t ← st_txns s !! id;
         if String.eqb (t_OrgID t) orgID then Some t else None).

(** [false] is the error "transaction not found". *)
Definition SetTxnStatus (orgID id : string) (st : TxnStatus) : M bool :=
  let* t := GetTxn orgID id in
  match t with
  | None => m_ret false
  | Some t =>
      let* at_ := now in
      let* _ := modify_store (fun s =>
        s <| st_txns ::= <[ id := t <| t_Status := st |> <| t_UpdatedAt := at_ |> ]> |>) in
      m_ret true
  end.

Definition ListTxns (orgID : string) : M (list Transaction) :=
  let* s := get_store in
  let* l := ranging (st_txns s) in
  m_ret (base.filter (fun t => t_OrgID t = orgID) l.*2).

(** ** Actions *)

Definition idemKey (a : TxnAction) : string :=
  a_OrgID a +:+ "|" +:+ a_TransactionID a +:+ "|" +:+ a_IdempotencyKey a.

(** The action the key refers to, through the shared cell. *)
Definition prev_action (s : MemoryStore) (k : string) : option TxnAction :=
  id ← st_byIdem s !! k; st_actions s !! id.

(** The boolean is the source's [dup].  When it is false the result is the
    stored cell itself, not a copy. *)
Definition AddAction (a : TxnAction) : M (TxnAction * bool) :=
  let* s := get_store in
  match prev_action s (idemKey a) with
  | Some prev => m_ret (prev, true)
  | None =>
      let* id := uid in
      let* t := now in
      let a := a <| a_ID := id |> <| a_CreatedAt := t |> in
      let a := if bool_decide (a_Status a = StZero) then a <| a_Status := StProposed |> else a in
      let a := a <| a_ArgumentsHash := Canonical (value_of_map (a_Arguments a)) |> in
      let* _ := modify_store (fun s => s <| st_actions ::= <[ id := a ]> |>
                                         <| st_byIdem ::= <[ idemKey a := id ]> |>) in
      m_ret (a, false)
  end.

Definition GetAction (orgID id : string) : M (option TxnAction) :=
  let* s := get_store in
  m_ret (a ← st_actions s !! id;
         if String.eqb (a_OrgID a) orgID then Some a else None).

Definition UpdateAction (a : TxnAction) : M unit :=
  let* s := get_store in
  match st_actions s !! a_ID a with
  | Some _ => modify_store (fun s => s <| st_actions ::= <[ a_ID a := a ]> |>
                                       <| st_byIdem ::= <[ idemKey a := a_ID a ]> |>)
  | None => m_ret tt
  end.

(** An assignment to fields of a cell through the pointer AddAction returned. *)
Definition write_action (id : string) (f : TxnAction -> TxnAction) : M unit :=
  modify_store (fun s => s <| st_actions ::= alter f id |>).

Definition in_txn (orgID txnID : string) (a : TxnAction) : Prop :=
  a_OrgID a = orgID /\ a_TransactionID a = txnID.

#[export] Instance in_txn_dec orgID txnID a : Decision (in_txn orgID txnID a) :=
  ltac:(unfold in_txn; apply _).

Definition ActionsForTxn (orgID txnID : string) : M (list TxnAction) :=
  let* s := get_store in
  let* l := ranging (st_actions s) in
  m_ret (base.filter (in_txn orgID txnID) l.*2).

(** ** Approvals *)

Definition CreateApproval (a : Approval) : M Approval :=
  let* id := uid in
  let* t := now in
  let a := a <| ap_ID := id |> <| ap_CreatedAt := t |> <| ap_Status := ApPending |> in
  let* _ := modify_store (fun s => s <| st_approvals ::= <[ id := a ]> |>) in
  m_ret a.

Definition GetApproval (orgID id : string) : M (option Approval) :=
  let* s := get_store in
  m_ret (a ← st_approvals s !! id;
         if String.eqb (ap_OrgID a) orgID then Some a else None).

Definition DecideApproval (orgID id by_ : string) (approve : bool) : M (option Approval) :=
  let* s := get_store in
  match st_approvals s !! id with
  | None => m_ret None
  | Some a =>
      if negb (String.eqb (ap_OrgID a) orgID) || negb (bool_decide (ap_Status a = ApPending))
      then m_ret None
      else
        let* t := now in
        let a := a <| ap_Status := if approve then ApApproved else ApDenied |>
                   <| ap_DecidedBy := by_ |> <| ap_DecidedAt := Some t |> in
        let* _ := modify_store (fun s => s <| st_approvals ::= <[ id := a ]> |>) in
        m_ret (Some a)
  end.

Definition PendingApprovals (orgID : string) : M (list Approval) :=
  let* s := get_store in
  let* l := ranging (st_approvals s) in
  m_ret (base.filter (fun a => ap_OrgID a = orgID /\ ap_Status a = ApPending) l.*2).

(** ** Receipts *)

Definition receipt_payload (r : Receipt) : value :=
  value_of_map (Some {[
    "txn" := VString (r_TransactionID r); "action" := VString (r_ActionID r);
    "tool" := VString (r_Tool r);
    "args_hash" := VString (r_ArgumentsHash r); "result_hash" := VString (r_ResultHash r);
    "decision" := VString (PolicyEffect_str (r_Decision r));
    "started" := VTime (r_StartedAt r); "completed" := VTime (r_CompletedAt r) ]}).

(** The receipt stored for [r] in a chain whose last hash is [prev]. *)
Definition chained (id prev : string) (r : Receipt) : Receipt :=
  let r := r <| r_ID := id |> <| r_PrevHash := prev |> in
  r <| r_Hash := ChainHash (r_PrevHash r) (receipt_payload r) |>.

(** Returns the pointer to the stored receipt: its index. *)
Definition AppendReceipt (r : Receipt) : M nat :=
  let* id := uid in
  let* s := get_store in
  let r := chained id (default "" (st_lastHash s !! r_OrgID r)) r in
  let* _ := modify_store (fun s => s <| st_receiptsList ::= fun l => l ++ [r] |>
                                     <| st_lastHash ::= <[ r_OrgID r := r_Hash r ]> |>) in
  m_ret (length (st_receiptsList s)).

(** Reading and assigning through the pointer AppendReceipt returned. *)
Definition load_receipt (ptr : nat) : M Receipt :=
  let* s := get_store in
  m_ret (default zero_receipt (st_receiptsList s !! ptr)).

Definition write_receipt (ptr : nat) (f : Receipt -> Receipt) : M unit :=
  modify_store (fun s => s <| st_receiptsList ::= alter f ptr |>).

Definition ReceiptsForTxn (orgID txnID : string) : M (list Receipt) :=
  let* s := get_store in
  m_ret (base.filter (fun r => r_OrgID r = orgID /\ r_TransactionID r = txnID)
           (st_receiptsList s)).

Definition update_receipt_in (r cur : Receipt) : Receipt :=
  if String.eqb (r_ID cur) (r_ID r) && String.eqb (r_OrgID cur) (r_OrgID r)
  then cur <| r_KeyID := r_KeyID r |> <| r_Signature := r_Signature r |>
  else cur.

Definition UpdateReceipt (r : Receipt) : M unit :=
  modify_store (fun s => s <| st_receiptsList ::= fmap (update_receipt_in r) |>).

(** The loop of VerifyChain from index [i] with the hash [prev]. *)
Fixpoint verify_loop (orgID : string) (rs : list Receipt) (i : Z) (prev : string) : Z :=
  match rs with
  | [] => -1
  | r :: rs =>
      if negb (String.eqb (r_OrgID r) orgID) then verify_loop orgID rs (i + 1) prev
      else if negb (String.eqb (r_PrevHash r) prev) ||
              negb (String.eqb (r_Hash r) (ChainHash prev (receipt_payload r)))
      then i
      else verify_loop orgID rs (i + 1) (r_Hash r)
  end.

Definition VerifyChain (orgID : string) : M Z :=
  let* s := get_store in
  m_ret (verify_loop orgID (st_receiptsList s) 0 "").

End MemoryStore.
