(* ===== verification/PolicySets.v ===== *)
(** * PolicySets: versions and activation of policy sets
    (internal/store/memory.go)

    The invariant of one organization's list: the i-th set has version i + 1
    and at most one set is ACTIVE. *)

From S2P Require Export Store.

Open Scope Z_scope.

(** Versions are positions: 1, 2, 3, ... *)
Definition numbered (sets : list PolicySet) : Prop :=
  forall i p, sets !! i = Some p -> ps_Version p = Z.of_nat (S i).

Definition one_active (sets : list PolicySet) : Prop :=
  forall p q, p ∈ sets -> q ∈ sets -> is_active p = true -> is_active q = true -> p = q.

Definition sets_ok (sets : list PolicySet) : Prop := numbered sets /\ one_active sets.

Definition policies_ok (s : MemoryStore) : Prop := forall orgID, sets_ok (sets_of s orgID).

(** ** Lemmas *)

Lemma numbered_inj sets p q :
  numbered sets -> p ∈ sets -> q ∈ sets -> ps_Version p = ps_Version q -> p = q.
Proof.
  intros Hn Hp Hq Heq. apply list_elem_of_lookup in Hp as [i Hi].
  apply list_elem_of_lookup in Hq as [j Hj].
  pose proof (Hn _ _ Hi). pose proof (Hn _ _ Hj). assert (i = j) as -> by lia. congruence.
Qed.

Lemma numbered_app sets p :
  numbered sets -> ps_Version p = Z.of_nat (S (length sets)) -> numbered (sets ++ [p]).
Proof.
  intros Hn Hp i q Hi. apply lookup_snoc_Some in Hi as [[_ Hi]|[-> ->]]; auto.
Qed.

Lemma numbered_app_l sets sets' : numbered (sets ++ sets') -> numbered sets.
Proof. intros Hn i p Hi. apply Hn. rewrite lookup_app_l; [done|by eapply lookup_lt_Some]. Qed.

Lemma latest_version_numbered sets : numbered sets -> latest_version sets = Z.of_nat (length sets).
Proof.
  unfold latest_version. induction sets as [|p sets IH] using rev_ind; intros Hn; [done|].
  rewrite foldl_app. cbn [foldl]. rewrite IH by (by eapply numbered_app_l).
  pose proof (Hn (length sets) p (last_snoc_lookup _ _)) as Hv.
  rewrite length_app. cbn [length]. destruct (Z.ltb_spec (Z.of_nat (length sets)) (ps_Version p)); lia.
Qed.

Lemma activate_one_version v p : ps_Version (activate_one v p) = ps_Version p.
Proof. unfold activate_one. by destruct (_ =? _), (is_active p). Qed.

Lemma activate_one_active v p : is_active (activate_one v p) = (ps_Version p =? v).
Proof.
  unfold activate_one. destruct (ps_Version p =? v) eqn:Ev; [done|].
  by destruct (is_active p) eqn:Ea.
Qed.

Lemma activate_sets_ok v sets : sets_ok sets -> sets_ok (activate_one v <$> sets).
Proof.
  intros [Hn Ho]. assert (Hn' : numbered (activate_one v <$> sets)).
  { intros i p Hi. rewrite list_lookup_fmap in Hi.
    destruct (sets !! i) as [q|] eqn:Eq; [|done]. injection Hi as <-.
    rewrite activate_one_version. by apply Hn. }
  split; [done|]. intros p q Hp Hq Ha Hb.
  apply (numbered_inj _ _ _ Hn' Hp Hq).
  apply list_elem_of_fmap in Hp as (p0 & -> & _). apply list_elem_of_fmap in Hq as (q0 & -> & _).
  rewrite activate_one_active in Ha, Hb. rewrite !activate_one_version.
  apply Z.eqb_eq in Ha, Hb. congruence.
Qed.

Lemma create_sets_ok sets p :
  sets_ok sets -> ps_Version p = latest_version sets + 1 -> ps_Status p = PsDraft ->
  sets_ok (sets ++ [p]).
Proof.
  intros [Hn Ho] Hv Hs. assert (Hd : is_active p = false) by (unfold is_active; by rewrite Hs).
  split.
  - apply numbered_app; [done|]. rewrite Hv, latest_version_numbered by done. lia.
  - intros q r Hq Hr Ha Hb. apply elem_of_app in Hq as [Hq|Hq], Hr as [Hr|Hr];
      try (apply list_elem_of_singleton in Hq; subst q; congruence);
      try (apply list_elem_of_singleton in Hr; subst r; congruence). by apply Ho.
Qed.

Lemma sets_of_insert s orgID orgID' sets :
  sets_of (s <| st_policySets ::= <[ orgID := sets ]> |>) orgID' =
  if decide (orgID = orgID') then sets else sets_of s orgID'.
Proof.
  unfold sets_of. cbn. destruct (decide (orgID = orgID')) as [->|Hne].
  - by rewrite lookup_insert_eq.
  - by rewrite lookup_insert_ne.
Qed.

Lemma policies_ok_insert s orgID sets :
  policies_ok s -> sets_ok sets -> policies_ok (s <| st_policySets ::= <[ orgID := sets ]> |>).
Proof.
  intros Hs Hsets org. rewrite sets_of_insert. by destruct (decide (orgID = org)).
Qed.

Lemma policies_ok_New : policies_ok New.
Proof. intros org. split; [by intros i p|]. intros p q Hp. by apply elem_of_nil in Hp. Qed.

(** Looking for the active set finds the only one. *)
Lemma find_active sets p :
  one_active sets -> p ∈ sets -> is_active p = true -> List.find is_active sets = Some p.
Proof.
  intros Ho Hp Ha. destruct (List.find is_active sets) as [q|] eqn:Ef.
  - apply List.find_some in Ef as [Hq Hb]. f_equal. apply Ho; auto. by apply list_elem_of_In.
  - pose proof (List.find_none _ _ Ef p) as Hn. rewrite Hn in Ha; [done|]. by apply list_elem_of_In.
Qed.

Section Steps.
Context `{RT : Runtime}.

Lemma policies_ok_CreatePolicySet orgID rules by_ w :
  policies_ok (w_store w) -> policies_ok (w_store (CreatePolicySet orgID rules by_ w).2).
Proof.
  intros Hs. unfold CreatePolicySet, latestVersionLocked. cbn.
  apply policies_ok_insert; [done|]. by apply create_sets_ok.
Qed.

Lemma policies_ok_ActivatePolicySet orgID v w :
  policies_ok (w_store w) -> policies_ok (w_store (ActivatePolicySet orgID v w).2).
Proof.
  intros Hs. unfold ActivatePolicySet. cbn. destruct (any _ _); [|done]. cbn.
  apply policies_ok_insert; [done|]. by apply activate_sets_ok.
Qed.

(** Activation is exclusive and exact: activating an existing version
    makes it the one ACTIVE set, disables the previous one, changes no other
    set and no rules, and from then on Policies and ActivePolicySet give its
    rules; an unknown version changes nothing. *)
Theorem ActivatePolicySet_exclusive orgID v w p :
  policies_ok (w_store w) ->
  let '(ok, w') := ActivatePolicySet orgID v w in
  (ok = true <-> exists q, q ∈ sets_of (w_store w) orgID /\ ps_Version q = v) /\
  (ok = false -> w' = w) /\
  (p ∈ sets_of (w_store w) orgID -> ps_Version p = v ->
     (forall q, q ∈ sets_of (w_store w') orgID -> is_active q = true <-> ps_Version q = v) /\
     ps_Rules <$> sets_of (w_store w') orgID = ps_Rules <$> sets_of (w_store w) orgID /\
     fst (Policies orgID w') = ps_Rules p /\
     fst (ActivePolicySet orgID w') = Some (p <| ps_Status := PsActive |>)) /\
  (forall org, org <> orgID -> sets_of (w_store w') org = sets_of (w_store w) org).
Proof.
  intros Hs. unfold ActivatePolicySet. cbn.
  destruct (any (fun p => ps_Version p =? v) (sets_of (w_store w) orgID)) eqn:Ea.
  2: { pose proof (proj1 (any_false _ _) Ea) as Hno. split; [|split; [done|split; [|done]]].
       - split; [done|]. intros (q & Hq & Hv). apply Hno in Hq. cbn in Hq. lia.
       - intros Hp Hv. apply Hno in Hp. cbn in Hp. lia. }
  apply any_true in Ea as (q0 & Hq0 & Hv0). apply Z.eqb_eq in Hv0. cbn.
  set (sets := sets_of (w_store w) orgID) in *.
  assert (Hsets : forall org, sets_of ((w_store w) <| st_policySets ::= <[orgID := activate_one v <$> sets]> |>) org =
     if decide (orgID = org) then activate_one v <$> sets else sets_of (w_store w) org)
    by (intros; apply sets_of_insert).
  split; [split; [intros _; by exists q0|done]|]. split; [done|]. split.
  2: { intros org Hne. rewrite Hsets. by destruct (decide (orgID = org)). }
  intros Hp Hv. rewrite Hsets, decide_True by done.
  destruct (activate_sets_ok v sets (Hs orgID)) as [Hn' Ho'].
  assert (Hin : p <| ps_Status := PsActive |> ∈ activate_one v <$> sets).
  { apply list_elem_of_fmap. exists p. split; [|done]. unfold activate_one. by rewrite Hv, Z.eqb_refl. }
  assert (Hfind : List.find is_active (activate_one v <$> sets) = Some (p <| ps_Status := PsActive |>))
    by (by apply find_active).
  split; [|split; [|split]].
  - intros q Hq. apply list_elem_of_fmap in Hq as (q1 & -> & _).
    rewrite activate_one_active, activate_one_version. apply Z.eqb_eq.
  - rewrite <- list_fmap_compose. apply list_fmap_ext. intros i q _. cbn. unfold activate_one.
    by destruct (_ =? _), (is_active q).
  - by rewrite Hfind.
  - by rewrite Hfind.
Qed.

Lemma run_SetPolicies orgID rules w :
  policies_ok (w_store w) ->
  let w' := (run (SetPolicies orgID rules) w).2 in
  fst (Policies orgID w') = rules /\
  exists p, fst (ActivePolicySet orgID w') = Some p /\ ps_Rules p = rules /\
    ps_Version p = Z.of_nat (S (length (sets_of (w_store w) orgID))).
Proof.
  intros Hs. cbn zeta. unfold SetPolicies. cbn [run].
  destruct (CreatePolicySet orgID rules "system" w) as [set w1] eqn:Ec.
  assert (Hs1 : policies_ok (w_store w1)).
  { pose proof (policies_ok_CreatePolicySet orgID rules "system" w Hs) as H. by rewrite Ec in H. }
  unfold CreatePolicySet, latestVersionLocked in Ec. cbn in Ec. injection Ec as Eset Ew.
  assert (Hsets : sets_of (w_store w1) orgID = sets_of (w_store w) orgID ++ [set]).
  { rewrite <- Ew, <- Eset. cbn. unfold sets_of. cbn. by rewrite lookup_insert_eq. }
  assert (Hver : ps_Version set = Z.of_nat (S (length (sets_of (w_store w) orgID)))).
  { rewrite <- Eset. cbn. rewrite latest_version_numbered by apply Hs. lia. }
  assert (Hrules : ps_Rules set = rules) by (by rewrite <- Eset).
  clear Eset Ew. unfold latestVersionLocked. cbn.
  assert (Hlv : latest_version (sets_of (w_store w1) orgID) = ps_Version set).
  { rewrite latest_version_numbered by apply Hs1. rewrite Hsets, length_app, Hver. cbn. lia. }
  rewrite Hlv. unfold ActivatePolicySet. cbn.
  assert (Hany : any (fun p => ps_Version p =? ps_Version set) (sets_of (w_store w1) orgID) = true).
  { apply any_true. exists set. split; [|apply Z.eqb_refl]. rewrite Hsets. apply elem_of_app.
    right. by left. }
  rewrite Hany. cbn. unfold sets_of at 1 3. cbn. rewrite lookup_insert_eq. cbn.
  destruct (activate_sets_ok (ps_Version set) _ (Hs1 orgID)) as [_ Ho].
  rewrite (find_active _ (set <| ps_Status := PsActive |>) Ho); [|..|done].
  - split; [done|]. by exists (set <| ps_Status := PsActive |>).
  - apply list_elem_of_fmap. exists set. split.
    + unfold activate_one. by rewrite Z.eqb_refl.
    + rewrite Hsets. apply elem_of_app. right. by left.
Qed.

(** SetPolicies run alone makes its rules the organization's policy: a
    new set with the next version is created and activated. *)
Theorem SetPolicies_effective orgID rules w :
  policies_ok (w_store w) ->
  let w' := (run (SetPolicies orgID rules) w).2 in
  fst (Policies orgID w') = rules /\
  exists p, fst (ActivePolicySet orgID w') = Some p /\ ps_Rules p = rules /\
    ps_Version p = Z.of_nat (S (length (sets_of (w_store w) orgID))).
Proof. apply run_SetPolicies. Qed.

End Steps.
