(* ===== verification/StoreSecrets.v ===== *)
(** * StoreSecrets: the rest of MemoryStore (internal/store/memory.go)

    Credentials, operator tokens, MCP servers, authority grants, sealed
    integration secrets and integration configuration. *)

From S2P Require Export Store.

Open Scope Z_scope.

Section Secrets.
Context `{RT : Runtime}.

(** ** Credentials *)

Definition StoreCredential (orgID agentID keyID secretHash : string) : M unit :=
  modify_store (fun s =>
    s <| st_credByKey ::= <[ keyID := MkCredRef orgID agentID secretHash false zero_time ]> |>
      <| st_credentials ::= <[ agentID := secretHash ]> |>).

(** The organization, agent and hash of a live credential. *)
Definition GetCredential (keyID : string) : M (option (string * string * string)) :=
  let* s := get_store in
  m_ret (match st_credByKey s !! keyID with
         | Some c => if cr_revoked c then None
                     else Some (cr_orgID c, cr_agentID c, cr_hash c)
         | None => None
         end).

(** First loop: one legacy hash per agent of the organization. *)
Definition legacy_hashes (orgID : string) (s : MemoryStore) (agents : list (string * Agent))
    : gmap string string :=
  foldl (fun out '(id, a) =>
    if String.eqb (ag_OrgID a) orgID then
      match st_credentials s !! id with
      | Some h => <[ id := h ]> out
      | None => out
      end
    else out) ∅ agents.

(** Second loop: keyed credentials override, revoked ones delete. *)
Definition keyed_hashes (orgID : string) (out : gmap string string) (creds : list (string * credRef))
    : gmap string string :=
  foldl (fun out '(_, c) =>
    if negb (String.eqb (cr_orgID c) orgID) then out
    else if cr_revoked c then delete (cr_agentID c) out
    else <[ cr_agentID c := cr_hash c ]> out) out creds.

Definition AgentCredentialHashes (orgID : string) : M (gmap string string) :=
  let* s := get_store in
  let* agents := ranging (st_agents s) in
  let* creds := ranging (st_credByKey s) in
  m_ret (keyed_hashes orgID (legacy_hashes orgID s agents) creds).

Definition CreateOperatorToken (orgID name keyID secretHash : string) : M unit :=
  modify_store (fun s =>
    s <| st_opTokens ::= <[ keyID := MkOpToken orgID name secretHash false zero_time ]> |>).

Definition GetOperatorToken (keyID : string) : M (option (string * string * string)) :=
  let* s := get_store in
  m_ret (match st_opTokens s !! keyID with
         | Some t => if ot_revoked t then None
                     else Some (ot_orgID t, ot_name t, ot_hash t)
         | None => None
         end).

Definition RevokeCredential (keyID : string) : M bool :=
  let* s := get_store in
  match st_credByKey s !! keyID with
  | Some c =>
      if cr_revoked c then m_ret false
      else
        let* _ := modify_store (fun s =>
          s <| st_credByKey ::= <[ keyID := c <| cr_revoked := true |> ]> |>) in
        m_ret true
  | None => m_ret false
  end.

Definition TouchCredential (keyID : string) : M unit :=
  let* s := get_store in
  match st_credByKey s !! keyID with
  | Some c =>
      let* t := now in
      modify_store (fun s => s <| st_credByKey ::= <[ keyID := c <| cr_lastUsed := t |> ]> |>)
  | None => m_ret tt
  end.

Definition TouchOperatorToken (keyID : string) : M unit :=
  let* s := get_store in
  match st_opTokens s !! keyID with
  | Some c =>
      let* t := now in
      modify_store (fun s => s <| st_opTokens ::= <[ keyID := c <| ot_lastUsed := t |> ]> |>)
  | None => m_ret tt
  end.

(** ** Sealing *)

Definition SetKeyProvider (p : option Provider) : M unit :=
  modify_store (fun s => s <| st_keyProvider := p |>).

Definition sealLocked (secret : string) : M string :=
  let* s := get_store in
  let* n := tick in
  m_ret (if String.eqb secret "" then secret
         else match st_keyProvider s with
              | None => secret
              | Some p => default secret (kp_Seal p n secret)
              end).

(** The read of [openLocked], for the code that holds the store. *)
Definition open_in (s : MemoryStore) (sealed : string) : option string :=
  if String.eqb sealed "" then Some ""
  else match st_keyProvider s with
       | None => Some sealed
       | Some p => kp_Open p sealed
       end.

Definition openLocked (sealed : string) : M (option string) :=
  let* s := get_store in m_ret (open_in s sealed).

(** ** MCP servers *)

Definition mcpKey (orgID name : string) : string := orgID +:+ "|" +:+ name.

Definition UpsertMCPServer (srv : MCPServer) (authToken : string) : M MCPServer :=
  let* id := (if String.eqb (ms_ID srv) "" then uid else m_ret (ms_ID srv)) in
  let* t := now in
  let srv := srv <| ms_ID := id |> <| ms_CreatedAt := t |>
                 <| ms_HasToken := negb (String.eqb authToken "") |> in
  let* token := sealLocked authToken in
  let* _ := modify_store (fun s =>
    s <| st_mcpServers ::= <[ mcpKey (ms_OrgID srv) (ms_Name srv) := MkMcpEntry srv token ]> |>) in
  m_ret srv.

Definition GetMCPServer (orgID name : string) : M (option (MCPServer * string)) :=
  let* s := get_store in
  match st_mcpServers s !! mcpKey orgID name with
  | None => m_ret None
  | Some e =>
      let* token := openLocked (me_token e) in
      m_ret (match token with
             | Some t => Some (me_server e, t)
             | None => None
             end)
  end.

Definition ListMCPServers (orgID : string) : M (list MCPServer) :=
  let* s := get_store in
  let* l := ranging (st_mcpServers s) in
  m_ret (base.filter (fun srv => ms_OrgID srv = orgID) (me_server <$> l.*2)).

(** ** Authority grants *)

Definition CreateGrant (g : AuthorityGrant) : M AuthorityGrant :=
  let* id := (if String.eqb (g_ID g) "" then uid else m_ret (g_ID g)) in
  let* t := now in
  let g := g <| g_ID := id |> <| g_IssuedAt := t |> in
  let* _ := modify_store (fun s => s <| st_grants ::= <[ id := g ]> |>) in
  m_ret g.

Definition GrantsForAgent (orgID agentID : string) : M (list AuthorityGrant) :=
  let* s := get_store in
  let* l := ranging (st_grants s) in
  m_ret (base.filter (fun g => g_OrgID g = orgID /\ g_AgentID g = agentID) l.*2).

Definition RevokeGrant (orgID grantID : string) : M bool :=
  let* s := get_store in
  match st_grants s !! grantID with
  | None => m_ret false
  | Some g =>
      if negb (String.eqb (g_OrgID g) orgID) || negb (bool_decide (g_RevokedAt g = None))
      then m_ret false
      else
        let* t := now in
        let* _ := modify_store (fun s =>
          s <| st_grants ::= <[ grantID := g <| g_RevokedAt := Some t |> ]> |>) in
        m_ret true
  end.

(** ** Integration secrets and configuration *)

(** [false] is the error "empty secret". *)
Definition SetIntegrationCredential (orgID name secret : string) : M bool :=
  if String.eqb secret "" then m_ret false
  else
    let* sealed := sealLocked secret in
    let* _ := modify_store (fun s =>
      s <| st_integCreds ::= <[ orgID +:+ "|" +:+ name := sealed ]> |>) in
    m_ret true.

(** What GetIntegrationCredential reads. *)
Definition credential_in (s : MemoryStore) (orgID name : string) : option string :=
  sealed ← st_integCreds s !! (orgID +:+ "|" +:+ name); open_in s sealed.

Definition GetIntegrationCredential (orgID name : string) : M (option string) :=
  let* s := get_store in m_ret (credential_in s orgID name).

Definition ListIntegrationCredentials (orgID : string) : M (list string) :=
  let* s := get_store in
  let* l := ranging (st_integCreds s) in
  m_ret ((fun k => TrimPrefix k (orgID +:+ "|")) <$>
         base.filter (fun k => HasPrefix k (orgID +:+ "|") = true) l.*1).

Definition SetIntegrationConfig (orgID name : string) (config : gomap) : M unit :=
  modify_store (fun s =>
    s <| st_integConfig ::= <[ orgID +:+ "|" +:+ name := default ∅ config ]> |>).

Definition config_in (s : MemoryStore) (orgID name : string) : option (gmap string value) :=
  st_integConfig s !! (orgID +:+ "|" +:+ name).

Definition GetIntegrationConfig (orgID name : string) : M (option (gmap string value)) :=
  let* s := get_store in m_ret (config_in s orgID name).

End Secrets.

(** ** Properties *)

(** The seal never loses a secret: whatever the key provider does when
    sealing, as long as it opens what it sealed and passes unsealed text
    through, a stored integration credential is read back unchanged, and an
    empty secret is refused without touching the store. *)
Theorem credential_roundtrip org name secret w :
  (forall p n sealed, st_keyProvider (w_store w) = Some p ->
     kp_Seal p n secret = Some sealed -> sealed <> "" /\ kp_Open p sealed = Some secret) ->
  (forall p n, st_keyProvider (w_store w) = Some p ->
     kp_Seal p n secret = None -> kp_Open p secret = Some secret) ->
  let '(ok, w') := SetIntegrationCredential org name secret w in
  ok = negb (String.eqb secret "") /\
  if ok then fst (GetIntegrationCredential org name w') = Some secret else w' = w.
Proof.
  intros Hopen Hplain.
  unfold SetIntegrationCredential, GetIntegrationCredential, credential_in, sealLocked, openLocked, open_in.
  destruct (String.eqb secret "") eqn:Es; [done|].
  cbn. split; [done|]. rewrite lookup_insert_eq. cbn.
  destruct (st_keyProvider (w_store w)) as [p|] eqn:Ep; cbn; [|by rewrite Es].
  destruct (kp_Seal p (w_tick w) secret) as [sealed|] eqn:Eseal; cbn.
  - destruct (Hopen p _ sealed eq_refl Eseal) as [Hne Ho].
    rewrite (proj2 (String.eqb_neq sealed "") Hne). done.
  - rewrite Es. by eapply Hplain.
Qed.

Definition demo_provider : Provider :=
  MkProvider "demo" (fun m => m) (fun m s => String.eqb m s)
    (fun _ s => Some ("v1:" +:+ s))
    (fun s => Some (if HasPrefix s "v1:" then drop_string 3 s else s)).

Definition demo_world : World :=
  (new_world (@DefaultRegistry demo)) <| w_store ::= fun s => s <| st_keyProvider := Some demo_provider |> |>
    <| w_signer := Some demo_provider |>.

Lemma credential_roundtrip_witness :
  let '(ok, w') := SetIntegrationCredential "o" "stripe" "sk_test_1" demo_world in
  ok = true /\ if ok then fst (GetIntegrationCredential "o" "stripe" w') = Some "sk_test_1"
               else w' = demo_world.
Proof.
  apply (credential_roundtrip "o" "stripe" "sk_test_1" demo_world).
  - cbn. intros p n sealed Hp Hs. injection Hp as <-. injection Hs as <-. by split.
  - cbn. intros p n Hp Hs. injection Hp as <-. discriminate Hs.
Defined.

(** A grant is revoked at most once and only by its own organization;
    revoking changes nothing but the revocation time, so a covered grant can
    never come back. *)
Theorem RevokeGrant_once `{RT : Runtime} org id w :
  let '(ok, w') := RevokeGrant org id w in
  (ok = true <-> exists g, st_grants (w_store w) !! id = Some g /\ g_OrgID g = org /\
                           g_RevokedAt g = None) /\
  (ok = true -> (exists g t, st_grants (w_store w) !! id = Some g /\
     st_grants (w_store w') = <[ id := g <| g_RevokedAt := Some t |> ]> (st_grants (w_store w))) /\
     fst (RevokeGrant org id w') = false) /\
  (ok = false -> w' = w).
Proof.
  unfold RevokeGrant; cbn. destruct (st_grants (w_store w) !! id) as [g|] eqn:Eg; cbn.
  2: { split; [|split]; [|done|done]. split; [done|]. intros (? & ? & _); congruence. }
  destruct (String.eqb (g_OrgID g) org) eqn:Eo; cbn.
  2: { bool_guards. split; [|split]; [|done|done]. split; [done|].
       intros (? & ? & ? & _); congruence. }
  destruct (bool_decide (g_RevokedAt g = None)) eqn:Er; cbn; bool_guards.
  - split; [|split]; [| |done].
    + split; [|done]. intros _. exists g. auto.
    + intros _. split; [by eauto|]. rewrite lookup_insert_eq. cbn. by rewrite Eo, orb_true_r.
  - split; [|split]; [|done|done]. split; [done|].
    intros (? & ? & ? & ?); congruence.
Qed.
