(* ===== verification/StoreSpec.v ===== *)
(** * StoreSpec: what the methods of the memory store promise

    The audit query, the decision of approvals and the tenant scope of every
    read, as specifications over the maps of the store. *)

From S2P Require Export PolicySets StoreSecrets.

Open Scope Z_scope.

(** ** Audit *)

(** The events a query selects. *)
Definition selected (orgID txnID : string) (e : AuditEvent) : Prop :=
  e_OrgID e = orgID /\ (txnID = "" \/ e_TransactionID e = txnID).

#[export] Instance selected_dec orgID txnID e : Decision (selected orgID txnID e) :=
  ltac:(unfold selected; apply _).

Lemma audit_loop_spec orgID txnID limit l out :
  Z.of_nat (length out) <= limit ->
  audit_loop orgID txnID limit l out =
  out ++ take (Z.to_nat limit - length out) (base.filter (selected orgID txnID) l).
Proof.
  revert out. induction l as [|e l IH]; intros out Hle; cbn [audit_loop].
  { by rewrite filter_nil, take_nil, app_nil_r. }
  rewrite filter_cons. destruct (Z.ltb_spec (Z.of_nat (length out)) limit) as [Hlt|Hge].
  2: { replace (Z.to_nat limit - length out)%nat with 0%nat by lia. by rewrite app_nil_r. }
  destruct (String.eqb (e_OrgID e) orgID) eqn:Eo; cbn [negb]; bool_guards.
  2: { rewrite decide_False by (by intros [? _]). by apply IH. }
  destruct (negb (String.eqb txnID "") && negb (String.eqb (e_TransactionID e) txnID)) eqn:Et.
  - bool_guards. rewrite decide_False by (by intros [_ [?|?]]). by apply IH.
  - apply andb_false_iff in Et. rewrite decide_True.
    2: { split; [done|]. destruct Et as [Et|Et]; bool_guards; auto. }
    rewrite IH by (rewrite length_app; cbn; lia). rewrite length_app. cbn [length].
    replace (Z.to_nat limit - length out)%nat with (S (Z.to_nat limit - (length out + 1))) by lia.
    cbn [take]. by rewrite <- app_assoc.
Qed.

Section Specs.
Context `{RT : Runtime}.

(** Audit returns the most recent events of the organization, newest
    first, restricted to the transaction when one is given, and at most
    [limit] of them (none for a limit that is not positive). *)
Theorem Audit_most_recent orgID txnID limit w :
  fst (Audit orgID txnID limit w) =
  take (Z.to_nat limit) (base.filter (selected orgID txnID) (reverse (st_audit (w_store w)))).
Proof.
  cbn. destruct (Z_le_gt_dec 0 limit) as [Hle|Hgt].
  - rewrite audit_loop_spec by done. cbn. by rewrite Nat.sub_0_r.
  - replace (Z.to_nat limit) with 0%nat by lia. cbn.
    destruct (reverse _) as [|e l]; cbn [audit_loop]; [done|].
    destruct (Z.ltb_spec (Z.of_nat (length (@nil AuditEvent))) limit); [cbn in *; lia|done].
Qed.

(** An approval is decided at most once, only while pending and only by
    its own organization: the decision is then recorded with its author and
    time, nothing else in the store changes, and any later decision is
    refused without effect. *)
Theorem DecideApproval_once orgID id by_ approve w :
  let '(r, w') := DecideApproval orgID id by_ approve w in
  (forall ap, st_approvals (w_store w) !! id = Some ap -> ap_OrgID ap = orgID ->
     ap_Status ap = ApPending ->
     exists t, r = Some (ap <| ap_Status := if approve then ApApproved else ApDenied |>
                            <| ap_DecidedBy := by_ |> <| ap_DecidedAt := Some t |>)) /\
  (r <> None -> exists ap, st_approvals (w_store w) !! id = Some ap /\ ap_OrgID ap = orgID /\
     ap_Status ap = ApPending) /\
  match r with
  | Some ap' =>
      w_store w' = (w_store w) <| st_approvals ::= <[ id := ap' ]> |> /\
      forall org by' approve', DecideApproval org id by' approve' w' = (None, w')
  | None => w' = w
  end.
Proof.
  unfold DecideApproval. cbn. destruct (st_approvals (w_store w) !! id) as [ap|] eqn:Ea; cbn.
  2: { split; [done|]. by split. }
  destruct (String.eqb (ap_OrgID ap) orgID) eqn:Eo; cbn.
  2: { bool_guards. split; [intros ap' Heq; injection Heq as <-; done|]. by split. }
  destruct (bool_decide (ap_Status ap = ApPending)) eqn:Es; cbn; bool_guards.
  2: { split; [intros ap' Heq; injection Heq as <-; done|]. by split. }
  split; [|split; [|split; [done|]]].
  - intros ap' Heq _ _. injection Heq as <-. by eexists.
  - intros _. by exists ap.
  - intros org by' approve'. rewrite lookup_insert_eq. cbn.
    rewrite bool_decide_false by (by destruct approve). by rewrite orb_true_r.
Qed.

End Specs.

Section Tenants.
Context `{RL : RuntimeLaws}.

Lemma ranging_values {A} (P : A -> Prop) `{!forall x, Decision (P x)} n (m : gmap string A) x :
  x ∈ base.filter P (range_map n m).*2 <-> exists id, m !! id = Some x /\ P x.
Proof.
  rewrite list_elem_of_filter, list_elem_of_fmap. split.
  - intros [HP ([id y] & -> & Hin)]. apply range_map_elem in Hin. by exists id.
  - intros (id & Hin & HP). split; [done|]. exists (id, x). split; [done|].
    by apply range_map_elem.
Qed.

(** Every read is scoped to its tenant and complete: lookups and lists
    of transactions, actions, approvals, agents, grants and receipts give
    exactly the entries of the caller's organization. *)
Theorem reads_are_tenant_scoped orgID w :
  (forall id t, fst (GetTxn orgID id w) = Some t <->
     st_txns (w_store w) !! id = Some t /\ t_OrgID t = orgID) /\
  (forall id a, fst (GetAction orgID id w) = Some a <->
     st_actions (w_store w) !! id = Some a /\ a_OrgID a = orgID) /\
  (forall id a, fst (GetApproval orgID id w) = Some a <->
     st_approvals (w_store w) !! id = Some a /\ ap_OrgID a = orgID) /\
  (forall id a, fst (GetAgent orgID id w) = Some a <->
     st_agents (w_store w) !! id = Some a /\ ag_OrgID a = orgID) /\
  (forall t, t ∈ fst (ListTxns orgID w) <->
     exists id, st_txns (w_store w) !! id = Some t /\ t_OrgID t = orgID) /\
  (forall txn a, a ∈ fst (ActionsForTxn orgID txn w) <->
     exists id, st_actions (w_store w) !! id = Some a /\ in_txn orgID txn a) /\
  (forall a, a ∈ fst (PendingApprovals orgID w) <->
     exists id, st_approvals (w_store w) !! id = Some a /\
       ap_OrgID a = orgID /\ ap_Status a = ApPending) /\
  (forall ag g, g ∈ fst (GrantsForAgent orgID ag w) <->
     exists id, st_grants (w_store w) !! id = Some g /\ g_OrgID g = orgID /\ g_AgentID g = ag) /\
  (forall txn r, r ∈ fst (ReceiptsForTxn orgID txn w) <->
     r ∈ st_receiptsList (w_store w) /\ r_OrgID r = orgID /\ r_TransactionID r = txn).
Proof.
  assert (Hget : forall A (m : gmap string A) (org : A -> string) id x,
    (y ← m !! id; if String.eqb (org y) orgID then Some y else None) = Some x <->
    m !! id = Some x /\ org x = orgID).
  { intros A m org id x. destruct (m !! id) as [y|]; cbn; [|by split; [|intros [? _]]].
    destruct (String.eqb (org y) orgID) eqn:Eo; bool_guards;
      (split; [intros Heq; by simplify_eq|intros [Heq ?]; by simplify_eq]). }
  do 4 (split; [intros; apply Hget|]). 
  split; [intros; apply (ranging_values (fun t => t_OrgID t = orgID))|].
  split; [intros txn a; apply (ranging_values (in_txn orgID txn))|].
  split; [intros; apply (ranging_values (fun a => ap_OrgID a = orgID /\ ap_Status a = ApPending))|].
  split; [intros ag g; apply (ranging_values (fun g => g_OrgID g = orgID /\ g_AgentID g = ag))|].
  intros txn r. cbn. rewrite list_elem_of_filter. tauto.
Qed.

End Tenants.
