(* ===== verification/StoreModel.v ===== *)
(** * StoreModel: what a store promises (internal/store/store.go)

    The contract of the Store interface as an abstract machine: a ledger of
    organizations, agents, transactions, actions, approvals, policy sets and
    grants, and one transition per call.  [MemRefine] and [PgRefine] prove
    that MemoryStore and PGStore implement it; what follows from the contract
    is proved here, once, for every implementation.

    The ledger abstracts from times (the two stores keep different
    precision), from arguments and results (Postgres keeps their JSON) and
    from the identifiers of rules and policy sets. *)

From S2P Require Export PolicySets StoreSecrets.

Open Scope Z_scope.

(** A TIMESTAMPTZ keeps microseconds. *)
Definition micro (t : time) : time := t / 1000 * 1000.

(** ** Views *)

Definition agent_view (a : Agent) : Agent := a <| ag_CreatedAt := 0 |>.

Definition txn_view (t : Transaction) : Transaction := t <| t_CreatedAt := 0 |> <| t_UpdatedAt := 0 |>.

Definition action_view (a : TxnAction) : TxnAction :=
  a <| a_Arguments := None |> <| a_Result := None |> <| a_CreatedAt := 0 |>.

Definition approval_view (a : Approval) : Approval :=
  a <| ap_CreatedAt := 0 |> <| ap_DecidedAt ::= fmap (fun _ => 0) |>.

Definition rule_view (r : PolicyRule) : PolicyRule := r <| pr_ID := "" |> <| pr_OrgID := "" |>.

Definition set_view (p : PolicySet) : PolicySet :=
  p <| ps_ID := "" |> <| ps_Rules ::= fmap rule_view |> <| ps_CreatedAt := 0 |>.

Definition grant_view (g : AuthorityGrant) : AuthorityGrant :=
  g <| g_IssuedAt := 0 |> <| g_ExpiresAt ::= fmap micro |> <| g_RevokedAt ::= fmap (fun _ => 0) |>.

(** ** The ledger and its operations *)

Record Ledger := MkLedger {
  l_orgs : gset string;
  l_principals : gset string;
  l_agents : gmap string Agent;
  l_txns : gmap string Transaction;
  l_actions : gmap string TxnAction;
  l_approvals : gmap string Approval;
  l_sets : gmap (string * Z) PolicySet;
  l_grants : gmap string AuthorityGrant }.

#[export] Instance eta_Ledger : Eta Ledger := fun l =>
  MkLedger (l_orgs l) (l_principals l) (l_agents l) (l_txns l) (l_actions l) (l_approvals l)
    (l_sets l) (l_grants l).

(** ** Texts

    What JSON and a JSONB column give back as it was: ASCII without NUL. *)
Definition plain_text (s : string) : bool :=
  all_chars (fun c => negb (Ascii.eqb c Ascii.zero) && is_ascii_char c) s.

Definition plain_effect (e : PolicyEffect) : bool :=
  plain_text (PolicyEffect_str e) && bool_decide (PolicyEffect_of_str (PolicyEffect_str e) = e).

Definition plain_decision (d : PolicyDecision) : bool :=
  plain_effect (d_Effect d) && plain_text (d_RuleID d) && plain_text (d_Explanation d) && plain_text (d_ReasonCode d).

Definition plain_match (m : PolicyMatch) : bool :=
  forallb plain_text (pm_AgentGroups m) && plain_text (pm_Tool m) && plain_text (pm_Action m) &&
  plain_text (pm_Environment m) && forallb plain_text (pm_Classifications m) &&
  forallb plain_text (pm_Environments m) && plain_text (pm_ResourcePrefix m).

Definition plain_rule (r : PolicyRule) : bool :=
  plain_text (pr_ID r) && plain_text (pr_OrgID r) && plain_text (pr_Name r) && plain_text (pr_Description r) &&
  plain_match (pr_Match r) && plain_effect (pr_Effect r) && plain_text (pr_Explanation r).

Definition plain_constraints (c : GrantConstraints) : bool := forallb plain_text (gc_Environments c).

Definition empty_ledger : Ledger := MkLedger ∅ ∅ ∅ ∅ ∅ ∅ ∅ ∅.

(** Calls of the interface. *)
Inductive Op :=
  | OSeedOrg (name : string)
  | OCreateAgent (orgID principalID name env : string) (groups : option (list string)) (secretHash : string)
  | OGetAgent (orgID id : string)
  | OCreateTxn (t : Transaction)
  | OGetTxn (orgID id : string)
  | OSetTxnStatus (orgID id : string) (st : TxnStatus)
  | OAddAction (a : TxnAction)
  | OGetAction (orgID id : string)
  | OUpdateAction (a : TxnAction)
  | OCreateApproval (a : Approval)
  | OGetApproval (orgID id : string)
  | ODecideApproval (orgID id by_ : string) (approve : bool)
  | OCreatePolicySet (orgID : string) (rules : list PolicyRule) (createdBy : string)
  | OActivatePolicySet (orgID : string) (version : Z)
  | OSetPolicies (orgID : string) (rules : list PolicyRule)
  | OPolicies (orgID : string)
  | OCreateGrant (g : AuthorityGrant)
  | OGrantsForAgent (orgID agentID : string)
  | ORevokeGrant (orgID id : string)
  | OListTxns (orgID : string)
  | OActionsForTxn (orgID txnID : string)
  | OPendingApprovals (orgID : string)
  | OPolicySets (orgID : string)
  | OActivePolicySet (orgID : string).

(** What they return. *)
Inductive Res :=
  | RSeed (org principal : string)
  | RAgent (a : option Agent)
  | RTxn (t : option Transaction)
  | RAction (a : option TxnAction) (dup : bool)
  | RApproval (a : option Approval)
  | RSet (p : PolicySet)
  | RRules (rules : list PolicyRule)
  | RGrants (gs : list AuthorityGrant)
  | RTxns (ts : list Transaction)
  | RActions (acts : list TxnAction)
  | RApprovals (aps : list Approval)
  | RSets (ps : list PolicySet)
  | RActive (p : option PolicySet)
  | RBool (b : bool)
  | RUnit.

(** A cross-tenant read behaves as not found. *)
Definition owned {A} (org_of : A -> string) (org : string) (x : option A) : option A :=
  a ← x; if String.eqb (org_of a) org then Some a else None.

(** What a store may answer for an agent without groups, which it may refuse
    to store. *)
Definition lost_agent (p : string) : Agent := MkAgent "" "" p "" [] "" "" 0.

Definition new_txn (id : string) (t : Transaction) : Transaction :=
  let t := (txn_view t) <| t_ID := id |> in
  if bool_decide (t_Status t = TxnZero) then t <| t_Status := TxnCreated |> else t.

Definition new_action `{Runtime} (id : string) (a : TxnAction) : TxnAction :=
  let h := Canonical (value_of_map (a_Arguments a)) in
  let a := (action_view a) <| a_ID := id |> <| a_ArgumentsHash := h |> in
  if bool_decide (a_Status a = StZero) then a <| a_Status := StProposed |> else a.

Definition same_request (a b : TxnAction) : Prop :=
  a_OrgID a = a_OrgID b /\ a_TransactionID a = a_TransactionID b /\
  a_IdempotencyKey a = a_IdempotencyKey b.

Definition new_approval (id : string) (a : Approval) : Approval :=
  (approval_view a) <| ap_ID := id |> <| ap_Status := ApPending |>.

Definition decided (by_ : string) (approve : bool) (a : Approval) : Approval :=
  a <| ap_Status := if approve then ApApproved else ApDenied |> <| ap_DecidedBy := by_ |>
    <| ap_DecidedAt := Some 0 |>.

Definition new_set (org : string) (v : Z) (rules : list PolicyRule) (by_ : string) : PolicySet :=
  MkPolicySet "" org v (rule_view <$> rules) PsDraft by_ 0.

Definition activate_in (org : string) (v : Z) (p : PolicySet) : PolicySet :=
  if String.eqb (ps_OrgID p) org then activate_one v p else p.

Definition agent_grants (org agent : string) (gs : list AuthorityGrant) : list AuthorityGrant :=
  base.filter (fun g => g_OrgID g = org /\ g_AgentID g = agent) gs.

Definition org_txns (org : string) (ts : list Transaction) : list Transaction :=
  base.filter (fun t => t_OrgID t = org) ts.

Definition pending_of (org : string) (aps : list Approval) : list Approval :=
  base.filter (fun a => ap_OrgID a = org /\ ap_Status a = ApPending) aps.

Section Spec.
Context `{RT : Runtime}.

(** The transitions.  An identifier in a result is one the store draws. *)
Inductive spec_step (l : Ledger) : Op -> Res -> Ledger -> Prop :=
  | spec_seed name org p :
      org ∉ l_orgs l -> p ∉ l_principals l ->
      spec_step l (OSeedOrg name) (RSeed org p)
        (l <| l_orgs ::= fun s => {[ org ]} ∪ s |> <| l_principals ::= fun s => {[ p ]} ∪ s |>)
  | spec_create_agent org p name env groups hash id :
      l_agents l !! id = None ->
      let a := MkAgent id org p name (default [] groups) env "active" 0 in
      spec_step l (OCreateAgent org p name env groups hash) (RAgent (Some a))
        (l <| l_agents ::= <[ id := a ]> |>)
  | spec_create_agent_lost org p name env hash :
      spec_step l (OCreateAgent org p name env None hash) (RAgent (Some (lost_agent p))) l
  | spec_get_agent org id :
      spec_step l (OGetAgent org id) (RAgent (owned ag_OrgID org (l_agents l !! id))) l
  | spec_create_txn t id :
      l_txns l !! id = None ->
      spec_step l (OCreateTxn t) (RTxn (Some (new_txn id t))) (l <| l_txns ::= <[ id := new_txn id t ]> |>)
  | spec_get_txn org id :
      spec_step l (OGetTxn org id) (RTxn (owned t_OrgID org (l_txns l !! id))) l
  | spec_set_status org id st t :
      owned t_OrgID org (l_txns l !! id) = Some t ->
      spec_step l (OSetTxnStatus org id st) (RBool true)
        (l <| l_txns ::= <[ id := t <| t_Status := st |> ]> |>)
  | spec_set_status_none org id st :
      owned t_OrgID org (l_txns l !! id) = None ->
      spec_step l (OSetTxnStatus org id st) (RBool false) l
  | spec_add_action a id :
      (forall i b, l_actions l !! i = Some b -> ~ same_request a b) -> l_actions l !! id = None ->
      spec_step l (OAddAction a) (RAction (Some (new_action id a)) false)
        (l <| l_actions ::= <[ id := new_action id a ]> |>)
  | spec_add_again a id b :
      l_actions l !! id = Some b -> same_request a b ->
      spec_step l (OAddAction a) (RAction (Some b) true) l
  | spec_get_action org id :
      spec_step l (OGetAction org id) (RAction (owned a_OrgID org (l_actions l !! id)) false) l
  | spec_update_action a :
      spec_step l (OUpdateAction a) RUnit (l <| l_actions ::= <[ a_ID a := action_view a ]> |>)
  | spec_create_approval a id :
      l_approvals l !! id = None ->
      spec_step l (OCreateApproval a) (RApproval (Some (new_approval id a)))
        (l <| l_approvals ::= <[ id := new_approval id a ]> |>)
  | spec_get_approval org id :
      spec_step l (OGetApproval org id) (RApproval (owned ap_OrgID org (l_approvals l !! id))) l
  | spec_decide org id by_ approve a :
      owned ap_OrgID org (l_approvals l !! id) = Some a -> ap_Status a = ApPending ->
      spec_step l (ODecideApproval org id by_ approve) (RApproval (Some (decided by_ approve a)))
        (l <| l_approvals ::= <[ id := decided by_ approve a ]> |>)
  | spec_decide_none org id by_ approve :
      (forall a, owned ap_OrgID org (l_approvals l !! id) = Some a -> ap_Status a <> ApPending) ->
      spec_step l (ODecideApproval org id by_ approve) (RApproval None) l
  | spec_create_set org rules by_ v :
      0 < v -> (v = 1 \/ exists p, l_sets l !! (org, v - 1) = Some p) ->
      (forall v' p, l_sets l !! (org, v') = Some p -> v' < v) ->
      spec_step l (OCreatePolicySet org rules by_) (RSet (new_set org v rules by_))
        (l <| l_sets ::= <[ (org, v) := new_set org v rules by_ ]> |>)
  | spec_activate org v p :
      l_sets l !! (org, v) = Some p ->
      spec_step l (OActivatePolicySet org v) (RBool true) (l <| l_sets ::= fmap (activate_in org v) |>)
  | spec_activate_none org v :
      l_sets l !! (org, v) = None ->
      spec_step l (OActivatePolicySet org v) (RBool false) l
  | spec_set_policies org rules p l1 l2 :
      spec_step l (OCreatePolicySet org rules "system") (RSet p) l1 ->
      spec_step l1 (OActivatePolicySet org (ps_Version p)) (RBool true) l2 ->
      spec_step l (OSetPolicies org rules) RUnit l2
  | spec_policies org v p :
      l_sets l !! (org, v) = Some p -> is_active p = true ->
      spec_step l (OPolicies org) (RRules (ps_Rules p)) l
  | spec_policies_none org :
      (forall v p, l_sets l !! (org, v) = Some p -> is_active p = false) ->
      spec_step l (OPolicies org) (RRules []) l
  | spec_create_grant g id :
      l_grants l !! id = None ->
      let g' := (grant_view g) <| g_ID := id |> in
      spec_step l (OCreateGrant g) (RGrants [g']) (l <| l_grants ::= <[ id := g' ]> |>)
  | spec_grants org agent gs :
      gs ≡ₚ agent_grants org agent (map_to_list (l_grants l)).*2 ->
      spec_step l (OGrantsForAgent org agent) (RGrants gs) l
  | spec_revoke org id g :
      owned g_OrgID org (l_grants l !! id) = Some g -> g_RevokedAt g = None ->
      spec_step l (ORevokeGrant org id) (RBool true)
        (l <| l_grants ::= <[ id := g <| g_RevokedAt := Some 0 |> ]> |>)
  | spec_revoke_none org id :
      (forall g, owned g_OrgID org (l_grants l !! id) = Some g -> g_RevokedAt g <> None) ->
      spec_step l (ORevokeGrant org id) (RBool false) l
  | spec_list_txns org ts :
      ts ≡ₚ org_txns org (map_to_list (l_txns l)).*2 ->
      spec_step l (OListTxns org) (RTxns ts) l
  | spec_actions org txn acts :
      acts ≡ₚ base.filter (in_txn org txn) (map_to_list (l_actions l)).*2 ->
      spec_step l (OActionsForTxn org txn) (RActions acts) l
  | spec_pending org aps :
      aps ≡ₚ pending_of org (map_to_list (l_approvals l)).*2 ->
      spec_step l (OPendingApprovals org) (RApprovals aps) l
  | spec_sets org ps :
      (forall p, p ∈ ps <-> exists v, l_sets l !! (org, v) = Some p) -> NoDup (ps_Version <$> ps) ->
      spec_step l (OPolicySets org) (RSets ps) l
  | spec_active org v p :
      l_sets l !! (org, v) = Some p -> is_active p = true ->
      spec_step l (OActivePolicySet org) (RActive (Some p)) l
  | spec_active_none org :
      (forall v p, l_sets l !! (org, v) = Some p -> is_active p = false) ->
      spec_step l (OActivePolicySet org) (RActive None) l.

(** ** When a call is admissible

    [idok] says which strings are identifiers; what a call refers to exists,
    and what is kept as JSON (decisions, rules, constraints) is plain text.
    Those apart, these are the calls the service and the handlers make. *)

Definition known_decision (d : option PolicyDecision) : Prop :=
  forall d' s, d = Some d' -> d_Effect d' <> EffectOther s.

Definition decision_plain (d : option PolicyDecision) : Prop :=
  forall d', d = Some d' -> plain_decision d' = true.

Definition optional (s : string) (known : gset string) : Prop := s = "" \/ s ∈ known.

Definition admissible (idok : string -> Prop) (l : Ledger) (op : Op) : Prop :=
  match op with
  | OSeedOrg _ => True
  | OCreateAgent org p _ _ _ _ => org ∈ l_orgs l /\ p ∈ l_principals l
  | OGetAgent org id | OGetTxn org id | OGetAction org id | OGetApproval org id
  | ODecideApproval org id _ _ | ORevokeGrant org id | OGrantsForAgent org id => idok org /\ idok id
  | OCreateTxn t =>
      t_OrgID t ∈ l_orgs l /\ t_AgentID t ∈ dom (l_agents l) /\ optional (t_PrincipalID t) (l_principals l)
  | OSetTxnStatus org id st => idok org /\ idok id /\ st <> TxnZero
  | OAddAction a =>
      a_OrgID a ∈ l_orgs l /\ a_TransactionID a ∈ dom (l_txns l) /\ known_decision (a_Decision a) /\
      decision_plain (a_Decision a)
  | OUpdateAction a =>
      exists cur, l_actions l !! a_ID a = Some cur /\ same_request a cur /\
        a_ArgumentsHash a = a_ArgumentsHash cur /\ a_Status a <> StZero /\ known_decision (a_Decision a) /\
        (a_Decision a = a_Decision cur \/ decision_plain (a_Decision a))
  | OCreateApproval a =>
      ap_OrgID a ∈ l_orgs l /\ ap_TransactionID a ∈ dom (l_txns l) /\
      (forall id, ap_ActionID a = Some id -> id ∈ dom (l_actions l)) /\
      optional (ap_RequestedBy a) (dom (l_agents l)) /\ ap_DecidedBy a = "" /\ ap_DecidedAt a = None
  | OCreatePolicySet org rules _ => org ∈ l_orgs l /\ Forall (fun r => plain_rule r = true) rules
  | OSetPolicies org rules => (org ∈ l_orgs l /\ Forall (fun r => plain_rule r = true) rules) /\ idok org
  | OActivatePolicySet org _ | OPolicies org | OListTxns org | OPendingApprovals org | OPolicySets org
  | OActivePolicySet org => idok org
  | OActionsForTxn org txn => idok org /\ idok txn
  | OCreateGrant g =>
      g_OrgID g ∈ l_orgs l /\ g_AgentID g ∈ dom (l_agents l) /\
      optional (g_PrincipalID g) (l_principals l) /\ g_ID g = "" /\ g_RevokedAt g = None /\
      plain_constraints (g_Constraints g) = true
  end.

(** The trace of a sequence of admissible calls. *)
Inductive spec_run (idok : string -> Prop) : Ledger -> list (Op * Res) -> Ledger -> Prop :=
  | run_nil l : spec_run idok l [] l
  | run_cons l op r l1 tr l2 :
      admissible idok l op -> spec_step l op r l1 -> spec_run idok l1 tr l2 ->
      spec_run idok l ((op, r) :: tr) l2.

End Spec.
