(* ===== verification/StoreContract.v ===== *)
(** * StoreContract: implementations of the Store interface, and what every
    one of them guarantees

    [Store] is the interface of internal/store/store.go: an implementation
    runs calls over a state of its own, and says which ledger a state stands
    for.  [StoreLaws] is the promise that each call is a transition of the
    contract.  The theorems about runs hold for every implementation. *)

From S2P Require Export StoreModel.

Open Scope Z_scope.

(** ** Generic lemmas of the implementations *)

Lemma owned_fmap {A} (f : A -> string) (g : A -> A) org (x : option A) :
  (forall a, f (g a) = f a) -> owned f org (g <$> x) = g <$> owned f org x.
Proof.
  intros Hf. unfold owned. destruct x as [a|]; cbn; [|done]. rewrite Hf. by destruct (String.eqb _ _).
Qed.

(** A lookup of the organization's own object, in the ledger. *)
Lemma ledger_owned {A} (f : A -> string) (g : A -> A) (m : gmap string A) org id :
  (forall a, f (g a) = f a) -> owned f org ((g <$> m) !! id) = g <$> owned f org (m !! id).
Proof. intros Hf. rewrite lookup_fmap. by apply owned_fmap. Qed.

Lemma find_fmap {A} (f : A -> bool) (g : A -> A) (l : list A) :
  (forall x, f (g x) = f x) -> List.find f (g <$> l) = g <$> List.find f l.
Proof. intros Hg. induction l as [|y l IH]; cbn; [done|]. rewrite Hg. by destruct (f y). Qed.

Lemma filter_fmap {A} (f : A -> A) (P : A -> Prop) `{forall x, Decision (P x)} (l : list A) :
  (forall x, P (f x) <-> P x) -> base.filter P (f <$> l) = f <$> base.filter P l.
Proof.
  intros Hf. induction l as [|x l IH]; [done|]. rewrite fmap_cons, !filter_cons.
  destruct (decide (P (f x))) as [Hp|Hp]; destruct (decide (P x)) as [Hq|Hq]; rewrite ?fmap_cons, ?IH; try done.
  - destruct Hq. by apply Hf.
  - destruct Hp. by apply Hf.
Qed.

Lemma values_fmap {A} (f : A -> A) (m : gmap string A) :
  (map_to_list (f <$> m)).*2 = f <$> (map_to_list m).*2.
Proof.
  rewrite map_to_list_fmap, <- !list_fmap_compose. apply list_fmap_ext. by intros ? [] ?.
Qed.

Lemma find_snoc {A} (f : A -> bool) (l : list A) x :
  List.find f (l ++ [x]) = match List.find f l with Some y => Some y | None => if f x then Some x else None end.
Proof. induction l as [|y l IH]; cbn; [done|]. by destruct (f y). Qed.

Class Store (St : Type) := {
  exec_op : Op -> program St Res;
  store_ok : Ledger -> St -> Prop;
  store_id : string -> Prop }.

Class StoreLaws (St : Type) `{RT : Runtime} `{!Store St} := {
  store_refines l s op :
    store_ok l s -> admissible store_id l op ->
    exists l', spec_step l op (run (exec_op op) s).1 l' /\ store_ok l' (run (exec_op op) s).2 }.

(** Calls made one after another: each is admissible in the ledger reached. *)
Section Runs.
Context {St : Type} `{RT : Runtime} `{ST : !Store St}.

Fixpoint exec_all (ops : list Op) (s : St) : list (Op * Res) * St :=
  match ops with
  | [] => ([], s)
  | op :: ops =>
      let '(r, s) := run (exec_op op) s in
      let '(tr, s) := exec_all ops s in ((op, r) :: tr, s)
  end.

End Runs.

Section Contract.
Context `{RT : Runtime}.

(** ** Invariant of the contract *)

Record ledger_ok (l : Ledger) : Prop := {
  lo_actions : forall id a, l_actions l !! id = Some a -> a_ID a = id;
  lo_approvals : forall id a, l_approvals l !! id = Some a -> ap_ID a = id;
  lo_unique : forall i j a b, l_actions l !! i = Some a -> l_actions l !! j = Some b ->
    same_request a b -> i = j;
  lo_sets : forall org v p, l_sets l !! (org, v) = Some p -> ps_OrgID p = org /\ ps_Version p = v;
  lo_one_active : forall org v v' p p', l_sets l !! (org, v) = Some p -> l_sets l !! (org, v') = Some p' ->
    is_active p = true -> is_active p' = true -> v = v';
  lo_txns : forall id t, l_txns l !! id = Some t -> t_ID t = id /\ t_Status t <> TxnZero;
  lo_known : forall id a, l_actions l !! id = Some a -> known_decision (a_Decision a) }.

(** What no call undoes: requests keep their action, decisions and
    revocations stand, policy sets keep their rules. *)
Record stands (l l' : Ledger) : Prop := {
  sd_actions : forall id a, l_actions l !! id = Some a ->
    exists a', l_actions l' !! id = Some a' /\ same_request a a';
  sd_approvals : forall id a, l_approvals l !! id = Some a -> ap_Status a <> ApPending ->
    l_approvals l' !! id = Some a;
  sd_grants : forall id g, l_grants l !! id = Some g -> g_RevokedAt g <> None ->
    l_grants l' !! id = Some g;
  sd_sets : forall k p, l_sets l !! k = Some p ->
    exists p', l_sets l' !! k = Some p' /\ ps_Rules p' = ps_Rules p }.

#[export] Instance same_request_equiv : Equivalence same_request.
Proof.
  split.
  - done.
  - intros a b (? & ? & ?). done.
  - intros a b c (? & ? & ?) (? & ? & ?). unfold same_request. repeat split; congruence.
Qed.

Lemma stands_refl l : stands l l.
Proof. split; eauto. intros id a Ha. by exists a. Qed.

Lemma stands_trans l1 l2 l3 : stands l1 l2 -> stands l2 l3 -> stands l1 l3.
Proof.
  intros [A P G S] [A' P' G' S']. split; eauto.
  - intros id a Ha. destruct (A _ _ Ha) as (b & Hb & Hs). destruct (A' _ _ Hb) as (c & Hc & Hs').
    exists c. split; [done|]. by etrans.
  - intros k p Hp. destruct (S _ _ Hp) as (q & Hq & Hr). destruct (S' _ _ Hq) as (r & Hr' & Hr2).
    exists r. split; [done|]. congruence.
Qed.

Lemma owned_Some {A} (f : A -> string) org x a :
  owned f org x = Some a <-> x = Some a /\ f a = org.
Proof.
  unfold owned. destruct x as [b|]; cbn; [|naive_solver].
  destruct (String.eqb_spec (f b) org); naive_solver.
Qed.

(** An insertion over an entry that may be overwritten. *)
Lemma stands_map {A} (R : A -> A -> Prop) (P : A -> Prop) (m : gmap string A) id x :
  (forall a, R a a) -> (forall a, m !! id = Some a -> P a -> R a x) ->
  forall i a, m !! i = Some a -> P a -> exists a', <[ id := x ]> m !! i = Some a' /\ R a a'.
Proof.
  intros Hr Hx i a Hi HP. destruct (decide (id = i)) as [->|Hne].
  - exists x. rewrite lookup_insert_eq. split; [done|]. by apply Hx.
  - exists a. rewrite lookup_insert_ne by done. by split.
Qed.

Lemma lookup_insert_keep {A} (m : gmap string A) id x i (a : A) :
  m !! i = Some a -> (m !! id = Some a -> i <> id) -> <[ id := x ]> m !! i = Some a.
Proof.
  intros Hi Hx. destruct (decide (id = i)) as [->|Hne]; [by destruct (Hx Hi)|].
  by rewrite lookup_insert_ne.
Qed.

Lemma activate_in_rules org v p : ps_Rules (activate_in org v p) = ps_Rules p.
Proof.
  unfold activate_in, activate_one.
  by destruct (String.eqb _ org), (ps_Version p =? v), (is_active p).
Qed.

(** What the calls on policy sets do. *)
Lemma spec_create_set_inv l org rules by_ r l' : spec_step l (OCreatePolicySet org rules by_) r l' ->
  exists v, r = RSet (new_set org v rules by_) /\ l' = l <| l_sets ::= <[ (org, v) := new_set org v rules by_ ]> |> /\
    forall v' p, l_sets l !! (org, v') = Some p -> v' < v.
Proof. inversion 1. subst. by eexists. Qed.

Lemma spec_activate_inv l org v r l' p : spec_step l (OActivatePolicySet org v) r l' ->
  l_sets l !! (org, v) = Some p -> r = RBool true /\ l' = l <| l_sets ::= fmap (activate_in org v) |>.
Proof. inversion 1; subst; [done|congruence]. Qed.

Lemma spec_policies_inv l org r l' : spec_step l (OPolicies org) r l' ->
  (exists v p, l_sets l !! (org, v) = Some p /\ is_active p = true /\ r = RRules (ps_Rules p)) \/
  (forall v p, l_sets l !! (org, v) = Some p -> is_active p = false) /\ r = RRules [].
Proof. inversion 1; subst; [left; by do 2 eexists|by right]. Qed.

(** The rules of the active policy set of an organization. *)
Definition in_force (org : string) (rules : list PolicyRule) (l : Ledger) : Prop :=
  exists v p, l_sets l !! (org, v) = Some p /\ ps_OrgID p = org /\ is_active p = true /\
    ps_Rules p = rule_view <$> rules.

Lemma spec_set_policies_inv l org rules r l' : spec_step l (OSetPolicies org rules) r l' ->
  l_orgs l' = l_orgs l /\ in_force org rules l'.
Proof.
  intros Hs. inversion Hs as [| | | | | | | | | | | | | | | | | | |? ? p l1 l2 Hc Ha| | | | | | | | | | | |]; subst.
  apply spec_create_set_inv in Hc as (v & E & -> & _).
  assert (p = new_set org v rules "system") as -> by congruence.
  eapply spec_activate_inv in Ha as [_ ->]; [|apply lookup_insert_eq]. split; [done|].
  exists v, (activate_in org v (new_set org v rules "system")). cbn. rewrite lookup_fmap, lookup_insert_eq. cbn.
  unfold activate_in, activate_one. cbn. by rewrite string_eqb_refl, Z.eqb_refl.
Qed.

(** They change with the policies of that organization only. *)
Lemma in_force_stays org rules l op r l' : spec_step l op r l' ->
  (forall v, op <> OActivatePolicySet org v) -> (forall rs, op <> OSetPolicies org rs) ->
  in_force org rules l -> in_force org rules l'.
Proof.
  intros Hs. induction Hs as [| | | | | | | | | | | | | | | | | | | ? ? ? ? ? ? ? IH1 ? IH2 | | | | | | | | | | | |];
    intros Ha Hp Hin; try exact Hin.
  - destruct Hin as (w & p & Hp0 & Hrest). exists w, p. split; [|done]. cbn. rewrite lookup_insert_ne; [done|].
    intros [= -> ->]. apply H1 in Hp0. lia.
  - destruct Hin as (w & q & Hq & Ho & Hrest). exists w, q. split; [|done]. cbn. rewrite lookup_fmap, Hq. cbn. f_equal.
    unfold activate_in. rewrite (proj2 (String.eqb_neq _ _)); [done|]. rewrite Ho. intros <-. by eapply Ha.
  - apply IH2; [intros v [= -> _]; by eapply Hp|done|]. by apply IH1.
Qed.

Lemma spec_stands l op r l' idok : admissible idok l op -> spec_step l op r l' -> stands l l'.
Proof.
  intros Hadm H. revert Hadm.
  induction H as [| | | | | | | | | | | | | | | | | | | ? ? ? ? ? ? ? IH1 ? IH2 | | | | | | | | | | | |];
    intros Hadm; try apply stands_refl;
    try solve [destruct Hadm; eapply stands_trans; [by apply IH1|by apply IH2]]; split; cbn;
    try (by eauto); try (intros i b Hi; by exists b).
  - intros i b Hi. apply (stands_map same_request (fun _ => True)); [done| |done|done].
    intros c Hc. congruence.
  - intros i b Hi. destruct Hadm as (cur & Hcur & Hs & _).
    apply (stands_map same_request (fun _ => True)); [done| |done|done].
    intros c Hc _. rewrite Hcur in Hc. injection Hc as <-. symmetry. etrans; [|exact Hs].
    by destruct a.
  - intros i b Hi _. apply lookup_insert_keep; [done|]. intros Hid. congruence.
  - intros i b Hi Hd. apply owned_Some in H as [Ha _]. apply lookup_insert_keep; [done|].
    intros Hid. congruence.
  - intros k p Hp. exists p. split; [|done]. destruct k as [o w]. rewrite lookup_insert_ne; [done|].
    intros [= -> ->]. apply H1 in Hp. lia.
  - intros k q Hq. exists (activate_in org v q). rewrite lookup_fmap, Hq. split; [done|].
    apply activate_in_rules.
  - intros i b Hi _. apply lookup_insert_keep; [done|]. intros Hid. congruence.
  - intros i b Hi Hd. apply owned_Some in H as [Ha _]. apply lookup_insert_keep; [done|].
    intros Hid. congruence.
Qed.

Lemma activate_in_key org v p :
  ps_OrgID (activate_in org v p) = ps_OrgID p /\ ps_Version (activate_in org v p) = ps_Version p.
Proof.
  unfold activate_in, activate_one.
  by destruct (String.eqb _ org), (ps_Version p =? v), (is_active p).
Qed.

Lemma activate_in_active org v p : is_active (activate_in org v p) = true ->
  if String.eqb (ps_OrgID p) org then ps_Version p = v else is_active p = true.
Proof.
  unfold activate_in. destruct (String.eqb (ps_OrgID p) org); [|done].
  rewrite activate_one_active. apply Z.eqb_eq.
Qed.

Lemma new_action_request `{Runtime} id a : same_request (new_action id a) a.
Proof. unfold new_action. cbv zeta. by destruct (bool_decide _), a. Qed.

Lemma insert_unique (m : gmap string TxnAction) id x :
  (forall i j a b, m !! i = Some a -> m !! j = Some b -> same_request a b -> i = j) ->
  (forall i b, m !! i = Some b -> ~ same_request x b) ->
  forall i j a b, <[ id := x ]> m !! i = Some a -> <[ id := x ]> m !! j = Some b -> same_request a b -> i = j.
Proof.
  intros Hu Hx i j a b Hi Hj Hs.
  apply lookup_insert_Some in Hi as [[<- <-]|[Hni Hi]], Hj as [[<- <-]|[Hnj Hj]]; [done| | |by eapply Hu].
  - by destruct (Hx _ _ Hj).
  - destruct (Hx _ _ Hi). by symmetry.
Qed.

Lemma replace_same (m : gmap string TxnAction) id cur x :
  (forall i j a b, m !! i = Some a -> m !! j = Some b -> same_request a b -> i = j) ->
  m !! id = Some cur -> same_request x cur ->
  forall i j a b, <[ id := x ]> m !! i = Some a -> <[ id := x ]> m !! j = Some b -> same_request a b -> i = j.
Proof.
  intros Hu Hcur Hs.
  assert (Hget : forall i b, <[ id := x ]> m !! i = Some b -> exists c, m !! i = Some c /\ same_request b c).
  { intros i b Hi. apply lookup_insert_Some in Hi as [[<- <-]|[_ Hi]]; [by exists cur|by exists b]. }
  intros i j a b Hi Hj Hab. apply Hget in Hi as (a' & Hi & Ha), Hj as (b' & Hj & Hb).
  eapply Hu; [exact Hi|exact Hj|]. by rewrite <- Ha, <- Hb.
Qed.

Lemma ledger_ok_actions l m :
  ledger_ok l ->
  (forall id a, m !! id = Some a -> a_ID a = id) ->
  (forall i j a b, m !! i = Some a -> m !! j = Some b -> same_request a b -> i = j) ->
  (forall id a, m !! id = Some a -> known_decision (a_Decision a)) ->
  ledger_ok (l <| l_actions := m |>).
Proof. intros [A P U S O T K] Ha Hu Hk. by split. Qed.

Lemma new_action_decision `{Runtime} id a : a_Decision (new_action id a) = a_Decision a.
Proof. unfold new_action. cbv zeta. by destruct (bool_decide _). Qed.

Lemma new_txn_ok id t : t_ID (new_txn id t) = id /\ t_Status (new_txn id t) <> TxnZero.
Proof. unfold new_txn. case_bool_decide; by split. Qed.

(** A transaction is kept under its identifier. *)
Lemma ledger_ok_txn l id t : ledger_ok l -> t_ID t = id /\ t_Status t <> TxnZero -> ledger_ok (l <| l_txns ::= <[ id := t ]> |>).
Proof.
  intros [A P U S O T K] Ht. split; cbn; try done.
  intros i x Hx. apply lookup_insert_Some in Hx as [[<- <-]|[_ Hx]]; [done|by apply T].
Qed.

(** A new policy set is a draft. *)
Lemma ledger_ok_new_set l org v rules by_ :
  ledger_ok l -> ledger_ok (l <| l_sets ::= <[ (org, v) := new_set org v rules by_ ]> |>).
Proof.
  intros [A P U S O T K]. split; cbn; [done|done|done| | |done|done].
  - intros o w p Hp. destruct (decide ((org, v) = (o, w))) as [[= -> ->]|Hne].
    + rewrite lookup_insert_eq in Hp. injection Hp as <-. done.
    + rewrite lookup_insert_ne in Hp by done. by apply S.
  - intros o w w' p p' Hp Hp' Ha Ha'.
    destruct (decide ((org, v) = (o, w))) as [[= -> ->]|Hne].
    { rewrite lookup_insert_eq in Hp. injection Hp as <-. discriminate Ha. }
    destruct (decide ((org, v) = (o, w'))) as [[= -> ->]|Hne'].
    { rewrite lookup_insert_eq in Hp'. injection Hp' as <-. discriminate Ha'. }
    rewrite lookup_insert_ne in Hp, Hp' by done. by eapply O.
Qed.

(** Activation leaves one active set. *)
Lemma ledger_ok_activated l org v : ledger_ok l -> ledger_ok (l <| l_sets ::= fmap (activate_in org v) |>).
Proof.
  intros [A P U S O T K]. split; cbn; [done|done|done| | |done|done].
  - intros o w q Hq. rewrite lookup_fmap in Hq. destruct (l_sets l !! (o, w)) as [q0|] eqn:E; [|done].
    injection Hq as <-. destruct (activate_in_key org v q0) as [-> ->]. by apply S.
  - intros o w w' q q' Hq Hq' Ha Ha'. rewrite lookup_fmap in Hq, Hq'.
    destruct (l_sets l !! (o, w)) as [q0|] eqn:E; [|done].
    destruct (l_sets l !! (o, w')) as [q1|] eqn:E'; [|done]. injection Hq as <-. injection Hq' as <-.
    apply activate_in_active in Ha, Ha'. destruct (S _ _ _ E) as [Ho <-], (S _ _ _ E') as [Ho' <-].
    rewrite Ho, Ho' in *. destruct (String.eqb o org); [congruence|].
    eapply O; [exact E|exact E'|done|done].
Qed.

Lemma spec_ok l op r l' idok :
  admissible idok l op -> ledger_ok l -> spec_step l op r l' -> ledger_ok l'.
Proof.
  intros Hadm Hok H. revert Hadm Hok.
  induction H as [| | | | | | | | | | | | | | | | | | | ? ? ? ? ? ? ? IH1 ? IH2 | | | | | | | | | | | |];
    intros Hadm Hok; try solve [destruct Hadm; apply IH2; [done|by apply IH1]];
    pose proof Hok as [A P U S O T K]; try done; try by split.
  - apply ledger_ok_txn; [done|apply new_txn_ok].
  - apply ledger_ok_txn; [done|]. apply owned_Some in H as [H _].
    split; [apply (T _ _ H)|apply Hadm].
  - apply (ledger_ok_actions l (<[ id := new_action id a ]> (l_actions l)) Hok).
    + intros i b Hi. destruct (decide (id = i)) as [->|Hne].
      * rewrite lookup_insert_eq in Hi. injection Hi as <-. unfold new_action. cbv zeta.
        by destruct (bool_decide _).
      * rewrite lookup_insert_ne in Hi by done. by apply A.
    + apply insert_unique; [done|]. intros i b Hb Hs. destruct (H _ _ Hb). rewrite <- Hs.
      symmetry. apply new_action_request.
    + intros i b Hi. apply lookup_insert_Some in Hi as [[_ <-]|[_ Hi]]; [|by eapply K].
      rewrite new_action_decision. apply Hadm.
  - destruct Hadm as (cur & Hcur & Hs & _ & _ & Hk & _).
    assert (Hv : same_request (action_view a) cur) by (etrans; [|exact Hs]; by destruct a).
    apply (ledger_ok_actions l (<[ a_ID a := action_view a ]> (l_actions l)) Hok).
    + intros i b Hi. destruct (decide (a_ID a = i)) as [<-|Hne].
      * rewrite lookup_insert_eq in Hi. injection Hi as <-. by destruct a.
      * rewrite lookup_insert_ne in Hi by done. by apply A.
    + by apply (replace_same _ _ cur).
    + intros i b Hi. apply lookup_insert_Some in Hi as [[_ <-]|[_ Hi]]; [exact Hk|by eapply K].
  - split; cbn; try done. intros i b Hi. apply lookup_insert_Some in Hi as [[<- <-]|[_ Hi]]; [done|by apply P].
  - split; cbn; try done. intros i b Hi. apply owned_Some in H as [Ha _].
    apply lookup_insert_Some in Hi as [[<- <-]|[_ Hi]]; [exact (P _ _ Ha)|by apply P].
  - by apply ledger_ok_new_set.
  - by apply ledger_ok_activated.
Qed.

(** ** Runs *)

Lemma spec_run_ok idok l tr l' : ledger_ok l -> spec_run idok l tr l' -> ledger_ok l' /\ stands l l'.
Proof.
  intros Hok H. induction H as [l|l op r l1 tr l2 Ha Hs Hr IH]; [split; [done|apply stands_refl]|].
  destruct (IH (spec_ok _ _ _ _ _ Ha Hok Hs)) as [Hok2 Hst]. split; [done|].
  eapply stands_trans; [by eapply spec_stands|exact Hst].
Qed.

(** A call in a run, with the ledgers around it. *)
Lemma spec_run_at idok l tr l' i op r :
  ledger_ok l -> spec_run idok l tr l' -> tr !! i = Some (op, r) ->
  exists l1 l2, ledger_ok l1 /\ admissible idok l1 op /\ spec_step l1 op r l2 /\
    spec_run idok l2 (drop (S i) tr) l'.
Proof.
  intros Hok H. revert i. induction H as [l|l op' r' l1 tr l2 Ha Hs Hr IH]; intros i Hi; [done|].
  destruct i as [|i].
  - injection Hi as -> ->. exists l, l1. split; [done|]. split; [done|]. split; [done|].
    exact Hr.
  - apply IH; [by eapply spec_ok|done].
Qed.

(** Two calls of a run: what stood after the first stands before the second. *)
Lemma spec_run_two idok l tr l' i j op r op' r' :
  ledger_ok l -> spec_run idok l tr l' -> (i < j)%nat ->
  tr !! i = Some (op, r) -> tr !! j = Some (op', r') ->
  exists l1 l2 l3 l4, admissible idok l1 op /\ spec_step l1 op r l2 /\ ledger_ok l2 /\ stands l2 l3 /\
    ledger_ok l3 /\ spec_step l3 op' r' l4.
Proof.
  intros Hok H Hij Hi Hj.
  destruct (spec_run_at _ _ _ _ _ _ _ Hok H Hi) as (l1 & l2 & Hok1 & Ha & Hs & Hr).
  assert (Hok2 : ledger_ok l2) by by eapply spec_ok.
  assert (Hj' : drop (S i) tr !! (j - S i)%nat = Some (op', r')).
  { rewrite lookup_drop. replace (S i + (j - S i))%nat with j by lia. done. }
  clear Hj. revert Hj' Hr. generalize (drop (S i) tr), (j - S i)%nat. intros tr2 k Hk Hr.
  exists l1, l2.
  assert (Hx : exists l3 l4, stands l2 l3 /\ ledger_ok l3 /\ spec_step l3 op' r' l4).
  { clear Hs Ha Hok1 H Hi. revert k Hk. induction Hr as [l2|l2 o q l3 tr2 l5 Ha2 Hs2 Hr2 IH]; intros k Hk; [done|].
    destruct k as [|k].
    - injection Hk as -> ->. exists l2, l3. split; [apply stands_refl|done].
    - destruct (IH (spec_ok _ _ _ _ _ Ha2 Hok2 Hs2) k Hk) as (l6 & l7 & Hst & Hok6 & Hs6).
      exists l6, l7. split; [|done]. eapply stands_trans; [by eapply spec_stands|exact Hst]. }
  destruct Hx as (l3 & l4 & Hst & Hok3 & Hs'). exists l3, l4. done.
Qed.

(** What the calls before one of the run preserve holds when it is made. *)
Lemma spec_run_keeps (P : Ledger -> Prop) idok l tr l' k op r :
  ledger_ok l -> spec_run idok l tr l' -> tr !! k = Some (op, r) -> P l ->
  (forall m opm rm l1 l2, (m < k)%nat -> tr !! m = Some (opm, rm) -> P l1 -> spec_step l1 opm rm l2 -> P l2) ->
  exists l1 l2, ledger_ok l1 /\ P l1 /\ spec_step l1 op r l2.
Proof.
  intros Hok H. revert k. induction H as [l|l op' r' l1 tr l2 Ha Hs Hr IH]; intros k Hk HP Hkeep; [done|].
  destruct k as [|k].
  - injection Hk as -> ->. by exists l, l1.
  - apply (IH (spec_ok _ _ _ _ _ Ha Hok Hs) k Hk).
    + by eapply (Hkeep 0%nat); [lia|done|done|].
    + intros m opm rm m1 m2 Hm Hmm. apply (Hkeep (S m)); [lia|done].
Qed.

Lemma ledger_ok_empty : ledger_ok empty_ledger.
Proof. split; intros *; cbn; rewrite lookup_empty; done. Qed.

End Contract.

(** ** Every implementation *)

Section Implementations.
Context {St : Type} `{RT : Runtime} `{ST : !Store St} `{SL : !StoreLaws St}.

(** The calls are admissible, whichever ledger stands for the states they
    are made in. *)
Fixpoint callable (ops : list Op) (s : St) : Prop :=
  match ops with
  | [] => True
  | op :: ops => (forall l, store_ok l s -> admissible store_id l op) /\
                 callable ops (run (exec_op op) s).2
  end.

Lemma exec_all_refines ops l s :
  store_ok l s -> callable ops s ->
  exists l', spec_run store_id l (exec_all ops s).1 l' /\ store_ok l' (exec_all ops s).2.
Proof.
  revert l s. induction ops as [|op ops IH]; intros l s Hok Hc; cbn [exec_all].
  { exists l. split; [constructor|done]. }
  destruct Hc as [Ha Hc]. specialize (Ha l Hok).
  destruct (store_refines l s op Hok Ha) as (l1 & Hs & Hok1).
  destruct (run (exec_op op) s) as [r s1]. cbn [fst snd] in *.
  destruct (IH l1 s1 Hok1 Hc) as (l2 & Hr & Hok2). destruct (exec_all ops s1) as [tr s2].
  exists l2. split; [by econstructor|done].
Qed.

(** What the results of a sequence of calls satisfy: repeating a request
    (organization, transaction, idempotency key) returns the first action,
    marked as a duplicate, and the action stays listed under its transaction;
    an approval is decided once and no longer pending then; a grant is revoked
    once; the policies of an organization are those that were set last; what is
    read for an organization belongs to it. *)
Record honoured (tr : list (Op * Res)) : Prop := {
  hn_repeat : forall i j a b x y d d', (i < j)%nat -> tr !! i = Some (OAddAction a, RAction (Some x) d) ->
    tr !! j = Some (OAddAction b, RAction (Some y) d') -> same_request a b -> a_ID y = a_ID x /\ d' = true;
  hn_listed : forall i j a x d acts, (i < j)%nat -> tr !! i = Some (OAddAction a, RAction (Some x) d) ->
    tr !! j = Some (OActionsForTxn (a_OrgID a) (a_TransactionID a), RActions acts) ->
    exists y, y ∈ acts /\ a_ID y = a_ID x /\ same_request a y;
  hn_decided : forall i j o o' id b b' v v' x y, (i < j)%nat ->
    tr !! i = Some (ODecideApproval o id b v, RApproval (Some x)) ->
    tr !! j = Some (ODecideApproval o' id b' v', RApproval (Some y)) -> False;
  hn_not_pending : forall i j o o' id b v x aps y, (i < j)%nat ->
    tr !! i = Some (ODecideApproval o id b v, RApproval (Some x)) ->
    tr !! j = Some (OPendingApprovals o', RApprovals aps) -> y ∈ aps -> ap_ID y <> id;
  hn_revoked : forall i j o o' id, (i < j)%nat -> tr !! i = Some (ORevokeGrant o id, RBool true) ->
    tr !! j = Some (ORevokeGrant o' id, RBool true) -> False;
  hn_policies : forall i j o rules r res, (i < j)%nat -> tr !! i = Some (OSetPolicies o rules, r) ->
    (forall m op r', (i < m < j)%nat -> tr !! m = Some (op, r') ->
       (forall v, op <> OActivatePolicySet o v) /\ (forall rs, op <> OSetPolicies o rs)) ->
    tr !! j = Some (OPolicies o, res) -> res = RRules (rule_view <$> rules);
  hn_txn : forall i o id t, tr !! i = Some (OGetTxn o id, RTxn (Some t)) -> t_OrgID t = o;
  hn_txns : forall i o ts t, tr !! i = Some (OListTxns o, RTxns ts) -> t ∈ ts -> t_OrgID t = o;
  hn_action : forall i o id a d, tr !! i = Some (OGetAction o id, RAction (Some a) d) -> a_OrgID a = o;
  hn_approval : forall i o id a, tr !! i = Some (OGetApproval o id, RApproval (Some a)) -> ap_OrgID a = o;
  hn_agent : forall i o id a, tr !! i = Some (OGetAgent o id, RAgent (Some a)) -> ag_OrgID a = o }.

Lemma added_request l a x d l' : ledger_ok l' -> spec_step l (OAddAction a) (RAction (Some x) d) l' ->
  exists z, l_actions l' !! a_ID x = Some z /\ same_request a z.
Proof.
  intros Hok Hs. inversion Hs; subst.
  - exists (new_action id a). cbn.
    assert (a_ID (new_action id a) = id) as -> by (unfold new_action; cbv zeta; by destruct (bool_decide _)).
    rewrite lookup_insert_eq. split; [done|]. symmetry. apply new_action_request.
  - exists x. match goal with H : l_actions l' !! _ = Some x |- _ => by rewrite (lo_actions _ Hok _ _ H) end.
Qed.

Lemma decided_stands l o id b v x l2 l3 : spec_step l (ODecideApproval o id b v) (RApproval (Some x)) l2 -> stands l2 l3 ->
  exists z, l_approvals l3 !! id = Some z /\ ap_Status z <> ApPending.
Proof.
  intros Hs Hst. inversion Hs; subst. cbn in *. exists (decided b v a).
  assert (Hd : ap_Status (decided b v a) <> ApPending) by by destruct v.
  split; [|done]. apply (sd_approvals _ _ Hst id); [apply lookup_insert_eq|done].
Qed.

Lemma revoked_stands l o id l2 l3 : spec_step l (ORevokeGrant o id) (RBool true) l2 -> stands l2 l3 ->
  exists z, l_grants l3 !! id = Some z /\ g_RevokedAt z <> None.
Proof.
  intros Hs Hst. inversion Hs; subst. eexists. split; [apply (sd_grants _ _ Hst id); cbn; [apply lookup_insert_eq|done]|done].
Qed.

Lemma elem_of_values {A} (m : gmap string A) x : x ∈ (map_to_list m).*2 <-> exists k, m !! k = Some x.
Proof.
  rewrite list_elem_of_fmap. split.
  - intros ([k y] & -> & Hin). exists k. by apply elem_of_map_to_list.
  - intros [k Hk]. exists (k, x). split; [done|]. by apply elem_of_map_to_list.
Qed.

(** The object found is the organization's own. *)
Ltac own_read :=
  match goal with
  | H : owned _ _ _ = Some _ |- _ => by apply owned_Some in H as [_ ?]
  | H : Some _ = owned _ _ _ |- _ => symmetry in H; by apply owned_Some in H as [_ ?]
  end.

Lemma spec_run_step idok l tr l' : ledger_ok l -> spec_run idok l tr l' ->
  forall i op r, tr !! i = Some (op, r) -> exists l1 l2, spec_step l1 op r l2.
Proof.
  intros Hl Hr i op r Hi. destruct (spec_run_at _ _ _ _ _ _ _ Hl Hr Hi) as (l1 & l2 & _ & _ & Hs & _). by exists l1, l2.
Qed.

(** The policies read are those set last. *)
Lemma spec_run_policies idok l tr l' i j o rules r res : ledger_ok l -> spec_run idok l tr l' -> (i < j)%nat ->
  tr !! i = Some (OSetPolicies o rules, r) ->
  (forall m op r', (i < m < j)%nat -> tr !! m = Some (op, r') ->
     (forall v, op <> OActivatePolicySet o v) /\ (forall rs, op <> OSetPolicies o rs)) ->
  tr !! j = Some (OPolicies o, res) -> res = RRules (rule_view <$> rules).
Proof.
  intros Hl Hr Hij Hi Hno Hj.
  destruct (spec_run_at _ _ _ _ _ _ _ Hl Hr Hi) as (l1 & l2 & Hok1 & Ha & Hs & Hrest).
  assert (Hj' : drop (S i) tr !! (j - S i)%nat = Some (OPolicies o, res)).
  { rewrite lookup_drop. by replace (S i + (j - S i))%nat with j by lia. }
  destruct (spec_run_keeps (in_force o rules) _ _ _ _ _ _ _ (spec_ok _ _ _ _ _ Ha Hok1 Hs) Hrest Hj')
    as (l3 & l4 & Hok3 & (v & p & Hp & _ & Hact & Hrules) & Hs3).
  - by eapply spec_set_policies_inv.
  - intros m opm rm m1 m2 Hm Hop Hin Hstep. rewrite lookup_drop in Hop.
    destruct (Hno (S i + m)%nat opm rm ltac:(lia) Hop) as [H1 H2]. by eapply in_force_stays.
  - apply spec_policies_inv in Hs3 as [(v' & p' & Hp' & Hact' & ->)|[Hnone _]].
    + assert (v = v') as <- by by eapply (lo_one_active _ Hok3). congruence.
    + rewrite (Hnone _ _ Hp) in Hact. done.
Qed.

Lemma spec_run_honoured l tr l' : ledger_ok l -> spec_run store_id l tr l' -> honoured tr.
Proof.
  intros Hl Hr.
  pose proof (spec_run_step _ _ _ _ Hl Hr) as Hread.
  assert (Hlater : forall i j op r op' r', (i < j)%nat -> tr !! i = Some (op, r) -> tr !! j = Some (op', r') ->
    exists l1 l2 l3 l4, spec_step l1 op r l2 /\ ledger_ok l2 /\ stands l2 l3 /\ ledger_ok l3 /\ spec_step l3 op' r' l4).
  { intros i j op r op' r' Hij Hi Hj.
    destruct (spec_run_two _ _ _ _ _ _ _ _ _ _ Hl Hr Hij Hi Hj) as (l1 & l2 & l3 & l4 & _ & Hs). by exists l1, l2, l3, l4. }
  split.
  - intros i j a b x y d d' Hij Hi Hj Hsame. destruct (Hlater _ _ _ _ _ _ Hij Hi Hj) as (l1 & l2 & l3 & l4 & Hs1 & Hok2 & Hst & Hok3 & Hs2).
    destruct (added_request _ _ _ _ _ Hok2 Hs1) as (z & Hz & Hza). destruct (sd_actions _ _ Hst _ _ Hz) as (z' & Hz' & Hzz).
    assert (Hbz : same_request b z') by (by rewrite <- Hsame, Hza). inversion Hs2; subst.
    + by destruct (H2 _ _ Hz').
    + split; [|done]. rewrite (lo_actions _ Hok3 _ _ H2).
      eapply (lo_unique _ Hok3); [exact H2|exact Hz'|]. by rewrite <- Hbz.
  - intros i j a x d acts Hij Hi Hj. destruct (Hlater _ _ _ _ _ _ Hij Hi Hj) as (l1 & l2 & l3 & l4 & Hs1 & Hok2 & Hst & Hok3 & Hs2).
    destruct (added_request _ _ _ _ _ Hok2 Hs1) as (z & Hz & Hza). destruct (sd_actions _ _ Hst _ _ Hz) as (z' & Hz' & Hzz).
    exists z'. split; [|split; [exact (lo_actions _ Hok3 _ _ Hz')|by rewrite Hza]]. inversion Hs2; subst.
    match goal with H : acts ≡ₚ _ |- _ => rewrite H end. apply list_elem_of_filter. split; [|apply elem_of_values; by eexists].
    destruct Hza as (Ha1 & Ha2 & _), Hzz as (Hb1 & Hb2 & _). split; congruence.
  - intros i j o o' id b b' v v' x y Hij Hi Hj. destruct (Hlater _ _ _ _ _ _ Hij Hi Hj) as (l1 & l2 & l3 & l4 & Hs1 & _ & Hst & _ & Hs2).
    destruct (decided_stands _ _ _ _ _ _ _ _ Hs1 Hst) as (z & Hz & Hzs). inversion Hs2; subst.
    match goal with H : owned ap_OrgID o' _ = Some _ |- _ => apply owned_Some in H as [Hl3 _] end. congruence.
  - intros i j o o' id b v x aps y Hij Hi Hj Hy. destruct (Hlater _ _ _ _ _ _ Hij Hi Hj) as (l1 & l2 & l3 & l4 & Hs1 & _ & Hst & Hok3 & Hs2).
    destruct (decided_stands _ _ _ _ _ _ _ _ Hs1 Hst) as (z & Hz & Hzs). inversion Hs2; subst.
    match goal with H : aps ≡ₚ _ |- _ => rewrite H in Hy end. apply list_elem_of_filter in Hy as [[_ Hp] Hy].
    apply elem_of_values in Hy as [k Hk]. intros <-. rewrite (lo_approvals _ Hok3 _ _ Hk) in Hz. congruence.
  - intros i j o o' id Hij Hi Hj. destruct (Hlater _ _ _ _ _ _ Hij Hi Hj) as (l1 & l2 & l3 & l4 & Hs1 & _ & Hst & _ & Hs2).
    destruct (revoked_stands _ _ _ _ _ Hs1 Hst) as (z & Hz & Hzs). inversion Hs2; subst.
    match goal with H : owned g_OrgID o' _ = Some _ |- _ => apply owned_Some in H as [Hl3 _] end. congruence.
  - intros i j o rules r res. by eapply spec_run_policies.
  - intros i o id t Hi. apply Hread in Hi as (l1 & l2 & Hs). inversion Hs; subst.
    own_read.
  - intros i o ts t Hi Ht. apply Hread in Hi as (l1 & l2 & Hs). inversion Hs; subst.
    match goal with H : ts ≡ₚ _ |- _ => rewrite H in Ht end. by apply list_elem_of_filter in Ht as [? _].
  - intros i o id t d Hi. apply Hread in Hi as (l1 & l2 & Hs). inversion Hs; subst.
    own_read.
  - intros i o id t Hi. apply Hread in Hi as (l1 & l2 & Hs). inversion Hs; subst.
    own_read.
  - intros i o id t Hi. apply Hread in Hi as (l1 & l2 & Hs). inversion Hs; subst.
    own_read.
Qed.

(** Every implementation honours the contract, and stays sound: at most one
    policy set of an organization is active. *)
Lemma store_contract ops l s :
  ledger_ok l -> store_ok l s -> callable ops s ->
  (exists l', store_ok l' (exec_all ops s).2 /\ ledger_ok l') /\ honoured (exec_all ops s).1.
Proof.
  intros Hl Hok Hc. destruct (exec_all_refines ops l s Hok Hc) as (l' & Hr & Hok').
  split; [exists l'; split; [done|]; by eapply spec_run_ok|by eapply spec_run_honoured].
Qed.

End Implementations.
