(* ===== verification/VaultModel.v ===== *)
(** * VaultModel: the secrets a store keeps (internal/store/store.go)

    The second half of the contract of the Store interface: keyed
    credentials, operator tokens, sealed integration credentials and MCP
    servers, as an abstract machine beside the ledger of [StoreModel].  The
    vault holds secrets in the clear: an implementation may seal them as it
    likes as long as it opens what it sealed.  Times and the identifiers of
    servers are left out, and a list of servers does not say which have a
    token (the Postgres store reports none). *)

From S2P Require Export StoreContract.

Open Scope Z_scope.

(** ** The vault *)

Record Cred := MkCred { cr_org : string; cr_agent : string; cr_secret_hash : string; cr_dead : bool }.

Record Vault := MkVault {
  va_creds : gmap string Cred;
  va_tokens : gmap string (string * string * string);
  va_secrets : gmap (string * string) string;
  va_servers : gmap (string * string) (MCPServer * string) }.

#[export] Instance eta_Cred : Eta Cred := fun c =>
  MkCred (cr_org c) (cr_agent c) (cr_secret_hash c) (cr_dead c).

#[export] Instance eta_Vault : Eta Vault := fun v =>
  MkVault (va_creds v) (va_tokens v) (va_secrets v) (va_servers v).

Definition empty_vault : Vault := MkVault ∅ ∅ ∅ ∅.

Definition server_view (s : MCPServer) : MCPServer := s <| ms_ID := "" |> <| ms_CreatedAt := 0 |>.

Definition listed_view (s : MCPServer) : MCPServer := (server_view s) <| ms_HasToken := false |>.

(** ** Calls *)

Inductive VOp :=
  | VStoreCredential (orgID agentID keyID secretHash : string)
  | VGetCredential (keyID : string)
  | VRevokeCredential (keyID : string)
  | VTouchCredential (keyID : string)
  | VCreateOperatorToken (orgID name keyID secretHash : string)
  | VGetOperatorToken (keyID : string)
  | VTouchOperatorToken (keyID : string)
  | VSetIntegrationCredential (orgID name secret : string)
  | VGetIntegrationCredential (orgID name : string)
  | VListIntegrationCredentials (orgID : string)
  | VUpsertMCPServer (s : MCPServer) (authToken : string)
  | VGetMCPServer (orgID name : string)
  | VListMCPServers (orgID : string).

Inductive VRes :=
  | VUnit
  | VFlag (b : bool)
  | VCred (c : option (string * string * string))
  | VSecret (s : option string)
  | VNames (l : list string)
  | VServer (s : option (MCPServer * string))
  | VServers (l : list MCPServer).

Definition live_cred (c : option Cred) : option (string * string * string) :=
  c ← c; if cr_dead c then None else Some (cr_org c, cr_agent c, cr_secret_hash c).

(** What an organization has in a map. *)
Definition org_entries {A} (org : string) (m : gmap (string * string) A) : list (string * A) :=
  omap (fun '(o, n, x) => if String.eqb o org then Some (n, x) else None) (map_to_list m).

Definition stored_server (s : MCPServer) (token : string) : MCPServer * string :=
  ((server_view s) <| ms_HasToken := negb (String.eqb token "") |>, token).

Inductive vspec_step (v : Vault) : VOp -> VRes -> Vault -> Prop :=
  | vspec_store org agent k h :
      va_creds v !! k = None ->
      vspec_step v (VStoreCredential org agent k h) VUnit
        (v <| va_creds ::= <[ k := MkCred org agent h false ]> |>)
  | vspec_get k :
      vspec_step v (VGetCredential k) (VCred (live_cred (va_creds v !! k))) v
  | vspec_revoke k c :
      va_creds v !! k = Some c -> cr_dead c = false ->
      vspec_step v (VRevokeCredential k) (VFlag true) (v <| va_creds ::= <[ k := c <| cr_dead := true |> ]> |>)
  | vspec_revoke_none k :
      live_cred (va_creds v !! k) = None ->
      vspec_step v (VRevokeCredential k) (VFlag false) v
  | vspec_touch k : vspec_step v (VTouchCredential k) VUnit v
  | vspec_token org name k h :
      va_tokens v !! k = None ->
      vspec_step v (VCreateOperatorToken org name k h) VUnit (v <| va_tokens ::= <[ k := (org, name, h) ]> |>)
  | vspec_get_token k : vspec_step v (VGetOperatorToken k) (VCred (va_tokens v !! k)) v
  | vspec_touch_token k : vspec_step v (VTouchOperatorToken k) VUnit v
  | vspec_set org name secret :
      secret <> "" ->
      vspec_step v (VSetIntegrationCredential org name secret) (VFlag true)
        (v <| va_secrets ::= <[ (org, name) := secret ]> |>)
  | vspec_set_empty org name :
      vspec_step v (VSetIntegrationCredential org name "") (VFlag false) v
  | vspec_secret org name :
      vspec_step v (VGetIntegrationCredential org name) (VSecret (va_secrets v !! (org, name))) v
  | vspec_names org l :
      l ≡ₚ (org_entries org (va_secrets v)).*1 ->
      vspec_step v (VListIntegrationCredentials org) (VNames l) v
  | vspec_upsert s token :
      vspec_step v (VUpsertMCPServer s token) (VServer (Some (stored_server s token)))
        (v <| va_servers ::= <[ (ms_OrgID s, ms_Name s) := stored_server s token ]> |>)
  | vspec_server org name :
      vspec_step v (VGetMCPServer org name) (VServer (va_servers v !! (org, name))) v
  | vspec_servers org l :
      l ≡ₚ listed_view ∘ fst <$> (org_entries org (va_servers v)).*2 ->
      vspec_step v (VListMCPServers org) (VServers l) v.

(** What is kept as JSON of a server is plain text. *)
Definition plain_tool (t : MCPTool) : bool := plain_text (mt_Name t) && plain_text (mt_Description t).

Definition plain_classes (m : gmap string (list ActionClass)) : Prop :=
  map_Forall (fun k l => plain_text k = true /\ forallb plain_text l = true) m.

Definition plain_server (s : MCPServer) : Prop :=
  Forall (fun t => plain_tool t = true) (ms_Tools s) /\ plain_classes (ms_Classes s).

(** The calls the service and the handlers make, but for texts that JSON
    changes: key identifiers are drawn fresh, and what a call refers to
    exists. *)
Definition vadmissible (idok : string -> Prop) (l : Ledger) (v : Vault) (op : VOp) : Prop :=
  match op with
  | VStoreCredential org agent k _ => org ∈ l_orgs l /\ agent ∈ dom (l_agents l) /\ va_creds v !! k = None
  | VCreateOperatorToken org _ k _ => org ∈ l_orgs l /\ va_tokens v !! k = None
  | VSetIntegrationCredential org _ _ => org ∈ l_orgs l
  | VUpsertMCPServer s _ => ms_OrgID s ∈ l_orgs l /\ ms_ID s = "" /\ plain_server s
  | VGetIntegrationCredential org _ | VListIntegrationCredentials org | VGetMCPServer org _ | VListMCPServers org => idok org
  | VGetCredential _ | VRevokeCredential _ | VTouchCredential _ | VGetOperatorToken _ | VTouchOperatorToken _ => True
  end.

(** ** Sealing *)

(** What a store writes for a secret, and what it reads. *)
Definition sealed_text (p : option Provider) (n : nat) (secret : string) : string :=
  if String.eqb secret "" then secret
  else match p with None => secret | Some p => default secret (kp_Seal p n secret) end.

Definition opened (p : option Provider) (sealed : string) : option string :=
  if String.eqb sealed "" then Some ""
  else match p with None => Some sealed | Some p => kp_Open p sealed end.

(** A provider that opens what it sealed, and leaves alone what it did not. *)
Definition honest (p : option Provider) : Prop :=
  forall n secret, secret <> "" ->
    sealed_text p n secret <> "" /\ opened p (sealed_text p n secret) = Some secret.

Lemma opened_sealed p n secret : honest p -> opened p (sealed_text p n secret) = Some secret.
Proof.
  intros Hp. destruct (String.eqb_spec secret "") as [->|Hs]; [done|]. by apply Hp.
Qed.

Lemma sealed_empty p n secret : honest p ->
  String.eqb (sealed_text p n secret) "" = String.eqb secret "".
Proof.
  intros Hp. destruct (String.eqb_spec secret "") as [->|Hs]; [done|].
  apply String.eqb_neq. by apply Hp.
Qed.

(** ** Implementations *)

Class VStore (St : Type) `{!Store St} := {
  exec_vop : VOp -> program St VRes;
  vault_ok : Vault -> St -> Prop }.

(** Each call is a transition of the vault and leaves the ledger as it was,
    and the calls of the ledger leave the vault as it was. *)
Class VStoreLaws (St : Type) `{RT : Runtime} `{VS : VStore St} := {
  vault_refines l v s op :
    store_ok l s -> vault_ok v s -> vadmissible store_id l v op ->
    exists v', vspec_step v op (run (exec_vop op) s).1 v' /\
      store_ok l (run (exec_vop op) s).2 /\ vault_ok v' (run (exec_vop op) s).2;
  vault_framed l v s op :
    store_ok l s -> vault_ok v s -> admissible store_id l op -> vault_ok v (run (exec_op op) s).2 }.

(** ** Runs *)

(** The trace of the calls of the vault. *)
Inductive vrun : Vault -> list (VOp * VRes) -> Vault -> Prop :=
  | vrun_nil v : vrun v [] v
  | vrun_cons v op r v1 tr v2 : vspec_step v op r v1 -> vrun v1 tr v2 -> vrun v ((op, r) :: tr) v2.

Lemma vrun_at v tr v' i op r : vrun v tr v' -> tr !! i = Some (op, r) ->
  exists v1 v2, vrun v (take i tr) v1 /\ vspec_step v1 op r v2 /\ vrun v2 (drop (S i) tr) v'.
Proof.
  intros Hr. revert i. induction Hr as [v|v op' r' v1 tr v2 Hs Hr IH]; intros [|i] Hi; try done.
  - injection Hi as -> ->. exists v, v1. split; [constructor|done].
  - destruct (IH i Hi) as (w1 & w2 & H1 & H2 & H3). exists w1, w2. split; [by econstructor|done].
Qed.

(** What the steps of a stretch of the trace preserve. *)
Lemma vrun_stable (P : Vault -> Prop) v tr v' :
  (forall op r v v', (op, r) ∈ tr -> P v -> vspec_step v op r v' -> P v') -> vrun v tr v' -> P v -> P v'.
Proof.
  intros Hp Hr. induction Hr as [v|v op r v1 tr v2 Hs Hr IH]; [done|]. intros Hv. apply IH.
  - intros op' r' w w' Hin. apply Hp. by right.
  - eapply Hp; [by left|done|done].
Qed.

(** From one call to a later one. *)
Lemma vrun_between (P : Vault -> Prop) v tr v' i j op r op' r' :
  vrun v tr v' -> (i < j)%nat -> tr !! i = Some (op, r) -> tr !! j = Some (op', r') ->
  (forall v1 v2, vspec_step v1 op r v2 -> P v2) ->
  (forall m opm rm v1 v2, (i < m < j)%nat -> tr !! m = Some (opm, rm) -> P v1 -> vspec_step v1 opm rm v2 -> P v2) ->
  exists v1 v2, P v1 /\ vspec_step v1 op' r' v2.
Proof.
  intros Hr Hij Hi Hj Hs Hp. destruct (vrun_at _ _ _ _ _ _ Hr Hi) as (v1 & v2 & _ & H1 & H2).
  assert (Hd : drop (S i) tr !! (j - S i)%nat = Some (op', r')).
  { rewrite lookup_drop. by replace (S i + (j - S i))%nat with j by lia. }
  destruct (vrun_at _ _ _ _ _ _ H2 Hd) as (w1 & w2 & H3 & H4 & _). exists w1, w2. split; [|done].
  eapply (vrun_stable P); [|exact H3|by eapply Hs]. intros opm rm u u' Hin Hu Hstep.
  apply list_elem_of_lookup in Hin as [m Hm]. apply lookup_take_Some in Hm as [Hm Hlt].
  rewrite lookup_drop in Hm. eapply (Hp (S i + m)%nat); [lia|done|done|done].
Qed.

Section Runs.
Context {St : Type} `{RT : Runtime} `{VS : VStore St}.

(** Calls of both halves of the interface, one after another. *)
Fixpoint exec_calls (cs : list (Op + VOp)) (s : St) : list (VOp * VRes) * St :=
  match cs with
  | [] => ([], s)
  | inl op :: cs => exec_calls cs (run (exec_op op) s).2
  | inr op :: cs =>
      let '(r, s) := run (exec_vop op) s in
      let '(tr, s) := exec_calls cs s in ((op, r) :: tr, s)
  end.

(** Every call is admissible when it is made. *)
Fixpoint vcallable (cs : list (Op + VOp)) (s : St) : Prop :=
  match cs with
  | [] => True
  | inl op :: cs => (forall l, store_ok l s -> admissible store_id l op) /\ vcallable cs (run (exec_op op) s).2
  | inr op :: cs =>
      (forall l v, store_ok l s -> vault_ok v s -> vadmissible store_id l v op) /\
      vcallable cs (run (exec_vop op) s).2
  end.

Context `{!StoreLaws St} `{!VStoreLaws St}.

Lemma calls_refine cs l v s : store_ok l s -> vault_ok v s -> vcallable cs s ->
  exists l' v', vrun v (exec_calls cs s).1 v' /\ store_ok l' (exec_calls cs s).2 /\ vault_ok v' (exec_calls cs s).2.
Proof.
  revert l v s. induction cs as [|[op|op] cs IH]; intros l v s Hl Hv; cbn [vcallable exec_calls].
  - intros _. exists l, v. split; [constructor|done].
  - intros [Ha Hc]. specialize (Ha l Hl). destruct (store_refines l s op Hl Ha) as (l1 & _ & Hl1).
    eapply (IH l1 v); [done|by eapply vault_framed|done].
  - intros [Ha Hc]. destruct (vault_refines l v s op Hl Hv (Ha l v Hl Hv)) as (v1 & Hs & Hl1 & Hv1).
    destruct (run (exec_vop op) s) as [r s1]. cbn in *. destruct (IH l v1 s1 Hl1 Hv1 Hc) as (l2 & v2 & Hr & H2 & H3).
    destruct (exec_calls cs s1) as [tr s2]. exists l2, v2. split; [by econstructor|done].
Qed.

End Runs.

(** ** What follows for every implementation *)

(** A trace in which revocation is final and what was stored is read. *)
Record vault_honoured (tr : list (VOp * VRes)) : Prop := {
  vh_revoked : forall i j k r, (i < j)%nat ->
    tr !! i = Some (VRevokeCredential k, VFlag true) -> tr !! j = Some (VGetCredential k, r) -> r = VCred None;
  vh_revoked_once : forall i j k r, (i < j)%nat ->
    tr !! i = Some (VRevokeCredential k, VFlag true) -> tr !! j = Some (VRevokeCredential k, r) -> r = VFlag false;
  vh_credential : forall i j org agent k h r, (i < j)%nat ->
    tr !! i = Some (VStoreCredential org agent k h, VUnit) ->
    (forall m r', (i < m < j)%nat -> tr !! m <> Some (VRevokeCredential k, r')) ->
    tr !! j = Some (VGetCredential k, r) -> r = VCred (Some (org, agent, h));
  vh_secret : forall i j org name secret r, (i < j)%nat ->
    tr !! i = Some (VSetIntegrationCredential org name secret, VFlag true) ->
    (forall m secret' r', (i < m < j)%nat -> tr !! m <> Some (VSetIntegrationCredential org name secret', r')) ->
    tr !! j = Some (VGetIntegrationCredential org name, r) -> r = VSecret (Some secret);
  vh_token : forall i j org name k h r, (i < j)%nat ->
    tr !! i = Some (VCreateOperatorToken org name k h, VUnit) ->
    tr !! j = Some (VGetOperatorToken k, r) -> r = VCred (Some (org, name, h));
  vh_server : forall i j srv token r' r, (i < j)%nat ->
    tr !! i = Some (VUpsertMCPServer srv token, r') ->
    (forall m srv' token' r', (i < m < j)%nat -> tr !! m = Some (VUpsertMCPServer srv' token', r') ->
       (ms_OrgID srv', ms_Name srv') <> (ms_OrgID srv, ms_Name srv)) ->
    tr !! j = Some (VGetMCPServer (ms_OrgID srv) (ms_Name srv), r) -> r = VServer (Some (stored_server srv token)) }.

(** An entry stays when the step does not write it. *)
Lemma cred_stays k c v op r v' : vspec_step v op r v' -> va_creds v !! k = Some c ->
  (cr_dead c = true \/ op <> VRevokeCredential k) -> va_creds v' !! k = Some c.
Proof.
  intros Hs Hc Hk. inversion Hs; subst; cbn; try done.
  - match goal with |- <[ ?x := _ ]> _ !! k = _ => destruct (decide (x = k)) as [->|] end;
      [congruence|by rewrite lookup_insert_ne].
  - match goal with |- <[ ?x := _ ]> _ !! k = _ => destruct (decide (x = k)) as [->|] end;
      [|by rewrite lookup_insert_ne]. destruct Hk as [Hk|Hk]; congruence.
Qed.

Lemma secret_stays org name x v op r v' : vspec_step v op r v' -> va_secrets v !! (org, name) = Some x ->
  (forall s, op <> VSetIntegrationCredential org name s) -> va_secrets v' !! (org, name) = Some x.
Proof.
  intros Hs Hx Hk. inversion Hs; subst; cbn; try done.
  rewrite lookup_insert_ne; [done|]. intros [= -> ->]. by eapply Hk.
Qed.

Lemma token_stays k x v op r v' : vspec_step v op r v' -> va_tokens v !! k = Some x -> va_tokens v' !! k = Some x.
Proof.
  intros Hs Hx. inversion Hs; subst; cbn; try done.
  match goal with |- <[ ?y := _ ]> _ !! k = _ => destruct (decide (y = k)) as [->|] end;
    [congruence|by rewrite lookup_insert_ne].
Qed.

Lemma server_stays k x v op r v' : vspec_step v op r v' -> va_servers v !! k = Some x ->
  (forall srv token, op = VUpsertMCPServer srv token -> (ms_OrgID srv, ms_Name srv) <> k) -> va_servers v' !! k = Some x.
Proof.
  intros Hs Hx Hk. inversion Hs; subst; cbn; try done. rewrite lookup_insert_ne; [done|by eapply Hk].
Qed.

Lemma vrun_honoured v tr v' : vrun v tr v' -> vault_honoured tr.
Proof.
  intros Hr.
  assert (Hdead : forall i j k op r, (i < j)%nat -> tr !! i = Some (VRevokeCredential k, VFlag true) ->
    tr !! j = Some (op, r) -> exists v1 v2, live_cred (va_creds v1 !! k) = None /\ vspec_step v1 op r v2).
  { intros i j k op r Hij Hi Hj.
    destruct (vrun_between (fun v => exists c, va_creds v !! k = Some c /\ cr_dead c = true) _ _ _ _ _ _ _ _ _ Hr Hij Hi Hj)
      as (v1 & v2 & (c & Hc & Hd) & Hs).
    - intros v1 v2 Hs. inversion Hs; subst. cbn. rewrite lookup_insert_eq. by eexists.
    - intros m opm rm v1 v2 _ _ (c & Hc & Hd) Hs. exists c. split; [|done]. eapply cred_stays; [done|done|by left].
    - exists v1, v2. split; [|done]. unfold live_cred. rewrite Hc. cbn. by rewrite Hd. }
  split.
  - intros i j k r Hij Hi Hj. destruct (Hdead i j k _ _ Hij Hi Hj) as (v1 & v2 & Hl & Hs).
    inversion Hs; subst. by rewrite Hl.
  - intros i j k r Hij Hi Hj. destruct (Hdead i j k _ _ Hij Hi Hj) as (v1 & v2 & Hl & Hs).
    inversion Hs; subst; [|done]. unfold live_cred in Hl.
    match goal with H : va_creds _ !! _ = Some ?c, Hd : cr_dead ?c = false |- _ => rewrite H in Hl; cbn in Hl; by rewrite Hd in Hl end.
  - intros i j org agent k h r Hij Hi Hno Hj.
    destruct (vrun_between (fun v => va_creds v !! k = Some (MkCred org agent h false)) _ _ _ _ _ _ _ _ _ Hr Hij Hi Hj)
      as (v1 & v2 & Hc & Hs).
    + intros v1 v2 Hs. inversion Hs; subst. cbn. apply lookup_insert_eq.
    + intros m opm rm v1 v2 Hm Hop Hc Hs. eapply cred_stays; [done|done|]. right. intros ->. by eapply Hno.
    + inversion Hs; subst. by rewrite Hc.
  - intros i j org name secret r Hij Hi Hno Hj.
    destruct (vrun_between (fun v => va_secrets v !! (org, name) = Some secret) _ _ _ _ _ _ _ _ _ Hr Hij Hi Hj)
      as (v1 & v2 & Hc & Hs).
    + intros v1 v2 Hs. inversion Hs; subst. cbn. apply lookup_insert_eq.
    + intros m opm rm v1 v2 Hm Hop Hc Hs. eapply secret_stays; [done|done|]. intros s ->. by eapply Hno.
    + inversion Hs; subst. by rewrite Hc.
  - intros i j org name k h r Hij Hi Hj.
    destruct (vrun_between (fun v => va_tokens v !! k = Some (org, name, h)) _ _ _ _ _ _ _ _ _ Hr Hij Hi Hj)
      as (v1 & v2 & Hc & Hs).
    + intros v1 v2 Hs. inversion Hs; subst. cbn. apply lookup_insert_eq.
    + intros m opm rm v1 v2 _ _ Hc Hs. by eapply token_stays.
    + inversion Hs; subst. by rewrite Hc.
  - intros i j srv token r' r Hij Hi Hno Hj.
    destruct (vrun_between (fun v => va_servers v !! (ms_OrgID srv, ms_Name srv) = Some (stored_server srv token))
      _ _ _ _ _ _ _ _ _ Hr Hij Hi Hj) as (v1 & v2 & Hc & Hs).
    + intros v1 v2 Hs. inversion Hs; subst. cbn. apply lookup_insert_eq.
    + intros m opm rm v1 v2 Hm Hop Hc Hs. eapply server_stays; [done|done|]. intros srv' token' ->. by eapply Hno.
    + inversion Hs; subst. by rewrite Hc.
Qed.

(** Every implementation runs as the vault and honours the second half of
    the contract. *)
Lemma vault_contract {St : Type} `{RT : Runtime} `{VS : VStore St} `{!StoreLaws St} `{!VStoreLaws St} cs l v s :
  store_ok l s -> vault_ok v s -> vcallable cs s ->
  exists v', vrun v (exec_calls cs s).1 v' /\ vault_ok v' (exec_calls cs s).2 /\ vault_honoured (exec_calls cs s).1.
Proof.
  intros Hl Hv Hc. destruct (calls_refine cs l v s Hl Hv Hc) as (l' & v' & Hr & _ & Hv'). exists v'.
  split; [done|]. split; [done|]. by eapply vrun_honoured.
Qed.
