(* ===== verification/MemRefine.v ===== *)
(** * MemRefine: MemoryStore implements the contract of the Store interface *)

From Stdlib Require Import Ascii.
From S2P Require Export StoreContract.

Open Scope Z_scope.

(** Identifiers do not contain the separator of the composite keys. *)
Definition plain_id (s : string) : Prop := free_of "|"%char s = true.

Class PlainIds `{Runtime} := uuid_plain : forall n, plain_id (uuid n).

(** No map of the store has the key. *)
Record unused (s : MemoryStore) (id : string) : Prop := {
  un_orgs : st_orgs s !! id = None;
  un_principals : st_principals s !! id = None;
  un_agents : st_agents s !! id = None;
  un_txns : st_txns s !! id = None;
  un_actions : st_actions s !! id = None;
  un_approvals : st_approvals s !! id = None;
  un_grants : st_grants s !! id = None }.

(** The policy set of a version. *)
Definition set_at (s : MemoryStore) (org : string) (v : Z) : option PolicySet :=
  List.find (fun p => ps_Version p =? v) (sets_of s org).

Section MemRefine.
Context `{RL : RuntimeLaws} `{PI : !PlainIds}.

(** The ledger a memory store stands for, and the store's own invariant. *)
Record mem_ok (l : Ledger) (w : World) : Prop := {
  mo_orgs : l_orgs l = dom (st_orgs (w_store w));
  mo_principals : l_principals l = dom (st_principals (w_store w));
  mo_agents : l_agents l = agent_view <$> st_agents (w_store w);
  mo_txns : l_txns l = txn_view <$> st_txns (w_store w);
  mo_actions : l_actions l = action_view <$> st_actions (w_store w);
  mo_approvals : l_approvals l = approval_view <$> st_approvals (w_store w);
  mo_grants : l_grants l = grant_view <$> st_grants (w_store w);
  mo_sets : forall org v, l_sets l !! (org, v) = set_view <$> set_at (w_store w) org v;
  mo_policies : policies_ok (w_store w);
  mo_set_org : forall org p, p ∈ sets_of (w_store w) org -> ps_OrgID p = org;
  mo_legacy : st_policies (w_store w) = ∅;
  mo_idem : forall k id, st_byIdem (w_store w) !! k = Some id <->
    exists a, st_actions (w_store w) !! id = Some a /\ idemKey a = k;
  mo_cells : forall id a, st_actions (w_store w) !! id = Some a ->
    a_ID a = id /\ plain_id (a_OrgID a) /\ plain_id (a_TransactionID a);
  mo_plain_orgs : forall id o, st_orgs (w_store w) !! id = Some o -> plain_id id;
  mo_plain_txns : forall id t, st_txns (w_store w) !! id = Some t -> plain_id id;
  mo_fresh : forall n, (w_uid w <= n)%nat -> unused (w_store w) (uuid n) }.

(** The calls of the interface on the memory store. *)
Definition mem_exec (op : Op) : prog Res :=
  match op with
  | OSeedOrg name => let@ op := SeedOrg name in Ret (RSeed (o_ID (fst op)) (p_ID (snd op)))
  | OCreateAgent org p name env groups hash =>
      let@ a := CreateAgent org p name env (default [] groups) hash in Ret (RAgent (Some (agent_view a)))
  | OGetAgent org id => let@ a := GetAgent org id in Ret (RAgent (agent_view <$> a))
  | OCreateTxn t => let@ t := CreateTxn t in Ret (RTxn (Some (txn_view t)))
  | OGetTxn org id => let@ t := GetTxn org id in Ret (RTxn (txn_view <$> t))
  | OSetTxnStatus org id st => let@ ok := SetTxnStatus org id st in Ret (RBool ok)
  | OAddAction a => let@ r := AddAction a in Ret (RAction (Some (action_view (fst r))) (snd r))
  | OGetAction org id => let@ a := GetAction org id in Ret (RAction (action_view <$> a) false)
  | OUpdateAction a => let@ _ := UpdateAction a in Ret RUnit
  | OCreateApproval a => let@ a := CreateApproval a in Ret (RApproval (Some (approval_view a)))
  | OGetApproval org id => let@ a := GetApproval org id in Ret (RApproval (approval_view <$> a))
  | ODecideApproval org id by_ approve =>
      let@ a := DecideApproval org id by_ approve in Ret (RApproval (approval_view <$> a))
  | OCreatePolicySet org rules by_ =>
      let@ p := CreatePolicySet org rules by_ in Ret (RSet (set_view p))
  | OActivatePolicySet org v => let@ ok := ActivatePolicySet org v in Ret (RBool ok)
  | OSetPolicies org rules => let! _ := SetPolicies org rules in Ret RUnit
  | OPolicies org => let@ rules := Policies org in Ret (RRules (rule_view <$> rules))
  | OCreateGrant g => let@ g := CreateGrant g in Ret (RGrants [grant_view g])
  | OGrantsForAgent org agent => let@ gs := GrantsForAgent org agent in Ret (RGrants (grant_view <$> gs))
  | ORevokeGrant org id => let@ ok := RevokeGrant org id in Ret (RBool ok)
  | OListTxns org => let@ ts := ListTxns org in Ret (RTxns (txn_view <$> ts))
  | OActionsForTxn org txn => let@ acts := ActionsForTxn org txn in Ret (RActions (action_view <$> acts))
  | OPendingApprovals org => let@ aps := PendingApprovals org in Ret (RApprovals (approval_view <$> aps))
  | OPolicySets org => let@ ps := PolicySets org in Ret (RSets (set_view <$> ps))
  | OActivePolicySet org => let@ p := ActivePolicySet org in Ret (RActive (set_view <$> p))
  end.

#[export] Instance memory_store : Store World :=
  { exec_op := mem_exec; store_ok := mem_ok; store_id := plain_id }.


(** ** Preservation *)

Definition fresh_from (s : MemoryStore) (n : nat) : Prop := forall m, (n <= m)%nat -> unused s (uuid m).

(** A step that leaves the maps of the contract alone. *)
Lemma mem_ok_frame l w w' :
  (w_uid w <= w_uid w')%nat ->
  st_orgs (w_store w') = st_orgs (w_store w) -> st_principals (w_store w') = st_principals (w_store w) ->
  st_agents (w_store w') = st_agents (w_store w) -> st_txns (w_store w') = st_txns (w_store w) ->
  st_actions (w_store w') = st_actions (w_store w) -> st_approvals (w_store w') = st_approvals (w_store w) ->
  st_grants (w_store w') = st_grants (w_store w) -> st_policySets (w_store w') = st_policySets (w_store w) ->
  st_policies (w_store w') = st_policies (w_store w) -> st_byIdem (w_store w') = st_byIdem (w_store w) ->
  mem_ok l w -> mem_ok l w'.
Proof.
  intros Hu O P A T C V G S L I [].
  assert (Hs : forall org, sets_of (w_store w') org = sets_of (w_store w) org) by (intros; unfold sets_of; by rewrite S).
  split; rewrite ?O, ?P, ?A, ?T, ?C, ?V, ?G, ?L, ?I; try done.
  - intros org v. unfold set_at. rewrite Hs. apply mo_sets0.
  - intros org. rewrite Hs. apply mo_policies0.
  - intros org. rewrite Hs. apply mo_set_org0.
  - intros n Hn. destruct (mo_fresh0 n ltac:(lia)). by split; rewrite ?O, ?P, ?A, ?T, ?C, ?V, ?G.
Qed.

(** An object of a map under a fresh identifier. *)
Lemma uuid_next n m : (S n <= m)%nat -> uuid n <> uuid m.
Proof. intros Hm H. apply (inj uuid) in H. lia. Qed.

Definition refined (op : Op) : Prop := forall l w, mem_ok l w -> admissible plain_id l op ->
  exists l', spec_step l op (run (mem_exec op) w).1 l' /\ mem_ok l' (run (mem_exec op) w).2.

(** The identifiers drawn later stay unused. *)
Ltac fresh_ids F :=
  let n := fresh "n" in let Hn := fresh "Hn" in intros n Hn; cbn in Hn;
  destruct (F n ltac:(lia)); split; cbn; try done;
  rewrite lookup_insert_ne; [done|apply uuid_next; lia].

(** ** Agents and transactions *)

Lemma refined_SeedOrg name : refined (OSeedOrg name).
Proof.
  intros l w Hok _. pose proof (mo_fresh _ _ Hok (w_uid w) ltac:(done)) as F0.
  pose proof (mo_fresh _ _ Hok (S (w_uid w)) ltac:(lia)) as F1. pose proof Hok as [].
  cbn. eexists. split.
  - apply spec_seed.
    + rewrite mo_orgs0. apply not_elem_of_dom, F0.
    + rewrite mo_principals0. apply not_elem_of_dom, F1.
  - split; cbn; try done.
    + by rewrite dom_insert_L, mo_orgs0.
    + by rewrite dom_insert_L, mo_principals0.
    + intros id o Ho. apply lookup_insert_Some in Ho as [[<- _]|[_ Ho]]; [apply uuid_plain|by eapply mo_plain_orgs0].
    + intros n Hn. cbn in Hn. destruct (mo_fresh0 n ltac:(lia)). split; cbn; try done.
      * rewrite lookup_insert_ne; [done|apply uuid_next; lia].
      * rewrite lookup_insert_ne; [done|apply uuid_next; lia].
Qed.

Lemma refined_CreateAgent org p name env groups hash : refined (OCreateAgent org p name env groups hash).
Proof.
  intros l w Hok _. pose proof (mo_fresh _ _ Hok (w_uid w) ltac:(done)) as F0. pose proof Hok as [].
  cbn. eexists. split.
  - apply (spec_create_agent l org p name env groups hash (uuid (w_uid w))).
    by rewrite mo_agents0, lookup_fmap, (un_agents _ _ F0).
  - split; cbn; try done; [by rewrite fmap_insert, mo_agents0|fresh_ids mo_fresh0].
Qed.

Lemma refined_GetAgent org id : refined (OGetAgent org id).
Proof.
  intros l w Hok _. exists l. split; [|exact Hok]. cbn.
  change (a ← st_agents (w_store w) !! id; _) with (owned ag_OrgID org (st_agents (w_store w) !! id)).
  rewrite <- (owned_fmap ag_OrgID agent_view) by done. rewrite <- lookup_fmap, <- (mo_agents _ _ Hok).
  apply spec_get_agent.
Qed.

Lemma refined_CreateTxn t : refined (OCreateTxn t).
Proof.
  intros l w Hok _. pose proof (mo_fresh _ _ Hok (w_uid w) ltac:(done)) as F0. pose proof Hok as [].
  set (id := uuid (w_uid w)) in *.
  assert (Hv : forall x, txn_view (if bool_decide (t_Status (t <| t_ID := id |> <| t_CreatedAt := x |> <| t_UpdatedAt := x |>) = TxnZero)
      then t <| t_ID := id |> <| t_CreatedAt := x |> <| t_UpdatedAt := x |> <| t_Status := TxnCreated |>
      else t <| t_ID := id |> <| t_CreatedAt := x |> <| t_UpdatedAt := x |>) = new_txn id t).
  { intros x. unfold new_txn. cbn. by destruct (bool_decide _). }
  exists (l <| l_txns ::= <[ id := new_txn id t ]> |>). cbn [mem_exec run]. unfold CreateTxn, m_bind, uid, now, m_ret.
  cbn -[set_field txn_view bool_decide]. fold id. split.
  - rewrite Hv. apply spec_create_txn. rewrite mo_txns0, lookup_fmap, (un_txns _ _ F0). done.
  - split; cbn -[txn_view bool_decide]; try done.
    + rewrite fmap_insert, mo_txns0. f_equal. symmetry. apply Hv.
    + intros i x Hx. apply lookup_insert_Some in Hx as [[<- _]|[_ Hx]]; [apply uuid_plain|by eapply mo_plain_txns0].
    + fresh_ids mo_fresh0.
Qed.

Lemma refined_GetTxn org id : refined (OGetTxn org id).
Proof.
  intros l w Hok _. exists l. split; [|exact Hok]. cbn.
  change (a ← st_txns (w_store w) !! id; _) with (owned t_OrgID org (st_txns (w_store w) !! id)).
  rewrite <- (owned_fmap t_OrgID txn_view) by done. rewrite <- lookup_fmap, <- (mo_txns _ _ Hok).
  apply spec_get_txn.
Qed.

Lemma refined_SetTxnStatus org id st : refined (OSetTxnStatus org id st).
Proof.
  intros l w Hok _. pose proof Hok as []. cbn [mem_exec run].
  unfold SetTxnStatus, GetTxn, m_bind, get_store, m_ret.
  change (a ← st_txns (w_store w) !! id; _) with (owned t_OrgID org (st_txns (w_store w) !! id)).
  pose proof (ledger_owned t_OrgID txn_view (st_txns (w_store w)) org id ltac:(done)) as Ho.
  rewrite <- mo_txns0 in Ho. destruct (owned t_OrgID org (st_txns (w_store w) !! id)) as [t|] eqn:Et.
  2: { exists l. split; [by apply spec_set_status_none|exact Hok]. }
  apply owned_Some in Et as [Et _]. eexists. split; [eapply spec_set_status; exact Ho|].
  split; cbn; try done.
  - by rewrite fmap_insert, mo_txns0.
  - intros i x Hx. apply lookup_insert_Some in Hx as [[<- _]|[_ Hx]]; by eapply mo_plain_txns0.
  - intros n Hn. destruct (mo_fresh0 n Hn). split; cbn; try done.
    rewrite lookup_insert_ne; [done|]. intros ->. congruence.
Qed.

(** ** Actions *)

Lemma idemKey_same a b :
  plain_id (a_OrgID a) -> plain_id (a_TransactionID a) -> plain_id (a_OrgID b) ->
  plain_id (a_TransactionID b) -> idemKey a = idemKey b -> same_request a b.
Proof.
  unfold plain_id, idemKey. intros Hoa Hta Hob Htb H.
  change ("|" +:+ ?x) with (String "|"%char x) in H.
  apply separated in H as [Ho H]; [|done..]. apply separated in H as [Ht H]; [|done..]. done.
Qed.

Lemma prev_action_spec l w a :
  mem_ok l w -> plain_id (a_OrgID a) -> plain_id (a_TransactionID a) ->
  match prev_action (w_store w) (idemKey a) with
  | Some b => st_actions (w_store w) !! a_ID b = Some b /\ same_request a b
  | None => forall i b, st_actions (w_store w) !! i = Some b -> ~ same_request a b
  end.
Proof.
  intros [] Ho Ht. unfold prev_action. destruct (st_byIdem (w_store w) !! idemKey a) as [id|] eqn:Ei; cbn.
  - apply mo_idem0 in Ei as (b & Hb & Hk). rewrite Hb. destruct (mo_cells0 _ _ Hb) as (-> & Hob & Htb).
    split; [done|]. by apply idemKey_same.
  - intros i b Hb (E1 & E2 & E3). assert (st_byIdem (w_store w) !! idemKey a = Some i); [|congruence].
    apply mo_idem0. exists b. split; [done|]. unfold idemKey. by rewrite E1, E2, E3.
Qed.

Definition stored_status (a : TxnAction) : TxnAction :=
  if bool_decide (a_Status a = StZero) then a <| a_Status := StProposed |> else a.

Lemma stored_action_spec id t a : exists b,
  (stored_status (a <| a_ID := id |> <| a_CreatedAt := t |>))
    <| a_ArgumentsHash := Canonical (value_of_map (a_Arguments (stored_status (a <| a_ID := id |> <| a_CreatedAt := t |>)))) |> = b /\
  action_view b = new_action id a /\ a_ID b = id /\ a_OrgID b = a_OrgID a /\
  a_TransactionID b = a_TransactionID a /\ a_IdempotencyKey b = a_IdempotencyKey a.
Proof.
  eexists. split; [reflexivity|]. unfold stored_status, new_action. cbn. by destruct (bool_decide _).
Qed.

Lemma refined_AddAction a : refined (OAddAction a).
Proof.
  intros l w Hok (Horg & Htxn & _). pose proof Hok as [].
  assert (Hpo : plain_id (a_OrgID a)).
  { rewrite mo_orgs0 in Horg. apply elem_of_dom in Horg as [o Ho]. by eapply mo_plain_orgs0. }
  assert (Hpt : plain_id (a_TransactionID a)).
  { rewrite mo_txns0, dom_fmap_L in Htxn. apply elem_of_dom in Htxn as [t Ht]. by eapply mo_plain_txns0. }
  pose proof (prev_action_spec l w a Hok Hpo Hpt) as Hp. cbn [mem_exec run]. unfold AddAction, m_bind, get_store.
  destruct (prev_action (w_store w) (idemKey a)) as [b|]; [|].
  { destruct Hp as [Hb Hs]. exists l. split; [|exact Hok]. cbn [run fst snd].
    apply (spec_add_again l a (a_ID b)); [by rewrite mo_actions0, lookup_fmap, Hb|].
    etrans; [exact Hs|]. by destruct b. }
  pose proof (mo_fresh0 (w_uid w) ltac:(done)) as F0. unfold uid, now, modify_store, m_ret.
  set (id := uuid (w_uid w)) in *. set (t := clock (w_tick w)).
  change (if bool_decide _ then _ else _) with (stored_status (a <| a_ID := id |> <| a_CreatedAt := t |>)).
  destruct (stored_action_spec id t a) as (b & Hb & Hv & Hid & Hbo & Hbt & Hbi). rewrite Hb. clear Hb.
  assert (Hbk : idemKey b = idemKey a) by (unfold idemKey; by rewrite Hbo, Hbt, Hbi).
  cbn [run fst snd]. rewrite Hv.
  eexists. split; [apply spec_add_action|].
  - intros i c Hc. rewrite mo_actions0, lookup_fmap in Hc. destruct (st_actions (w_store w) !! i) as [c0|] eqn:Ec; [|done].
    injection Hc as <-. intros Hs. by apply (Hp _ _ Ec).
  - by rewrite mo_actions0, lookup_fmap, (un_actions _ _ F0).
  - split; cbn; try done.
    + by rewrite fmap_insert, Hv, mo_actions0.
    + intros k i. destruct (decide (idemKey b = k)) as [<-|Hne].
      * rewrite lookup_insert_eq. split.
        -- intros [= <-]. exists b. rewrite lookup_insert_eq. done.
        -- intros (c & Hc & Hk). apply lookup_insert_Some in Hc as [[-> _]|[_ Hc]]; [done|].
           destruct (mo_cells0 _ _ Hc) as (_ & Hco & Hct). destruct (Hp _ _ Hc).
           rewrite <- Hbo, <- Hbt in *. etrans; [|symmetry; apply idemKey_same; [exact Hco|exact Hct| | |exact Hk]]; done.
      * rewrite lookup_insert_ne by done. rewrite mo_idem0. split; intros (c & Hc & Hk); exists c; (split; [|done]).
        -- rewrite lookup_insert_ne; [done|]. intros <-. rewrite (un_actions _ _ F0) in Hc. done.
        -- apply lookup_insert_Some in Hc as [[_ <-]|[_ Hc]]; done.
    + intros i c Hc. apply lookup_insert_Some in Hc as [[<- <-]|[_ Hc]]; [|by apply mo_cells0].
      by rewrite Hid, Hbo, Hbt.
    + fresh_ids mo_fresh0.
Qed.

Lemma refined_GetAction org id : refined (OGetAction org id).
Proof.
  intros l w Hok _. exists l. split; [|exact Hok]. cbn.
  change (a ← st_actions (w_store w) !! id; _) with (owned a_OrgID org (st_actions (w_store w) !! id)).
  rewrite <- (ledger_owned a_OrgID action_view) by done. rewrite <- (mo_actions _ _ Hok). apply spec_get_action.
Qed.

Lemma refined_UpdateAction a : refined (OUpdateAction a).
Proof.
  intros l w Hok (cur & Hcur & Hsame & _). pose proof Hok as [].
  rewrite mo_actions0, lookup_fmap in Hcur.
  destruct (st_actions (w_store w) !! a_ID a) as [c|] eqn:Ec; [|done]. injection Hcur as <-.
  destruct (mo_cells0 _ _ Ec) as (_ & Hco & Hct). destruct Hsame as (E1 & E2 & E3). cbn in E1, E2, E3.
  assert (Hk : idemKey c = idemKey a) by (unfold idemKey; by rewrite E1, E2, E3).
  cbn [mem_exec run]. unfold UpdateAction, m_bind, get_store. rewrite Ec.
  eexists. split; [apply spec_update_action|]. split; cbn; try done.
  - by rewrite fmap_insert, mo_actions0.
  - intros k i. destruct (decide (idemKey a = k)) as [<-|Hne].
    + rewrite lookup_insert_eq. split.
      * intros [= <-]. exists a. by rewrite lookup_insert_eq.
      * intros (b & Hb & Hbk). apply lookup_insert_Some in Hb as [[-> _]|[_ Hb]]; [done|].
        assert (H1 : st_byIdem (w_store w) !! idemKey a = Some i) by (apply mo_idem0; by exists b).
        assert (H2 : st_byIdem (w_store w) !! idemKey a = Some (a_ID a)) by (apply mo_idem0; by exists c).
        congruence.
    + rewrite lookup_insert_ne by done. rewrite mo_idem0. split; intros (b & Hb & Hbk); exists b; (split; [|done]).
      * rewrite lookup_insert_ne; [done|]. intros <-. rewrite Ec in Hb. congruence.
      * apply lookup_insert_Some in Hb as [[_ <-]|[_ Hb]]; done.
  - intros i b Hb. apply lookup_insert_Some in Hb as [[<- <-]|[_ Hb]]; [|by apply mo_cells0].
    by rewrite E1, E2.
  - intros n Hn. destruct (mo_fresh0 n Hn). split; cbn; try done.
    rewrite lookup_insert_ne; [done|]. intros E. congruence.
Qed.

(** ** Approvals *)

Lemma refined_CreateApproval a : refined (OCreateApproval a).
Proof.
  intros l w Hok _. pose proof (mo_fresh _ _ Hok (w_uid w) ltac:(done)) as F0. pose proof Hok as [].
  exists (l <| l_approvals ::= <[ uuid (w_uid w) := new_approval (uuid (w_uid w)) a ]> |>).
  cbn [mem_exec run]. unfold CreateApproval, m_bind, uid, now, m_ret. cbn [run fst snd]. split.
  - apply (spec_create_approval l a (uuid (w_uid w))).
    by rewrite mo_approvals0, lookup_fmap, (un_approvals _ _ F0).
  - split; cbn; try done; [by rewrite fmap_insert, mo_approvals0|fresh_ids mo_fresh0].
Qed.

Lemma refined_GetApproval org id : refined (OGetApproval org id).
Proof.
  intros l w Hok _. exists l. split; [|exact Hok]. cbn.
  change (a ← st_approvals (w_store w) !! id; _) with (owned ap_OrgID org (st_approvals (w_store w) !! id)).
  rewrite <- (ledger_owned ap_OrgID approval_view) by done. rewrite <- (mo_approvals _ _ Hok).
  apply spec_get_approval.
Qed.

Lemma refined_DecideApproval org id by_ approve : refined (ODecideApproval org id by_ approve).
Proof.
  intros l w Hok _. pose proof Hok as [].
  pose proof (ledger_owned ap_OrgID approval_view (st_approvals (w_store w)) org id ltac:(done)) as Ho.
  rewrite <- mo_approvals0 in Ho. cbn [mem_exec run]. unfold DecideApproval, m_bind, get_store.
  destruct (st_approvals (w_store w) !! id) as [a|] eqn:Ea; cbn in Ho.
  2: { exists l. split; [|exact Hok]. apply spec_decide_none. rewrite Ho. done. }
  destruct (String.eqb_spec (ap_OrgID a) org) as [Horg|Horg]; cbn [negb orb] in *.
  2: { exists l. split; [|exact Hok]. apply spec_decide_none. rewrite Ho. done. }
  case_bool_decide as Hs; cbn [negb].
  2: { exists l. split; [|exact Hok]. apply spec_decide_none. rewrite Ho. cbn. by intros b [= <-]. }
  eexists. split; [eapply (spec_decide l org id by_ approve (approval_view a)); [exact Ho|exact Hs]|].
  split; cbn; try done.
  - by rewrite fmap_insert, mo_approvals0.
  - intros n Hn. destruct (mo_fresh0 n Hn). split; cbn; try done.
    rewrite lookup_insert_ne; [done|]. intros E. congruence.
Qed.

(** ** Policy sets *)

Lemma set_at_Some s org v p :
  policies_ok s -> set_at s org v = Some p <-> p ∈ sets_of s org /\ ps_Version p = v.
Proof.
  intros Hp. unfold set_at. split.
  - intros H. apply find_some in H as [Hin Hv]. split; [by apply list_elem_of_In|lia].
  - intros [Hin Hv]. destruct (List.find _ _) as [q|] eqn:Ef.
    + apply find_some in Ef as [Hq Hw]. apply list_elem_of_In in Hq. f_equal.
      apply (numbered_inj (sets_of s org)); [apply Hp|done|done|lia].
    + apply list_elem_of_In in Hin. apply (find_none _ _ Ef) in Hin. lia.
Qed.

Lemma set_at_bounds s org v p : policies_ok s -> set_at s org v = Some p ->
  1 <= v <= Z.of_nat (length (sets_of s org)).
Proof.
  intros Hp H. apply set_at_Some in H as [Hin <-]; [|done].
  apply list_elem_of_lookup in Hin as [i Hi]. rewrite (proj1 (Hp org) _ _ Hi).
  apply lookup_lt_Some in Hi. lia.
Qed.

Lemma set_at_exists s org v : policies_ok s -> 1 <= v <= Z.of_nat (length (sets_of s org)) ->
  is_Some (set_at s org v).
Proof.
  intros Hp Hv. destruct (lookup_lt_is_Some_2 (sets_of s org) (Z.to_nat (v - 1)) ltac:(lia)) as [p Hi].
  exists p. apply set_at_Some; [done|]. split; [by eapply list_elem_of_lookup_2|].
  rewrite (proj1 (Hp org) _ _ Hi). lia.
Qed.

Lemma refined_CreatePolicySet org rules by_ : refined (OCreatePolicySet org rules by_).
Proof.
  intros l w Hok _. pose proof Hok as [].
  set (n := length (sets_of (w_store w) org)). set (v := Z.of_nat (S n)).
  assert (Hlv : latest_version (sets_of (w_store w) org) + 1 = v).
  { rewrite latest_version_numbered by apply mo_policies0. unfold v, n. lia. }
  pose proof (policies_ok_CreatePolicySet org rules by_ w mo_policies0) as Hpok.
  exists (l <| l_sets ::= <[ (org, v) := new_set org v rules by_ ]> |>). cbn [mem_exec run].
  unfold CreatePolicySet, latestVersionLocked, m_bind, uid, now, get_store, m_ret in *.
  cbn [run fst snd w_store set_field] in *. cbn in Hpok. cbn. rewrite Hlv in *. split.
  - apply (spec_create_set l org rules by_ v); [lia| |].
    + destruct n as [|n'] eqn:En; [left; done|right].
      destruct (set_at_exists (w_store w) org (v - 1) mo_policies0) as [p Hp].
      { fold n. rewrite En. unfold v. lia. }
      exists (set_view p). by rewrite mo_sets0, Hp.
    + intros v' p Hp. rewrite mo_sets0 in Hp. destruct (set_at (w_store w) org v') as [q|] eqn:Eq; [|done].
      apply set_at_bounds in Eq; [|done]. fold n in Eq. unfold v. lia.
  - split; cbn; try done.
    + intros o v'. unfold set_at. rewrite sets_of_insert. destruct (decide (org = o)) as [<-|Hne].
      * rewrite find_snoc. destruct (decide (v = v')) as [<-|Hv].
        -- rewrite lookup_insert_eq. fold (set_at (w_store w) org v).
           destruct (set_at (w_store w) org v) as [q|] eqn:Eq.
           { apply set_at_bounds in Eq; [|done]. fold n in Eq. lia. }
           cbn. by rewrite Z.eqb_refl.
        -- rewrite lookup_insert_ne by congruence. rewrite mo_sets0. fold (set_at (w_store w) org v').
           destruct (set_at (w_store w) org v') as [q|]; [done|]. cbn. by rewrite (proj2 (Z.eqb_neq v v')).
      * rewrite lookup_insert_ne by congruence. apply mo_sets0.
    + intros o p. rewrite sets_of_insert. destruct (decide (org = o)) as [<-|Hne]; [|apply mo_set_org0].
      intros Hp. apply elem_of_app in Hp as [Hp|Hp]; [by apply mo_set_org0|].
      by apply list_elem_of_singleton in Hp as ->.
    + intros m Hm. cbn in Hm. destruct (mo_fresh0 m ltac:(lia)). by split.
Qed.

Lemma set_view_activate org v p : ps_OrgID p = org ->
  set_view (activate_one v p) = activate_in org v (set_view p).
Proof.
  intros Ho. unfold activate_in. cbn [ps_OrgID set_view set_field]. cbn. rewrite Ho, string_eqb_refl.
  unfold activate_one, is_active. cbn. destruct (ps_Version p =? v); [done|]. by destruct (bool_decide _).
Qed.

Lemma refined_ActivatePolicySet org v : refined (OActivatePolicySet org v).
Proof.
  intros l w Hok _. pose proof Hok as []. pose proof (policies_ok_ActivatePolicySet org v w mo_policies0) as Hpok.
  cbn [mem_exec run]. unfold ActivatePolicySet, m_bind, get_store, m_ret in *.
  destruct (any (fun p => ps_Version p =? v) (sets_of (w_store w) org)) eqn:Ea.
  2: { exists l. split; [|exact Hok]. cbn. apply spec_activate_none. rewrite mo_sets0.
       destruct (set_at (w_store w) org v) as [p|] eqn:Es; [|done]. apply set_at_Some in Es as [Hin Hv]; [|done].
       pose proof (proj1 (any_false _ _) Ea p Hin). cbn in *. lia. }
  apply any_true in Ea as (p & Hin & Hv). apply Z.eqb_eq in Hv.
  assert (Hp : set_at (w_store w) org v = Some p) by by apply set_at_Some.
  cbn [run fst snd modify_store] in *.
  exists (l <| l_sets ::= fmap (activate_in org v) |>). split.
  { apply (spec_activate l org v (set_view p)). by rewrite mo_sets0, Hp. }
  split; cbn; try done.
  - intros o v'. rewrite lookup_fmap, mo_sets0. unfold set_at. rewrite sets_of_insert.
    destruct (decide (org = o)) as [<-|Hne].
    + rewrite (find_fmap (fun p => ps_Version p =? v')) by (intros; by rewrite activate_one_version).
      destruct (List.find _ _) as [q|] eqn:Ef; [|done]. cbn. f_equal. symmetry. apply set_view_activate.
      apply find_some in Ef as [Hq _]. apply mo_set_org0. by apply list_elem_of_In.
    + destruct (List.find _ _) as [q|] eqn:Ef; [|done]. cbn. f_equal. unfold activate_in. cbn.
      apply find_some in Ef as [Hq _]. rewrite (mo_set_org0 o q) by by apply list_elem_of_In.
      by rewrite (proj2 (String.eqb_neq o org)).
  - intros o q. rewrite sets_of_insert. destruct (decide (org = o)) as [<-|Hne]; [|apply mo_set_org0].
    intros Hq. apply list_elem_of_fmap in Hq as (q0 & -> & Hq). rewrite <- (mo_set_org0 org q0 Hq).
    unfold activate_one. by destruct (_ =? _), (is_active q0).
  - intros m Hm. cbn in Hm. destruct (mo_fresh0 m ltac:(lia)). by split.
Qed.

(** The version SetPolicies activates is the one it has just created. *)
Lemma latest_created l w org p : mem_ok l w -> l_sets l !! (org, ps_Version p) = Some p ->
  (forall v' q, l_sets l !! (org, v') = Some q -> v' <= ps_Version p) ->
  latest_version (sets_of (w_store w) org) = ps_Version p.
Proof.
  intros Hok Hp Hmax. pose proof Hok as []. rewrite latest_version_numbered by apply mo_policies0.
  assert (Hb : 1 <= ps_Version p <= Z.of_nat (length (sets_of (w_store w) org))).
  { rewrite mo_sets0 in Hp. destruct (set_at (w_store w) org (ps_Version p)) as [q|] eqn:Eq; [|done].
    by eapply set_at_bounds. }
  destruct (set_at_exists (w_store w) org (Z.of_nat (length (sets_of (w_store w) org))) mo_policies0) as [q Hq]; [lia|].
  specialize (Hmax _ (set_view q) ltac:(rewrite mo_sets0, Hq; reflexivity)). lia.
Qed.

Lemma refined_SetPolicies org rules : refined (OSetPolicies org rules).
Proof.
  intros l w Hok [Ho Hid]. destruct (refined_CreatePolicySet org rules "system" l w Hok Ho) as (l1 & Hs1 & Hok1).
  cbn [mem_exec run] in Hs1, Hok1 |- *. unfold SetPolicies. cbn [pbind run].
  destruct (CreatePolicySet org rules "system" w) as [p w1]. cbn [run fst snd] in Hs1, Hok1.
  pose proof (spec_create_set_inv _ _ _ _ _ _ Hs1) as (v & E & El & Hlt).
  assert (Ep : l_sets l1 !! (org, ps_Version (set_view p)) = Some (set_view p)).
  { assert (set_view p = new_set org v rules "system") as -> by congruence. subst l1. apply lookup_insert_eq. }
  assert (Hlv : latest_version (sets_of (w_store w1) org) = ps_Version (set_view p)).
  { apply (latest_created l1 w1 org (set_view p) Hok1 Ep). intros v' q Hq. subst l1. cbn in Hq.
    assert (ps_Version (set_view p) = v) as -> by by injection E.
    apply lookup_insert_Some in Hq as [[[= <-] _]|[_ Hq]]; [done|]. apply Hlt in Hq. lia. }
  unfold latestVersionLocked, m_bind, get_store, m_ret. cbn [run]. rewrite Hlv.
  destruct (refined_ActivatePolicySet org (ps_Version (set_view p)) l1 w1 Hok1 Hid) as (l2 & Hs2 & Hok2).
  cbn [mem_exec run] in Hs2, Hok2. destruct (ActivatePolicySet org (ps_Version (set_view p)) w1) as [b w2].
  cbn [run fst snd] in Hs2, Hok2 |- *. destruct (spec_activate_inv _ _ _ _ _ _ Hs2 Ep) as [Hb _]. rewrite Hb in Hs2.
  exists l2. split; [|done]. by eapply spec_set_policies.
Qed.

Lemma refined_Policies org : refined (OPolicies org).
Proof.
  intros l w Hok _. exists l. split; [|exact Hok]. pose proof Hok as []. cbn.
  destruct (List.find is_active (sets_of (w_store w) org)) as [p|] eqn:Ef.
  - apply find_some in Ef as [Hin Ha]. apply list_elem_of_In in Hin.
    apply (spec_policies l org (ps_Version p) (set_view p)); [|done].
    rewrite mo_sets0. by rewrite (proj2 (set_at_Some _ _ _ p mo_policies0)).
  - rewrite mo_legacy0, lookup_empty. cbn. apply spec_policies_none. intros v p Hp. rewrite mo_sets0 in Hp.
    destruct (set_at (w_store w) org v) as [q|] eqn:Eq; [|done]. injection Hp as <-.
    apply set_at_Some in Eq as [Hq _]; [|done]. apply list_elem_of_In in Hq. exact (find_none _ _ Ef q Hq).
Qed.

(** ** Grants *)

Lemma refined_CreateGrant g : refined (OCreateGrant g).
Proof.
  intros l w Hok (_ & _ & _ & Hid & _). pose proof (mo_fresh _ _ Hok (w_uid w) ltac:(done)) as F0. pose proof Hok as [].
  cbn [mem_exec run]. unfold CreateGrant, m_bind. rewrite Hid. cbn.
  eexists. split.
  - apply (spec_create_grant l g (uuid (w_uid w))). by rewrite mo_grants0, lookup_fmap, (un_grants _ _ F0).
  - split; cbn; try done; [by rewrite fmap_insert, mo_grants0|fresh_ids mo_fresh0].
Qed.

Lemma refined_GrantsForAgent org agent : refined (OGrantsForAgent org agent).
Proof.
  intros l w Hok _. exists l. split; [|by apply (mem_ok_frame l w)].
  cbn. apply spec_grants. rewrite (mo_grants _ _ Hok), values_fmap.
  unfold agent_grants. rewrite filter_fmap by done. apply fmap_Permutation, filter_Permutation.
  apply fmap_Permutation, range_map_perm.
Qed.

Lemma refined_RevokeGrant org id : refined (ORevokeGrant org id).
Proof.
  intros l w Hok _. pose proof Hok as [].
  pose proof (ledger_owned g_OrgID grant_view (st_grants (w_store w)) org id ltac:(done)) as Ho.
  rewrite <- mo_grants0 in Ho. cbn [mem_exec run]. unfold RevokeGrant, m_bind, get_store.
  destruct (st_grants (w_store w) !! id) as [g|] eqn:Eg; cbn in Ho.
  2: { exists l. split; [|exact Hok]. apply spec_revoke_none. by rewrite Ho. }
  destruct (String.eqb_spec (g_OrgID g) org) as [Horg|Horg]; cbn [negb orb] in *.
  2: { exists l. split; [|exact Hok]. apply spec_revoke_none. by rewrite Ho. }
  case_bool_decide as Hs; cbn [negb].
  2: { exists l. split; [|exact Hok]. apply spec_revoke_none. rewrite Ho. cbn. intros h [= <-]. cbn.
       by destruct (g_RevokedAt g). }
  eexists. split; [eapply (spec_revoke l org id (grant_view g)); [exact Ho|cbn; by rewrite Hs]|].
  split; cbn; try done.
  - by rewrite fmap_insert, mo_grants0.
  - intros n Hn. destruct (mo_fresh0 n Hn). split; cbn; try done.
    rewrite lookup_insert_ne; [done|]. intros E. congruence.
Qed.

(** ** Lists *)

(** The values of a map that satisfy a test, in any order. *)
Lemma ranged_view {A} (g : A -> A) (P : A -> Prop) `{forall x, Decision (P x)} (m : gmap string A) n :
  (forall x, P (g x) <-> P x) ->
  g <$> base.filter P (range_map n m).*2 ≡ₚ base.filter P (map_to_list (g <$> m)).*2.
Proof.
  intros Hg. rewrite values_fmap, filter_fmap by done.
  apply fmap_Permutation, filter_Permutation, fmap_Permutation, range_map_perm.
Qed.

Lemma refined_ListTxns org : refined (OListTxns org).
Proof.
  intros l w Hok _. exists l. split; [|by apply (mem_ok_frame l w)].
  cbn. apply spec_list_txns. rewrite (mo_txns _ _ Hok). by apply ranged_view.
Qed.

Lemma refined_ActionsForTxn org txn : refined (OActionsForTxn org txn).
Proof.
  intros l w Hok _. exists l. split; [|by apply (mem_ok_frame l w)].
  cbn. apply spec_actions. rewrite (mo_actions _ _ Hok). by apply ranged_view.
Qed.

Lemma refined_PendingApprovals org : refined (OPendingApprovals org).
Proof.
  intros l w Hok _. exists l. split; [|by apply (mem_ok_frame l w)].
  cbn. apply spec_pending. rewrite (mo_approvals _ _ Hok). by apply ranged_view.
Qed.

Lemma refined_PolicySets org : refined (OPolicySets org).
Proof.
  intros l w Hok _. exists l. split; [|exact Hok]. pose proof Hok as []. cbn. apply spec_sets.
  - intros p. rewrite list_elem_of_fmap. split.
    + intros (q & -> & Hq). exists (ps_Version q). rewrite mo_sets0. by rewrite (proj2 (set_at_Some _ _ _ q mo_policies0)).
    + intros [v Hv]. rewrite mo_sets0 in Hv. destruct (set_at (w_store w) org v) as [q|] eqn:Eq; [|done].
      injection Hv as <-. apply set_at_Some in Eq as [Hq _]; [|done]. by exists q.
  - rewrite <- list_fmap_compose. apply NoDup_alt. intros i j v Hi Hj. rewrite list_lookup_fmap in Hi, Hj.
    destruct (sets_of (w_store w) org !! i) as [p|] eqn:Ep; [|done].
    destruct (sets_of (w_store w) org !! j) as [q|] eqn:Eq; [|done]. cbn in Hi, Hj.
    pose proof (proj1 (mo_policies0 org) _ _ Ep). pose proof (proj1 (mo_policies0 org) _ _ Eq). simplify_eq. lia.
Qed.

Lemma refined_ActivePolicySet org : refined (OActivePolicySet org).
Proof.
  intros l w Hok _. exists l. split; [|exact Hok]. pose proof Hok as []. cbn.
  destruct (List.find is_active (sets_of (w_store w) org)) as [p|] eqn:Ef.
  - apply find_some in Ef as [Hin Ha]. apply list_elem_of_In in Hin.
    apply (spec_active l org (ps_Version p) (set_view p)); [|done].
    rewrite mo_sets0. by rewrite (proj2 (set_at_Some _ _ _ p mo_policies0)).
  - apply spec_active_none. intros v p Hp. rewrite mo_sets0 in Hp.
    destruct (set_at (w_store w) org v) as [q|] eqn:Eq; [|done]. injection Hp as <-.
    apply set_at_Some in Eq as [Hq _]; [|done]. apply list_elem_of_In in Hq. exact (find_none _ _ Ef q Hq).
Qed.

(** ** The store *)

Lemma mem_refines op : refined op.
Proof.
  destruct op.
  - apply refined_SeedOrg.
  - apply refined_CreateAgent.
  - apply refined_GetAgent.
  - apply refined_CreateTxn.
  - apply refined_GetTxn.
  - apply refined_SetTxnStatus.
  - apply refined_AddAction.
  - apply refined_GetAction.
  - apply refined_UpdateAction.
  - apply refined_CreateApproval.
  - apply refined_GetApproval.
  - apply refined_DecideApproval.
  - apply refined_CreatePolicySet.
  - apply refined_ActivatePolicySet.
  - apply refined_SetPolicies.
  - apply refined_Policies.
  - apply refined_CreateGrant.
  - apply refined_GrantsForAgent.
  - apply refined_RevokeGrant.
  - apply refined_ListTxns.
  - apply refined_ActionsForTxn.
  - apply refined_PendingApprovals.
  - apply refined_PolicySets.
  - apply refined_ActivePolicySet.
Qed.

#[export] Instance memory_store_laws : StoreLaws World.
Proof. split. intros l w op Hok Ha. exact (mem_refines op l w Hok Ha). Qed.

Lemma mem_ok_New tools : mem_ok empty_ledger (new_world tools).
Proof.
  split; cbn; try done.
  - apply policies_ok_New.
  - intros org p Hp. by apply elem_of_nil in Hp.
  - intros k id. rewrite lookup_empty. split; [done|]. intros (a & Ha & _). by rewrite lookup_empty in Ha.
Qed.

(** The memory store refines the contract.  A new store stands for the
    empty ledger, and every admissible call on a store that stands for a
    ledger answers what a transition of the contract answers, and leaves a
    store that stands for the ledger after it. *)
Theorem memory_store_refines :
  (forall tools, mem_ok empty_ledger (new_world tools)) /\
  (forall l w op, mem_ok l w -> admissible plain_id l op ->
     exists l', spec_step l op (run (mem_exec op) w).1 l' /\ mem_ok l' (run (mem_exec op) w).2).
Proof. split; [apply mem_ok_New|intros l w op; apply mem_refines]. Qed.

End MemRefine.
