(* ===== verification/MemVault.v ===== *)
(** * MemVault: MemoryStore keeps secrets as the contract says *)

From Stdlib Require Import Ascii.
From S2P Require Export VaultModel MemRefine.

Open Scope Z_scope.

(** ** Maps with composite keys

    The memory store keys by "org|name" where the contract has pairs. *)

Definition pair_key (org name : string) : string := org +:+ "|" +:+ name.

Record keyed {A B} (R : string -> A -> B -> Prop) (m : gmap (string * string) A) (n : gmap string B) : Prop := {
  ky_to : forall org name a, m !! (org, name) = Some a ->
    plain_id org /\ exists b, n !! pair_key org name = Some b /\ R org a b;
  ky_from : forall k b, n !! k = Some b ->
    exists org name a, k = pair_key org name /\ plain_id org /\ m !! (org, name) = Some a /\ R org a b }.

Lemma pair_key_inj org name org' name' : plain_id org -> plain_id org' ->
  pair_key org name = pair_key org' name' -> org = org' /\ name = name'.
Proof. intros H H'. by apply (separated "|"%char). Qed.

Section Keyed.
Context {A B : Type} {R : string -> A -> B -> Prop}.

Lemma keyed_lookup m n org name : keyed R m n -> plain_id org ->
  match m !! (org, name), n !! pair_key org name with
  | Some a, Some b => R org a b
  | None, None => True
  | _, _ => False
  end.
Proof.
  intros [Hto Hfrom] Hp. destruct (m !! (org, name)) as [a|] eqn:Ea.
  - destruct (Hto _ _ _ Ea) as (_ & b & -> & Hr). done.
  - destruct (n !! pair_key org name) as [b|] eqn:Eb; [|done].
    destruct (Hfrom _ _ Eb) as (o & nm & a & Hk & Ho & Ha & _). apply pair_key_inj in Hk as [<- <-]; congruence.
Qed.

Lemma keyed_insert m n org name a b : keyed R m n -> plain_id org -> R org a b ->
  keyed R (<[ (org, name) := a ]> m) (<[ pair_key org name := b ]> n).
Proof.
  intros [Hto Hfrom] Hp Hr. split.
  - intros o nm x Hx. apply lookup_insert_Some in Hx as [[[= <- <-] <-]|[Hne Hx]].
    + split; [done|]. exists b. by rewrite lookup_insert_eq.
    + destruct (Hto _ _ _ Hx) as (Ho & y & Hy & Hxy). split; [done|]. exists y. split; [|done].
      rewrite lookup_insert_ne; [done|]. intros E. apply pair_key_inj in E as [-> ->]; done.
  - intros k y Hy. apply lookup_insert_Some in Hy as [[<- <-]|[Hne Hy]].
    + exists org, name, a. by rewrite lookup_insert_eq.
    + destruct (Hfrom _ _ Hy) as (o & nm & x & -> & Ho & Hx & Hxy). exists o, nm, x.
      rewrite lookup_insert_ne by congruence. done.
Qed.

Lemma elem_of_org_entries (org : string) (m : gmap (string * string) A) name a :
  (name, a) ∈ org_entries org m <-> m !! (org, name) = Some a.
Proof.
  unfold org_entries. rewrite list_elem_of_omap. split.
  - intros ([[o nm] x] & Hin & E). destruct (String.eqb_spec o org) as [->|]; [|done]. injection E as -> ->.
    by apply elem_of_map_to_list.
  - intros Hm. exists (org, name, a). rewrite string_eqb_refl. split; [by apply elem_of_map_to_list|done].
Qed.

Lemma org_entries_NoDup (org : string) (m : gmap (string * string) A) : NoDup (org_entries org m).*1.
Proof.
  unfold org_entries. pose proof (NoDup_fst_map_to_list m) as Hn. induction (map_to_list m) as [|[[o nm] x] l IH]; [constructor|].
  cbn in *. apply NoDup_cons in Hn as [Hout Hn]. destruct (String.eqb_spec o org) as [->|]; [|by apply IH]. cbn.
  constructor; [|by apply IH]. intros ([nm' y] & E & Hin)%list_elem_of_fmap. cbn in E. subst nm'.
  apply list_elem_of_omap in Hin as ([[o' nm'] z] & Hin & E). destruct (String.eqb_spec o' org) as [->|]; [|done].
  injection E as -> ->. apply Hout, list_elem_of_fmap. by exists (org, nm, y).
Qed.

(** What a range over the flat map finds of an organization. *)
Definition own_entries (org : string) (l : list (string * B)) : list (string * B) :=
  omap (fun '(k, b) => if HasPrefix k (org +:+ "|") then Some (TrimPrefix k (org +:+ "|"), b) else None) l.

Lemma prefix_pair_key org name : HasPrefix (pair_key org name) (org +:+ "|") = true /\
  TrimPrefix (pair_key org name) (org +:+ "|") = name.
Proof.
  unfold pair_key. rewrite <- string_app_assoc. split; [apply HasPrefix_app|apply TrimPrefix_app].
Qed.

Lemma prefix_pair_key_inv org k : HasPrefix k (org +:+ "|") = true ->
  k = pair_key org (TrimPrefix k (org +:+ "|")).
Proof.
  intros H. apply HasPrefix_inv in H as [r ->]. rewrite TrimPrefix_app. unfold pair_key. by rewrite <- string_app_assoc.
Qed.

Lemma elem_of_own_entries org (n : gmap string B) l name b : l ≡ₚ map_to_list n ->
  (name, b) ∈ own_entries org l <-> n !! pair_key org name = Some b.
Proof.
  intros Hl. unfold own_entries. rewrite list_elem_of_omap. split.
  - intros ([k x] & Hin & E). rewrite Hl in Hin. apply elem_of_map_to_list in Hin.
    destruct (HasPrefix k (org +:+ "|")) eqn:Hp; [|done]. injection E as <- ->.
    by rewrite <- (prefix_pair_key_inv org k Hp).
  - intros Hn. exists (pair_key org name, b). destruct (prefix_pair_key org name) as [-> ->]. split; [|done].
    rewrite Hl. by apply elem_of_map_to_list.
Qed.

Lemma own_entries_NoDup org (n : gmap string B) l : l ≡ₚ map_to_list n -> NoDup (own_entries org l).*1.
Proof.
  intros Hl. assert (Hn : NoDup l.*1) by (rewrite Hl; apply NoDup_fst_map_to_list). clear Hl. unfold own_entries.
  induction l as [|[k x] l IH]; [constructor|]. cbn in *. apply NoDup_cons in Hn as [Hout Hn].
  destruct (HasPrefix k (org +:+ "|")) eqn:Hp; [|by apply IH]. cbn. constructor; [|by apply IH].
  intros ([nm y] & E & Hin)%list_elem_of_fmap. cbn in E. apply list_elem_of_omap in Hin as ([k' z] & Hin & E').
  destruct (HasPrefix k' (org +:+ "|")) eqn:Hp'; [|done]. injection E' as E' ->.
  apply Hout, list_elem_of_fmap. exists (k', y). split; [|done]. cbn.
  rewrite (prefix_pair_key_inv org k Hp), (prefix_pair_key_inv org k' Hp'). congruence.
Qed.

(** The two lists agree, entry by entry. *)
Lemma keyed_entries {C} (f : A -> C) (g : B -> C) m n l (org : string) :
  keyed R m n -> plain_id org -> l ≡ₚ map_to_list n -> (forall a b, R org a b -> g b = f a) ->
  prod_map id g <$> own_entries org l ≡ₚ prod_map id f <$> org_entries org m.
Proof.
  intros Hk Hp Hl Hfg.
  assert (Hnd : forall {X} (h : X -> C) (e : list (string * X)), NoDup e.*1 -> NoDup (prod_map id h <$> e)).
  { intros X h e He. apply (NoDup_fmap_1 fst). rewrite <- list_fmap_compose.
    by rewrite (list_fmap_ext (fst ∘ prod_map id h) fst) by by intros ? []. }
  apply NoDup_Permutation; [by eapply Hnd, own_entries_NoDup|apply Hnd, org_entries_NoDup|].
  intros [name c]. rewrite !list_elem_of_fmap. pose proof (keyed_lookup m n org name Hk Hp) as Hx. split.
  - intros ([nm b] & E & Hin). injection E as -> ->. apply (elem_of_own_entries org n l) in Hin; [|done].
    rewrite Hin in Hx. destruct (m !! (org, nm)) as [a|] eqn:Ea; [|done]. exists (nm, a).
    split; [cbn; by rewrite (Hfg _ _ Hx)|by apply elem_of_org_entries].
  - intros ([nm a] & E & Hin). injection E as -> ->. apply elem_of_org_entries in Hin.
    rewrite Hin in Hx. destruct (n !! pair_key org nm) as [b|] eqn:Eb; [|done]. exists (nm, b).
    split; [cbn; by rewrite (Hfg _ _ Hx)|by eapply elem_of_own_entries].
Qed.

End Keyed.

Section MemVault.
Context `{RL : RuntimeLaws} `{PI : !PlainIds}.

(** ** The vault a memory store stands for *)

Definition cred_view (c : credRef) : Cred := MkCred (cr_orgID c) (cr_agentID c) (cr_hash c) (cr_revoked c).

Definition token_view (t : opToken) : string * string * string := (ot_orgID t, ot_name t, ot_hash t).

(** A server and its token, as the entry holds them. *)
Definition entry_holds (p : option Provider) (org : string) (x : MCPServer * string) (e : mcpEntry) : Prop :=
  ms_OrgID (me_server e) = org /\ x.1 = server_view (me_server e) /\ opened p (me_token e) = Some x.2.

Record mem_vault (v : Vault) (w : World) : Prop := {
  mv_honest : honest (st_keyProvider (w_store w));
  mv_creds : va_creds v = cred_view <$> st_credByKey (w_store w);
  mv_tokens : va_tokens v = token_view <$> st_opTokens (w_store w);
  mv_live : forall k t, st_opTokens (w_store w) !! k = Some t -> ot_revoked t = false;
  mv_secrets : keyed (fun _ s t => opened (st_keyProvider (w_store w)) t = Some s)
    (va_secrets v) (st_integCreds (w_store w));
  mv_servers : keyed (entry_holds (st_keyProvider (w_store w))) (va_servers v) (st_mcpServers (w_store w)) }.

Definition mem_vexec (op : VOp) : prog VRes :=
  match op with
  | VStoreCredential org agent k h => let@ _ := StoreCredential org agent k h in Ret VUnit
  | VGetCredential k => let@ c := GetCredential k in Ret (VCred c)
  | VRevokeCredential k => let@ ok := RevokeCredential k in Ret (VFlag ok)
  | VTouchCredential k => let@ _ := TouchCredential k in Ret VUnit
  | VCreateOperatorToken org name k h => let@ _ := CreateOperatorToken org name k h in Ret VUnit
  | VGetOperatorToken k => let@ t := GetOperatorToken k in Ret (VCred t)
  | VTouchOperatorToken k => let@ _ := TouchOperatorToken k in Ret VUnit
  | VSetIntegrationCredential org name s => let@ ok := SetIntegrationCredential org name s in Ret (VFlag ok)
  | VGetIntegrationCredential org name => let@ s := GetIntegrationCredential org name in Ret (VSecret s)
  | VListIntegrationCredentials org => let@ l := ListIntegrationCredentials org in Ret (VNames l)
  | VUpsertMCPServer s token =>
      let@ s := UpsertMCPServer s token in Ret (VServer (Some (server_view s, token)))
  | VGetMCPServer org name =>
      let@ s := GetMCPServer org name in Ret (VServer (prod_map server_view id <$> s))
  | VListMCPServers org => let@ l := ListMCPServers org in Ret (VServers (listed_view <$> l))
  end.

#[export] Instance memory_vault : VStore World := { exec_vop := mem_vexec; vault_ok := mem_vault }.

(** ** Frames *)

(** The part of the store the vault is in. *)
Definition vault_part (s : MemoryStore) :=
  (st_keyProvider s, st_credByKey s, st_opTokens s, st_integCreds s, st_mcpServers s).

Lemma mem_vault_frame v w w' : vault_part (w_store w') = vault_part (w_store w) -> mem_vault v w -> mem_vault v w'.
Proof. intros [= K C T I M] []. by split; rewrite ?K, ?C, ?T, ?I, ?M. Qed.

Lemma mem_vault_framed v w op : mem_vault v w -> mem_vault v (run (mem_exec op) w).2.
Proof.
  apply mem_vault_frame. destruct op; cbn; try done;
    unfold CreateAgent, GetAgent, CreateTxn, GetTxn, SetTxnStatus, AddAction, GetAction, UpdateAction, CreateApproval,
      GetApproval, DecideApproval, CreatePolicySet, ActivatePolicySet, Policies, CreateGrant, GrantsForAgent, RevokeGrant,
      ListTxns, ActionsForTxn, PendingApprovals, PolicySets, ActivePolicySet,
      m_bind, get_store, modify_store, uid, now, m_ret, ranging; cbn;
    repeat match goal with |- context [if ?b then _ else _] => destruct b; cbn end; repeat (case_match; cbn); by simplify_eq/=.
Qed.

Definition vrefined (op : VOp) : Prop := forall l v w, mem_ok l w -> mem_vault v w -> vadmissible plain_id l v op ->
  exists v', vspec_step v op (run (mem_vexec op) w).1 v' /\
    mem_ok l (run (mem_vexec op) w).2 /\ mem_vault v' (run (mem_vexec op) w).2.

(** ** Credentials and tokens *)

Lemma vrefined_StoreCredential org agent k h : vrefined (VStoreCredential org agent k h).
Proof.
  intros l v w Hl [] (_ & _ & Hk). cbn. eexists. split; [by apply vspec_store|].
  split.
  - eapply mem_ok_frame; [..|exact Hl]; done.
  - split; cbn; try done. by rewrite mv_creds0, fmap_insert.
Qed.

Lemma vrefined_GetCredential k : vrefined (VGetCredential k).
Proof.
  intros l v w Hl Hv _. exists v. cbn. split; [|done].
  replace (match st_credByKey (w_store w) !! k with Some c => _ | None => None end) with (live_cred (va_creds v !! k)); [apply vspec_get|].
  rewrite (mv_creds _ _ Hv), lookup_fmap. by destruct (st_credByKey (w_store w) !! k).
Qed.

Lemma vrefined_RevokeCredential k : vrefined (VRevokeCredential k).
Proof.
  intros l v w Hl Hv _. pose proof Hv as []. cbn. unfold RevokeCredential, m_bind, get_store. cbn.
  destruct (st_credByKey (w_store w) !! k) as [c|] eqn:Ec; [destruct (cr_revoked c) eqn:Er|]; cbn.
  - exists v. split; [|done]. apply vspec_revoke_none. rewrite mv_creds0, lookup_fmap, Ec. cbn. by rewrite Er.
  - eexists. split.
    + apply (vspec_revoke v k (cred_view c)); [by rewrite mv_creds0, lookup_fmap, Ec|done].
    + split; [eapply mem_ok_frame; [..|exact Hl]; done|].
      split; cbn; try done. by rewrite mv_creds0, fmap_insert.
  - exists v. split; [|done]. apply vspec_revoke_none. by rewrite mv_creds0, lookup_fmap, Ec.
Qed.

Lemma vrefined_TouchCredential k : vrefined (VTouchCredential k).
Proof.
  intros l v w Hl Hv _. pose proof Hv as []. exists v. cbn. unfold TouchCredential, m_bind, get_store. cbn.
  destruct (st_credByKey (w_store w) !! k) as [c|] eqn:Ec; cbn; [|split; [apply vspec_touch|done]].
  split; [apply vspec_touch|]. split; [eapply mem_ok_frame; [..|exact Hl]; done|].
  split; cbn; try done. rewrite mv_creds0. by rewrite (fmap_insert_same _ _ _ _ _ Ec).
Qed.

Lemma vrefined_CreateOperatorToken org name k h : vrefined (VCreateOperatorToken org name k h).
Proof.
  intros l v w Hl [] (_ & Hk). cbn. eexists. split; [by apply vspec_token|].
  split; [eapply mem_ok_frame; [..|exact Hl]; done|].
  split; cbn; try done; [by rewrite mv_tokens0, fmap_insert|].
  intros k' t Ht. apply lookup_insert_Some in Ht as [[_ <-]|[_ Ht]]; [done|by eapply mv_live0].
Qed.

Lemma vrefined_GetOperatorToken k : vrefined (VGetOperatorToken k).
Proof.
  intros l v w Hl Hv _. exists v. cbn. split; [|done].
  replace (match st_opTokens (w_store w) !! k with Some t => _ | None => None end) with (va_tokens v !! k); [apply vspec_get_token|].
  rewrite (mv_tokens _ _ Hv), lookup_fmap. destruct (st_opTokens (w_store w) !! k) as [t|] eqn:Et; [|done]. cbn.
  by rewrite (mv_live _ _ Hv _ _ Et).
Qed.

Lemma vrefined_TouchOperatorToken k : vrefined (VTouchOperatorToken k).
Proof.
  intros l v w Hl Hv _. pose proof Hv as []. exists v. cbn. unfold TouchOperatorToken, m_bind, get_store. cbn.
  destruct (st_opTokens (w_store w) !! k) as [c|] eqn:Ec; cbn; [|split; [apply vspec_touch_token|done]].
  split; [apply vspec_touch_token|]. split; [eapply mem_ok_frame; [..|exact Hl]; done|].
  split; cbn; try done.
  - rewrite mv_tokens0. by rewrite (fmap_insert_same _ _ _ _ _ Ec).
  - intros k' t Ht. apply lookup_insert_Some in Ht as [[_ <-]|[_ Ht]]; [cbn|]; by eapply mv_live0.
Qed.

(** ** Sealed secrets *)

Lemma mem_plain l w org : mem_ok l w -> org ∈ l_orgs l -> plain_id org.
Proof.
  intros [] Ho. rewrite mo_orgs in Ho. apply elem_of_dom in Ho as [o Ho]. by eapply mo_plain_orgs.
Qed.

Lemma vrefined_SetIntegrationCredential org name secret : vrefined (VSetIntegrationCredential org name secret).
Proof.
  intros l v w Hl Hv Ho. pose proof (mem_plain _ _ _ Hl Ho) as Hp. pose proof Hv as [].
  cbn. unfold SetIntegrationCredential. destruct (String.eqb_spec secret "") as [->|Hs]; cbn.
  { exists v. split; [apply vspec_set_empty|done]. }
  eexists. split; [by apply vspec_set|]. unfold sealLocked, m_bind, get_store, tick. cbn.
  split; [eapply mem_ok_frame; [..|exact Hl]; done|]. split; cbn; try done.
  apply keyed_insert; [done|done|]. exact (opened_sealed _ (w_tick w) secret mv_honest0).
Qed.

Lemma vrefined_GetIntegrationCredential org name : vrefined (VGetIntegrationCredential org name).
Proof.
  intros l v w Hl Hv Hp. cbn in Hp. exists v. cbn. split; [|done].
  replace (credential_in (w_store w) org name) with (va_secrets v !! (org, name)); [apply vspec_secret|].
  pose proof (keyed_lookup _ _ org name (mv_secrets _ _ Hv) Hp) as Hx.
  change (st_integCreds (w_store w) !! pair_key org name) with (st_integCreds (w_store w) !! (org +:+ "|" +:+ name)) in Hx.
  unfold credential_in. destruct (va_secrets v !! (org, name)) as [s|], (st_integCreds (w_store w) !! _) as [t|]; try done.
Qed.

Lemma names_own {B} (org : string) (l : list (string * B)) :
  (fun k => TrimPrefix k (org +:+ "|")) <$> base.filter (fun k => HasPrefix k (org +:+ "|") = true) l.*1 =
  (own_entries org l).*1.
Proof.
  unfold own_entries. induction l as [|[k b] l IH]; [done|]. rewrite fmap_cons, filter_cons. cbn [fst omap list_omap].
  destruct (HasPrefix k (org +:+ "|")) eqn:Hp.
  - rewrite decide_True by done. rewrite !fmap_cons. cbn [fst]. by rewrite <- IH.
  - by rewrite decide_False.
Qed.

Lemma vrefined_ListIntegrationCredentials org : vrefined (VListIntegrationCredentials org).
Proof.
  intros l v w Hl Hv Hp. cbn in Hp. exists v. cbn. split.
  - apply vspec_names. rewrite names_own.
    pose proof (keyed_entries (fun _ => tt) (fun _ => tt) _ _ _ org (mv_secrets _ _ Hv) Hp (range_map_perm _ (w_tick w) _) (fun _ _ _ => eq_refl)) as H.
    apply (fmap_Permutation fst) in H. rewrite <- !list_fmap_compose in H. exact H.
  - split; [eapply mem_ok_frame; [..|exact Hl]; done|by apply (mem_vault_frame v w)].
Qed.

(** ** MCP servers *)

Lemma vrefined_UpsertMCPServer srv token : vrefined (VUpsertMCPServer srv token).
Proof.
  intros l v w Hl Hv (Ho & Hid & _). pose proof (mem_plain _ _ _ Hl Ho) as Hp. pose proof Hv as [].
  cbn. unfold UpsertMCPServer. rewrite Hid. cbn.
  assert (Hs : forall id t, server_view (srv <| ms_ID := id |> <| ms_CreatedAt := t |>
      <| ms_HasToken := negb (String.eqb token "") |>) = (stored_server srv token).1) by by destruct srv.
  rewrite Hs. eexists. split; [apply vspec_upsert|].
  unfold sealLocked, m_bind, get_store, tick. cbn.
  split; [eapply mem_ok_frame; [..|exact Hl]; cbn; try done; lia|]. split; cbn; try done.
  apply keyed_insert; [done|done|]. split; [done|]. split; [symmetry; apply Hs|].
  exact (opened_sealed _ (S (w_tick w)) token mv_honest0).
Qed.

Lemma vrefined_GetMCPServer org name : vrefined (VGetMCPServer org name).
Proof.
  intros l v w Hl Hv Hp. cbn in Hp. exists v. cbn. unfold GetMCPServer, m_bind, get_store.
  pose proof (keyed_lookup _ _ org name (mv_servers _ _ Hv) Hp) as Hx.
  change (st_mcpServers (w_store w) !! pair_key org name) with (st_mcpServers (w_store w) !! mcpKey org name) in Hx.
  pose proof (vspec_server v org name) as Hs.
  destruct (va_servers v !! (org, name)) as [[x tok]|], (st_mcpServers (w_store w) !! _) as [e|]; try done.
  destruct Hx as (_ & E & Hopen). cbn in E, Hopen. unfold openLocked, m_bind, get_store, m_ret.
  change (open_in (w_store w) (me_token e)) with (opened (st_keyProvider (w_store w)) (me_token e)).
  rewrite Hopen. cbn. by rewrite <- E.
Qed.

Lemma servers_own org (l : list (string * mcpEntry)) :
  (forall k e, (k, e) ∈ l -> HasPrefix k (org +:+ "|") = true <-> ms_OrgID (me_server e) = org) ->
  base.filter (fun s => ms_OrgID s = org) (me_server <$> l.*2) = me_server <$> (own_entries org l).*2.
Proof.
  unfold own_entries. induction l as [|[k e] l IH]; intros Hl; [done|].
  specialize (IH (fun k e H => Hl k e (list_elem_of_further _ _ _ H))).
  pose proof (Hl k e (list_elem_of_here _ _)) as He. rewrite !fmap_cons, filter_cons. cbn [fst snd omap list_omap].
  destruct (HasPrefix k (org +:+ "|")).
  - rewrite decide_True by by apply He. rewrite !fmap_cons. cbn [snd]. by rewrite <- IH.
  - rewrite decide_False; [exact IH|]. intros H. by apply He in H.
Qed.

Lemma vrefined_ListMCPServers org : vrefined (VListMCPServers org).
Proof.
  intros l v w Hl Hv Hp. cbn in Hp. exists v. cbn. split.
  - apply vspec_servers. rewrite servers_own.
    + pose proof (keyed_entries (listed_view ∘ fst) (listed_view ∘ me_server) _ _ _ org (mv_servers _ _ Hv) Hp
        (range_map_perm _ (w_tick w) _)) as H.
      assert (Hf : forall x e, entry_holds (st_keyProvider (w_store w)) org x e ->
        (listed_view ∘ me_server) e = (listed_view ∘ fst) x).
      { intros x e (_ & E & _). cbn. unfold listed_view. rewrite E. by destruct (me_server e). }
      specialize (H Hf).
      apply (fmap_Permutation snd) in H. rewrite <- !list_fmap_compose in H.
      rewrite <- list_fmap_compose. etrans; [|etrans; [exact H|]]; by rewrite <- ?list_fmap_compose.
    + intros k e Hin. apply range_map_elem in Hin.
      destruct (ky_from _ _ _ (mv_servers _ _ Hv) _ _ Hin) as (o & nm & x & -> & Ho & _ & Hoe & _). rewrite Hoe. split.
      * intros H%prefix_pair_key_inv. by apply pair_key_inj in H as [? _].
      * intros ->. apply prefix_pair_key.
  - split; [eapply mem_ok_frame; [..|exact Hl]; done|by apply (mem_vault_frame v w)].
Qed.

Lemma mem_vrefines op : vrefined op.
Proof.
  destruct op.
  - apply vrefined_StoreCredential.
  - apply vrefined_GetCredential.
  - apply vrefined_RevokeCredential.
  - apply vrefined_TouchCredential.
  - apply vrefined_CreateOperatorToken.
  - apply vrefined_GetOperatorToken.
  - apply vrefined_TouchOperatorToken.
  - apply vrefined_SetIntegrationCredential.
  - apply vrefined_GetIntegrationCredential.
  - apply vrefined_ListIntegrationCredentials.
  - apply vrefined_UpsertMCPServer.
  - apply vrefined_GetMCPServer.
  - apply vrefined_ListMCPServers.
Qed.

#[export] Instance memory_vault_laws : VStoreLaws World.
Proof.
  split.
  - intros l v w op Hl Hv Ha. exact (mem_vrefines op l v w Hl Hv Ha).
  - intros l v w op _ Hv _. by apply mem_vault_framed.
Qed.

(** A new store with a key provider. *)
Definition keyed_new (p : option Provider) (tools : Registry) : World := (SetKeyProvider p (new_world tools)).2.

Lemma mem_vault_New p tools : honest p -> mem_vault empty_vault (keyed_new p tools).
Proof. intros Hp. split; try done; split; intros; cbn in *; by rewrite lookup_empty in *. Qed.

End MemVault.
