(* ===== verification/PgDb.v ===== *)
(** * PgDb: the tables and statements of the Postgres store
    (internal/store/migrations/*.sql, and the SQL of internal/store/postgres.go)

    A table is a map of rows under its key; a statement is a function of the
    database that succeeds with a result and a new database, or fails without
    effect: on a constraint of the schema, or because the server or the
    connection refuses it, which is a parameter.  A database transaction is
    one step.  Columns that are written but never read back (agent_group,
    owner text, transactions.idempotency_key, receipts.payload,
    actions.policy_result beyond its check, updated_at) are left out.

    A row holds the Go value bound to each column.  A nullable UUID that the
    code reads into a string is the empty string when it is NULL.  What
    [json.Unmarshal] makes of a JSONB column is a parameter ([trip_map] and
    its siblings), applied when a row is read. *)

From S2P Require Export StoreModel.

Open Scope Z_scope.

(** ** The server and the driver *)

Class PgEnv := {
  (** a string bound to a UUID parameter, as canonical text; the driver
      refuses other strings *)
  uuid_param : string -> option string;
  (** [uuid.Parse], as canonical text *)
  uuid_Parse : string -> option string;
  (** [gen_random_uuid()] and [now()] in the n-th statement *)
  gen_random_uuid : nat -> string;
  db_now : nat -> time;
  (** the n-th statement fails: lost connection, refused text, ... *)
  stmt_err : nat -> option string;
  (** the text of a constraint violation *)
  violation : nat -> string;
  (** the result of the n-th statement breaks off after some rows *)
  rows_cut : nat -> option nat;
  (** the rows of the n-th statement in the given order *)
  order_rows : forall {A : Type}, nat -> (A -> A -> bool) -> list A -> list A;
  (** the order of the database on text *)
  collate : string -> string -> bool;
  (** Unmarshal after ::text after ::jsonb after Marshal *)
  trip_map : gomap -> gomap;
  trip_payload : list (string * value) -> list (string * value);
  trip_decision : PolicyDecision -> option PolicyDecision;
  trip_rules : list PolicyRule -> list PolicyRule;
  trip_match : PolicyMatch -> PolicyMatch;
  trip_constraints : GrantConstraints -> GrantConstraints;
  trip_tools : list MCPTool -> list MCPTool;
  trip_classes : gmap string (list ActionClass) -> gmap string (list ActionClass);
  (** [time.Parse(time.RFC3339, created_at::text)] *)
  parse_text_time : time -> option time
}.

(** ** Tables *)

Record CredentialRow := MkCredentialRow {
  cd_org_id : string; cd_agent_id : string; cd_key_id : option string; cd_secret_hash : string;
  cd_revoked_at : option time; cd_created_at : time; cd_last_used_at : option time }.

Record OperatorRow := MkOperatorRow {
  op_org_id : string; op_name : string; op_secret_hash : string;
  op_revoked_at : option time; op_last_used_at : option time }.

Record McpRow := MkMcpRow {
  mr_server_id : string; mr_org_id : string; mr_name : string; mr_url : string;
  mr_auth_token : string; mr_tools : list MCPTool; mr_classes : gmap string (list ActionClass);
  mr_created_at : time }.

Record ReceiptRow := MkReceiptRow { rr_receipt : Receipt; rr_created_at : time }.

(** Keys: the primary key, or the columns of a UNIQUE constraint where rows
    are only found by them. *)
Record Db := MkDb {
  db_organizations : gmap string Organization;
  db_principals : gmap string Principal;
  db_agents : gmap string Agent;
  db_agent_credentials : gmap string CredentialRow;
  db_operator_tokens : gmap string OperatorRow;
  db_policy_sets : gmap (string * Z) PolicySet;
  db_policy_rules : gmap string PolicyRule;
  db_transactions : gmap string Transaction;
  db_actions : gmap string TxnAction;
  db_approvals : gmap string Approval;
  db_receipts : gmap string ReceiptRow;
  db_audit_events : gmap string AuditEvent;
  db_mcp_servers : gmap (string * string) McpRow;
  db_authority_grants : gmap string AuthorityGrant;
  db_integration_credentials : gmap (string * string) string;
  db_integration_configs : gmap (string * string) gomap }.

Definition empty_db : Db := MkDb ∅ ∅ ∅ ∅ ∅ ∅ ∅ ∅ ∅ ∅ ∅ ∅ ∅ ∅ ∅ ∅.

#[export] Instance eta_CredentialRow : Eta CredentialRow := fun r =>
  MkCredentialRow (cd_org_id r) (cd_agent_id r) (cd_key_id r) (cd_secret_hash r)
    (cd_revoked_at r) (cd_created_at r) (cd_last_used_at r).

#[export] Instance eta_OperatorRow : Eta OperatorRow := fun r =>
  MkOperatorRow (op_org_id r) (op_name r) (op_secret_hash r) (op_revoked_at r) (op_last_used_at r).

#[export] Instance eta_McpRow : Eta McpRow := fun r =>
  MkMcpRow (mr_server_id r) (mr_org_id r) (mr_name r) (mr_url r) (mr_auth_token r) (mr_tools r)
    (mr_classes r) (mr_created_at r).

#[export] Instance eta_Db : Eta Db := fun d =>
  MkDb (db_organizations d) (db_principals d) (db_agents d) (db_agent_credentials d)
    (db_operator_tokens d) (db_policy_sets d) (db_policy_rules d) (db_transactions d)
    (db_actions d) (db_approvals d) (db_receipts d) (db_audit_events d) (db_mcp_servers d)
    (db_authority_grants d) (db_integration_credentials d) (db_integration_configs d).

(** The process: PGStore with the database behind it, and what it has drawn. *)
Record Pg := MkPg { pg_db : Db; pg_keys : option Provider; pg_uid : nat; pg_tick : nat }.

#[export] Instance eta_Pg : Eta Pg := fun s => MkPg (pg_db s) (pg_keys s) (pg_uid s) (pg_tick s).

Definition rows {K R} `{Countable K} (m : gmap K R) : list R := (map_to_list m).*2.

(** ** Statements *)

Section Statements.
Context `{RT : Runtime} `{PE : PgEnv}.

(** [None]: a constraint is violated or a parameter refused. *)
Definition Q (A : Type) : Type := nat -> Db -> option (A * Db).

Definition q_ret {A} (x : A) : Q A := fun _ db => Some (x, db).
Definition q_bind {A B} (q : Q A) (k : A -> Q B) : Q B := fun n db =>
  match q n db with Some (x, db') => k x n db' | None => None end.

(** The condition of a constraint. *)
Definition q_guard (b : bool) : Q unit := fun _ db => if b then Some (tt, db) else None.
Definition q_db : Q Db := fun _ db => Some (db, db).
Definition q_write (f : Db -> Db) : Q unit := fun _ db => Some (tt, f db).
Definition q_now : Q time := fun n db => Some (db_now n, db).
Definition q_gen_uuid : Q string := fun n db => Some (gen_random_uuid n, db).
(** A UUID parameter. *)
Definition q_uuid (s : string) : Q string := fun _ db => u ← uuid_param s; Some (u, db).
Definition q_order {A} (le : A -> A -> bool) (l : list A) : Q (list A) := fun n db =>
  Some (order_rows n le l, db).

(** [pool.Exec]; the error is [inr]. *)
Definition exec {A} (q : Q A) : step Pg (A + string) := fun s =>
  let n := pg_tick s in
  let s := s <| pg_tick ::= S |> in
  match stmt_err n with
  | Some e => (inr e, s)
  | None => match q n (pg_db s) with
            | Some (x, db) => (inl x, s <| pg_db := db |>)
            | None => (inr (violation n), s)
            end
  end.

(** [pool.QueryRow(...).Scan(...)]: no row is an error like any other. *)
Definition query_row {A} (q : Q (option A)) : step Pg (option A) := fun s =>
  let '(r, s) := exec q s in
  (match r with inl r => r | inr _ => None end, s).

(** [pool.Query] and the loop over the rows, which ends silently when the
    result breaks off; [None] is an error of Query. *)
Definition query {A} (q : Q (list A)) : step Pg (option (list A)) := fun s =>
  let n := pg_tick s in
  let '(r, s) := exec q s in
  (match r with
   | inl rows => Some (match rows_cut n with Some k => take k rows | None => rows end)
   | inr _ => None
   end, s).

(** Begin ... Commit: [None] rolls back, and so does a failing Commit. *)
Definition transaction {A} (body : step Pg (option A)) : step Pg (option A) := fun s =>
  let '(b, s1) := exec (q_ret tt) s in
  match b with
  | inr _ => (None, s1)
  | inl _ =>
      let '(r, s2) := body s1 in
      match r with
      | None => (None, s2 <| pg_db := pg_db s |>)
      | Some x =>
          let '(c, s3) := exec (q_ret tt) s2 in
          match c with
          | inl _ => (Some x, s3)
          | inr _ => (None, s3 <| pg_db := pg_db s |>)
          end
      end
  end.

(** [uuid.NewString()] and [time.Now().UTC()] of the process. *)
Definition NewString : step Pg string := fun s => (uuid (pg_uid s), s <| pg_uid ::= S |>).
Definition Now : step Pg time := fun s => (clock (pg_tick s), s <| pg_tick ::= S |>).

(** ** Constraints *)

Definition has {K R} `{Countable K} (m : gmap K R) (k : K) : bool :=
  match m !! k with Some _ => true | None => false end.

(** A foreign key that may be NULL. *)
Definition has_opt {R} (m : gmap string R) (k : string) : bool := String.eqb k "" || has m k.

(** INSERT under a key that is new. *)
Definition fresh {K R} `{Countable K} (m : gmap K R) (k : K) : bool := negb (has m k).

End Statements.

Notation "'let?' x := q 'in' k" := (q_bind q (fun x => k))
  (at level 10, x binder, q at level 200, k at level 200,
   format "'[v' 'let?'  x  :=  q  'in' '/' k ']'") : go_scope.
