(* ===== verification/Migrate.v ===== *)
(** * Migrate: the migrations of the database (internal/store/migrate.go)

    The embedded files, what a migration does to the schema and which
    statements the server refuses are parameters.  Each file runs in a
    transaction together with the row that records it: it is applied at most
    once, in the order of the names, and a failure leaves the files before it
    applied and nothing else. *)

From stdpp Require Import sorting.
From S2P Require Export PgDb.

Open Scope Z_scope.

(** [sort.Strings]. *)
Definition string_le (x y : string) : Prop := String.leb x y = true.

#[export] Instance string_le_dec : RelDecision string_le := fun x y => decide (String.leb x y = true).

#[export] Instance string_le_total : Total string_le.
Proof. intros x y. apply String.leb_total. Qed.

Class Migrations (Sc : Type) := {
  (** the entries of the embedded directory, and which are directories *)
  migration_dir : list (string * bool);
  (** [migrationFS.ReadFile], and the error *)
  migration_file : string -> string + string;
  (** the effect of the statements of a file on tables and rows *)
  run_sql : string -> Sc -> option Sc }.

(** The database: the schema and the rows of schema_migrations. *)
Record MigDb (Sc : Type) := MkMigDb { md_schema : Sc; md_versions : gset string; md_tick : nat }.
Arguments MkMigDb {Sc} _ _ _.
Arguments md_schema {Sc} _.
Arguments md_versions {Sc} _.
Arguments md_tick {Sc} _.

Section Migrate.
Context `{PE : PgEnv} {Sc : Type} `{MI : !Migrations Sc}.

(** A statement: the error of the server, or of the statement itself. *)
Definition mig_exec (f : Sc * gset string -> option (Sc * gset string)) (db : MigDb Sc)
    : option string * MigDb Sc :=
  let n := md_tick db in
  match stmt_err n with
  | Some e => (Some e, MkMigDb (md_schema db) (md_versions db) (S n))
  | None =>
      match f (md_schema db, md_versions db) with
      | Some (sc, vs) => (None, MkMigDb sc vs (S n))
      | None => (Some (violation n), MkMigDb (md_schema db) (md_versions db) (S n))
      end
  end.

Definition noop : Sc * gset string -> option (Sc * gset string) := Some.

Definition insert_version (n : string) (x : Sc * gset string) : option (Sc * gset string) :=
  if decide (n ∈ x.2) then None else Some (x.1, {[ n ]} ∪ x.2).

Definition rollback (db0 db : MigDb Sc) : MigDb Sc :=
  MkMigDb (md_schema db0) (md_versions db0) (md_tick db).

(** The body of the loop; the error ends it. *)
Definition migrate_one (n : string) (db : MigDb Sc) : option string * MigDb Sc :=
  let '(e, db) := mig_exec noop db in
  let applied := bool_decide (e = None) && bool_decide (n ∈ md_versions db) in
  if applied then (None, db)
  else
    match migration_file n with
    | inr e => (Some e, db)
    | inl sql =>
        let '(e, db1) := mig_exec noop db in
        match e with
        | Some e => (Some e, db1)
        | None =>
            let '(e, db2) := mig_exec (fun x => sc ← run_sql sql x.1; Some (sc, x.2)) db1 in
            match e with
            | Some e => (Some ("migration " +:+ n +:+ ": " +:+ e), rollback db db2)
            | None =>
                let '(e, db3) := mig_exec (insert_version n) db2 in
                match e with
                | Some e => (Some e, rollback db db3)
                | None =>
                    let '(e, db4) := mig_exec noop db3 in
                    match e with
                    | Some e => (Some e, rollback db db4)
                    | None => (None, db4)
                    end
                end
            end
        end
    end.

Fixpoint migrate_loop (names : list string) (db : MigDb Sc) : option string * MigDb Sc :=
  match names with
  | [] => (None, db)
  | n :: names =>
      let '(e, db) := migrate_one n db in
      match e with
      | Some e => (Some e, db)
      | None => migrate_loop names db
      end
  end.

Definition migration_names : list string :=
  merge_sort string_le (fst <$> List.filter (fun e => negb (snd e)) migration_dir).

(** [None] is the nil error. *)
Definition Migrate (db : MigDb Sc) : option string * MigDb Sc :=
  let '(e, db) := mig_exec noop db in
  match e with
  | Some e => (Some ("schema_migrations: " +:+ e), db)
  | None => migrate_loop migration_names db
  end.

(** ** Properties *)

(** The files [ns] run one after another. *)
Fixpoint run_files (ns : list string) (sc : Sc) : option Sc :=
  match ns with
  | [] => Some sc
  | n :: ns => match migration_file n with inl sql => sc ← run_sql sql sc; run_files ns sc | inr _ => None end
  end.

Lemma mig_exec_noop db e db' : mig_exec noop db = (e, db') ->
  md_schema db' = md_schema db /\ md_versions db' = md_versions db.
Proof. unfold mig_exec, noop. destruct (stmt_err _); by intros [= <- <-]. Qed.

Lemma mig_exec_tick f db : md_tick (mig_exec f db).2 = S (md_tick db).
Proof. unfold mig_exec. by repeat case_match. Qed.

(** One file: it ran and is recorded, or nothing happened. *)
Lemma migrate_one_spec n db e db' : migrate_one n db = (e, db') ->
  (md_schema db' = md_schema db /\ md_versions db' = md_versions db /\ (e = None -> n ∈ md_versions db)) \/
  (e = None /\ n ∉ md_versions db /\ md_versions db' = {[ n ]} ∪ md_versions db /\
   run_files [n] (md_schema db) = Some (md_schema db')).
Proof.
  unfold migrate_one. destruct (mig_exec noop db) as [e0 d0] eqn:E0. apply mig_exec_noop in E0 as [Hs Hv].
  destruct (bool_decide (e0 = None) && bool_decide (n ∈ md_versions d0)) eqn:Ea.
  { intros [= <- <-]. left. apply andb_true_iff in Ea as [_ Ha]. apply bool_decide_eq_true in Ha.
    rewrite Hv in Ha. done. }
  clear Ea. destruct (migration_file n) as [sql|err] eqn:Ef; [|intros [= <- <-]; left; done].
  destruct (mig_exec noop d0) as [e1 d1] eqn:E1. apply mig_exec_noop in E1 as [Hs1 Hv1].
  destruct e1 as [e1|]; [intros [= <- <-]; left; split_and!; [congruence|congruence|done]|].
  unfold mig_exec at 1. destruct (stmt_err (md_tick d1)) as [e2|]; cbn -[mig_exec].
  { intros [= <- <-]. left. done. }
  destruct (run_sql sql (md_schema d1)) as [sc|] eqn:Er; cbn -[mig_exec]; [|intros [= <- <-]; left; done].
  unfold mig_exec at 1. cbn -[mig_exec insert_version]. destruct (stmt_err (S (md_tick d1))) as [e3|].
  { intros [= <- <-]. left. done. }
  unfold insert_version. cbn -[mig_exec]. destruct (decide (n ∈ md_versions d1)) as [Hin|Hnin]; cbn -[mig_exec].
  { intros [= <- <-]. left. done. }
  unfold mig_exec. cbn. destruct (stmt_err _) as [e4|]; intros [= <- <-]; [by left|]. right. cbn.
  rewrite Hv1, Hv in Hnin. split; [done|]. split; [done|]. split; [by rewrite Hv1, Hv|].
  rewrite Ef. rewrite Hs1, Hs in Er. by rewrite Er.
Qed.

Lemma run_files_app ns ns' sc : run_files (ns ++ ns') sc = (sc' ← run_files ns sc; run_files ns' sc').
Proof.
  revert sc. induction ns as [|n ns IH]; intros sc; cbn [app run_files]; [done|].
  destruct (migration_file n) as [sql|]; [|done]. destruct (run_sql sql sc); cbn; [apply IH|done].
Qed.

(** What a run of the loop did. *)
Lemma migrate_loop_spec names db e db' : migrate_loop names db = (e, db') ->
  exists ran, ran `sublist_of` names /\ NoDup ran /\ (forall n, n ∈ ran -> n ∉ md_versions db) /\
    run_files ran (md_schema db) = Some (md_schema db') /\
    md_versions db' = list_to_set ran ∪ md_versions db /\
    (e = None -> forall n, n ∈ names -> n ∈ md_versions db').
Proof.
  revert db. induction names as [|n names IH]; intros db; cbn [migrate_loop].
  { intros [= <- <-]. exists []. split_and!; try done; [constructor|set_solver|cbn; set_solver|set_solver]. }
  destruct (migrate_one n db) as [e1 d1] eqn:E1. apply migrate_one_spec in E1 as [(Hs & Hv & Hn)|(-> & Hn & Hv & Hr)].
  - destruct e1 as [e1|].
    { intros [= <- <-]. exists []. split_and!; try done; [apply sublist_nil_l|constructor|set_solver|cbn; congruence|].
      cbn. rewrite Hv. set_solver. }
    intros H. destruct (IH _ H) as (ran & H1 & H2 & H3 & H4 & H5 & H6). exists ran. rewrite Hs in H4. rewrite Hv in H3, H5.
    split_and!; try done; [by apply sublist_cons|]. intros He m Hm. apply elem_of_cons in Hm as [->|Hm]; [|by apply H6].
    rewrite H5. specialize (Hn eq_refl). set_solver.
  - intros H. destruct (IH _ H) as (ran & H1 & H2 & H3 & H4 & H5 & H6). exists (n :: ran). rewrite Hv in H3, H5.
    split_and!.
    + by apply sublist_skip.
    + constructor; [|done]. intros Hin. apply (H3 n Hin). set_solver.
    + intros m Hm. apply elem_of_cons in Hm as [->|Hm]; [done|]. specialize (H3 m Hm). set_solver.
    + change (n :: ran) with ([n] ++ ran). rewrite run_files_app, Hr. exact H4.
    + rewrite H5. cbn. set_solver.
    + intros He m Hm. apply elem_of_cons in Hm as [->|Hm]; [|by apply H6]. rewrite H5. set_solver.
Qed.

(** The files a database has not run. *)
Definition pending (names : list string) (vs : gset string) : list string := base.filter (fun n => n ∉ vs) names.

Lemma pending_none names vs : (forall n, n ∈ names -> n ∈ vs) -> pending names vs = [].
Proof.
  intros H. unfold pending. induction names as [|n names IH]; [done|]. rewrite filter_cons, decide_False.
  - apply IH. intros m Hm. apply H. by right.
  - intros Hn. apply Hn, H. by left.
Qed.

Lemma pending_out names vs n : n ∉ pending names vs -> n ∉ vs -> pending names ({[ n ]} ∪ vs) = pending names vs.
Proof.
  unfold pending. intros Hout Hn. induction names as [|m names IH]; [done|]. rewrite !filter_cons in *.
  destruct (decide (m ∉ vs)) as [Hm|Hm].
  - assert (m <> n) by (intros ->; apply Hout; by left). rewrite decide_True by set_solver. f_equal. apply IH.
    intros H'. apply Hout. by right.
  - rewrite decide_False by set_solver. by apply IH.
Qed.

Lemma migrate_one_runs n db sc : (forall n, stmt_err n = None) -> n ∉ md_versions db ->
  run_files [n] (md_schema db) = Some sc ->
  exists t, migrate_one n db = (None, MkMigDb sc ({[ n ]} ∪ md_versions db) t).
Proof.
  intros Hok Hn. cbn [run_files]. destruct (migration_file n) as [sql|] eqn:Ef; [|done].
  destruct (run_sql sql (md_schema db)) as [sc'|] eqn:Er; cbn; [|done]. intros [= ->].
  unfold migrate_one, mig_exec, noop, insert_version. rewrite !Hok. cbn. rewrite Ef, bool_decide_eq_false_2 by done.
  rewrite ?Hok. cbn. rewrite Er. cbn. rewrite ?Hok. cbn. rewrite decide_False by done. cbn. rewrite ?Hok. by eexists.
Qed.

(** While the server answers, the loop runs what is pending. *)
Lemma migrate_loop_runs names db sc : (forall n, stmt_err n = None) ->
  NoDup (pending names (md_versions db)) -> run_files (pending names (md_versions db)) (md_schema db) = Some sc ->
  exists t, migrate_loop names db = (None, MkMigDb sc (list_to_set (pending names (md_versions db)) ∪ md_versions db) t).
Proof.
  intros Hok. revert db. induction names as [|n names IH]; intros db; cbn [migrate_loop].
  { cbn. intros _ [= <-]. exists (md_tick db). rewrite union_empty_l_L. by destruct db. }
  unfold pending at 1 2 3. rewrite filter_cons. fold (pending names (md_versions db)).
  destruct (decide (n ∉ md_versions db)) as [Hn|Hn]; intros Hnd Hrun.
  - apply NoDup_cons in Hnd as [Hout Hnd]. change (run_files ([n] ++ pending names (md_versions db)) (md_schema db) = Some sc) in Hrun.
    rewrite run_files_app in Hrun.
    destruct (run_files [n] (md_schema db)) as [sc1|] eqn:E1; [|done]. cbn [mbind option_bind] in Hrun.
    destruct (migrate_one_runs n db sc1 Hok Hn E1) as [t ->].
    pose proof (pending_out names (md_versions db) n Hout Hn) as Hp.
    destruct (IH (MkMigDb sc1 ({[ n ]} ∪ md_versions db) t)) as [t' ->]; cbn; rewrite Hp; try done.
    exists t'. do 2 f_equal. cbn. set_solver.
  - unfold migrate_one, mig_exec, noop. rewrite Hok. cbn. apply dec_stable in Hn. rewrite bool_decide_eq_true_2 by done.
    apply (IH (MkMigDb (md_schema db) (md_versions db) (S (md_tick db)))); done.
Qed.

Lemma migrate_one_tick n db : (md_tick db <= md_tick (migrate_one n db).2)%nat.
Proof.
  unfold migrate_one.
  repeat match goal with
    | |- context [mig_exec ?f ?d] =>
        let H := fresh in pose proof (mig_exec_tick f d) as H; destruct (mig_exec f d) as [[?|] ?]; cbn in H
    | |- context [bool_decide ?P] => destruct (bool_decide P)
    | |- context [migration_file n] => destruct (migration_file n)
    end; cbn; lia.
Qed.

Lemma Migrate_tick db : (md_tick db <= md_tick (Migrate db).2)%nat.
Proof.
  unfold Migrate. pose proof (mig_exec_tick noop db) as H. destruct (mig_exec noop db) as [[e|] d]; cbn in *; [lia|].
  transitivity (md_tick d); [lia|]. clear H. revert d. induction migration_names as [|n names IH]; intros d; cbn [migrate_loop]; [done|].
  pose proof (migrate_one_tick n d) as H. destruct (migrate_one n d) as [[e|] d1]; [done|]. cbn in H.
  etrans; [exact H|apply IH].
Qed.

(** Every file of the directory is a name of the loop. *)
Lemma migration_names_complete n : (n, false) ∈ migration_dir -> n ∈ migration_names.
Proof.
  intros Hn. unfold migration_names. rewrite merge_sort_Permutation. apply list_elem_of_fmap.
  exists (n, false). split; [done|]. apply list_elem_of_In, filter_In. split; [by apply list_elem_of_In|done].
Qed.

Lemma Migrate_complete db db' : Migrate db = (None, db') -> forall n, n ∈ migration_names -> n ∈ md_versions db'.
Proof.
  unfold Migrate. destruct (mig_exec noop db) as [[e|] d]; [done|]. intros H.
  destruct (migrate_loop_spec _ _ _ _ H) as (ran & _ & _ & _ & _ & _ & H6). by apply H6.
Qed.

(** While the server answers, Migrate runs what is pending. *)
Lemma Migrate_runs db sc : (forall n, stmt_err n = None) ->
  NoDup (pending migration_names (md_versions db)) ->
  run_files (pending migration_names (md_versions db)) (md_schema db) = Some sc ->
  exists vs t, Migrate db = (None, MkMigDb sc vs t) /\ vs = list_to_set migration_names ∪ md_versions db.
Proof.
  intros Hok Hnd Hrun. unfold Migrate, mig_exec, noop. rewrite Hok.
  destruct (migrate_loop_runs migration_names (MkMigDb (md_schema db) (md_versions db) (S (md_tick db))) sc Hok Hnd Hrun) as [t ->].
  do 2 eexists. split; [reflexivity|]. cbn. apply set_eq. intros n. rewrite !elem_of_union, !elem_of_list_to_set.
  unfold pending. rewrite list_elem_of_filter. destruct (decide (n ∈ md_versions db)); naive_solver.
Qed.

(** C22: a migration is applied once, in order, or not at all.  Whatever the
    server refuses, a run of Migrate applies some of the files that were not
    applied before, each once and in the order of their names, and records
    exactly those; when it returns no error every file is applied, and
    running it again while the server answers changes nothing.  And while the
    server answers, it does apply everything: when the pending files run one
    after the other, Migrate returns no error and leaves what they leave. *)
Theorem Migrate_applies_once db :
  Sorted string_le migration_names /\
  (forall e db', Migrate db = (e, db') ->
     (exists ran, ran `sublist_of` migration_names /\ NoDup ran /\
        (forall n, n ∈ ran -> n ∉ md_versions db) /\
        run_files ran (md_schema db) = Some (md_schema db') /\
        md_versions db' = list_to_set ran ∪ md_versions db) /\
     (e = None -> (forall n, (n, false) ∈ migration_dir -> n ∈ md_versions db') /\
        ((forall n, stmt_err n = None) ->
         exists t, Migrate db' = (None, MkMigDb (md_schema db') (md_versions db') t)))) /\
  (forall sc, (forall n, stmt_err n = None) -> NoDup migration_names ->
     run_files (pending migration_names (md_versions db)) (md_schema db) = Some sc ->
     exists vs t, Migrate db = (None, MkMigDb sc vs t) /\ vs = list_to_set migration_names ∪ md_versions db).
Proof.
  split; [apply Sorted_merge_sort, _|]. split.
  - intros e db' H. split.
    + revert H. unfold Migrate. destruct (mig_exec noop db) as [e0 d0] eqn:E0. apply mig_exec_noop in E0 as [Hs Hv].
      destruct e0 as [e0|].
      { intros [= <- <-]. exists []. split_and!; [apply sublist_nil_l|constructor|set_solver|cbn; congruence|].
        cbn. rewrite Hv. set_solver. }
      intros H. destruct (migrate_loop_spec _ _ _ _ H) as (ran & H1 & H2 & H3 & H4 & H5 & _).
      rewrite Hv in H3, H5. rewrite Hs in H4. by exists ran.
    + intros ->. pose proof (Migrate_complete _ _ H) as Hc. split; [intros n Hn; by apply Hc, migration_names_complete|].
      intros Hok. destruct (Migrate_runs db' (md_schema db') Hok) as (vs & t & -> & ->); rewrite ?pending_none by done; try done;
        [constructor|]. exists t. do 2 f_equal. set_solver.
  - intros sc Hok Hnd Hrun. apply Migrate_runs; [done| |done]. by apply NoDup_filter.
Qed.

End Migrate.
