(* ===== verification/PgStore.v ===== *)
(** * PgStore: PGStore (internal/store/postgres.go), organizations to receipts

    One definition per method: a program of statements.  Errors the code
    drops are dropped here. *)

From S2P Require Export PgDb.

Open Scope Z_scope.

Section PgStore.
Context `{RT : Runtime} `{PE : PgEnv}.

(** ** Parameters *)

(** A UUID or NULL, which reads back as the empty string. *)
Definition mustPGUUID (id : string) : string := default "" (uuid_Parse id).

Definition optUUID (id : string) : string := if String.eqb id "" then "" else mustPGUUID id.

Definition strOr (p : option string) (d : string) : string := default d p.

(** The empty string read into a pointer. *)
Definition nonNull (id : string) : option string := if String.eqb id "" then None else Some id.

Definition effect_known (e : PolicyEffect) : bool :=
  match e with EffectOther _ => false | _ => true end.

(** ** Organizations, agents *)

Definition insert_organization (name : string) : Q (option Organization) :=
  let? id := q_gen_uuid in
  let? t := q_now in
  let o := MkOrganization id name t in
  let? _ := q_write (fun db => db <| db_organizations ::= <[ id := o ]> |>) in
  q_ret (Some o).

Definition insert_principal (orgID name : string) : Q (option Principal) :=
  let? org := q_uuid orgID in
  let? db := q_db in
  let? _ := q_guard (has (db_organizations db) org) in
  let? id := q_gen_uuid in
  let? t := q_now in
  let p := MkPrincipal id org "ORGANIZATION" name t in
  let? _ := q_write (fun db => db <| db_principals ::= <[ id := p ]> |>) in
  q_ret (Some p).

Definition SeedOrg (name : string) : program Pg (Organization * Principal) :=
  let@ o := query_row (insert_organization name) in
  let o := default (MkOrganization "" "" zero_time) o in
  let@ p := query_row (insert_principal (o_ID o) name) in
  let p := default (MkPrincipal "" "" "" "" zero_time) p in
  Ret (o, MkPrincipal (p_ID p) (p_OrgID p) PrincipalOrganization (p_Name p) (p_CreatedAt p)).

Definition OrgIDs : program Pg (list string) :=
  let@ l := query (
    let? db := q_db in
    q_order (fun o o' => o_CreatedAt o <=? o_CreatedAt o') (rows (db_organizations db))) in
  Ret (o_ID <$> default [] l).

(** [groups] is [None] for a nil slice, which is bound as NULL. *)
Definition insert_agent (id orgID principalID name env : string) (groups : option (list string))
    : Q (option Agent) :=
  let? id := q_uuid id in
  let? org := q_uuid orgID in
  let? principal := q_uuid principalID in
  let? db := q_db in
  let? _ := q_guard (has (db_organizations db) org && has (db_principals db) principal &&
                     fresh (db_agents db) id) in
  let? _ := q_guard (bool_decide (groups <> None)) in
  let? t := q_now in
  let a := MkAgent id org principal name (default [] groups) env "active" t in
  let? _ := q_write (fun db => db <| db_agents ::= <[ id := a ]> |>) in
  q_ret (Some a).

Definition insert_credential (orgID agentID : string) (keyID : option string) (secretHash : string)
    : Q unit :=
  let? org := q_uuid orgID in
  let? agent := q_uuid agentID in
  let? db := q_db in
  let? _ := q_guard (has (db_organizations db) org && has (db_agents db) agent) in
  let? _ := q_guard (match keyID with
              | Some k => negb (any (fun c => bool_decide (cd_key_id c = Some k)) (rows (db_agent_credentials db)))
              | None => true
              end) in
  let? id := q_gen_uuid in
  let? t := q_now in
  q_write (fun db => db <| db_agent_credentials ::=
    <[ id := MkCredentialRow org agent keyID secretHash None t None ]> |>).

Definition CreateAgent (orgID principalID name env : string) (groups : option (list string))
    (secretHash : string) : program Pg Agent :=
  let@ id := NewString in
  let@ a := query_row (insert_agent id orgID principalID name env groups) in
  let a := (default (MkAgent "" "" "" "" [] "" "" zero_time) a) <| ag_PrincipalID := principalID |> in
  let@ _ := exec (insert_credential orgID id None secretHash) in
  Ret a.

Definition GetAgent (orgID agentID : string) : program Pg (option Agent) :=
  let@ a := query_row (
    let? org := q_uuid orgID in
    let? id := q_uuid agentID in
    let? db := q_db in
    q_ret (a ← db_agents db !! id; if String.eqb (ag_OrgID a) org then Some a else None)) in
  Ret a.

(** Live credentials, newest first. *)
Definition live_credentials (p : CredentialRow -> bool) : Q (list CredentialRow) :=
  let? db := q_db in
  q_order (fun c c' => cd_created_at c' <=? cd_created_at c)
    (List.filter (fun c => p c && bool_decide (cd_revoked_at c = None)) (rows (db_agent_credentials db))).

Definition CredentialHash (agentID : string) : program Pg (option string) :=
  let@ h := query_row (
    let? id := q_uuid agentID in
    let? l := live_credentials (fun c => String.eqb (cd_agent_id c) id) in
    q_ret (cd_secret_hash <$> head l)) in
  Ret h.

(** ** Policy sets *)

Definition scanPolicySet (p : PolicySet) : PolicySet := p <| ps_Rules := trip_rules (ps_Rules p) |>.

Definition org_sets (db : Db) (org : string) : list PolicySet :=
  List.filter (fun p => String.eqb (ps_OrgID p) org) (rows (db_policy_sets db)).

(** The loop that gives every rule an identifier and its organization; the
    source does it in place. *)
Fixpoint assign_rules (orgID : string) (rules : list PolicyRule) : step Pg (list PolicyRule) :=
  match rules with
  | [] => m_ret []
  | r :: rules =>
      let* id := (if String.eqb (pr_ID r) "" then NewString else m_ret (pr_ID r)) in
      let* l := assign_rules orgID rules in
      m_ret (r <| pr_ID := id |> <| pr_OrgID := orgID |> :: l)
  end.

Definition insert_policy_set (orgID : string) (rules : list PolicyRule) (createdBy : string)
    : Q (option PolicySet) :=
  let? org := q_uuid orgID in
  let? db := q_db in
  let? _ := q_guard (has (db_organizations db) org) in
  let version := latest_version (org_sets db org) + 1 in
  let? _ := q_guard (fresh (db_policy_sets db) (org, version)) in
  let? id := q_gen_uuid in
  let? t := q_now in
  let set := MkPolicySet id org version rules PsDraft createdBy t in
  let? _ := q_write (fun db => db <| db_policy_sets ::= <[ (org, version) := set ]> |>) in
  q_ret (Some (scanPolicySet set)).

Definition CreatePolicySet (orgID : string) (rules : list PolicyRule) (createdBy : string)
    : program Pg PolicySet :=
  let@ rules := assign_rules orgID rules in
  let@ set := query_row (insert_policy_set orgID rules createdBy) in
  Ret (default (MkPolicySet "" orgID 0 rules PsDraft "" zero_time) set).

(** UPDATE ... SET status='disabled' WHERE org_id=$1 AND status='active'. *)
Definition disable_active (orgID : string) : Q unit :=
  let? org := q_uuid orgID in
  q_write (fun db => db <| db_policy_sets ::= fmap (fun p =>
    if String.eqb (ps_OrgID p) org && is_active p then p <| ps_Status := PsDisabled |> else p) |>).

(** UPDATE ... SET status='active' WHERE org_id=$1 AND version=$2, under the
    unique index of active sets. *)
Definition activate_version (orgID : string) (version : Z) : Q unit :=
  let? org := q_uuid orgID in
  let? db := q_db in
  let? _ := q_guard (negb (any (fun p => is_active p && negb (ps_Version p =? version)) (org_sets db org))) in
  q_write (fun db => db <| db_policy_sets ::= fmap (fun p =>
    if String.eqb (ps_OrgID p) org && (ps_Version p =? version) then p <| ps_Status := PsActive |> else p) |>).

Definition ActivatePolicySet (orgID : string) (version : Z) : program Pg bool :=
  let@ done_ := transaction (
    let* exists_ := query_row (
      let? org := q_uuid orgID in
      let? db := q_db in
      q_ret (if any (fun p => ps_Version p =? version) (org_sets db org) then Some tt else None)) in
    match exists_ with
    | None => m_ret None
    | Some _ =>
        let* r := exec (disable_active orgID) in
        match r with
        | inr _ => m_ret None
        | inl _ =>
            let* r := exec (activate_version orgID version) in
            m_ret (match r with inr _ => None | inl _ => Some tt end)
        end
    end) in
  Ret (bool_decide (done_ <> None)).

Definition PolicySets (orgID : string) : program Pg (list PolicySet) :=
  let@ l := query (
    let? org := q_uuid orgID in
    let? db := q_db in
    q_order (fun p p' => ps_Version p <=? ps_Version p') (org_sets db org)) in
  Ret (scanPolicySet <$> default [] l).

Definition ActivePolicySet (orgID : string) : program Pg (option PolicySet) :=
  let@ p := query_row (
    let? org := q_uuid orgID in
    let? db := q_db in
    q_ret (List.find is_active (org_sets db org))) in
  Ret (scanPolicySet <$> p).

Definition legacyPolicies (orgID : string) : program Pg (list PolicyRule) :=
  let@ l := query (
    let? org := q_uuid orgID in
    let? db := q_db in
    q_order (fun r r' => pr_Priority r <=? pr_Priority r')
      (List.filter (fun r => String.eqb (pr_OrgID r) org) (rows (db_policy_rules db)))) in
  Ret ((fun r => r <| pr_Match := trip_match (pr_Match r) |>) <$> default [] l).

Definition Policies (orgID : string) : program Pg (list PolicyRule) :=
  let! set := ActivePolicySet orgID in
  match set with
  | Some set => Ret (ps_Rules set)
  | None => legacyPolicies orgID
  end.

Definition SetPolicies (orgID : string) (rules : list PolicyRule) : program Pg unit :=
  let! set := CreatePolicySet orgID rules "system" in
  let! _ := ActivatePolicySet orgID (ps_Version set) in
  Ret tt.

(** ** Audit *)

Definition insert_event (e : AuditEvent) : Q unit :=
  let? org := q_uuid (e_OrgID e) in
  let txn := optUUID (e_TransactionID e) in
  let? db := q_db in
  let? _ := q_guard (has (db_organizations db) org && has_opt (db_transactions db) txn) in
  let? id := q_gen_uuid in
  q_write (fun db => db <| db_audit_events ::=
    <[ id := MkAuditEvent id org txn (e_ActorType e) (e_ActorID e) (e_Type e) (e_Payload e)
               (micro (e_CreatedAt e)) ]> |>).

Definition Emit (e : AuditEvent) : program Pg unit :=
  let@ t := (if e_CreatedAt e =? zero_time then Now else m_ret (e_CreatedAt e)) in
  let@ _ := exec (insert_event (e <| e_CreatedAt := t |>)) in
  Ret tt.

Definition later_event (e e' : AuditEvent) : bool :=
  (e_CreatedAt e' <? e_CreatedAt e) ||
  ((e_CreatedAt e' =? e_CreatedAt e) && negb (String.ltb (e_ID e) (e_ID e'))).

Definition Audit (orgID txnID : string) (limit : Z) : program Pg (list AuditEvent) :=
  let@ l := query (
    let? org := q_uuid orgID in
    let? txn := (if String.eqb txnID "" then q_ret "" else q_uuid txnID) in
    let? db := q_db in
    let? _ := q_guard (0 <=? limit) in
    let? l := q_order later_event (List.filter (fun e =>
      String.eqb (e_OrgID e) org && (String.eqb txnID "" || String.eqb (e_TransactionID e) txn))
      (rows (db_audit_events db))) in
    q_ret (take (Z.to_nat limit) l)) in
  Ret ((fun e => e <| e_Payload := trip_payload (e_Payload e) |>) <$> default [] l).

(** ** Transactions *)

Definition insert_transaction (t : Transaction) : Q unit :=
  let? id := q_uuid (t_ID t) in
  let? org := q_uuid (t_OrgID t) in
  let? agent := q_uuid (t_AgentID t) in
  let principal := optUUID (t_PrincipalID t) in
  let? db := q_db in
  let? _ := q_guard (has (db_organizations db) org && has (db_agents db) agent &&
                     has_opt (db_principals db) principal && fresh (db_transactions db) id) in
  let? _ := q_guard (bool_decide (t_Status t <> TxnZero)) in
  q_write (fun db => db <| db_transactions ::=
    <[ id := MkTransaction id org agent principal (t_SessionID t) (t_Objective t) (t_Status t)
               (t_RiskBudgetCents t) (micro (t_CreatedAt t)) (micro (t_UpdatedAt t)) ]> |>).

Definition CreateTxn (t : Transaction) : program Pg Transaction :=
  let@ id := NewString in
  let@ at_ := Now in
  let t := t <| t_ID := id |> <| t_CreatedAt := at_ |> <| t_UpdatedAt := at_ |> in
  let t := if bool_decide (t_Status t = TxnZero) then t <| t_Status := TxnCreated |> else t in
  let@ _ := exec (insert_transaction t) in
  let! _ := Emit (zero_event <| e_OrgID := t_OrgID t |> <| e_TransactionID := t_ID t |>
                    <| e_ActorType := "agent" |> <| e_ActorID := t_AgentID t |>
                    <| e_Type := "transaction.created" |>) in
  Ret t.

Definition GetTxn (orgID id : string) : program Pg (option Transaction) :=
  let@ t := query_row (
    let? org := q_uuid orgID in
    let? id := q_uuid id in
    let? db := q_db in
    q_ret (t ← db_transactions db !! id; if String.eqb (t_OrgID t) org then Some t else None)) in
  Ret t.

(** The rows an UPDATE by organization and key affects. *)
Definition update_transaction (orgID id : string) (st : TxnStatus) : Q Z :=
  let? org := q_uuid orgID in
  let? id := q_uuid id in
  let? db := q_db in
  let? t := q_now in
  match db_transactions db !! id with
  | Some x =>
      if String.eqb (t_OrgID x) org then
        let? _ := q_guard (bool_decide (st <> TxnZero)) in
        let? _ := q_write (fun db => db <| db_transactions ::=
          <[ id := x <| t_Status := st |> <| t_UpdatedAt := t |> ]> |>) in
        q_ret 1
      else q_ret 0
  | None => q_ret 0
  end.

(** [None] is the nil error. *)
Definition SetTxnStatus (orgID id : string) (st : TxnStatus) : program Pg (option string) :=
  let@ r := exec (update_transaction orgID id st) in
  Ret (match r with
       | inr err => Some err
       | inl n => if n =? 0 then Some "transaction not found" else None
       end).

Definition ListTxns (orgID : string) : program Pg (list Transaction) :=
  let@ l := query (
    let? org := q_uuid orgID in
    let? db := q_db in
    q_order (fun t t' => t_CreatedAt t' <=? t_CreatedAt t)
      (List.filter (fun t => String.eqb (t_OrgID t) org) (rows (db_transactions db)))) in
  Ret (default [] l).

Definition ended (st : TxnStatus) : bool :=
  match st with
  | TxnCommitted | TxnRolledBack | TxnPartiallyCompensated | TxnFailed => true
  | _ => false
  end.

(** The counts by state of the transactions a restart finds in progress. *)
Definition Recover : program Pg (gmap string Z) :=
  let@ l := query (
    let? db := q_db in
    q_order (fun _ _ => true) (List.filter (fun t => negb (ended (t_Status t))) (rows (db_transactions db)))) in
  for_each (fun t counts =>
    let state := TxnStatus_str (t_Status t) in
    let! _ := Emit (zero_event <| e_OrgID := t_OrgID t |> <| e_TransactionID := t_ID t |>
                      <| e_ActorType := "system" |> <| e_ActorID := "gateway" |>
                      <| e_Type := "transaction.recovered" |>
                      <| e_Payload := [("state", VString state)] |>) in
    Ret (<[ state := default 0 (counts !! state) + 1 ]> counts)) (default [] l) ∅.

(** ** Actions *)

Definition scanAction (a : TxnAction) : TxnAction :=
  a <| a_Arguments := trip_map (a_Arguments a) |>
    <| a_Decision := (d ← a_Decision a; trip_decision d) |>
    <| a_Result := match a_Result a with Some _ => trip_map (a_Result a) | None => None end |>.

(** The CHECK constraints of the actions table. *)
Definition action_checks (a : TxnAction) : bool :=
  bool_decide (a_Status a <> StZero) &&
  match a_Decision a with Some d => effect_known (d_Effect d) | None => true end.

Definition same_key (org txn idem : string) (a : TxnAction) : bool :=
  String.eqb (a_OrgID a) org && String.eqb (a_TransactionID a) txn && String.eqb (a_IdempotencyKey a) idem.

(** INSERT ... ON CONFLICT (org_id, txn_id, idempotency_key) DO NOTHING. *)
Definition insert_action (a : TxnAction) : Q (option TxnAction) :=
  let? id := q_uuid (a_ID a) in
  let? org := q_uuid (a_OrgID a) in
  let? txn := q_uuid (a_TransactionID a) in
  let? _ := q_guard (action_checks a) in
  let? db := q_db in
  if any (same_key org txn (a_IdempotencyKey a)) (rows (db_actions db)) then q_ret None
  else
    let? _ := q_guard (has (db_organizations db) org && has (db_transactions db) txn &&
                       fresh (db_actions db) id) in
    let a := a <| a_ID := id |> <| a_OrgID := org |> <| a_TransactionID := txn |>
               <| a_CreatedAt := micro (a_CreatedAt a) |> in
    let? _ := q_write (fun db => db <| db_actions ::= <[ id := a ]> |>) in
    q_ret (Some (scanAction a)).

Definition AddAction (a : TxnAction) : program Pg (TxnAction * bool) :=
  let@ id := NewString in
  let@ t := Now in
  let a := a <| a_ID := id |> <| a_CreatedAt := t |> in
  let a := if bool_decide (a_Status a = StZero) then a <| a_Status := StProposed |> else a in
  let a := a <| a_ArgumentsHash := Canonical (value_of_map (a_Arguments a)) |> in
  let@ stored := query_row (insert_action a) in
  match stored with
  | Some stored => Ret (stored, false)
  | None =>
      let@ existing := query_row (
        let? org := q_uuid (a_OrgID a) in
        let? txn := q_uuid (a_TransactionID a) in
        let? db := q_db in
        q_ret (List.find (same_key org txn (a_IdempotencyKey a)) (rows (db_actions db)))) in
      Ret (match existing with Some e => (scanAction e, true) | None => (a, true) end)
  end.

Definition GetAction (orgID id : string) : program Pg (option TxnAction) :=
  let@ a := query_row (
    let? org := q_uuid orgID in
    let? id := q_uuid id in
    let? db := q_db in
    q_ret (a ← db_actions db !! id; if String.eqb (a_OrgID a) org then Some a else None)) in
  Ret (scanAction <$> a).

(** The columns UPDATE actions sets: everything but the key, the transaction,
    the hash of the arguments and the time of creation. *)
Definition updated_action (a cur : TxnAction) : TxnAction :=
  cur <| a_Seq := a_Seq a |> <| a_Tool := a_Tool a |> <| a_Action := a_Action a |>
      <| a_Arguments := a_Arguments a |> <| a_Classes := a_Classes a |>
      <| a_AmountCents := a_AmountCents a |> <| a_Decision := a_Decision a |>
      <| a_Status := a_Status a |> <| a_Result := a_Result a |> <| a_Error := a_Error a |>
      <| a_LatencyMS := a_LatencyMS a |>.

Definition update_action (a : TxnAction) : Q unit :=
  let? org := q_uuid (a_OrgID a) in
  let? id := q_uuid (a_ID a) in
  let? db := q_db in
  match db_actions db !! id with
  | Some cur =>
      if String.eqb (a_OrgID cur) org then
        let? _ := q_guard (action_checks a) in
        q_write (fun db => db <| db_actions ::= <[ id := updated_action a cur ]> |>)
      else q_ret tt
  | None => q_ret tt
  end.

Definition UpdateAction (a : TxnAction) : program Pg unit :=
  let@ _ := exec (update_action a) in Ret tt.

Definition action_order (a a' : TxnAction) : bool :=
  (a_Seq a <? a_Seq a') || ((a_Seq a =? a_Seq a') &&
   ((a_CreatedAt a <? a_CreatedAt a') || ((a_CreatedAt a =? a_CreatedAt a') &&
     negb (String.ltb (a_ID a') (a_ID a))))).

Definition ActionsForTxn (orgID txnID : string) : program Pg (list TxnAction) :=
  let@ l := query (
    let? org := q_uuid orgID in
    let? txn := q_uuid txnID in
    let? db := q_db in
    q_order action_order (List.filter (fun a =>
      String.eqb (a_OrgID a) org && String.eqb (a_TransactionID a) txn) (rows (db_actions db)))) in
  Ret (scanAction <$> default [] l).

(** ** Approvals *)

Definition insert_approval (a : Approval) : Q unit :=
  let? id := q_uuid (ap_ID a) in
  let? org := q_uuid (ap_OrgID a) in
  let? txn := q_uuid (ap_TransactionID a) in
  let action := optUUID (strOr (ap_ActionID a) "") in
  let agent := optUUID (ap_RequestedBy a) in
  let? db := q_db in
  let? _ := q_guard (has (db_organizations db) org && has (db_transactions db) txn &&
                     has_opt (db_actions db) action && has_opt (db_agents db) agent &&
                     fresh (db_approvals db) id) in
  q_write (fun db => db <| db_approvals ::=
    <[ id := MkApproval id org txn (nonNull action) (ap_RequestedBy a) (ap_Reason a)
               (ap_ExposureCents a) ApPending "" None (micro (ap_CreatedAt a)) ]> |>).

Definition CreateApproval (a : Approval) : program Pg Approval :=
  let@ id := NewString in
  let@ t := Now in
  let a := a <| ap_ID := id |> <| ap_CreatedAt := t |> <| ap_Status := ApPending |> in
  let@ _ := exec (insert_approval a) in
  Ret a.

Definition GetApproval (orgID id : string) : program Pg (option Approval) :=
  let@ a := query_row (
    let? org := q_uuid orgID in
    let? id := q_uuid id in
    let? db := q_db in
    q_ret (a ← db_approvals db !! id; if String.eqb (ap_OrgID a) org then Some a else None)) in
  Ret a.

(** UPDATE ... WHERE ... AND decision='pending' RETURNING. *)
Definition decide_approval (orgID id by_ : string) (decision : ApprovalStatus) : Q (option Approval) :=
  let? org := q_uuid orgID in
  let? id := q_uuid id in
  let? db := q_db in
  let? t := q_now in
  match db_approvals db !! id with
  | Some a =>
      if String.eqb (ap_OrgID a) org && bool_decide (ap_Status a = ApPending) then
        let a := a <| ap_Status := decision |> <| ap_DecidedBy := by_ |> <| ap_DecidedAt := Some t |> in
        let? _ := q_write (fun db => db <| db_approvals ::= <[ id := a ]> |>) in
        q_ret (Some a)
      else q_ret None
  | None => q_ret None
  end.

Definition DecideApproval (orgID id by_ : string) (approve : bool) : program Pg (option Approval) :=
  let@ a := query_row (decide_approval orgID id by_ (if approve then ApApproved else ApDenied)) in
  Ret a.

Definition PendingApprovals (orgID : string) : program Pg (list Approval) :=
  let@ l := query (
    let? org := q_uuid orgID in
    let? db := q_db in
    q_order (fun a a' => ap_CreatedAt a <=? ap_CreatedAt a')
      (List.filter (fun a => String.eqb (ap_OrgID a) org && bool_decide (ap_Status a = ApPending))
        (rows (db_approvals db)))) in
  Ret (default [] l).

(** ** Receipts *)

(** ORDER BY created_at, receipt_id. *)
Definition receipt_order (r r' : ReceiptRow) : bool :=
  (rr_created_at r <? rr_created_at r') ||
  ((rr_created_at r =? rr_created_at r') &&
   negb (String.ltb (r_ID (rr_receipt r')) (r_ID (rr_receipt r)))).

Definition org_receipts (db : Db) (org : string) : list ReceiptRow :=
  List.filter (fun r => String.eqb (r_OrgID (rr_receipt r)) org) (rows (db_receipts db)).

(** SELECT hash ... ORDER BY created_at DESC, receipt_id DESC LIMIT 1. *)
Definition last_hash (orgID : string) : Q (option string) :=
  let? org := q_uuid orgID in
  let? db := q_db in
  let? l := q_order (fun r r' => receipt_order r' r) (org_receipts db org) in
  q_ret ((fun r => r_Hash (rr_receipt r)) <$> head l).

Definition insert_receipt (r : Receipt) : Q unit :=
  let? id := q_uuid (r_ID r) in
  let? org := q_uuid (r_OrgID r) in
  let? txn := q_uuid (r_TransactionID r) in
  let action := optUUID (r_ActionID r) in
  let agent := optUUID (r_AgentID r) in
  let principal := optUUID (r_PrincipalID r) in
  let? db := q_db in
  let? _ := q_guard (has (db_organizations db) org && has (db_transactions db) txn &&
                     has_opt (db_actions db) action && has_opt (db_agents db) agent &&
                     has_opt (db_principals db) principal && fresh (db_receipts db) id) in
  let? t := q_now in
  q_write (fun db => db <| db_receipts ::=
    <[ id := MkReceiptRow (MkReceipt id org txn action agent principal (r_Tool r) (r_Action r)
               (r_ArgumentsHash r) (r_Decision r) (r_ResultHash r) (r_FinancialCents r)
               (r_Compensation r) (r_PrevHash r) (r_Hash r) "" "" (r_PolicyVersion r)
               (micro (r_StartedAt r)) (micro (r_CompletedAt r))) t ]> |>).

(** The advisory lock is taken and released by a statement of its own: it is
    held by nobody when the next one runs, and leaves [prev] empty. *)
Definition AppendReceipt (r : Receipt) : program Pg Receipt :=
  let@ _ := query_row (q_ret (Some "")) in
  let@ h := query_row (last_hash (r_OrgID r)) in
  let prev := default "" h in
  let@ id := NewString in
  let r := r <| r_ID := id |> <| r_PrevHash := prev |>
             <| r_StartedAt := micro (r_StartedAt r) |> <| r_CompletedAt := micro (r_CompletedAt r) |> in
  let r := r <| r_Hash := ChainHash (r_PrevHash r) (receipt_payload r) |> in
  let@ _ := exec (insert_receipt r) in
  Ret r.

Definition ReceiptsForTxn (orgID txnID : string) : program Pg (list Receipt) :=
  let@ l := query (
    let? org := q_uuid orgID in
    let? txn := q_uuid txnID in
    let? db := q_db in
    q_order receipt_order (List.filter (fun r => String.eqb (r_TransactionID (rr_receipt r)) txn)
      (org_receipts db org))) in
  Ret (rr_receipt <$> default [] l).

Definition UpdateReceipt (r : Receipt) : program Pg unit :=
  let@ _ := exec (
    let? org := q_uuid (r_OrgID r) in
    let? id := q_uuid (r_ID r) in
    q_write (fun db => db <| db_receipts ::= alter (fun row =>
      if String.eqb (r_OrgID (rr_receipt row)) org
      then MkReceiptRow ((rr_receipt row) <| r_KeyID := r_KeyID r |> <| r_Signature := r_Signature r |>)
             (rr_created_at row)
      else row) id |>)) in
  Ret tt.

Fixpoint chain_loop (rs : list Receipt) (prev : string) (idx : Z) : Z :=
  match rs with
  | [] => -1
  | r :: rs =>
      if negb (String.eqb (r_PrevHash r) prev) ||
         negb (String.eqb (r_Hash r) (ChainHash prev (receipt_payload r)))
      then idx
      else chain_loop rs (r_Hash r) (idx + 1)
  end.

Definition VerifyChain (orgID : string) : program Pg Z :=
  let@ l := query (
    let? org := q_uuid orgID in
    let? db := q_db in
    q_order receipt_order (org_receipts db org)) in
  Ret (match l with
       | None => -1
       | Some l => chain_loop (rr_receipt <$> l) "" 0
       end).

End PgStore.
