(* ===== verification/PgSecrets.v ===== *)
(** * PgSecrets: PGStore (internal/store/postgres.go), credentials, MCP
    servers, integrations and grants *)

From S2P Require Export PgStore.

Open Scope Z_scope.

Section PgSecrets.
Context `{RT : Runtime} `{PE : PgEnv}.

(** ** Sealing *)

Definition SetKeyProvider (p : option Provider) : program Pg unit :=
  let@ _ := (fun s => (tt, s <| pg_keys := p |>)) in Ret tt.

(** Seal may draw a nonce: it takes the index of the tick. *)
Definition seal (secret : string) : step Pg string := fun s =>
  let n := pg_tick s in
  (if String.eqb secret "" then secret
   else match pg_keys s with
        | None => secret
        | Some p => default secret (kp_Seal p n secret)
        end, s <| pg_tick ::= S |>).

Definition open_ (sealed : string) : step Pg (option string) := fun s =>
  (if String.eqb sealed "" then Some ""
   else match pg_keys s with
        | None => Some sealed
        | Some p => kp_Open p sealed
        end, s).

(** ** Credentials *)

Definition StoreCredential (orgID agentID keyID secretHash : string) : program Pg unit :=
  let@ _ := exec (insert_credential orgID agentID (Some keyID) secretHash) in Ret tt.

Definition with_key (keyID : string) (c : CredentialRow) : bool := bool_decide (cd_key_id c = Some keyID).

Definition GetCredential (keyID : string) : program Pg (option (string * string * string)) :=
  let@ c := query_row (
    let? db := q_db in
    q_ret (List.find (fun c => with_key keyID c && bool_decide (cd_revoked_at c = None))
             (rows (db_agent_credentials db)))) in
  Ret ((fun c => (cd_org_id c, cd_agent_id c, cd_secret_hash c)) <$> c).

(** DISTINCT ON (agent_id), newest first: the first row of each agent. *)
Definition newest_hashes (l : list CredentialRow) : gmap string string :=
  foldl (fun out c => match out !! cd_agent_id c with
                      | Some _ => out
                      | None => <[ cd_agent_id c := cd_secret_hash c ]> out
                      end) ∅ l.

Definition AgentCredentialHashes (orgID : string) : program Pg (gmap string string) :=
  let@ l := query (
    let? org := q_uuid orgID in
    live_credentials (fun c => String.eqb (cd_org_id c) org)) in
  Ret (newest_hashes (default [] l)).

Definition CreateOperatorToken (orgID name keyID secretHash : string) : program Pg unit :=
  let@ _ := exec (
    let? org := q_uuid orgID in
    let? db := q_db in
    let? _ := q_guard (has (db_organizations db) org && fresh (db_operator_tokens db) keyID) in
    q_write (fun db => db <| db_operator_tokens ::=
      <[ keyID := MkOperatorRow org name secretHash None None ]> |>)) in
  Ret tt.

Definition GetOperatorToken (keyID : string) : program Pg (option (string * string * string)) :=
  let@ t := query_row (
    let? db := q_db in
    q_ret (t ← db_operator_tokens db !! keyID;
           if bool_decide (op_revoked_at t = None) then Some t else None)) in
  Ret ((fun t => (op_org_id t, op_name t, op_secret_hash t)) <$> t).

(** UPDATE agent_credentials SET revoked_at=now() WHERE key_id=$1 AND
    revoked_at IS NULL: the number of rows. *)
Definition revoke_credential (keyID : string) : Q Z :=
  let? t := q_now in
  let? db := q_db in
  let hit c := with_key keyID c && bool_decide (cd_revoked_at c = None) in
  let? _ := q_write (fun db => db <| db_agent_credentials ::=
    fmap (fun c => if hit c then c <| cd_revoked_at := Some t |> else c) |>) in
  q_ret (Z.of_nat (length (List.filter hit (rows (db_agent_credentials db))))).

Definition affected_one (r : Z + string) : bool :=
  match r with inl n => n =? 1 | inr _ => false end.

Definition RevokeCredential (keyID : string) : program Pg bool :=
  let@ r := exec (revoke_credential keyID) in Ret (affected_one r).

Definition TouchCredential (keyID : string) : program Pg unit :=
  let@ _ := exec (
    let? t := q_now in
    q_write (fun db => db <| db_agent_credentials ::=
      fmap (fun c => if with_key keyID c then c <| cd_last_used_at := Some t |> else c) |>)) in
  Ret tt.

Definition TouchOperatorToken (keyID : string) : program Pg unit :=
  let@ _ := exec (
    let? t := q_now in
    q_write (fun db => db <| db_operator_tokens ::= alter (fun c => c <| op_last_used_at := Some t |>) keyID |>)) in
  Ret tt.

(** ** MCP servers *)

(** INSERT ... ON CONFLICT (org_id, name) DO UPDATE ... RETURNING
    server_id, created_at. *)
Definition upsert_mcp (srv : MCPServer) (sealed : string) : Q (option (string * time)) :=
  let? org := q_uuid (ms_OrgID srv) in
  let? db := q_db in
  let? _ := q_guard (has (db_organizations db) org) in
  let? gen := q_gen_uuid in
  let? t := q_now in
  let '(id, created) := match db_mcp_servers db !! (org, ms_Name srv) with
                        | Some row => (mr_server_id row, mr_created_at row)
                        | None => (gen, t)
                        end in
  let? _ := q_write (fun db => db <| db_mcp_servers ::=
    <[ (org, ms_Name srv) := MkMcpRow id org (ms_Name srv) (ms_URL srv) sealed (ms_Tools srv)
                               (ms_Classes srv) created ]> |>) in
  q_ret (Some (id, created)).

(** The time comes back as text and is parsed as RFC 3339. *)
Definition UpsertMCPServer (srv : MCPServer) (authToken : string) : program Pg MCPServer :=
  let@ sealed := seal authToken in
  let@ r := query_row (upsert_mcp srv sealed) in
  let srv := srv <| ms_ID := match r with Some (id, _) => id | None => "" end |>
                 <| ms_HasToken := negb (String.eqb authToken "") |> in
  Ret (match r with
       | Some (_, created) =>
           match parse_text_time created with
           | Some t => srv <| ms_CreatedAt := t |>
           | None => srv
           end
       | None => srv
       end).

(** The token column is read when one server is asked for. *)
Definition scanMCPServer (withToken : bool) (row : McpRow) : MCPServer * string :=
  let token := if withToken then mr_auth_token row else "" in
  (MkMCPServer (mr_server_id row) (mr_org_id row) (mr_name row) (mr_url row)
     (negb (String.eqb token "")) (trip_tools (mr_tools row)) (trip_classes (mr_classes row))
     (mr_created_at row), token).

Definition GetMCPServer (orgID name : string) : program Pg (option (MCPServer * string)) :=
  let@ row := query_row (
    let? org := q_uuid orgID in
    let? db := q_db in
    q_ret (db_mcp_servers db !! (org, name))) in
  match row with
  | None => Ret None
  | Some row =>
      let '(srv, sealed) := scanMCPServer true row in
      let@ token := open_ sealed in
      Ret (match token with Some t => Some (srv, t) | None => None end)
  end.

Definition ListMCPServers (orgID : string) : program Pg (list MCPServer) :=
  let@ l := query (
    let? org := q_uuid orgID in
    let? db := q_db in
    q_order (fun r r' => collate (mr_name r) (mr_name r'))
      (List.filter (fun r => String.eqb (mr_org_id r) org) (rows (db_mcp_servers db)))) in
  Ret (fst ∘ scanMCPServer false <$> default [] l).

(** ** Integrations *)

Definition upsert_credential (orgID name sealed : string) : Q unit :=
  let? org := q_uuid orgID in
  let? db := q_db in
  let? _ := q_guard (has (db_organizations db) org) in
  q_write (fun db => db <| db_integration_credentials ::= <[ (org, name) := sealed ]> |>).

(** [None] is the nil error. *)
Definition SetIntegrationCredential (orgID name secret : string) : program Pg (option string) :=
  if String.eqb secret "" then Ret (Some "empty secret")
  else
    let@ sealed := seal secret in
    let@ r := exec (upsert_credential orgID name sealed) in
    Ret (match r with inr err => Some err | inl _ => None end).

Definition GetIntegrationCredential (orgID name : string) : program Pg (option string) :=
  let@ sealed := query_row (
    let? org := q_uuid orgID in
    let? db := q_db in
    q_ret (db_integration_credentials db !! (org, name))) in
  match sealed with
  | None => Ret None
  | Some sealed => let@ t := open_ sealed in Ret t
  end.

Definition ListIntegrationCredentials (orgID : string) : program Pg (list string) :=
  let@ l := query (
    let? org := q_uuid orgID in
    let? db := q_db in
    q_order collate (omap (fun '(org', name, _) => if String.eqb org' org then Some name else None)
      (map_to_list (db_integration_credentials db)))) in
  Ret (default [] l).

Definition SetIntegrationConfig (orgID name : string) (config : gomap) : program Pg unit :=
  let@ _ := exec (
    let? org := q_uuid orgID in
    let? db := q_db in
    let? _ := q_guard (has (db_organizations db) org) in
    q_write (fun db => db <| db_integration_configs ::= <[ (org, name) := config ]> |>)) in
  Ret tt.

Definition GetIntegrationConfig (orgID name : string) : program Pg (option gomap) :=
  let@ c := query_row (
    let? org := q_uuid orgID in
    let? db := q_db in
    q_ret (db_integration_configs db !! (org, name))) in
  Ret (trip_map <$> c).

(** ** Authority grants *)

Definition scanGrant (g : AuthorityGrant) : AuthorityGrant :=
  g <| g_Constraints := trip_constraints (g_Constraints g) |>.

Definition insert_grant (g : AuthorityGrant) : Q (option AuthorityGrant) :=
  let? org := q_uuid (g_OrgID g) in
  let principal := optUUID (g_PrincipalID g) in
  let? agent := q_uuid (g_AgentID g) in
  let? db := q_db in
  let? _ := q_guard (has (db_organizations db) org && has_opt (db_principals db) principal &&
                     has (db_agents db) agent) in
  let? id := q_gen_uuid in
  let? t := q_now in
  let g := MkAuthorityGrant id org principal agent (g_Scope g) (g_Constraints g) (g_Environment g)
             (g_IssuedBy g) t (micro <$> g_ExpiresAt g) None (g_Bootstrap g) in
  let? _ := q_write (fun db => db <| db_authority_grants ::= <[ id := g ]> |>) in
  q_ret (Some (scanGrant g)).

Definition CreateGrant (g : AuthorityGrant) : program Pg AuthorityGrant :=
  let@ created := query_row (insert_grant g) in
  Ret (default g created).

Definition GrantsForAgent (orgID agentID : string) : program Pg (list AuthorityGrant) :=
  let@ l := query (
    let? org := q_uuid orgID in
    let? agent := q_uuid agentID in
    let? db := q_db in
    q_order (fun g g' => g_IssuedAt g <=? g_IssuedAt g')
      (List.filter (fun g => String.eqb (g_OrgID g) org && String.eqb (g_AgentID g) agent)
        (rows (db_authority_grants db)))) in
  Ret (scanGrant <$> default [] l).

Definition revoke_grant (orgID grantID : string) : Q Z :=
  let? org := q_uuid orgID in
  let? id := q_uuid grantID in
  let? db := q_db in
  let? t := q_now in
  match db_authority_grants db !! id with
  | Some g =>
      if String.eqb (g_OrgID g) org && bool_decide (g_RevokedAt g = None) then
        let? _ := q_write (fun db => db <| db_authority_grants ::=
          <[ id := g <| g_RevokedAt := Some t |> ]> |>) in
        q_ret 1
      else q_ret 0
  | None => q_ret 0
  end.

Definition RevokeGrant (orgID grantID : string) : program Pg bool :=
  let@ r := exec (revoke_grant orgID grantID) in Ret (affected_one r).

End PgSecrets.
