(* ===== verification/PgSim.v ===== *)
(** * PgSim: the database and the ledger it stands for

    The simulation relation between the Postgres store and the contract of
    the Store interface.  [PgLaws] says what Postgres, the driver and the
    UUID library document: identifiers are canonical and distinct, ORDER BY
    returns the rows in that order, and plain texts survive their JSON.
    [Undisturbed] is not a law but a condition of a run: the server takes
    every statement it is sent, and no result breaks off.  The lemmas and
    tactics here execute statements symbolically; [PgRefine] applies them to
    the methods. *)

From S2P Require Export StoreContract PgSecrets.

Open Scope Z_scope.

Lemma micro_idem t : micro (micro t) = micro t.
Proof. unfold micro. by rewrite Z.div_mul. Qed.

(** A UUID in canonical text. *)
Definition canonical `{PgEnv} (s : string) : Prop :=
  uuid_param s = Some s /\ uuid_Parse s = Some s /\ s <> "".

Class PgLaws `{RT : Runtime} `{PE : PgEnv} := {
  gen_inj :: Inj (=) (=) gen_random_uuid;
  uuid_canonical : forall n, canonical (uuid n);
  gen_canonical : forall n, canonical (gen_random_uuid n);
  canonical_plain : forall s, canonical s -> plain_text s = true;
  order_perm : forall A n le (l : list A), order_rows n le l ≡ₚ l;
  order_sorted : forall A n le (key : A -> Z) (l : list A),
    (forall x y, key x < key y -> le x y = true /\ le y x = false) -> NoDup (key <$> l) ->
    StronglySorted (fun x y => key x < key y) (order_rows n le l);
  trip_decision_plain : forall d, plain_decision d = true -> trip_decision d = Some d;
  trip_rules_plain : forall l, Forall (fun r => plain_rule r = true) l -> trip_rules l = l;
  trip_constraints_plain : forall c, plain_constraints c = true -> trip_constraints c = c }.

(** During the run no statement is refused from outside, for a lost
    connection or a text Postgres does not take, and no result breaks off. *)
Class Undisturbed `{PE : PgEnv} : Prop := {
  no_refusal : forall n, stmt_err n = None;
  no_cut : forall n, rows_cut n = None }.

(** Identifiers the process draws, and those the database draws. *)
Record unused_id (db : Db) (id : string) : Prop := {
  ui_agents : db_agents db !! id = None;
  ui_txns : db_transactions db !! id = None;
  ui_actions : db_actions db !! id = None;
  ui_approvals : db_approvals db !! id = None }.

Record unused_gen (db : Db) (id : string) : Prop := {
  ug_orgs : db_organizations db !! id = None;
  ug_principals : db_principals db !! id = None;
  ug_grants : db_authority_grants db !! id = None }.

Section PgSim.
Context `{RL : RuntimeLaws} `{PE : PgEnv} `{PL : !PgLaws} `{UD : !Undisturbed}.

(** The ledger a database stands for, and the database's own invariant. *)
Record pg_ok (l : Ledger) (s : Pg) : Prop := {
  po_orgs : l_orgs l = dom (db_organizations (pg_db s));
  po_principals : l_principals l = dom (db_principals (pg_db s));
  po_agents : l_agents l = agent_view <$> db_agents (pg_db s);
  po_txns : l_txns l = txn_view <$> db_transactions (pg_db s);
  po_actions : l_actions l = action_view <$> db_actions (pg_db s);
  po_approvals : l_approvals l = approval_view <$> db_approvals (pg_db s);
  po_sets : l_sets l = set_view <$> db_policy_sets (pg_db s);
  po_grants : l_grants l = grant_view <$> db_authority_grants (pg_db s);
  po_set_keys : forall o v p, db_policy_sets (pg_db s) !! (o, v) = Some p ->
    ps_OrgID p = o /\ ps_Version p = v /\ 0 < v;
  po_one_active : forall o v v' p p', db_policy_sets (pg_db s) !! (o, v) = Some p ->
    db_policy_sets (pg_db s) !! (o, v') = Some p' -> is_active p = true -> is_active p' = true -> v = v';
  po_legacy : db_policy_rules (pg_db s) = ∅;
  po_cells : forall id a, db_actions (pg_db s) !! id = Some a -> a_ID a = id;
  po_unique : forall i j a b, db_actions (pg_db s) !! i = Some a -> db_actions (pg_db s) !! j = Some b ->
    same_request a b -> i = j;
  po_canon_orgs : forall id x, db_organizations (pg_db s) !! id = Some x -> canonical id;
  po_canon_principals : forall id x, db_principals (pg_db s) !! id = Some x -> canonical id;
  po_canon_agents : forall id x, db_agents (pg_db s) !! id = Some x -> canonical id;
  po_canon_txns : forall id x, db_transactions (pg_db s) !! id = Some x -> canonical id;
  po_canon_actions : forall id x, db_actions (pg_db s) !! id = Some x -> canonical id;
  po_canon_action_orgs : forall id x, db_actions (pg_db s) !! id = Some x -> canonical (a_OrgID x);
  po_plain_decisions : forall id a, db_actions (pg_db s) !! id = Some a -> decision_plain (a_Decision a);
  po_plain_rules : forall k p, db_policy_sets (pg_db s) !! k = Some p -> Forall (fun r => plain_rule r = true) (ps_Rules p);
  po_plain_grants : forall id g, db_authority_grants (pg_db s) !! id = Some g -> plain_constraints (g_Constraints g) = true;
  po_fresh_id : forall n, (pg_uid s <= n)%nat -> unused_id (pg_db s) (uuid n);
  po_fresh_gen : forall n, (pg_tick s <= n)%nat -> unused_gen (pg_db s) (gen_random_uuid n) }.

(** The calls of the interface on the Postgres store. *)
Definition pg_exec (op : Op) : program Pg Res :=
  match op with
  | OSeedOrg name => let! op := SeedOrg name in Ret (RSeed (o_ID (fst op)) (p_ID (snd op)))
  | OCreateAgent org p name env groups hash =>
      let! a := CreateAgent org p name env groups hash in Ret (RAgent (Some (agent_view a)))
  | OGetAgent org id => let! a := GetAgent org id in Ret (RAgent (agent_view <$> a))
  | OCreateTxn t => let! t := CreateTxn t in Ret (RTxn (Some (txn_view t)))
  | OGetTxn org id => let! t := GetTxn org id in Ret (RTxn (txn_view <$> t))
  | OSetTxnStatus org id st =>
      let! err := SetTxnStatus org id st in Ret (RBool (bool_decide (err = None)))
  | OAddAction a => let! r := AddAction a in Ret (RAction (Some (action_view (fst r))) (snd r))
  | OGetAction org id => let! a := GetAction org id in Ret (RAction (action_view <$> a) false)
  | OUpdateAction a => let! _ := UpdateAction a in Ret RUnit
  | OCreateApproval a => let! a := CreateApproval a in Ret (RApproval (Some (approval_view a)))
  | OGetApproval org id => let! a := GetApproval org id in Ret (RApproval (approval_view <$> a))
  | ODecideApproval org id by_ approve =>
      let! a := DecideApproval org id by_ approve in Ret (RApproval (approval_view <$> a))
  | OCreatePolicySet org rules by_ =>
      let! p := CreatePolicySet org rules by_ in Ret (RSet (set_view p))
  | OActivatePolicySet org v => let! ok := ActivatePolicySet org v in Ret (RBool ok)
  | OSetPolicies org rules => let! _ := SetPolicies org rules in Ret RUnit
  | OPolicies org => let! rules := Policies org in Ret (RRules (rule_view <$> rules))
  | OCreateGrant g => let! g := CreateGrant g in Ret (RGrants [grant_view g])
  | OGrantsForAgent org agent => let! gs := GrantsForAgent org agent in Ret (RGrants (grant_view <$> gs))
  | ORevokeGrant org id => let! ok := RevokeGrant org id in Ret (RBool ok)
  | OListTxns org => let! ts := ListTxns org in Ret (RTxns (txn_view <$> ts))
  | OActionsForTxn org txn => let! acts := ActionsForTxn org txn in Ret (RActions (action_view <$> acts))
  | OPendingApprovals org => let! aps := PendingApprovals org in Ret (RApprovals (approval_view <$> aps))
  | OPolicySets org => let! ps := PolicySets org in Ret (RSets (set_view <$> ps))
  | OActivePolicySet org => let! p := ActivePolicySet org in Ret (RActive (set_view <$> p))
  end.

#[export] Instance postgres_store : Store Pg :=
  { exec_op := pg_exec; store_ok := pg_ok; store_id := canonical }.

(** ** Statements that are not refused *)

Lemma exec_ok {A} (q : Q A) s x db :
  q (pg_tick s) (pg_db s) = Some (x, db) ->
  exec q s = (inl x, s <| pg_tick ::= S |> <| pg_db := db |>).
Proof. intros H. unfold exec. rewrite no_refusal. cbn. by rewrite H. Qed.

Lemma query_row_ok {A} (q : Q (option A)) s x db :
  q (pg_tick s) (pg_db s) = Some (x, db) ->
  query_row q s = (x, s <| pg_tick ::= S |> <| pg_db := db |>).
Proof. intros H. unfold query_row. by rewrite (exec_ok q s x db H). Qed.

Lemma query_ok {A} (q : Q (list A)) s x db :
  q (pg_tick s) (pg_db s) = Some (x, db) ->
  query q s = (Some x, s <| pg_tick ::= S |> <| pg_db := db |>).
Proof. intros H. unfold query. rewrite (exec_ok q s x db H). by rewrite no_cut. Qed.

(** ** Symbolic execution of statements *)

Lemma bind_uuid {A} s (k : string -> Q A) n db : canonical s -> q_bind (q_uuid s) k n db = k s n db.
Proof. intros [H _]. unfold q_bind, q_uuid. by rewrite H. Qed.

Lemma bind_guard {A} b (k : unit -> Q A) n db : b = true -> q_bind (q_guard b) k n db = k tt n db.
Proof. by intros ->. Qed.

Lemma bind_db {A} (k : Db -> Q A) n db : q_bind q_db k n db = k db n db.
Proof. done. Qed.

Lemma bind_now {A} (k : time -> Q A) n db : q_bind q_now k n db = k (db_now n) n db.
Proof. done. Qed.

Lemma bind_gen {A} (k : string -> Q A) n db : q_bind q_gen_uuid k n db = k (gen_random_uuid n) n db.
Proof. done. Qed.

Lemma bind_write {A} f (k : unit -> Q A) n db : q_bind (q_write f) k n db = k tt n (f db).
Proof. done. Qed.

Lemma has_true {K R} `{Countable K} (m : gmap K R) k : has m k = true <-> k ∈ dom m.
Proof. unfold has. rewrite elem_of_dom. by destruct (m !! k). Qed.

Lemma fresh_true {K R} `{Countable K} (m : gmap K R) k : fresh m k = true <-> m !! k = None.
Proof. unfold fresh, has. by destruct (m !! k). Qed.

Lemma opt_canonical s : (s <> "" -> canonical s) -> optUUID s = s.
Proof.
  unfold optUUID. destruct (String.eqb_spec s "") as [->|Hs]; [done|]. intros Hc.
  destruct (Hc Hs) as (_ & Hp & _). unfold mustPGUUID. by rewrite Hp.
Qed.

Lemma has_opt_optional {R} (m : gmap string R) s : optional s (dom m) -> has_opt m s = true.
Proof. intros [->|Hs]; [done|]. unfold has_opt. rewrite (proj2 (has_true m s) Hs). by rewrite orb_true_r. Qed.

Lemma rows_spec {K R} `{Countable K} (m : gmap K R) r : r ∈ rows m <-> exists k, m !! k = Some r.
Proof.
  unfold rows. rewrite list_elem_of_fmap. split.
  - intros ([k r'] & -> & Hin). exists k. by apply elem_of_map_to_list.
  - intros [k Hk]. exists (k, r). split; [done|]. by apply elem_of_map_to_list.
Qed.

Lemma rows_insert {R} (m : gmap string R) k r : m !! k = None -> rows (<[ k := r ]> m) ≡ₚ r :: rows m.
Proof. intros Hk. unfold rows. by rewrite map_to_list_insert. Qed.

Lemma filter_bool_perm {A} (f : A -> bool) (l l' : list A) : l ≡ₚ l' -> List.filter f l ≡ₚ List.filter f l'.
Proof.
  induction 1 as [|x l l' _ IH|x y l|l1 l2 l3 _ IH1 _ IH2]; cbn; [done| | |by etrans].
  - destruct (f x); [by constructor|done].
  - destruct (f x), (f y); try done. apply Permutation_swap.
Qed.


(** ** Steps that leave the tables of the contract alone *)

Record core_eq (d d' : Db) : Prop := {
  ce_orgs : db_organizations d' = db_organizations d;
  ce_principals : db_principals d' = db_principals d;
  ce_agents : db_agents d' = db_agents d;
  ce_txns : db_transactions d' = db_transactions d;
  ce_actions : db_actions d' = db_actions d;
  ce_approvals : db_approvals d' = db_approvals d;
  ce_sets : db_policy_sets d' = db_policy_sets d;
  ce_rules : db_policy_rules d' = db_policy_rules d;
  ce_grants : db_authority_grants d' = db_authority_grants d }.

#[export] Instance core_eq_preorder : PreOrder core_eq.
Proof.
  split; [by intros d|]. intros d1 d2 d3 [] []. split; congruence.
Qed.

Lemma pg_ok_core l s s' :
  core_eq (pg_db s) (pg_db s') -> (pg_uid s <= pg_uid s')%nat -> (pg_tick s <= pg_tick s')%nat ->
  pg_ok l s -> pg_ok l s'.
Proof.
  intros [O P A T C V S R G] Hu Ht []. split; rewrite ?O, ?P, ?A, ?T, ?C, ?V, ?S, ?R, ?G; try done.
  - intros n Hn. destruct (po_fresh_id0 n ltac:(lia)). by split; rewrite ?A, ?T, ?C, ?V.
  - intros n Hn. destruct (po_fresh_gen0 n ltac:(lia)). by split; rewrite ?O, ?P, ?G.
Qed.

Lemma pg_ok_tick l s : pg_ok l s -> pg_ok l (s <| pg_tick ::= S |>).
Proof. apply pg_ok_core; cbn; [reflexivity|lia|lia]. Qed.

(** After a statement that reads. *)
Lemma pg_ok_read l s : pg_ok l s -> pg_ok l (s <| pg_tick ::= S |> <| pg_db := pg_db s |>).
Proof. apply pg_ok_core; cbn; [reflexivity|lia|lia]. Qed.

(** Statements, steps and programs that relate the databases around them. *)
Definition within (R : relation Db) {A} (q : Q A) : Prop :=
  forall n db x db', q n db = Some (x, db') -> R db db'.

(** The process draws, and keeps its key provider. *)
Definition moved (R : relation Db) (s s' : Pg) : Prop :=
  R (pg_db s) (pg_db s') /\ pg_keys s' = pg_keys s /\ (pg_uid s <= pg_uid s')%nat /\ (pg_tick s <= pg_tick s')%nat.

#[export] Instance moved_preorder R `{!PreOrder R} : PreOrder (moved R).
Proof.
  split; [intros s; split; [reflexivity|]; split; [done|lia]|].
  intros s1 s2 s3 (H1 & K1 & U1 & T1) (H2 & K2 & U2 & T2). split; [by etrans|]. split; [congruence|lia].
Qed.

Definition step_within (R : relation Db) {A} (m : step Pg A) : Prop :=
  forall s, moved R s (m s).2.

Inductive prog_within (R : relation Db) {A} : program Pg A -> Prop :=
  | within_ret x : prog_within R (Ret x)
  | within_atomic X (m : step Pg X) k :
      step_within R m -> (forall x, prog_within R (k x)) -> prog_within R (Atomic m k).

Section Within.
Context {R : relation Db} `{!PreOrder R}.

Lemma within_bind {A B} (q : Q A) (k : A -> Q B) : within R q -> (forall x, within R (k x)) -> within R (q_bind q k).
Proof.
  intros Hq Hk n db y db' H. unfold q_bind in H. destruct (q n db) as [[x db1]|] eqn:E; [|done].
  etrans; [by eapply Hq|by eapply Hk].
Qed.

Lemma within_uuid s : within R (q_uuid s).
Proof. intros n db x db' H. unfold q_uuid in H. destruct (uuid_param s); [|done]. by injection H as _ <-. Qed.

Lemma within_guard b : within R (q_guard b).
Proof. intros n db x db' H. unfold q_guard in H. destruct b; [|done]. by injection H as _ <-. Qed.

Lemma within_same {A} (x : nat -> Db -> A) : within R (fun n db => Some (x n db, db)).
Proof. intros n db y db' [= _ <-]. reflexivity. Qed.

Lemma within_write f : (forall db, R db (f db)) -> within R (q_write f).
Proof. intros Hf n db x db' [= _ <-]. apply Hf. Qed.

Lemma exec_within {A} (q : Q A) : within R q -> step_within R (exec q).
Proof.
  intros Hq s. unfold exec, moved. destruct (stmt_err (pg_tick s)); [cbn; split_and!; (done || lia)|]. cbn.
  destruct (q (pg_tick s) (pg_db s)) as [[x db]|] eqn:E; cbn; split_and!; try (done || lia). by eapply Hq.
Qed.

Lemma query_row_within {A} (q : Q (option A)) : within R q -> step_within R (query_row q).
Proof. intros Hq s. unfold query_row. pose proof (exec_within q Hq s) as H. by destruct (exec q s). Qed.

Lemma query_within {A} (q : Q (list A)) : within R q -> step_within R (query q).
Proof. intros Hq s. unfold query. pose proof (exec_within q Hq s) as H. by destruct (exec q s). Qed.

Lemma bind_within {A B} (m : step Pg A) (k : A -> step Pg B) :
  step_within R m -> (forall x, step_within R (k x)) -> step_within R (m_bind m k).
Proof.
  intros Hm Hk s. unfold m_bind. specialize (Hm s). destruct (m s) as [x s1]. etrans; [exact Hm|apply Hk].
Qed.

Lemma ret_within {A} (x : A) : step_within R (m_ret x).
Proof. intros s. cbn. reflexivity. Qed.

Lemma Now_within : step_within R Now.
Proof. intros s. unfold Now, moved. cbn. split; [reflexivity|]. split_and!; (done || lia). Qed.

Lemma NewString_within : step_within R NewString.
Proof. intros s. unfold NewString, moved. cbn. split; [reflexivity|]. split_and!; (done || lia). Qed.

(** A rollback goes back to the database before. *)
Lemma moved_back s s' db : moved R s s' -> pg_db s = db -> moved R s (s' <| pg_db := db |>).
Proof. intros (_ & K & U & T) <-. split; [reflexivity|done]. Qed.

Lemma transaction_within {A} (body : step Pg (option A)) : step_within R body -> step_within R (transaction body).
Proof.
  intros Hb s. unfold transaction. pose proof (exec_within (q_ret tt) (within_same (fun _ _ => tt)) s) as H0.
  destruct (exec (q_ret tt) s) as [[b|e] s1]; [|done]. specialize (Hb s1). cbn in H0.
  destruct (body s1) as [[x|] s2]; cbn in Hb; [|by apply moved_back; [etrans|]].
  pose proof (exec_within (q_ret tt) (within_same (fun _ _ => tt)) s2) as H2.
  destruct (exec (q_ret tt) s2) as [[c|e] s3]; cbn in *; [etrans; [exact H0|]; by etrans|].
  apply moved_back; [|done]. etrans; [exact H0|]. by etrans.
Qed.

Lemma pbind_within {A B} (p : program Pg A) (f : A -> program Pg B) :
  prog_within R p -> (forall x, prog_within R (f x)) -> prog_within R (pbind p f).
Proof. induction 1; intros Hf; cbn [pbind]; [apply Hf|]. constructor; [done|auto]. Qed.

Lemma for_each_within {A T} (body : A -> T -> program Pg T) l t :
  (forall x t, prog_within R (body x t)) -> prog_within R (for_each body l t).
Proof.
  intros Hb. revert t. induction l as [|x l IH]; intros t; cbn [for_each]; [constructor|].
  apply pbind_within; [apply Hb|apply IH].
Qed.

Lemma run_within {A} (p : program Pg A) s : prog_within R p -> moved R s (run p s).2.
Proof.
  intros Hp. revert s. induction Hp as [x|X m k Hm _ IH]; intros s; cbn [run]; [done|].
  specialize (Hm s). destruct (m s) as [x s1]. etrans; [exact Hm|apply IH].
Qed.

End Within.

Lemma exec_aside {A} (q : Q A) l s : within core_eq q -> pg_ok l s ->
  pg_ok l (exec q s).2 /\ pg_uid (exec q s).2 = pg_uid s.
Proof.
  intros Hq Hok. unfold exec. destruct (stmt_err (pg_tick s)); [split; [by apply pg_ok_tick|done]|].
  cbn. destruct (q (pg_tick s) (pg_db s)) as [[x db]|] eqn:E; [|split; [by apply pg_ok_tick|done]].
  split; [|done]. apply (pg_ok_core l s); cbn; [by eapply Hq|lia|lia|done].
Qed.

Lemma run_atomic' {W A B} (m : step W A) (k : A -> program W B) w x w' :
  m w = (x, w') -> run (Atomic m k) w = run (k x) w'.
Proof. intros H. cbn [run]. by rewrite H. Qed.

Lemma run_aside {A B} (q : Q A) (k : A + string -> program Pg B) l s :
  within core_eq q -> pg_ok l s -> exists r s', run (Atomic (exec q) k) s = run (k r) s' /\ pg_ok l s'.
Proof.
  intros Hq Hok. exists (exec q s).1, (exec q s).2. split; [|by apply exec_aside].
  apply run_atomic'. by destruct (exec q s).
Qed.

Definition pg_refined (op : Op) : Prop := forall l s, pg_ok l s -> admissible canonical l op ->
  exists l', spec_step l op (run (pg_exec op) s).1 l' /\ pg_ok l' (run (pg_exec op) s).2.

(** Identifiers the database draws later. *)
Lemma gen_next n m : (S n <= m)%nat -> gen_random_uuid n <> gen_random_uuid m.
Proof. intros Hm H. apply gen_inj in H. lia. Qed.

Lemma id_next n m : (S n <= m)%nat -> uuid n <> uuid m.
Proof. intros Hm H. apply (inj uuid) in H. lia. Qed.

Lemma exec_tt s : exec (q_ret tt) s = (inl tt, s <| pg_tick ::= S |>).
Proof. rewrite (exec_ok _ s tt (pg_db s)) by done. by destruct s. Qed.

Lemma transaction_done {A} (body : step Pg (option A)) s x s2 :
  body (s <| pg_tick ::= S |>) = (Some x, s2) -> transaction body s = (Some x, s2 <| pg_tick ::= S |>).
Proof. intros H. unfold transaction. rewrite exec_tt, H, exec_tt. done. Qed.

Lemma transaction_undone {A} (body : step Pg (option A)) s s2 :
  body (s <| pg_tick ::= S |>) = (None, s2) -> transaction body s = (None, s2 <| pg_db := pg_db s |>).
Proof. intros H. unfold transaction. by rewrite exec_tt, H. Qed.


End PgSim.

(** ** Tactics *)

(** Runs the statement to the end; leaves the guards it cannot decide. *)
Ltac stmt :=
  repeat first
    [ rewrite bind_uuid by done | rewrite bind_db | rewrite bind_now | rewrite bind_gen
    | rewrite bind_write | rewrite bind_guard ];
  cbv beta.

(** Runs a statement that leaves the tables of the contract alone, in a state that stands for [l]. *)
Ltac aside_step l H :=
  match goal with
  | |- context [run (Atomic (exec ?q) ?k) ?s1] =>
      let Hs := fresh "Hs" in let s' := fresh "s'" in
      assert (Hs : pg_ok l s1); [|destruct (run_aside q k l s1 ltac:(apply H) Hs) as (? & s' & -> & ?);
      cbn [run fst snd]]
  end.

(** What remains unused after an insertion. *)
Ltac later F G :=
  let n := fresh "n" in let Hn := fresh "Hn" in
  intros n Hn; cbn in Hn;
  first [destruct (F n ltac:(lia)) | destruct (G n ltac:(lia))]; split; cbn; try done;
  rewrite lookup_insert_ne; try done; first [apply id_next | apply gen_next]; lia.

(** Statements and programs keep within a relation each write keeps within. *)
Ltac within_all :=
  repeat first
    [ progress cbv zeta | apply pbind_within; [|intros ?] | apply within_atomic; [|intros ?] | apply within_ret
    | apply for_each_within; intros ? ?
    | apply exec_within | apply query_row_within | apply query_within | apply transaction_within
    | apply bind_within; [|intros ?] | apply ret_within | apply Now_within | apply NewString_within
    | apply within_bind; [|intros ?] | apply within_uuid | apply within_guard | apply within_same
    | apply within_write; intros ?; by split ].

(** An object that is found stays out of what is unused. *)
Ltac kept F G :=
  let n := fresh "n" in let Hn := fresh "Hn" in
  intros n Hn; cbn in Hn;
  first [destruct (F n ltac:(lia)) | destruct (G n ltac:(lia))]; split; cbn; try done;
  rewrite lookup_insert_ne; try done; intros ?; congruence.

Lemma assign_rules_within `{RT : Runtime} `{PE : PgEnv} R `{!PreOrder R} org rules : step_within R (assign_rules org rules).
Proof.
  induction rules as [|r rules IH]; cbn [assign_rules]; [apply ret_within|].
  apply bind_within; [destruct (String.eqb (pr_ID r) ""); within_all|]. intros id.
  apply bind_within; [done|]. intros l. apply ret_within.
Qed.
