(* ===== verification/PgRefine.v ===== *)
(** * PgRefine: PGStore implements the contract of the Store interface

    The last theorem states what follows for both stores. *)

From S2P Require Export MemRefine PgSim.

Open Scope Z_scope.

Section PgRefine.
Context `{RL : RuntimeLaws} `{PE : PgEnv} `{PL : !PgLaws} `{UD : !Undisturbed}.

(** The read of one owned object. *)
Lemma read_owned {R} (f : R -> string) (table : Db -> gmap string R) org id s :
  canonical org -> canonical id ->
  query_row (
    let? org := q_uuid org in
    let? id := q_uuid id in
    let? db := q_db in
    q_ret (a ← table db !! id; if String.eqb (f a) org then Some a else None)) s =
  (owned f org (table (pg_db s) !! id), s <| pg_tick ::= S |>).
Proof.
  intros Ho Hi. erewrite query_row_ok.
  2: { stmt. reflexivity. }
  destruct s. reflexivity.
Qed.

(** ** Organizations and agents *)

Lemma pg_refined_SeedOrg name : pg_refined (OSeedOrg name).
Proof.
  intros l s Hok _. pose proof Hok as [].
  pose proof (po_fresh_gen (pg_tick s) ltac:(lia)) as F0.
  pose proof (po_fresh_gen (S (pg_tick s)) ltac:(lia)) as F1.
  pose proof (gen_canonical (pg_tick s)) as Hc. pose proof (gen_canonical (S (pg_tick s))) as Hc'.
  cbn [pg_exec]. unfold SeedOrg. cbn [pbind].
  erewrite run_atomic'; [|apply query_row_ok; unfold insert_organization; stmt; reflexivity].
  erewrite run_atomic'; [|apply query_row_ok; unfold insert_principal; cbn [default Datatypes.id from_option o_ID]; stmt; [reflexivity|]].
  2: { apply has_true. cbn. rewrite dom_insert_L. set_solver. }
  cbn [run fst snd]. eexists. split.
  - apply spec_seed; cbn.
    + rewrite po_orgs. apply not_elem_of_dom, F0.
    + rewrite po_principals. apply not_elem_of_dom, F1.
  - split; cbn; try done.
    + by rewrite dom_insert_L, po_orgs.
    + by rewrite dom_insert_L, po_principals.
    + intros id x Hx. apply lookup_insert_Some in Hx as [[<- _]|[_ Hx]]; [done|by eapply po_canon_orgs].
    + intros id x Hx. apply lookup_insert_Some in Hx as [[<- _]|[_ Hx]]; [done|by eapply po_canon_principals].
    + later po_fresh_id po_fresh_gen.
    + later po_fresh_id po_fresh_gen.
Qed.

Lemma insert_credential_aside org agent k h : within core_eq (insert_credential org agent k h).
Proof. unfold insert_credential. within_all. Qed.

Lemma canonical_dom {R} (m : gmap string R) id :
  (forall id x, m !! id = Some x -> canonical id) -> id ∈ dom m -> canonical id.
Proof. intros Hm Hid. apply elem_of_dom in Hid as [x Hx]. by eapply Hm. Qed.

(** A nil slice of groups is NULL, which the column refuses. *)
Lemma insert_agent_null id org p name env s :
  query_row (insert_agent id org p name env None) s = (None, s <| pg_tick ::= S |>).
Proof.
  assert (Hn : forall n db, insert_agent id org p name env None n db = None); [|unfold query_row, exec; by rewrite no_refusal, Hn].
  intros n db. unfold insert_agent, q_bind, q_uuid, q_db, q_guard. by repeat case_match.
Qed.

Lemma pg_refined_CreateAgent org p name env groups hash : pg_refined (OCreateAgent org p name env groups hash).
Proof.
  intros l s Hok [Horg Hp]. pose proof Hok as []. rewrite po_orgs in Horg. rewrite po_principals in Hp.
  pose proof (po_fresh_id (pg_uid s) ltac:(lia)) as F.
  pose proof (canonical_dom _ _ po_canon_orgs Horg) as Hco.
  pose proof (canonical_dom _ _ po_canon_principals Hp) as Hcp.
  pose proof (uuid_canonical (pg_uid s)) as Hc.
  cbn [pg_exec]. unfold CreateAgent. cbn [pbind].
  erewrite run_atomic'; [|reflexivity]. destruct groups as [groups|].
  2: { rewrite (run_atomic' _ _ _ _ _ (insert_agent_null _ _ _ _ _ _)). cbn [default Datatypes.id from_option].
       aside_step l insert_credential_aside; [apply (pg_ok_core l s); cbn; [reflexivity|lia|lia|done]|].
       exists l. split; [apply spec_create_agent_lost|done]. }
  erewrite run_atomic'; [|apply query_row_ok; unfold insert_agent; stmt; [reflexivity|done|]].
  2: { cbn. rewrite (proj2 (has_true _ _) Horg), (proj2 (has_true _ _) Hp). by apply fresh_true, F. }
  cbn [default Datatypes.id from_option].
  set (a := MkAgent _ _ _ _ _ _ _ _). set (l' := l <| l_agents ::= <[ uuid (pg_uid s) := agent_view a ]> |>).
  aside_step l' insert_credential_aside.
  { split; cbn; try done.
    - by rewrite fmap_insert, po_agents.
    - intros id x Hx. apply lookup_insert_Some in Hx as [[<- _]|[_ Hx]]; [done|by eapply po_canon_agents].
    - later po_fresh_id po_fresh_gen.
    - later po_fresh_id po_fresh_gen. }
  exists l'. split; [|done].
  apply (spec_create_agent l org p name env (Some groups) hash (uuid (pg_uid s))).
  by rewrite po_agents, lookup_fmap, (ui_agents _ _ F).
Qed.

Lemma pg_refined_GetAgent org id : pg_refined (OGetAgent org id).
Proof.
  intros l s Hok [Ho Hi]. exists l. cbn [pg_exec]. unfold GetAgent. cbn [pbind].
  rewrite (run_atomic' _ _ _ _ _ (read_owned ag_OrgID db_agents org id s Ho Hi)).
  split; [|by apply pg_ok_tick]. cbn [run fst].
  rewrite <- (ledger_owned ag_OrgID agent_view), <- (po_agents _ _ Hok) by done. apply spec_get_agent.
Qed.

(** ** Transactions *)

Lemma insert_event_aside e : within core_eq (insert_event e).
Proof. unfold insert_event. within_all. Qed.

Lemma run_pg_Emit e l s : pg_ok l s -> exists s', run (Emit e) s = (tt, s') /\ pg_ok l s'.
Proof.
  intros Hok. unfold Emit.
  assert (Hm : exists t s1, (if e_CreatedAt e =? zero_time then Now else m_ret (e_CreatedAt e)) s = (t, s1) /\ pg_ok l s1).
  { destruct (e_CreatedAt e =? zero_time).
    - exists (clock (pg_tick s)), (s <| pg_tick ::= S |>). split; [done|by apply pg_ok_tick].
    - by exists (e_CreatedAt e), s. }
  destruct Hm as (t & s1 & Hm & Hok1). rewrite (run_atomic' _ _ _ _ _ Hm).
  destruct (run_aside (insert_event (e <| e_CreatedAt := t |>)) (fun _ => Ret tt) l s1) as (r & s' & -> & Hok');
    [apply insert_event_aside|done|]. by exists s'.
Qed.

Lemma optional_canonical {R} (m : gmap string R) id :
  (forall id x, m !! id = Some x -> canonical id) -> optional id (dom m) -> optUUID id = id.
Proof. intros Hm [->|Hid]; [done|]. apply opt_canonical. intros _. by eapply canonical_dom. Qed.

(** The transaction as it is built before the insertion. *)
Definition built_txn (id : string) (x : time) (t : Transaction) : Transaction :=
  let t := t <| t_ID := id |> <| t_CreatedAt := x |> <| t_UpdatedAt := x |> in
  if bool_decide (t_Status t = TxnZero) then t <| t_Status := TxnCreated |> else t.

Lemma built_txn_spec id x t :
  txn_view (built_txn id x t) = new_txn id t /\ t_ID (built_txn id x t) = id /\
  t_OrgID (built_txn id x t) = t_OrgID t /\ t_AgentID (built_txn id x t) = t_AgentID t /\
  t_PrincipalID (built_txn id x t) = t_PrincipalID t /\ t_Status (built_txn id x t) <> TxnZero.
Proof. unfold built_txn, new_txn. cbn. by case_bool_decide. Qed.

(** The event CreateTxn emits. *)
Definition txn_event (t : Transaction) : AuditEvent :=
  zero_event <| e_OrgID := t_OrgID t |> <| e_TransactionID := t_ID t |> <| e_ActorType := "agent" |>
    <| e_ActorID := t_AgentID t |> <| e_Type := "transaction.created" |>.

(** CreateTxn inserts the row and then emits. *)
Lemma CreateTxn_inserts t l s : pg_ok l s -> admissible canonical l (OCreateTxn t) ->
  exists b s1, run (CreateTxn t) s = (b, (run (Emit (txn_event b)) s1).2) /\
    txn_view b = new_txn (uuid (pg_uid s)) t /\ l_txns l !! uuid (pg_uid s) = None /\
    pg_ok (l <| l_txns ::= <[ uuid (pg_uid s) := new_txn (uuid (pg_uid s)) t ]> |>) s1 /\
    db_audit_events (pg_db s1) = db_audit_events (pg_db s) /\ (pg_tick s <= pg_tick s1)%nat.
Proof.
  intros Hok (Horg & Hag & Hpr). pose proof Hok as [].
  rewrite po_orgs in Horg. rewrite po_agents, dom_fmap_L in Hag. rewrite po_principals in Hpr.
  pose proof (po_fresh_id (pg_uid s) ltac:(lia)) as F.
  pose proof (canonical_dom _ _ po_canon_orgs Horg) as Hco.
  pose proof (canonical_dom _ _ po_canon_agents Hag) as Hca.
  pose proof (optional_canonical _ _ po_canon_principals Hpr) as Hcp.
  pose proof (uuid_canonical (pg_uid s)) as Hc. unfold CreateTxn.
  erewrite run_atomic'; [|reflexivity]. erewrite run_atomic'; [|reflexivity].
  change (if bool_decide _ then _ else _) with (built_txn (uuid (pg_uid s)) (clock (pg_tick s)) t).
  destruct (built_txn_spec (uuid (pg_uid s)) (clock (pg_tick s)) t) as (Hv & Hid & Ho & Ha & Hp & Hst).
  revert Hv Hid Ho Ha Hp Hst. generalize (built_txn (uuid (pg_uid s)) (clock (pg_tick s)) t) as b. intros b Hv Hid Ho Ha Hp Hst.
  erewrite run_atomic'.
  2: { apply exec_ok. unfold insert_transaction. rewrite Hid, Ho, Ha, Hp, Hcp. stmt; [reflexivity| |].
       - by apply bool_decide_eq_true_2.
       - cbn. rewrite (proj2 (has_true _ _) Horg), (proj2 (has_true _ _) Hag), (has_opt_optional _ _ Hpr).
         by apply fresh_true, F. }
  rewrite run_pbind. change (zero_event <| e_OrgID := t_OrgID b |> <| e_TransactionID := t_ID b |>
    <| e_ActorType := "agent" |> <| e_ActorID := t_AgentID b |> <| e_Type := "transaction.created" |>) with (txn_event b).
  match goal with |- context [run (Emit _) ?s1] => exists b, s1 end.
  split; [by destruct (run (Emit _) _)|]. split; [done|].
  split; [by rewrite po_txns, lookup_fmap, (ui_txns _ _ F)|]. split; [|cbn; split; [done|lia]]. split; cbn; try done.
  - rewrite fmap_insert, po_txns, <- Hv. f_equal. destruct b; cbn in *. by subst.
  - intros id x Hx. apply lookup_insert_Some in Hx as [[<- _]|[_ Hx]]; [done|by eapply po_canon_txns].
  - later po_fresh_id po_fresh_gen.
  - later po_fresh_id po_fresh_gen.
Qed.

Lemma pg_refined_CreateTxn t : pg_refined (OCreateTxn t).
Proof.
  intros l s Hok Had. destruct (CreateTxn_inserts t l s Hok Had) as (b & s1 & E & Hv & Hn & Hok1 & _).
  cbn [pg_exec]. rewrite run_pbind, E. eexists. destruct (run_pg_Emit (txn_event b) _ s1 Hok1) as (s' & -> & Hok').
  split; [|exact Hok']. cbn [run fst]. rewrite Hv. by apply spec_create_txn.
Qed.

Lemma pg_refined_GetTxn org id : pg_refined (OGetTxn org id).
Proof.
  intros l s Hok [Ho Hi]. exists l. cbn [pg_exec]. unfold GetTxn. cbn [pbind].
  rewrite (run_atomic' _ _ _ _ _ (read_owned t_OrgID db_transactions org id s Ho Hi)).
  split; [|by apply pg_ok_tick]. cbn [run fst].
  rewrite <- (ledger_owned t_OrgID txn_view), <- (po_txns _ _ Hok) by done. apply spec_get_txn.
Qed.

Lemma pg_refined_SetTxnStatus org id st : pg_refined (OSetTxnStatus org id st).
Proof.
  intros l s Hok (Ho & Hi & Hst). pose proof Hok as [].
  pose proof (ledger_owned t_OrgID txn_view (db_transactions (pg_db s)) org id ltac:(done)) as Hl.
  rewrite <- po_txns in Hl. cbn [pg_exec]. unfold SetTxnStatus. cbn [pbind].
  destruct (db_transactions (pg_db s) !! id) as [t|] eqn:Et.
  2: { erewrite run_atomic'; [|apply exec_ok; unfold update_transaction; stmt; rewrite Et; reflexivity].
       exists l. split; [by apply spec_set_status_none|]. by apply pg_ok_read. }
  cbn in Hl. destruct (String.eqb (t_OrgID t) org) eqn:Eo.
  2: { erewrite run_atomic'; [|apply exec_ok; unfold update_transaction; stmt; rewrite Et, Eo; reflexivity].
       exists l. split; [by apply spec_set_status_none|]. by apply pg_ok_read. }
  erewrite run_atomic'.
  2: { apply exec_ok. unfold update_transaction. stmt. rewrite Et, Eo. stmt; [reflexivity|].
       by apply bool_decide_eq_true_2. }
  eexists. split; [eapply spec_set_status; exact Hl|].
  split; cbn; try done.
  - by rewrite fmap_insert, po_txns.
  - intros i x Hx. apply lookup_insert_Some in Hx as [[<- _]|[_ Hx]]; by eapply po_canon_txns.
  - kept po_fresh_id po_fresh_gen.
  - kept po_fresh_id po_fresh_gen.
Qed.

(** ** Actions *)

Lemma scanAction_view a : decision_plain (a_Decision a) -> action_view (scanAction a) = action_view a.
Proof.
  intros Hp. assert (Hd : (d ← a_Decision a; trip_decision d) = a_Decision a).
  { destruct (a_Decision a) as [d|]; [by apply trip_decision_plain, Hp|done]. }
  unfold scanAction. rewrite Hd. by destruct a.
Qed.

Lemma same_key_true org txn k a :
  same_key org txn k a = true <-> a_OrgID a = org /\ a_TransactionID a = txn /\ a_IdempotencyKey a = k.
Proof. unfold same_key. rewrite !andb_true_iff, !String.eqb_eq. tauto. Qed.

Lemma checks_known a st : known_decision (a_Decision a) -> a_Status st <> StZero -> a_Decision st = a_Decision a ->
  action_checks st = true.
Proof.
  intros Hk Hs Hd. unfold action_checks. rewrite bool_decide_eq_true_2, Hd by done. cbn.
  destruct (a_Decision a) as [d|] eqn:E; [|done]. unfold effect_known.
  destruct (d_Effect d) eqn:Ee; try done. by destruct (Hk d _ eq_refl Ee).
Qed.

(** The action as it is built before the insertion. *)
Definition built_action (id : string) (x : time) (a : TxnAction) : TxnAction :=
  let a := a <| a_ID := id |> <| a_CreatedAt := x |> in
  let a := if bool_decide (a_Status a = StZero) then a <| a_Status := StProposed |> else a in
  a <| a_ArgumentsHash := Canonical (value_of_map (a_Arguments a)) |>.

Lemma built_action_spec id x a :
  action_view (built_action id x a) = new_action id a /\ a_ID (built_action id x a) = id /\
  a_OrgID (built_action id x a) = a_OrgID a /\ a_TransactionID (built_action id x a) = a_TransactionID a /\
  a_IdempotencyKey (built_action id x a) = a_IdempotencyKey a /\ a_Status (built_action id x a) <> StZero /\
  a_Decision (built_action id x a) = a_Decision a.
Proof. unfold built_action, new_action. cbn. by case_bool_decide. Qed.

Lemma stored_plain l s a : pg_ok l s -> a ∈ rows (db_actions (pg_db s)) -> decision_plain (a_Decision a).
Proof. intros Hok Ha. apply rows_spec in Ha as [id Ha]. exact (po_plain_decisions _ _ Hok _ _ Ha). Qed.

(** A row with the key of the request. *)
Lemma find_request l s a : pg_ok l s ->
  match List.find (same_key (a_OrgID a) (a_TransactionID a) (a_IdempotencyKey a)) (rows (db_actions (pg_db s))) with
  | Some b => l_actions l !! a_ID b = Some (action_view b) /\ same_request a b
  | None => any (same_key (a_OrgID a) (a_TransactionID a) (a_IdempotencyKey a)) (rows (db_actions (pg_db s))) = false /\
            forall i b, l_actions l !! i = Some b -> ~ same_request a b
  end.
Proof.
  intros []. destruct (List.find _ _) as [b|] eqn:Ef.
  - apply find_some in Ef as [Hb Hk]. apply same_key_true in Hk as (E1 & E2 & E3).
    apply list_elem_of_In, rows_spec in Hb as [id Hb]. split; [|by repeat split].
    by rewrite (po_cells _ _ Hb), po_actions, lookup_fmap, Hb.
  - assert (Hn : forall b, b ∈ rows (db_actions (pg_db s)) ->
      same_key (a_OrgID a) (a_TransactionID a) (a_IdempotencyKey a) b = false).
    { intros b Hb. apply list_elem_of_In in Hb. exact (find_none _ _ Ef b Hb). }
    split; [by apply any_false|]. intros i b Hb (E1 & E2 & E3). rewrite po_actions, lookup_fmap in Hb.
    destruct (db_actions (pg_db s) !! i) as [c|] eqn:Ec; [|done]. injection Hb as <-.
    assert (Hc : c ∈ rows (db_actions (pg_db s))) by (apply rows_spec; by exists i).
    apply Hn in Hc. apply not_true_iff_false in Hc. apply Hc, same_key_true. by repeat split.
Qed.

(** The statement of AddAction, when the request is new and when it is not. *)
Lemma insert_action_new id b s :
  canonical id -> canonical (a_OrgID b) -> canonical (a_TransactionID b) -> a_ID b = id ->
  action_checks b = true ->
  any (same_key (a_OrgID b) (a_TransactionID b) (a_IdempotencyKey b)) (rows (db_actions (pg_db s))) = false ->
  has (db_organizations (pg_db s)) (a_OrgID b) && has (db_transactions (pg_db s)) (a_TransactionID b) &&
    fresh (db_actions (pg_db s)) id = true ->
  let row := b <| a_CreatedAt := micro (a_CreatedAt b) |> in
  query_row (insert_action b) s =
  (Some (scanAction row), s <| pg_tick ::= S |> <| pg_db ::= fun db => db <| db_actions ::= <[ id := row ]> |> |>).
Proof.
  intros Hc Ho Ht Hid Hk Ha Hf. erewrite query_row_ok.
  2: { unfold insert_action. rewrite Hid. stmt; [|done]. rewrite Ha. stmt; [reflexivity|done]. }
  destruct b. cbn in *. by subst.
Qed.

Lemma insert_action_again b s :
  canonical (a_ID b) -> canonical (a_OrgID b) -> canonical (a_TransactionID b) -> action_checks b = true ->
  any (same_key (a_OrgID b) (a_TransactionID b) (a_IdempotencyKey b)) (rows (db_actions (pg_db s))) = true ->
  query_row (insert_action b) s = (None, s <| pg_tick ::= S |>).
Proof.
  intros Hc Ho Ht Hk Ha. erewrite query_row_ok.
  2: { unfold insert_action. stmt; [|done]. rewrite Ha. reflexivity. }
  by destruct s.
Qed.

Lemma pg_refined_AddAction a : pg_refined (OAddAction a).
Proof.
  intros l s Hok (Horg & Htxn & Hdec & Hplain). pose proof Hok as [].
  rewrite po_orgs in Horg. rewrite po_txns, dom_fmap_L in Htxn.
  pose proof (po_fresh_id (pg_uid s) ltac:(lia)) as F.
  pose proof (canonical_dom _ _ po_canon_orgs Horg) as Hco.
  pose proof (canonical_dom _ _ po_canon_txns Htxn) as Hct.
  pose proof (uuid_canonical (pg_uid s)) as Hc. pose proof (find_request l s a Hok) as Hreq.
  cbn [pg_exec]. unfold AddAction. cbn [pbind].
  erewrite run_atomic'; [|reflexivity]. erewrite run_atomic'; [|reflexivity].
  change (_ <| a_ArgumentsHash := _ |>) with (built_action (uuid (pg_uid s)) (clock (pg_tick s)) a).
  destruct (built_action_spec (uuid (pg_uid s)) (clock (pg_tick s)) a) as (Hv & Hid & Ho & Ht & Hi & Hst & Hd).
  revert Hv Hid Ho Ht Hi Hst Hd. generalize (built_action (uuid (pg_uid s)) (clock (pg_tick s)) a) as b.
  intros b Hv Hid Ho Ht Hi Hst Hd. pose proof (checks_known a b Hdec Hst Hd) as Hk.
  rewrite <- Ho, <- Ht, <- Hi in Hreq. rewrite <- Ho in Hco, Horg. rewrite <- Ht in Hct, Htxn.
  destruct (List.find _ _) as [c|] eqn:Ef; [|destruct Hreq as [Hany Hnone]].
  - erewrite run_atomic'; [|apply insert_action_again; cbn; [by rewrite Hid|done|done|done|]].
    2: { apply any_true. exists c. apply find_some in Ef as [Hin Hc']. split; [by apply list_elem_of_In|done]. }
    cbn [pbind]. erewrite run_atomic'.
    2: { apply query_row_ok. stmt. cbn [pg_db set_field]. cbn. rewrite Ef. reflexivity. }
    exists l. split; [|apply (pg_ok_core l s); cbn; [reflexivity|lia|lia|done]].
    cbn [run fst snd]. rewrite scanAction_view by (apply find_some in Ef as [Hin _]; by apply (stored_plain l s), list_elem_of_In).
    destruct Hreq as [Hc' Hs].
    apply (spec_add_again l a (a_ID c)); [done|]. etrans; [exact Hs|by destruct c].
  - erewrite run_atomic'; [|apply (insert_action_new (uuid (pg_uid s))); cbn; try done].
    2: { rewrite (proj2 (has_true _ _) Horg), (proj2 (has_true _ _) Htxn). by apply fresh_true, F. }
    cbn [pbind run fst snd]. rewrite scanAction_view by (cbn; by rewrite Hd).
    assert (Hv' : action_view (b <| a_CreatedAt := micro (a_CreatedAt b) |>) = new_action (uuid (pg_uid s)) a).
    { rewrite <- Hv. by destruct b. }
    rewrite Hv'. eexists. split; [apply spec_add_action; [exact Hnone|]|].
    { by rewrite po_actions, lookup_fmap, (ui_actions _ _ F). }
    split; cbn; try done.
    + by rewrite fmap_insert, Hv', po_actions.
    + intros i x Hx. apply lookup_insert_Some in Hx as [[<- <-]|[_ Hx]]; [done|by apply po_cells].
    + apply insert_unique; [done|]. intros i c Hc' Hs. apply (Hnone i (action_view c)).
      * by rewrite po_actions, lookup_fmap, Hc'.
      * destruct Hs as (E1 & E2 & E3). cbn in *. repeat split; cbn; congruence.
    + intros i x Hx. apply lookup_insert_Some in Hx as [[<- _]|[_ Hx]]; [done|by eapply po_canon_actions].
    + intros i x Hx. apply lookup_insert_Some in Hx as [[_ <-]|[_ Hx]]; [done|by eapply po_canon_action_orgs].
    + intros i x Hx. apply lookup_insert_Some in Hx as [[_ <-]|[_ Hx]]; [cbn; by rewrite Hd|by eapply po_plain_decisions].
    + later po_fresh_id po_fresh_gen.
    + later po_fresh_id po_fresh_gen.
Qed.

Lemma pg_refined_GetAction org id : pg_refined (OGetAction org id).
Proof.
  intros l s Hok [Ho Hi]. exists l. cbn [pg_exec]. unfold GetAction. cbn [pbind].
  rewrite (run_atomic' _ _ _ _ _ (read_owned a_OrgID db_actions org id s Ho Hi)).
  split; [|by apply pg_ok_tick]. cbn [run fst].
  rewrite <- option_fmap_compose.
  assert (Hv : action_view ∘ scanAction <$> owned a_OrgID org (db_actions (pg_db s) !! id) =
    action_view <$> owned a_OrgID org (db_actions (pg_db s) !! id)).
  { destruct (owned _ _ _) as [a|] eqn:Ea; [|done]. apply owned_Some in Ea as [Ea _].
    exact (f_equal Some (scanAction_view a (po_plain_decisions _ _ Hok _ _ Ea))). }
  rewrite Hv, <- (ledger_owned a_OrgID action_view), <- (po_actions _ _ Hok) by done. apply spec_get_action.
Qed.

Lemma updated_action_view a cur :
  a_ID a = a_ID cur -> same_request a cur -> a_ArgumentsHash a = a_ArgumentsHash cur ->
  action_view (updated_action a cur) = action_view a.
Proof. intros H1 (H2 & H3 & H4) H5. destruct a, cur. cbn in *. by subst. Qed.

Lemma pg_refined_UpdateAction a : pg_refined (OUpdateAction a).
Proof.
  intros l s Hok (cur & Hcur & Hsame & Hhash & Hst & Hdec & Hplain). pose proof Hok as [].
  rewrite po_actions, lookup_fmap in Hcur.
  destruct (db_actions (pg_db s) !! a_ID a) as [c|] eqn:Ec; [|done]. injection Hcur as <-.
  pose proof (po_cells _ _ Ec) as Hid. pose proof (po_canon_actions _ _ Ec) as Hc.
  assert (Hs : same_request a c) by (etrans; [exact Hsame|by destruct c]).
  assert (Hco : canonical (a_OrgID a)) by (destruct Hs as [-> _]; by eapply po_canon_action_orgs).
  pose proof (updated_action_view a c (eq_sym Hid) Hs Hhash) as Hv.
  cbn [pg_exec]. unfold UpdateAction. cbn [pbind].
  erewrite run_atomic'.
  2: { apply exec_ok. unfold update_action. stmt. rewrite Ec. destruct Hs as [-> _]. rewrite string_eqb_refl.
       stmt; [reflexivity|]. by apply (checks_known a a). }
  eexists. split; [apply spec_update_action|]. split; cbn; try done.
  - by rewrite fmap_insert, Hv, po_actions.
  - intros i x Hx. apply lookup_insert_Some in Hx as [[<- <-]|[_ Hx]]; [done|by apply po_cells].
  - apply (replace_same _ _ c); [done|done|]. by destruct c.
  - intros i x Hx. apply lookup_insert_Some in Hx as [[<- _]|[_ Hx]]; [done|by eapply po_canon_actions].
  - intros i x Hx. apply lookup_insert_Some in Hx as [[_ <-]|[_ Hx]]; [|by eapply po_canon_action_orgs].
    exact (po_canon_action_orgs _ _ Ec).
  - intros i x Hx. apply lookup_insert_Some in Hx as [[_ <-]|[_ Hx]]; [|by eapply po_plain_decisions].
    cbn. destruct Hplain as [->|Hplain]; [exact (po_plain_decisions _ _ Ec)|exact Hplain].
  - kept po_fresh_id po_fresh_gen.
  - kept po_fresh_id po_fresh_gen.
Qed.

(** ** Approvals *)

Lemma pg_refined_CreateApproval a : pg_refined (OCreateApproval a).
Proof.
  intros l s Hok (Horg & Htxn & Hact & Hag & Hby & Hat). pose proof Hok as [].
  rewrite po_orgs in Horg. rewrite po_txns, dom_fmap_L in Htxn. rewrite po_agents, dom_fmap_L in Hag.
  rewrite po_actions, dom_fmap_L in Hact.
  pose proof (po_fresh_id (pg_uid s) ltac:(lia)) as F.
  pose proof (canonical_dom _ _ po_canon_orgs Horg) as Hco.
  pose proof (canonical_dom _ _ po_canon_txns Htxn) as Hct.
  pose proof (optional_canonical _ _ po_canon_agents Hag) as Hca.
  assert (Hx : optUUID (strOr (ap_ActionID a) "") = strOr (ap_ActionID a) "" /\
    nonNull (strOr (ap_ActionID a) "") = ap_ActionID a /\
    has_opt (db_actions (pg_db s)) (strOr (ap_ActionID a) "") = true).
  { destruct (ap_ActionID a) as [i|]; [|done]. specialize (Hact i eq_refl).
    pose proof (canonical_dom _ _ po_canon_actions Hact) as Hci. cbn. split; [by apply opt_canonical|].
    unfold nonNull. destruct Hci as (_ & _ & Hne). rewrite (proj2 (String.eqb_neq i "") Hne). split; [done|].
    apply has_opt_optional. by right. }
  destruct Hx as (Hx1 & Hx2 & Hx3).
  pose proof (uuid_canonical (pg_uid s)) as Hc.
  cbn [pg_exec]. unfold CreateApproval. cbn [pbind].
  erewrite run_atomic'; [|reflexivity]. erewrite run_atomic'; [|reflexivity].
  erewrite run_atomic'.
  2: { apply exec_ok. unfold insert_approval. cbn.
       change (default "" (ap_ActionID a)) with (strOr (ap_ActionID a) "").
       rewrite Hx1, Hx2, Hca. stmt; [reflexivity|].
       rewrite (proj2 (has_true _ _) Horg), (proj2 (has_true _ _) Htxn), (has_opt_optional _ _ Hag), Hx3.
       by apply fresh_true, F. }
  cbn [run fst snd].
  exists (l <| l_approvals ::= <[ uuid (pg_uid s) := new_approval (uuid (pg_uid s)) a ]> |>). split.
  - apply (spec_create_approval l a (uuid (pg_uid s))).
    by rewrite po_approvals, lookup_fmap, (ui_approvals _ _ F).
  - split; cbn; try done.
    + rewrite fmap_insert, po_approvals. f_equal. unfold approval_view, new_approval. destruct a. cbn in *. by subst.
    + later po_fresh_id po_fresh_gen.
    + later po_fresh_id po_fresh_gen.
Qed.

Lemma pg_refined_GetApproval org id : pg_refined (OGetApproval org id).
Proof.
  intros l s Hok [Ho Hi]. exists l. cbn [pg_exec]. unfold GetApproval. cbn [pbind].
  rewrite (run_atomic' _ _ _ _ _ (read_owned ap_OrgID db_approvals org id s Ho Hi)).
  split; [|by apply pg_ok_tick]. cbn [run fst].
  rewrite <- (ledger_owned ap_OrgID approval_view), <- (po_approvals _ _ Hok) by done. apply spec_get_approval.
Qed.

Lemma pg_refined_DecideApproval org id by_ approve : pg_refined (ODecideApproval org id by_ approve).
Proof.
  intros l s Hok [Ho Hi]. pose proof Hok as [].
  pose proof (ledger_owned ap_OrgID approval_view (db_approvals (pg_db s)) org id ltac:(done)) as Hl.
  rewrite <- po_approvals in Hl. cbn [pg_exec]. unfold DecideApproval. cbn [pbind].
  assert (Hsame : pg_ok l (s <| pg_tick ::= S |> <| pg_db := pg_db s |>)) by by by apply pg_ok_read.
  destruct (db_approvals (pg_db s) !! id) as [a|] eqn:Ea; cbn in Hl.
  2: { erewrite run_atomic'; [|apply query_row_ok; unfold decide_approval; stmt; rewrite Ea; reflexivity].
       exists l. split; [|done]. apply spec_decide_none. rewrite Hl. done. }
  destruct (String.eqb (ap_OrgID a) org && bool_decide (ap_Status a = ApPending)) eqn:Eg.
  2: { erewrite run_atomic'; [|apply query_row_ok; unfold decide_approval; stmt; rewrite Ea, Eg; reflexivity].
       exists l. split; [|done]. apply spec_decide_none. rewrite Hl. intros b Hb.
       destruct (String.eqb _ _); [|done]. injection Hb as <-. cbn in *. by apply bool_decide_eq_false in Eg. }
  erewrite run_atomic'; [|apply query_row_ok; unfold decide_approval; stmt; rewrite Ea, Eg; stmt; reflexivity].
  apply andb_true_iff in Eg as [Eo Es]. apply bool_decide_eq_true in Es. rewrite Eo in Hl.
  cbn [run fst snd]. eexists. split; [eapply (spec_decide l org id by_ approve (approval_view a)); [exact Hl|exact Es]|].
  split; cbn; try done.
  - by rewrite fmap_insert, po_approvals.
  - kept po_fresh_id po_fresh_gen.
  - kept po_fresh_id po_fresh_gen.
Qed.

(** ** Policy sets *)

Lemma assign_rules_spec org rules s :
  pg_db (assign_rules org rules s).2 = pg_db s /\ pg_tick (assign_rules org rules s).2 = pg_tick s /\
  (pg_uid s <= pg_uid (assign_rules org rules s).2)%nat /\
  rule_view <$> (assign_rules org rules s).1 = rule_view <$> rules.
Proof.
  revert s. induction rules as [|r rules IH]; intros s; [done|]. cbn [assign_rules]. unfold m_bind.
  assert (Hid : exists id s1, (if String.eqb (pr_ID r) "" then NewString else m_ret (pr_ID r)) s = (id, s1) /\
    pg_db s1 = pg_db s /\ pg_tick s1 = pg_tick s /\ (pg_uid s <= pg_uid s1)%nat).
  { destruct (String.eqb (pr_ID r) ""); do 2 eexists; (split; [reflexivity|]); cbn; repeat split; lia. }
  destruct Hid as (id & s1 & -> & Hd & Ht & Hu). destruct (IH s1) as (Hd' & Ht' & Hu' & Hr).
  destruct (assign_rules org rules s1) as [l s2]. unfold m_ret. cbn [fst snd] in *.
  split; [congruence|]. split; [congruence|]. split; [lia|]. rewrite fmap_cons, Hr. by destruct r.
Qed.

Lemma org_sets_spec l s org p : pg_ok l s ->
  p ∈ org_sets (pg_db s) org <-> db_policy_sets (pg_db s) !! (org, ps_Version p) = Some p.
Proof.
  intros []. unfold org_sets. rewrite list_elem_of_In, filter_In, <- list_elem_of_In, rows_spec. split.
  - intros [[[o v] Hk] Ho]. destruct (po_set_keys _ _ _ Hk) as (E1 & E2 & _). apply String.eqb_eq in Ho.
    congruence.
  - intros Hk. destruct (po_set_keys _ _ _ Hk) as (<- & _ & _). split; [by eexists|apply string_eqb_refl].
Qed.

Lemma latest_version_spec sets :
  (forall p, p ∈ sets -> ps_Version p <= latest_version sets) /\
  (latest_version sets = 0 \/ exists p, p ∈ sets /\ ps_Version p = latest_version sets) /\
  0 <= latest_version sets.
Proof.
  unfold latest_version. induction sets as [|p sets (IH1 & IH2 & IH3)] using rev_ind.
  { split; [|split; [by left|done]]. intros p Hp. by apply elem_of_nil in Hp. }
  rewrite foldl_app. cbn [foldl]. set (n := foldl _ 0 sets) in *. split; [|split].
  - intros q Hq. apply elem_of_app in Hq as [Hq|Hq].
    + specialize (IH1 _ Hq). destruct (Z.ltb_spec n (ps_Version p)); lia.
    + apply list_elem_of_singleton in Hq as ->. destruct (Z.ltb_spec n (ps_Version p)); lia.
  - destruct (Z.ltb_spec n (ps_Version p)) as [Hlt|Hge].
    + right. exists p. split; [|done]. apply elem_of_app. right. by left.
    + destruct IH2 as [IH2|(q & Hq & Hv)]; [by left|right]. exists q. split; [|done]. apply elem_of_app. by left.
  - destruct (Z.ltb_spec n (ps_Version p)); lia.
Qed.

Lemma scanPolicySet_id p : Forall (fun r => plain_rule r = true) (ps_Rules p) -> scanPolicySet p = p.
Proof. intros Hp. unfold scanPolicySet. rewrite trip_rules_plain by done. by destruct p. Qed.

(** The identifiers the rules are given are plain. *)
Lemma assign_rules_plain org rules s : canonical org ->
  Forall (fun r => plain_rule r = true) rules -> Forall (fun r => plain_rule r = true) (assign_rules org rules s).1.
Proof.
  intros Ho. revert s. induction rules as [|r rules IH]; intros s Hp; [done|].
  apply Forall_cons in Hp as [Hr Hp]. cbn [assign_rules]. unfold m_bind.
  assert (Hid : exists id s1, (if String.eqb (pr_ID r) "" then NewString else m_ret (pr_ID r)) s = (id, s1) /\ plain_text id = true).
  { unfold plain_rule in Hr. rewrite !andb_true_iff in Hr.
    destruct (String.eqb (pr_ID r) ""); do 2 eexists; (split; [reflexivity|]); [apply canonical_plain, uuid_canonical|tauto]. }
  destruct Hid as (id & s1 & -> & Hi). specialize (IH s1 Hp). destruct (assign_rules org rules s1) as [l s2]. cbn in IH |- *.
  constructor; [|done]. pose proof (canonical_plain _ Ho) as Hpo. unfold plain_rule in *. cbn. rewrite !andb_true_iff in *. tauto.
Qed.

Lemma stored_set_plain l s org p : pg_ok l s -> p ∈ org_sets (pg_db s) org -> scanPolicySet p = p.
Proof.
  intros Hok Hp. apply scanPolicySet_id. apply (org_sets_spec l s org p Hok) in Hp.
  exact (po_plain_rules _ _ Hok _ _ Hp).
Qed.

Lemma pg_refined_CreatePolicySet org rules by_ : pg_refined (OCreatePolicySet org rules by_).
Proof.
  intros l s Hok [Horg Hplain]. cbn [pg_exec]. unfold CreatePolicySet. cbn [pbind].
  assert (Hco : canonical org) by (rewrite (po_orgs _ _ Hok) in Horg; exact (canonical_dom _ _ (po_canon_orgs _ _ Hok) Horg)).
  pose proof (assign_rules_plain org rules s Hco Hplain) as Hrules.
  destruct (assign_rules_spec org rules s) as (Hd & Ht & Hu & Hr).
  destruct (assign_rules org rules s) as [rules' s1] eqn:E. rewrite (run_atomic' _ _ _ _ _ E). cbn in Hd, Ht, Hu, Hr, Hrules. clear E.
  assert (Hok1 : pg_ok l s1) by (apply (pg_ok_core l s); [by rewrite Hd|lia|lia|done]).
  clear s Hok Hd Ht Hu. rename s1 into s, Hok1 into Hok. pose proof Hok as [].
  rewrite po_orgs in Horg.
  destruct (latest_version_spec (org_sets (pg_db s) org)) as (Hmax & Hatt & Hpos).
  set (v := latest_version (org_sets (pg_db s) org) + 1).
  assert (Hbelow : forall v' p, db_policy_sets (pg_db s) !! (org, v') = Some p -> v' < v).
  { intros v' p Hp. destruct (po_set_keys _ _ _ Hp) as (_ & E & _). rewrite <- E in Hp |- *.
    apply (org_sets_spec l s org p Hok), Hmax in Hp. unfold v. lia. }
  assert (Hnone : db_policy_sets (pg_db s) !! (org, v) = None).
  { destruct (db_policy_sets (pg_db s) !! (org, v)) as [p|] eqn:Ep; [|done]. apply Hbelow in Ep. lia. }
  erewrite run_atomic'.
  2: { apply query_row_ok. unfold insert_policy_set. stmt; [fold v; reflexivity|by apply fresh_true|by apply has_true]. }
  cbn [default Datatypes.id from_option run fst snd]. rewrite scanPolicySet_id by done.
  assert (Hsv : forall id t, set_view (MkPolicySet id org v rules' PsDraft by_ t) = new_set org v rules by_).
  { intros id t. unfold set_view, new_set. cbn. by rewrite <- Hr. }
  rewrite Hsv. exists (l <| l_sets ::= <[ (org, v) := new_set org v rules by_ ]> |>). split.
  - apply spec_create_set; [unfold v; lia| |].
    + destruct Hatt as [E|(p & Hp & E)]; [left; unfold v; lia|right]. exists (set_view p).
      apply (org_sets_spec l s org p Hok) in Hp. unfold v.
      replace (latest_version (org_sets (pg_db s) org) + 1 - 1) with (ps_Version p) by lia. by rewrite po_sets, lookup_fmap, Hp.
    + intros v' p Hp. rewrite po_sets, lookup_fmap in Hp.
      destruct (db_policy_sets (pg_db s) !! (org, v')) as [q|] eqn:Eq; [|done]. by eapply Hbelow.
  - split; cbn; try done.
    + by rewrite fmap_insert, Hsv, po_sets.
    + intros o w p Hp. apply lookup_insert_Some in Hp as [[[= <- <-] <-]|[_ Hp]]; [|by apply po_set_keys].
      cbn. repeat split. unfold v. lia.
    + intros o w w' p p' Hp Hp' Ha Ha'.
      apply lookup_insert_Some in Hp as [[_ <-]|[_ Hp]]; [done|].
      apply lookup_insert_Some in Hp' as [[_ <-]|[_ Hp']]; [done|]. by eapply po_one_active.
    + intros k p Hp. apply lookup_insert_Some in Hp as [[_ <-]|[_ Hp]]; [done|by eapply po_plain_rules].
    + later po_fresh_id po_fresh_gen.
    + later po_fresh_id po_fresh_gen.
Qed.

(** What the two updates of ActivatePolicySet do to a policy set. *)
Definition disable_one (org : string) (p : PolicySet) : PolicySet :=
  if String.eqb (ps_OrgID p) org && is_active p then p <| ps_Status := PsDisabled |> else p.

Definition enable_one (org : string) (v : Z) (p : PolicySet) : PolicySet :=
  if String.eqb (ps_OrgID p) org && (ps_Version p =? v) then p <| ps_Status := PsActive |> else p.

Lemma activate_view org v p : set_view (enable_one org v (disable_one org p)) = activate_in org v (set_view p).
Proof.
  unfold enable_one, disable_one, activate_in, activate_one, is_active. cbn.
  destruct (String.eqb (ps_OrgID p) org) eqn:Eo, (bool_decide (ps_Status p = PsActive)),
    (ps_Version p =? v) eqn:Ev; cbn; rewrite ?Eo, ?Ev; done.
Qed.

Lemma enable_disable_key org v p :
  ps_OrgID (enable_one org v (disable_one org p)) = ps_OrgID p /\
  ps_Version (enable_one org v (disable_one org p)) = ps_Version p.
Proof.
  unfold enable_one, disable_one.
  destruct (String.eqb (ps_OrgID p) org) eqn:Eo, (is_active p), (ps_Version p =? v) eqn:Ev; cbn;
    rewrite ?Eo, ?Ev; done.
Qed.

Lemma enable_disable_rules org v p : ps_Rules (enable_one org v (disable_one org p)) = ps_Rules p.
Proof. unfold enable_one, disable_one. by repeat case_match. Qed.

Lemma enable_disable_active org v p : is_active (enable_one org v (disable_one org p)) = true ->
  if String.eqb (ps_OrgID p) org then ps_Version p = v else is_active p = true.
Proof.
  unfold enable_one, disable_one.
  destruct (String.eqb (ps_OrgID p) org) eqn:Eo, (is_active p) eqn:Ea, (ps_Version p =? v) eqn:Ev; cbn;
    rewrite ?Eo, ?Ev; cbn; rewrite ?Ea; try done; lia.
Qed.

Lemma disabled_sets db org v :
  any (fun p => is_active p && negb (ps_Version p =? v))
    (org_sets (db <| db_policy_sets ::= fmap (disable_one org) |>) org) = false.
Proof.
  apply any_false. intros p Hp. unfold org_sets in Hp. cbn in Hp.
  apply list_elem_of_In, filter_In in Hp as [Hp Ho]. apply list_elem_of_In, rows_spec in Hp as [k Hk].
  rewrite lookup_fmap in Hk. destruct (db_policy_sets db !! k) as [q|]; [|done]. injection Hk as <-.
  unfold disable_one in *. destruct (String.eqb (ps_OrgID q) org) eqn:Eo; cbn in *; [|congruence].
  by destruct (is_active q) eqn:Ea; cbn; rewrite ?Ea.
Qed.

Lemma pg_refined_ActivatePolicySet org v : pg_refined (OActivatePolicySet org v).
Proof.
  intros l s Hok Hc. cbn in Hc. pose proof Hok as []. cbn [pg_exec]. unfold ActivatePolicySet. cbn [pbind].
  destruct (any (fun p => ps_Version p =? v) (org_sets (pg_db s) org)) eqn:Ea.
  - apply any_true in Ea as (p & Hin & Hv). apply Z.eqb_eq in Hv. apply (org_sets_spec l s org p Hok) in Hin.
    rewrite Hv in Hin. assert (Hex : any (fun p => ps_Version p =? v) (org_sets (pg_db s) org) = true).
    { apply any_true. exists p. split; [|lia]. apply (org_sets_spec l s org p Hok). by rewrite Hv. }
    erewrite run_atomic'.
    2: { apply transaction_done. unfold m_bind. erewrite query_row_ok.
         2: { stmt. cbn. rewrite Hex. reflexivity. }
         cbv beta iota.
         erewrite exec_ok; [|unfold disable_active; stmt; reflexivity]. cbv beta iota.
         erewrite exec_ok; [reflexivity|]. unfold activate_version. stmt; [reflexivity|].
         exact (f_equal negb (disabled_sets (pg_db s) org v)). }
    exists (l <| l_sets ::= fmap (activate_in org v) |>). cbn [run fst snd]. split.
    { apply (spec_activate l org v (set_view p)). by rewrite po_sets, lookup_fmap, Hin. }
    assert (Hget : forall k q, (enable_one org v <$> (disable_one org <$> db_policy_sets (pg_db s))) !! k = Some q ->
      exists q0, db_policy_sets (pg_db s) !! k = Some q0 /\ q = enable_one org v (disable_one org q0)).
    { intros k q. rewrite !lookup_fmap. destruct (db_policy_sets (pg_db s) !! k) as [q0|]; [|done].
      cbn. intros [= <-]. by exists q0. }
    split; cbn [pg_db db_organizations set_field]; cbn; try done.
    + change (activate_in org v <$> l_sets l = set_view <$> (enable_one org v <$> (disable_one org <$> db_policy_sets (pg_db s)))).
      rewrite po_sets, <- !map_fmap_compose. apply map_fmap_ext. intros k q _. symmetry. apply activate_view.
    + intros o w q Hq. apply Hget in Hq as (q0 & Hq & ->). destruct (enable_disable_key org v q0) as [-> ->].
      by apply po_set_keys.
    + intros o w w' q q' Hq Hq' Hact Hact'. apply Hget in Hq as (q0 & Hq & ->), Hq' as (q1 & Hq' & ->).
      apply enable_disable_active in Hact, Hact'.
      destruct (po_set_keys _ _ _ Hq) as (Ho & Hw & _), (po_set_keys _ _ _ Hq') as (Ho' & Hw' & _).
      rewrite Ho, Ho' in *. destruct (String.eqb o org); [congruence|]. eapply po_one_active; [exact Hq|exact Hq'|done|done].
    + intros k q Hq. apply Hget in Hq as (q0 & Hq & ->). rewrite enable_disable_rules. by eapply po_plain_rules.
    + later po_fresh_id po_fresh_gen.
    + later po_fresh_id po_fresh_gen.
  - erewrite run_atomic'.
    2: { apply transaction_undone. unfold m_bind. erewrite query_row_ok.
         2: { stmt. cbn. rewrite Ea. reflexivity. }
         reflexivity. }
    exists l. split; [|apply (pg_ok_core l s); cbn; [reflexivity|lia|lia|done]].
    apply spec_activate_none. rewrite po_sets, lookup_fmap.
    destruct (db_policy_sets (pg_db s) !! (org, v)) as [p|] eqn:Ep; [|done].
    destruct (po_set_keys _ _ _ Ep) as (_ & E & _). rewrite <- E in Ep.
    apply (org_sets_spec l s org p Hok) in Ep. pose proof (proj1 (any_false _ _) Ea p Ep). cbn in *. lia.
Qed.

Lemma pg_refined_Policies org : pg_refined (OPolicies org).
Proof.
  intros l s Hok Hc. cbn in Hc. pose proof Hok as []. exists l. cbn [pg_exec]. unfold Policies. rewrite !run_pbind.
  unfold ActivePolicySet. erewrite run_atomic'; [|apply query_row_ok; stmt; reflexivity]. cbn [run].
  destruct (List.find is_active (org_sets (pg_db s) org)) as [p|] eqn:Ef.
  - cbn [fmap option_fmap option_map run fst snd]. split; [|by apply pg_ok_read].
    apply find_some in Ef as [Hin Ha]. apply list_elem_of_In in Hin. rewrite (stored_set_plain l s org p Hok Hin).
    apply (org_sets_spec l s org p Hok) in Hin. apply (spec_policies l org (ps_Version p) (set_view p)); [|done].
    by rewrite po_sets, lookup_fmap, Hin.
  - cbn [fmap option_fmap option_map]. unfold legacyPolicies.
    erewrite run_atomic'; [|apply query_ok; stmt; reflexivity].
    cbn [run fst snd]. split; [|apply (pg_ok_core l s); cbn; [reflexivity|lia|lia|done]].
    cbn [pg_db set_field]. cbn. rewrite po_legacy.
    match goal with |- context [order_rows ?n ?le ?r] => pose proof (order_perm _ n le r) as Hp end.
    cbn in Hp. apply Permutation_nil_r in Hp. rewrite Hp. cbn. apply spec_policies_none.
    intros v p Hp'. rewrite po_sets, lookup_fmap in Hp'.
    destruct (db_policy_sets (pg_db s) !! (org, v)) as [q|] eqn:Eq; [|done]. injection Hp' as <-.
    destruct (po_set_keys _ _ _ Eq) as (_ & E & _). rewrite <- E in Eq.
    apply (org_sets_spec l s org q Hok), list_elem_of_In in Eq. exact (find_none _ _ Ef q Eq).
Qed.

(** ** Grants *)

(** What a scan does to the rows a query returns, whatever their order. *)
Lemma scanned_rows {A B} (f g : A -> B) n le (r : list A) :
  (forall x, In x r -> f x = g x) -> f <$> order_rows n le r = g <$> order_rows n le r.
Proof.
  intros Hfg. apply list_fmap_ext. intros i x Hx. apply Hfg, list_elem_of_In.
  apply list_elem_of_lookup_2 in Hx. by rewrite order_perm in Hx.
Qed.

Lemma scanGrant_id g : plain_constraints (g_Constraints g) = true -> scanGrant g = g.
Proof. intros Hp. unfold scanGrant. rewrite trip_constraints_plain by done. by destruct g. Qed.

Lemma pg_refined_CreateGrant g : pg_refined (OCreateGrant g).
Proof.
  intros l s Hok (Horg & Hag & Hpr & Hid & Hrev & Hplain). pose proof Hok as [].
  rewrite po_orgs in Horg. rewrite po_agents, dom_fmap_L in Hag. rewrite po_principals in Hpr.
  pose proof (po_fresh_gen (pg_tick s) ltac:(lia)) as F.
  pose proof (canonical_dom _ _ po_canon_orgs Horg) as Hco.
  pose proof (canonical_dom _ _ po_canon_agents Hag) as Hca.
  pose proof (optional_canonical _ _ po_canon_principals Hpr) as Hcp.
  cbn [pg_exec]. unfold CreateGrant. cbn [pbind].
  erewrite run_atomic'.
  2: { apply query_row_ok. unfold insert_grant. rewrite Hcp. stmt; [reflexivity|].
       by rewrite (proj2 (has_true _ _) Horg), (proj2 (has_true _ _) Hag), (has_opt_optional _ _ Hpr). }
  cbn [default Datatypes.id from_option run fst snd]. rewrite scanGrant_id by done.
  set (id := gen_random_uuid (pg_tick s)) in *.
  set (g' := MkAuthorityGrant id _ _ _ _ _ _ _ _ _ _ _).
  assert (Hv : grant_view g' = (grant_view g) <| g_ID := id |>).
  { assert (He : forall e : option time, micro <$> (micro <$> e) = micro <$> e).
    { intros [e|]; [|done]. exact (f_equal Some (micro_idem e)). }
    unfold g'. destruct g as [? o p a sc c env by_ ? e r b]. cbn in *. subst.
    exact (f_equal (fun e => MkAuthorityGrant id o p a sc c env by_ 0 e None b) (He e)). }
  rewrite Hv. eexists. split.
  - apply (spec_create_grant l g id). by rewrite po_grants, lookup_fmap, (ug_grants _ _ F).
  - split; cbn; try done.
    + by rewrite fmap_insert, Hv, po_grants.
    + intros i x Hx. apply lookup_insert_Some in Hx as [[_ <-]|[_ Hx]]; [done|by eapply po_plain_grants].
    + later po_fresh_id po_fresh_gen.
    + later po_fresh_id po_fresh_gen.
Qed.

Lemma filter_agrees {A} (f : A -> bool) (P : A -> Prop) `{forall x, Decision (P x)} (l : list A) :
  (forall x, f x = true <-> P x) -> List.filter f l = base.filter P l.
Proof.
  intros Hf. induction l as [|x l IH]; [done|]. rewrite filter_cons. cbn.
  destruct (decide (P x)) as [Hp|Hp].
  - by rewrite (proj2 (Hf x) Hp), IH.
  - destruct (f x) eqn:E; [by destruct Hp; apply Hf|done].
Qed.

Lemma pg_refined_GrantsForAgent org agent : pg_refined (OGrantsForAgent org agent).
Proof.
  intros l s Hok [Ho Ha]. pose proof Hok as []. exists l. cbn [pg_exec]. unfold GrantsForAgent. cbn [pbind].
  erewrite run_atomic'; [|apply query_ok; stmt; reflexivity]. cbn [run fst snd].
  split; [|by apply pg_ok_read].
  apply spec_grants. cbn [default Datatypes.id from_option]. rewrite <- list_fmap_compose.
  erewrite (scanned_rows (grant_view ∘ scanGrant) grant_view); cycle 1.
  { intros g [Hg _]%filter_In. apply list_elem_of_In, rows_spec in Hg as [id Hg]. cbn.
    by rewrite scanGrant_id by exact (po_plain_grants _ _ Hg). }
  rewrite order_perm, po_grants, values_fmap. unfold agent_grants. rewrite filter_fmap by done.
  rewrite <- (filter_agrees (fun g => String.eqb (g_OrgID g) org && String.eqb (g_AgentID g) agent)); [done|].
  intros g. by rewrite andb_true_iff, !String.eqb_eq.
Qed.

Lemma pg_refined_RevokeGrant org id : pg_refined (ORevokeGrant org id).
Proof.
  intros l s Hok [Ho Hi]. pose proof Hok as [].
  pose proof (ledger_owned g_OrgID grant_view (db_authority_grants (pg_db s)) org id ltac:(done)) as Hl.
  rewrite <- po_grants in Hl. cbn [pg_exec]. unfold RevokeGrant. cbn [pbind].
  assert (Hsame : pg_ok l (s <| pg_tick ::= S |> <| pg_db := pg_db s |>)) by by by apply pg_ok_read.
  destruct (db_authority_grants (pg_db s) !! id) as [g|] eqn:Eg; cbn in Hl.
  2: { erewrite run_atomic'; [|apply exec_ok; unfold revoke_grant; stmt; rewrite Eg; reflexivity].
       exists l. split; [|done]. apply spec_revoke_none. rewrite Hl. done. }
  destruct (String.eqb (g_OrgID g) org && bool_decide (g_RevokedAt g = None)) eqn:Ec.
  2: { erewrite run_atomic'; [|apply exec_ok; unfold revoke_grant; stmt; rewrite Eg, Ec; reflexivity].
       exists l. split; [|done]. apply spec_revoke_none. rewrite Hl. intros h Hh.
       destruct (String.eqb _ _); [|done]. injection Hh as <-. cbn in *. apply bool_decide_eq_false in Ec.
       by destruct (g_RevokedAt g). }
  erewrite run_atomic'; [|apply exec_ok; unfold revoke_grant; stmt; rewrite Eg, Ec; stmt; reflexivity].
  apply andb_true_iff in Ec as [Eo Es]. apply bool_decide_eq_true in Es. rewrite Eo in Hl.
  cbn [run fst snd]. eexists. split.
  { eapply (spec_revoke l org id (grant_view g)); [exact Hl|]. cbn. by rewrite Es. }
  split; cbn; try done.
  - by rewrite fmap_insert, po_grants.
  - intros i x Hx. apply lookup_insert_Some in Hx as [[_ <-]|[_ Hx]]; [exact (po_plain_grants _ _ Eg)|by eapply po_plain_grants].
  - kept po_fresh_id po_fresh_gen.
  - kept po_fresh_id po_fresh_gen.
Qed.

(** ** The store *)

(** ** Lists *)

(** The rows a query selects and orders, and what the ledger lists. *)
Lemma selected_view {A} (g : A -> A) (f : A -> bool) (P : A -> Prop) `{forall x, Decision (P x)} (m : gmap string A) n le :
  (forall x, f x = true <-> P x) -> (forall x, P (g x) <-> P x) ->
  g <$> order_rows n le (List.filter f (rows m)) ≡ₚ base.filter P (map_to_list (g <$> m)).*2.
Proof. intros Hf Hg. rewrite order_perm, values_fmap, filter_fmap by done. by rewrite (filter_agrees f P). Qed.

Lemma pg_refined_ListTxns org : pg_refined (OListTxns org).
Proof.
  intros l s Hok Ho. cbn in Ho. exists l. cbn [pg_exec]. unfold ListTxns. cbn [pbind].
  erewrite run_atomic'; [|apply query_ok; stmt; reflexivity]. cbn [run fst snd default Datatypes.id from_option].
  split; [|by apply pg_ok_read]. apply spec_list_txns. rewrite (po_txns _ _ Hok).
  apply selected_view; [|done]. intros t. apply String.eqb_eq.
Qed.

Lemma pg_refined_ActionsForTxn org txn : pg_refined (OActionsForTxn org txn).
Proof.
  intros l s Hok [Ho Ht]. exists l. cbn [pg_exec]. unfold ActionsForTxn. cbn [pbind].
  erewrite run_atomic'; [|apply query_ok; stmt; reflexivity]. cbn [run fst snd default Datatypes.id from_option].
  split; [|by apply pg_ok_read]. rewrite <- list_fmap_compose, (scanned_rows (action_view ∘ scanAction) action_view); cycle 1.
  { intros a [Ha _]%filter_In. apply list_elem_of_In in Ha. exact (scanAction_view a (stored_plain l s a Hok Ha)). }
  apply spec_actions. rewrite (po_actions _ _ Hok). apply selected_view; [|done].
  intros a. unfold in_txn. by rewrite andb_true_iff, !String.eqb_eq.
Qed.

Lemma pg_refined_PendingApprovals org : pg_refined (OPendingApprovals org).
Proof.
  intros l s Hok Ho. cbn in Ho. exists l. cbn [pg_exec]. unfold PendingApprovals. cbn [pbind].
  erewrite run_atomic'; [|apply query_ok; stmt; reflexivity]. cbn [run fst snd default Datatypes.id from_option].
  split; [|by apply pg_ok_read]. apply spec_pending. rewrite (po_approvals _ _ Hok). apply selected_view; [|done].
  intros a. by rewrite andb_true_iff, String.eqb_eq, bool_decide_eq_true.
Qed.

Lemma org_sets_NoDup l s org : pg_ok l s -> NoDup (ps_Version <$> org_sets (pg_db s) org).
Proof.
  intros Hok. apply NoDup_fmap_2_strong.
  - intros p q Hp Hq Hv. apply (org_sets_spec l s org _ Hok) in Hp, Hq. congruence.
  - unfold org_sets. rewrite (filter_agrees _ (fun p => ps_OrgID p = org)) by (intros; apply String.eqb_eq).
    apply NoDup_filter. unfold rows. apply NoDup_fmap_2_strong; [|apply NoDup_map_to_list].
    intros [[o v] p] [[o' v'] q] Hp Hq Hpq. apply elem_of_map_to_list in Hp, Hq. cbn in Hpq. subst q.
    destruct (po_set_keys _ _ Hok _ _ _ Hp) as (<- & <- & _), (po_set_keys _ _ Hok _ _ _ Hq) as (<- & <- & _). done.
Qed.

Lemma pg_refined_PolicySets org : pg_refined (OPolicySets org).
Proof.
  intros l s Hok Ho. cbn in Ho. exists l. cbn [pg_exec]. unfold PolicySets. cbn [pbind].
  erewrite run_atomic'; [|apply query_ok; stmt; reflexivity]. cbn [run fst snd default Datatypes.id from_option].
  split; [|by apply pg_ok_read]. rewrite <- list_fmap_compose.
  rewrite (scanned_rows (set_view ∘ scanPolicySet) set_view); cycle 1.
  { intros p Hp. apply list_elem_of_In in Hp. cbn. by rewrite (stored_set_plain l s org p Hok Hp). }
  apply spec_sets.
  - intros p. rewrite order_perm, list_elem_of_fmap. split.
    + intros (q & -> & Hq). apply (org_sets_spec l s org q Hok) in Hq. exists (ps_Version q).
      by rewrite (po_sets _ _ Hok), lookup_fmap, Hq.
    + intros [v Hv]. rewrite (po_sets _ _ Hok), lookup_fmap in Hv.
      destruct (db_policy_sets (pg_db s) !! (org, v)) as [q|] eqn:Eq; [|done]. injection Hv as <-. exists q. split; [done|].
      apply (org_sets_spec l s org q Hok). destruct (po_set_keys _ _ Hok _ _ _ Eq) as (_ & -> & _). done.
  - rewrite <- list_fmap_compose, order_perm. exact (org_sets_NoDup l s org Hok).
Qed.

Lemma pg_refined_SetPolicies org rules : pg_refined (OSetPolicies org rules).
Proof.
  intros l s Hok [Ho Hid]. cbn [pg_exec]. unfold SetPolicies. rewrite !run_pbind.
  destruct (pg_refined_CreatePolicySet org rules "system" l s Hok Ho) as (l1 & Hs1 & Hok1).
  cbn [pg_exec] in Hs1, Hok1. rewrite run_pbind in Hs1, Hok1.
  destruct (run (CreatePolicySet org rules "system") s) as [p s1]. cbn [run fst snd] in Hs1, Hok1.
  assert (Ep : l_sets l1 !! (org, ps_Version (set_view p)) = Some (set_view p)).
  { destruct (spec_create_set_inv _ _ _ _ _ _ Hs1) as (v & E & -> & _).
    assert (set_view p = new_set org v rules "system") as -> by congruence. apply lookup_insert_eq. }
  rewrite run_pbind. change (ps_Version p) with (ps_Version (set_view p)).
  destruct (pg_refined_ActivatePolicySet org (ps_Version (set_view p)) l1 s1 Hok1 Hid) as (l2 & Hs2 & Hok2).
  cbn [pg_exec] in Hs2, Hok2. rewrite run_pbind in Hs2, Hok2.
  destruct (run (ActivatePolicySet org (ps_Version (set_view p))) s1) as [b s2]. cbn [run fst snd] in Hs2, Hok2 |- *.
  destruct (spec_activate_inv _ _ _ _ _ _ Hs2 Ep) as [Hb _]. rewrite Hb in Hs2.
  exists l2. split; [|done]. by eapply spec_set_policies.
Qed.

Lemma pg_refined_ActivePolicySet org : pg_refined (OActivePolicySet org).
Proof.
  intros l s Hok Hc. cbn in Hc. pose proof Hok as []. exists l. cbn [pg_exec]. unfold ActivePolicySet. cbn [pbind].
  erewrite run_atomic'; [|apply query_row_ok; stmt; reflexivity]. cbn [run fst snd].
  split; [|by apply pg_ok_read]. destruct (List.find is_active (org_sets (pg_db s) org)) as [p|] eqn:Ef.
  - apply find_some in Ef as [Hin Ha]. apply list_elem_of_In in Hin.
    cbn [fmap option_fmap option_map]. rewrite (stored_set_plain l s org p Hok Hin).
    apply (org_sets_spec l s org p Hok) in Hin. apply (spec_active l org (ps_Version p) (set_view p)); [|done].
    by rewrite po_sets, lookup_fmap, Hin.
  - apply spec_active_none. intros v p Hp. rewrite po_sets, lookup_fmap in Hp.
    destruct (db_policy_sets (pg_db s) !! (org, v)) as [q|] eqn:Eq; [|done]. injection Hp as <-.
    destruct (po_set_keys _ _ _ Eq) as (_ & E & _). rewrite <- E in Eq.
    apply (org_sets_spec l s org q Hok), list_elem_of_In in Eq. exact (find_none _ _ Ef q Eq).
Qed.

Lemma pg_refines op : pg_refined op.
Proof.
  destruct op.
  - apply pg_refined_SeedOrg.
  - apply pg_refined_CreateAgent.
  - apply pg_refined_GetAgent.
  - apply pg_refined_CreateTxn.
  - apply pg_refined_GetTxn.
  - apply pg_refined_SetTxnStatus.
  - apply pg_refined_AddAction.
  - apply pg_refined_GetAction.
  - apply pg_refined_UpdateAction.
  - apply pg_refined_CreateApproval.
  - apply pg_refined_GetApproval.
  - apply pg_refined_DecideApproval.
  - apply pg_refined_CreatePolicySet.
  - apply pg_refined_ActivatePolicySet.
  - apply pg_refined_SetPolicies.
  - apply pg_refined_Policies.
  - apply pg_refined_CreateGrant.
  - apply pg_refined_GrantsForAgent.
  - apply pg_refined_RevokeGrant.
  - apply pg_refined_ListTxns.
  - apply pg_refined_ActionsForTxn.
  - apply pg_refined_PendingApprovals.
  - apply pg_refined_PolicySets.
  - apply pg_refined_ActivePolicySet.
Qed.

#[export] Instance postgres_store_laws : StoreLaws Pg.
Proof. split. intros l s op Hok Ha. exact (pg_refines op l s Hok Ha). Qed.

Definition new_pg (keys : option Provider) : Pg := MkPg empty_db keys 0 0.

Lemma pg_ok_new keys : pg_ok empty_ledger (new_pg keys).
Proof. split; cbn; done. Qed.

(** The Postgres store refines the same contract.  While the database
    answers and stores what it is given, an empty database stands for the
    empty ledger, and every admissible call on a database that stands for a
    ledger answers what a transition of the contract answers, and leaves a
    database that stands for the ledger after it. *)
Theorem postgres_store_refines :
  (forall keys, pg_ok empty_ledger (new_pg keys)) /\
  (forall l s op, pg_ok l s -> admissible canonical l op ->
     exists l', spec_step l op (run (pg_exec op) s).1 l' /\ pg_ok l' (run (pg_exec op) s).2).
Proof. split; [apply pg_ok_new|intros l s op; apply pg_refines]. Qed.

End PgRefine.

Section BothStores.
Context `{RL : RuntimeLaws} `{PE : PgEnv} `{PL : !PgLaws} `{PI : !PlainIds}.

(** C11: both stores refine the contract of the Store interface.  A new
    MemoryStore and a new database stand for the empty ledger; every
    admissible call on a store that stands for a ledger answers what a
    transition of the contract answers, and leaves a store that stands for the
    ledger after it.  A call is admissible when what it refers to exists, its
    identifiers are well formed, and what is kept as JSON (decisions, rules,
    constraints) is ASCII without NUL.  For PGStore the database is
    undisturbed: it refuses no statement from outside its constraints (a lost
    connection, a text it does not take) and cuts off no result.  The contract
    is loose in one place, where the stores differ: for an agent created with
    nil groups a store may answer an agent it did not store, as PGStore does. *)
Theorem stores_refine_contract :
  (forall tools, mem_ok empty_ledger (new_world tools)) /\
  (forall l w op, mem_ok l w -> admissible plain_id l op ->
     exists l', spec_step l op (run (mem_exec op) w).1 l' /\ mem_ok l' (run (mem_exec op) w).2) /\
  (forall keys, pg_ok empty_ledger (new_pg keys)) /\
  (Undisturbed -> forall l s op, pg_ok l s -> admissible canonical l op ->
     exists l', spec_step l op (run (pg_exec op) s).1 l' /\ pg_ok l' (run (pg_exec op) s).2).
Proof.
  split_and!; [apply mem_ok_New|intros l w op; apply mem_refines|apply pg_ok_new|intros UD l s op; apply pg_refines].
Qed.

(** C10: both stores honour the contract of the Store interface.  Of any
    sequence of calls on a new MemoryStore or a new PGStore, each admissible
    when it is made (what it refers to exists, its identifiers are well
    formed, and its decisions, rules and constraints are ASCII without NUL),
    and on an undisturbed database in the case of PGStore (no statement is
    refused from outside the constraints of the schema, no result is cut off):
    repeating a request returns the first action, which stays listed under its
    transaction; an approval is decided at most once and is not pending after
    that; a grant is revoked at most once; the policies of an organization are
    those that were set last, until another version is activated; every object
    read or listed for an organization is its own; and at most one policy set
    of an organization is active at the end. *)
Theorem stores_honour_contract ops :
  (forall tools, callable (ST := memory_store) ops (new_world tools) ->
     honoured (exec_all (ST := memory_store) ops (new_world tools)).1 /\
     exists l, mem_ok l (exec_all (ST := memory_store) ops (new_world tools)).2 /\ ledger_ok l) /\
  (Undisturbed -> forall keys, callable (ST := postgres_store) ops (new_pg keys) ->
     honoured (exec_all (ST := postgres_store) ops (new_pg keys)).1 /\
     exists l, pg_ok l (exec_all (ST := postgres_store) ops (new_pg keys)).2 /\ ledger_ok l).
Proof.
  split.
  - intros tools Hc. destruct (store_contract (ST := memory_store) ops _ _ ledger_ok_empty (mem_ok_New tools) Hc) as [H1 H2]. by split.
  - intros UD keys Hc. destruct (store_contract (ST := postgres_store) ops _ _ ledger_ok_empty (pg_ok_new keys) Hc) as [H1 H2]. by split.
Qed.

End BothStores.
