(* ===== verification/PgVault.v ===== *)
(** * PgVault: PGStore keeps secrets as the contract says *)

From S2P Require Export MemVault PgRefine.

Open Scope Z_scope.

(** JSON columns of plain texts come back as they were. *)
Class PgJsonLaws `{RT : Runtime} `{PE : PgEnv} := {
  trip_tools_plain : forall l, Forall (fun t => plain_tool t = true) l -> trip_tools l = l;
  trip_classes_plain : forall m, plain_classes m -> trip_classes m = m }.

(** ** The table of credentials *)

Definition row_view (c : CredentialRow) : Cred :=
  MkCred (cd_org_id c) (cd_agent_id c) (cd_secret_hash c) (negb (bool_decide (cd_revoked_at c = None))).

Definition optoken_view (t : OperatorRow) : string * string * string := (op_org_id t, op_name t, op_secret_hash t).

(** The rows with a key identifier, which is unique. *)
Record cred_rel (va : gmap string Cred) (m : gmap string CredentialRow) : Prop := {
  cd_to : forall k c, va !! k = Some c -> exists id row, m !! id = Some row /\ cd_key_id row = Some k /\ c = row_view row;
  cd_from : forall id row k, m !! id = Some row -> cd_key_id row = Some k -> va !! k = Some (row_view row);
  cd_unique : forall id id' row row' k, m !! id = Some row -> m !! id' = Some row' ->
    cd_key_id row = Some k -> cd_key_id row' = Some k -> id = id' }.

Lemma cred_rel_none va m k : cred_rel va m -> va !! k = None ->
  any (fun c => bool_decide (cd_key_id c = Some k)) (rows m) = false.
Proof.
  intros Hr Hk. apply not_true_iff_false. rewrite any_true. intros (c & Hc & Hd). apply rows_spec in Hc as [id Hc].
  apply bool_decide_eq_true in Hd. rewrite (cd_from _ _ Hr _ _ _ Hc Hd) in Hk. done.
Qed.

Lemma cred_rel_insert va m k id row : cred_rel va m -> m !! id = None -> va !! k = None -> cd_key_id row = Some k ->
  cred_rel (<[ k := row_view row ]> va) (<[ id := row ]> m).
Proof.
  intros [Hto Hfrom Huniq] Hid Hk Hrow. split.
  - intros k' c Hc. apply lookup_insert_Some in Hc as [[<- <-]|[Hne Hc]].
    + exists id, row. by rewrite lookup_insert_eq.
    + destruct (Hto _ _ Hc) as (id' & row' & H1 & H2 & H3). exists id', row'. split; [|done].
      rewrite lookup_insert_ne; [done|congruence].
  - intros id' row' k' H1 H2. apply lookup_insert_Some in H1 as [[<- <-]|[Hne H1]].
    + rewrite Hrow in H2. injection H2 as <-. apply lookup_insert_eq.
    + rewrite lookup_insert_ne; [by eapply Hfrom|]. intros <-. rewrite (Hfrom _ _ _ H1 H2) in Hk. done.
  - intros i j r r' x H1 H2 H3 H4.
    apply lookup_insert_Some in H1 as [[<- <-]|[Hi H1]]; apply lookup_insert_Some in H2 as [[<- <-]|[Hj H2]]; try done.
    + assert (x = k) as -> by congruence. rewrite (Hfrom _ _ _ H2 H4) in Hk. done.
    + assert (x = k) as -> by congruence. rewrite (Hfrom _ _ _ H1 H3) in Hk. done.
    + by eapply Huniq.
Qed.

(** A row without a key is not seen. *)
Lemma cred_rel_insert_none va m id row : cred_rel va m -> m !! id = None -> cd_key_id row = None ->
  cred_rel va (<[ id := row ]> m).
Proof.
  intros [Hto Hfrom Huniq] Hid Hrow. split.
  - intros k c Hc. destruct (Hto _ _ Hc) as (id' & row' & H1 & H2 & H3). exists id', row'. split; [|done].
    rewrite lookup_insert_ne; [done|congruence].
  - intros id' row' k H1 H2. apply lookup_insert_Some in H1 as [[_ <-]|[_ H1]]; [congruence|by eapply Hfrom].
  - intros i j r r' x H1 H2 H3 H4. apply lookup_insert_Some in H1 as [[_ <-]|[_ H1]]; [congruence|].
    apply lookup_insert_Some in H2 as [[_ <-]|[_ H2]]; [congruence|by eapply Huniq].
Qed.

(** An UPDATE of the rows: the keys stay, the views change with the vault. *)
Lemma cred_rel_fmap va va' m f : cred_rel va m -> (forall c, cd_key_id (f c) = cd_key_id c) ->
  (forall k, match va !! k, va' !! k with Some _, Some _ | None, None => True | _, _ => False end) ->
  (forall id row k c, m !! id = Some row -> cd_key_id row = Some k -> va' !! k = Some c -> c = row_view (f row)) ->
  cred_rel va' (f <$> m).
Proof.
  intros [Hto Hfrom Huniq] Hkey Hdom Hview. split.
  - intros k c Hc. specialize (Hdom k). rewrite Hc in Hdom. destruct (va !! k) as [c0|] eqn:E; [|done].
    destruct (Hto _ _ E) as (id & row & H1 & H2 & H3). exists id, (f row). rewrite lookup_fmap, H1, Hkey.
    split; [done|]. split; [done|]. by eapply Hview.
  - intros id row' k H1 H2. rewrite lookup_fmap in H1. destruct (m !! id) as [row|] eqn:E; [|done].
    injection H1 as <-. rewrite Hkey in H2. specialize (Hdom k). rewrite (Hfrom _ _ _ E H2) in Hdom.
    destruct (va' !! k) as [c|] eqn:Ec; [|done]. f_equal. by eapply Hview.
  - intros i j r r' x H1 H2 H3 H4. rewrite lookup_fmap in H1, H2.
    destruct (m !! i) as [a|] eqn:Ei; [|done]. destruct (m !! j) as [b|] eqn:Ej; [|done].
    injection H1 as <-. injection H2 as <-. rewrite Hkey in H3, H4. by eapply Huniq.
Qed.

(** The rows an UPDATE by key hits: at most one. *)
Definition live_row (k : string) (c : CredentialRow) : bool := with_key k c && bool_decide (cd_revoked_at c = None).

Lemma live_row_view k c : live_row k c = true <-> cd_key_id c = Some k /\ cr_dead (row_view c) = false.
Proof.
  unfold live_row, with_key, row_view. cbn. rewrite andb_true_iff, !bool_decide_eq_true, negb_false_iff, bool_decide_eq_true.
  done.
Qed.

Lemma find_live va m k : cred_rel va m ->
  (fun c => (cd_org_id c, cd_agent_id c, cd_secret_hash c)) <$> List.find (live_row k) (rows m) = live_cred (va !! k).
Proof.
  intros Hr. destruct (List.find (live_row k) (rows m)) as [c|] eqn:E.
  - apply find_some in E as [Hin Hl]. apply list_elem_of_In, rows_spec in Hin as [id Hin].
    apply live_row_view in Hl as [Hk Hd]. rewrite (cd_from _ _ Hr _ _ _ Hin Hk). unfold live_cred. cbn [mbind option_bind fmap option_fmap option_map]. by rewrite Hd.
  - unfold live_cred. destruct (va !! k) as [c|] eqn:Ec; [|done]. cbn. destruct (cr_dead c) eqn:Ed; [done|].
    destruct (cd_to _ _ Hr _ _ Ec) as (id & row & H1 & H2 & ->).
    assert (Hl : live_row k row = true) by by apply live_row_view.
    rewrite (find_none _ _ E row) in Hl; [done|]. apply list_elem_of_In, rows_spec. by exists id.
Qed.

Lemma count_live va m k : cred_rel va m ->
  length (List.filter (live_row k) (rows m)) = match live_cred (va !! k) with Some _ => 1%nat | None => 0%nat end.
Proof.
  intros Hr. destruct (live_cred (va !! k)) as [x|] eqn:El.
  - unfold live_cred in El. destruct (va !! k) as [c|] eqn:Ec; [|done]. cbn in El. destruct (cr_dead c) eqn:Ed; [done|].
    destruct (cd_to _ _ Hr _ _ Ec) as (id & row & H1 & H2 & ->).
    rewrite <- (insert_delete_id _ _ _ H1).
    rewrite (Permutation_length (filter_bool_perm _ _ _ (rows_insert _ id row (lookup_delete_eq _ _)))). cbn.
    rewrite (proj2 (live_row_view k row)) by done. cbn. f_equal.
    destruct (List.filter _ _) as [|y l] eqn:Ef; [done|]. exfalso.
    assert (Hy : In y (List.filter (live_row k) (rows (delete id m)))) by (rewrite Ef; by left).
    apply filter_In in Hy as [Hy Hl]. apply list_elem_of_In, rows_spec in Hy as [id' Hy].
    apply lookup_delete_Some in Hy as [Hne Hy]. apply live_row_view in Hl as [Hk _].
    apply Hne. exact (cd_unique _ _ Hr _ _ _ _ _ H1 Hy H2 Hk).
  - destruct (List.filter _ _) as [|y l] eqn:Ef; [done|]. exfalso.
    assert (Hy : In y (List.filter (live_row k) (rows m))) by (rewrite Ef; by left).
    apply filter_In in Hy as [Hy Hl]. apply list_elem_of_In, rows_spec in Hy as [id' Hy].
    apply live_row_view in Hl as [Hk Hd]. rewrite (cd_from _ _ Hr _ _ _ Hy Hk) in El. unfold live_cred in El.
    cbn [mbind option_bind] in El. by rewrite Hd in El.
Qed.

(** ** The vault a database stands for *)

Section PgVault.
Context `{RL : RuntimeLaws} `{PE : PgEnv} `{PL : !PgLaws} `{PJ : !PgJsonLaws} `{UD : !Undisturbed}.

(** Two tables with the same keys, and related rows. *)
Definition related {A B} (R : string * string -> A -> B -> Prop) (m : gmap (string * string) A) (n : gmap (string * string) B)
    : Prop :=
  forall k, match m !! k, n !! k with Some a, Some b => R k a b | None, None => True | _, _ => False end.

Lemma related_insert {A B} (R : string * string -> A -> B -> Prop) m n k a b :
  related R m n -> R k a b -> related R (<[ k := a ]> m) (<[ k := b ]> n).
Proof.
  intros Hr Hab k'. destruct (decide (k = k')) as [<-|]; [by rewrite !lookup_insert_eq|].
  rewrite !lookup_insert_ne by done. apply Hr.
Qed.

Definition row_holds (p : option Provider) (k : string * string) (x : MCPServer * string) (row : McpRow) : Prop :=
  (mr_org_id row, mr_name row) = k /\ x.1 = server_view (fst (scanMCPServer true row)) /\
  opened p (mr_auth_token row) = Some x.2.

Record pg_vault (v : Vault) (s : Pg) : Prop := {
  pw_honest : honest (pg_keys s);
  pw_creds : cred_rel (va_creds v) (db_agent_credentials (pg_db s));
  pw_fresh : forall n, (pg_tick s <= n)%nat -> db_agent_credentials (pg_db s) !! gen_random_uuid n = None;
  pw_tokens : va_tokens v = optoken_view <$> db_operator_tokens (pg_db s);
  pw_live : forall k t, db_operator_tokens (pg_db s) !! k = Some t -> op_revoked_at t = None;
  pw_secrets : related (fun _ x t => opened (pg_keys s) t = Some x) (va_secrets v) (db_integration_credentials (pg_db s));
  pw_servers : related (row_holds (pg_keys s)) (va_servers v) (db_mcp_servers (pg_db s)) }.

Definition pg_vexec (op : VOp) : program Pg VRes :=
  match op with
  | VStoreCredential org agent k h => let! _ := PgSecrets.StoreCredential org agent k h in Ret VUnit
  | VGetCredential k => let! c := PgSecrets.GetCredential k in Ret (VCred c)
  | VRevokeCredential k => let! ok := PgSecrets.RevokeCredential k in Ret (VFlag ok)
  | VTouchCredential k => let! _ := PgSecrets.TouchCredential k in Ret VUnit
  | VCreateOperatorToken org name k h => let! _ := PgSecrets.CreateOperatorToken org name k h in Ret VUnit
  | VGetOperatorToken k => let! t := PgSecrets.GetOperatorToken k in Ret (VCred t)
  | VTouchOperatorToken k => let! _ := PgSecrets.TouchOperatorToken k in Ret VUnit
  | VSetIntegrationCredential org name secret =>
      let! err := PgSecrets.SetIntegrationCredential org name secret in Ret (VFlag (bool_decide (err = None)))
  | VGetIntegrationCredential org name => let! x := PgSecrets.GetIntegrationCredential org name in Ret (VSecret x)
  | VListIntegrationCredentials org => let! l := PgSecrets.ListIntegrationCredentials org in Ret (VNames l)
  | VUpsertMCPServer srv token =>
      let! srv := PgSecrets.UpsertMCPServer srv token in Ret (VServer (Some (server_view srv, token)))
  | VGetMCPServer org name =>
      let! x := PgSecrets.GetMCPServer org name in Ret (VServer (prod_map server_view id <$> x))
  | VListMCPServers org => let! l := PgSecrets.ListMCPServers org in Ret (VServers (listed_view <$> l))
  end.

#[export] Instance postgres_vault : VStore Pg := { exec_vop := pg_vexec; vault_ok := pg_vault }.

(** ** Frames *)

Lemma seal_within R `{!PreOrder R} secret : step_within R (seal secret).
Proof. intros s. unfold seal, moved. cbn. split; [reflexivity|]. split_and!; (done || lia). Qed.

Lemma open_within R `{!PreOrder R} t : step_within R (open_ t).
Proof. intros s. unfold open_, moved. cbn. split; [reflexivity|]. split_and!; (done || lia). Qed.

(** The calls of the vault leave the tables of the ledger alone. *)
Lemma pg_vexec_aside op : prog_within core_eq (pg_vexec op).
Proof.
  destruct op; cbn [pg_vexec];
    unfold PgSecrets.StoreCredential, PgSecrets.GetCredential, PgSecrets.RevokeCredential, PgSecrets.TouchCredential,
      PgSecrets.CreateOperatorToken, PgSecrets.GetOperatorToken, PgSecrets.TouchOperatorToken,
      PgSecrets.SetIntegrationCredential, PgSecrets.GetIntegrationCredential, PgSecrets.ListIntegrationCredentials,
      PgSecrets.UpsertMCPServer, PgSecrets.GetMCPServer, PgSecrets.ListMCPServers,
      insert_credential, revoke_credential, upsert_credential, upsert_mcp;
    repeat first [progress within_all | apply seal_within, _ | apply open_within, _ | case_match_goal].
Qed.

(** The tables the vault is in. *)
Record vault_same (d d' : Db) : Prop := {
  vs_creds : db_agent_credentials d' = db_agent_credentials d;
  vs_tokens : db_operator_tokens d' = db_operator_tokens d;
  vs_mcp : db_mcp_servers d' = db_mcp_servers d;
  vs_integ : db_integration_credentials d' = db_integration_credentials d }.

#[local] Instance vault_same_preorder : PreOrder vault_same.
Proof. split; [by intros d|]. intros d1 d2 d3 [] []. split; congruence. Qed.

Lemma pg_vault_frame v s s' : moved vault_same s s' -> pg_vault v s -> pg_vault v s'.
Proof.
  intros ([C T M I] & K & U & N) []. split; rewrite ?K, ?C, ?T, ?M, ?I; try done.
  intros n Hn. apply pw_fresh0. lia.
Qed.

Lemma pg_exec_aside op : (forall org p name env groups h, op <> OCreateAgent org p name env groups h) ->
  prog_within vault_same (pg_exec op).
Proof.
  intros Hop. destruct op; cbn [pg_exec];
    try (by exfalso; eapply Hop);
    unfold SeedOrg, GetAgent, CreateTxn, GetTxn, SetTxnStatus, AddAction, GetAction, UpdateAction, CreateApproval,
      GetApproval, DecideApproval, SetPolicies, CreatePolicySet, ActivatePolicySet, Policies, ActivePolicySet, legacyPolicies, CreateGrant,
      GrantsForAgent, RevokeGrant, Emit, ListTxns, ActionsForTxn, PendingApprovals, PolicySets, insert_organization, insert_principal, insert_transaction, update_transaction,
      insert_action, update_action, insert_approval, decide_approval, insert_policy_set, disable_active, activate_version,
      insert_grant, revoke_grant, insert_event;
    repeat first [progress within_all | apply assign_rules_within, _ | case_match_goal].
Qed.

(** A row without a key: CreateAgent adds one. *)
Lemma insert_none_vault v org agent h s : pg_vault v s -> pg_vault v (exec (insert_credential org agent None h) s).2.
Proof.
  intros Hv. unfold exec. rewrite no_refusal. cbn.
  assert (Htick : pg_vault v (s <| pg_tick ::= S |>)).
  { apply (pg_vault_frame v s); [|done]. split; [reflexivity|]. cbn. split_and!; (done || lia). }
  destruct (insert_credential org agent None h (pg_tick s) (pg_db s)) as [[[] db]|] eqn:E; cbn; [|exact Htick].
  assert (Hdb : exists row, cd_key_id row = None /\
    db = (pg_db s) <| db_agent_credentials ::= <[ gen_random_uuid (pg_tick s) := row ]> |>).
  { revert E. unfold insert_credential, q_bind, q_uuid, q_db, q_guard, q_gen_uuid, q_now, q_write.
    destruct (uuid_param org) as [o|]; cbn; [|done]. destruct (uuid_param agent) as [a|]; cbn; [|done].
    destruct (has _ o && has _ a); cbn; [|done]. intros [= <-]. eexists. split; [|reflexivity]. done. }
  destruct Hdb as (row & Hrow & ->). pose proof Hv as []. split; cbn; try done.
  - apply cred_rel_insert_none; [done|by apply pw_fresh0|done].
  - intros n Hn. rewrite lookup_insert_ne; [apply pw_fresh0; lia|]. apply gen_next. lia.
Qed.

Lemma pg_vault_moved {A} v s (m : step Pg A) : step_within vault_same m -> pg_vault v s -> pg_vault v (m s).2.
Proof. intros Hm. apply pg_vault_frame, Hm. Qed.

Lemma pg_vault_framed v s op : pg_vault v s -> pg_vault v (run (pg_exec op) s).2.
Proof.
  intros Hv. destruct op as [|org p name env groups h| | | | | | | | | | | | | | | | | | | | | |];
    try (apply (pg_vault_frame v s); [apply run_within, pg_exec_aside; done|done]).
  cbn [pg_exec]. unfold CreateAgent. cbn [pbind run].
  pose proof (pg_vault_moved v s NewString NewString_within Hv) as H1. destruct (NewString s) as [id s1].
  cbn [run]. match goal with |- context [query_row ?q s1] => pose proof (pg_vault_moved v s1 (query_row q)) as H2 end.
  destruct (query_row _ s1) as [r s2]. cbn in H1, H2. cbn [run].
  match goal with |- context [exec (insert_credential ?o ?a None ?x) s2] => pose proof (insert_none_vault v o a x s2) as H3 end.
  destruct (exec _ s2) as [r' s3]. cbn in H3. cbn. apply H3, H2; [|done].
  apply query_row_within. unfold insert_agent. within_all.
Qed.

(** ** The calls *)

Definition pg_vrefined (op : VOp) : Prop := forall l v s, pg_ok l s -> pg_vault v s -> vadmissible canonical l v op ->
  exists v', vspec_step v op (run (pg_vexec op) s).1 v' /\ pg_vault v' (run (pg_vexec op) s).2.

Lemma pg_vault_tick v s : pg_vault v s -> pg_vault v (s <| pg_tick ::= S |>).
Proof. apply pg_vault_frame. split; [reflexivity|]. cbn. split_and!; (done || lia). Qed.

Lemma pg_org l s org : pg_ok l s -> org ∈ l_orgs l -> canonical org /\ has (db_organizations (pg_db s)) org = true.
Proof.
  intros [] Ho. rewrite po_orgs in Ho. split; [exact (canonical_dom _ _ po_canon_orgs Ho)|by apply has_true].
Qed.

Lemma pg_agent l s id : pg_ok l s -> id ∈ dom (l_agents l) -> canonical id /\ has (db_agents (pg_db s)) id = true.
Proof.
  intros [] Ho. rewrite po_agents, dom_fmap_L in Ho. split; [exact (canonical_dom _ _ po_canon_agents Ho)|by apply has_true].
Qed.

Lemma pg_vrefined_StoreCredential org agent k h : pg_vrefined (VStoreCredential org agent k h).
Proof.
  intros l v s Hok Hv (Ho & Ha & Hk). destruct (pg_org _ _ _ Hok Ho) as [Hco Hho].
  destruct (pg_agent _ _ _ Hok Ha) as [Hca Hha]. pose proof Hv as [].
  cbn [pg_vexec]. unfold PgSecrets.StoreCredential. cbn [pbind].
  erewrite run_atomic'.
  2: { apply exec_ok. unfold insert_credential. stmt; [reflexivity| |].
       - by rewrite (cred_rel_none _ _ _ pw_creds0 Hk).
       - by rewrite Hho, Hha. }
  cbn [run fst snd]. eexists. split; [by apply vspec_store|]. split; cbn; try done.
  - apply (cred_rel_insert _ _ _ _ (MkCredentialRow org agent (Some k) h None (db_now (pg_tick s)) None)); try done.
    by apply pw_fresh0.
  - intros n Hn. rewrite lookup_insert_ne; [apply pw_fresh0; lia|]. apply gen_next. lia.
Qed.

Lemma pg_vrefined_GetCredential k : pg_vrefined (VGetCredential k).
Proof.
  intros l v s Hok Hv _. exists v. cbn [pg_vexec]. unfold PgSecrets.GetCredential. cbn [pbind].
  erewrite run_atomic'; [|apply query_row_ok; stmt; reflexivity].
  cbn [run fst snd]. pose proof (find_live _ _ k (pw_creds _ _ Hv)) as Hf. unfold live_row in Hf. rewrite Hf.
  split; [apply vspec_get|]. by apply (pg_vault_tick v s).
Qed.

Lemma live_row_cred va m k id row : cred_rel va m -> m !! id = Some row -> live_row k row = true ->
  va !! k = Some (row_view row) /\ cr_dead (row_view row) = false.
Proof. intros Hr Hid Hl. apply live_row_view in Hl as [Hk Hd]. split; [by eapply cd_from|done]. Qed.

Lemma cred_rel_revoked va m k c t : cred_rel va m -> va !! k = Some c -> cr_dead c = false ->
  cred_rel (<[ k := c <| cr_dead := true |> ]> va)
    ((fun r => if live_row k r then r <| cd_revoked_at := Some t |> else r) <$> m).
Proof.
  intros Hr Hc Hd. apply (cred_rel_fmap va); [done|..].
  - intros r. by destruct (live_row k r).
  - intros k'. destruct (decide (k = k')) as [<-|]; [by rewrite Hc, lookup_insert_eq|].
    rewrite lookup_insert_ne by done. by destruct (va !! k').
  - intros id row k' c' H1 H2 H3. pose proof (cd_from _ _ Hr _ _ _ H1 H2) as Hv.
    destruct (decide (k = k')) as [<-|Hne].
    + rewrite lookup_insert_eq in H3. injection H3 as <-. rewrite Hc in Hv. injection Hv as ->.
      by rewrite (proj2 (live_row_view k row)) by done.
    + rewrite lookup_insert_ne in H3 by done. destruct (live_row k row) eqn:El; [|congruence].
      apply live_row_view in El as [El _]. congruence.
Qed.

Lemma pg_vrefined_RevokeCredential k : pg_vrefined (VRevokeCredential k).
Proof.
  intros l v s Hok Hv _. pose proof Hv as []. cbn [pg_vexec]. unfold PgSecrets.RevokeCredential. cbn [pbind].
  erewrite run_atomic'; [|apply exec_ok; unfold revoke_credential; stmt; reflexivity].
  cbn [run fst snd affected_one]. pose proof (count_live _ _ k pw_creds0) as Hn. unfold live_row in Hn. rewrite Hn.
  destruct (live_cred (va_creds v !! k)) as [x|] eqn:El; cbn.
  - destruct (va_creds v !! k) as [c|] eqn:Ec; [|done]. unfold live_cred in El. cbn in El.
    destruct (cr_dead c) eqn:Ed; [done|]. eexists. split; [by apply vspec_revoke|]. split; cbn; try done.
    + by apply cred_rel_revoked.
    + intros n Hle. rewrite lookup_fmap, pw_fresh0; [done|lia].
  - exists v. split; [by apply vspec_revoke_none|].
    apply (pg_vault_frame v s); [|done]. split; [|cbn; split_and!; (done || lia)]. cbn. split; cbn; try done.
    apply fmap_rows_same. intros id r Hr. destruct (with_key k r && _) eqn:Eh; [|done].
    destruct (live_row_cred _ _ k _ _ pw_creds0 Hr Eh) as [Hc Hd]. rewrite Hc in El. unfold live_cred in El. cbn in El.
    change (negb (bool_decide (cd_revoked_at r = None)) = false) in Hd. by rewrite Hd in El.
Qed.

Lemma pg_vrefined_TouchCredential k : pg_vrefined (VTouchCredential k).
Proof.
  intros l v s Hok Hv _. pose proof Hv as []. exists v. cbn [pg_vexec]. unfold PgSecrets.TouchCredential. cbn [pbind].
  erewrite run_atomic'; [|apply exec_ok; stmt; reflexivity]. cbn [run fst snd]. split; [apply vspec_touch|].
  split; cbn; try done.
  - apply (cred_rel_fmap (va_creds v)); [done|..].
    + intros c. by destruct (with_key k c).
    + intros k'. by destruct (va_creds v !! k').
    + intros id row k' c H1 H2 H3. rewrite (cd_from _ _ pw_creds0 _ _ _ H1 H2) in H3. injection H3 as <-.
      by destruct (with_key k row).
  - intros n Hle. rewrite lookup_fmap, pw_fresh0; [done|lia].
Qed.

(** ** Operator tokens *)

Lemma pg_vrefined_CreateOperatorToken org name k h : pg_vrefined (VCreateOperatorToken org name k h).
Proof.
  intros l v s Hok Hv (Ho & Hk). destruct (pg_org _ _ _ Hok Ho) as [Hco Hho]. pose proof Hv as [].
  cbn [pg_vexec]. unfold PgSecrets.CreateOperatorToken. cbn [pbind].
  erewrite run_atomic'.
  2: { apply exec_ok. stmt; [reflexivity|]. rewrite Hho. apply fresh_true.
       rewrite pw_tokens0, lookup_fmap in Hk. by destruct (db_operator_tokens (pg_db s) !! k). }
  cbn [run fst snd]. eexists. split; [by apply vspec_token|]. split; cbn; try done.
  - intros n Hn. apply pw_fresh0. lia.
  - by rewrite pw_tokens0, fmap_insert.
  - intros k' t Ht. apply lookup_insert_Some in Ht as [[_ <-]|[_ Ht]]; [done|by eapply pw_live0].
Qed.

Lemma pg_vrefined_GetOperatorToken k : pg_vrefined (VGetOperatorToken k).
Proof.
  intros l v s Hok Hv _. exists v. cbn [pg_vexec]. unfold PgSecrets.GetOperatorToken. cbn [pbind].
  erewrite run_atomic'; [|apply query_row_ok; stmt; reflexivity]. cbn [run fst snd].
  split; [|by apply (pg_vault_tick v s)].
  pose proof (vspec_get_token v k) as Hs. rewrite (pw_tokens _ _ Hv), lookup_fmap in Hs.
  destruct (db_operator_tokens (pg_db s) !! k) as [t|] eqn:Et; [|exact Hs].
  cbn [mbind option_bind]. by rewrite bool_decide_eq_true_2 by exact (pw_live _ _ Hv _ _ Et).
Qed.

Lemma pg_vrefined_TouchOperatorToken k : pg_vrefined (VTouchOperatorToken k).
Proof.
  intros l v s Hok Hv _. pose proof Hv as []. exists v. cbn [pg_vexec]. unfold PgSecrets.TouchOperatorToken. cbn [pbind].
  erewrite run_atomic'; [|apply exec_ok; stmt; reflexivity]. cbn [run fst snd]. split; [apply vspec_touch_token|].
  split; try done.
  - intros n Hn. apply pw_fresh0. cbn in Hn. lia.
  - rewrite pw_tokens0. symmetry. by apply fmap_alter_same.
  - intros k' t Ht. change (alter (fun c => c <| op_last_used_at := Some (db_now (pg_tick s)) |>) k (db_operator_tokens (pg_db s)) !! k' = Some t) in Ht.
    apply lookup_alter_Some in Ht as [(<- & x & Hx & ->)|[_ Ht]]; [exact (pw_live0 _ _ Hx)|exact (pw_live0 _ _ Ht)].
Qed.

(** ** Sealed secrets *)

Lemma pg_vrefined_SetIntegrationCredential org name secret : pg_vrefined (VSetIntegrationCredential org name secret).
Proof.
  intros l v s Hok Hv Ho. destruct (pg_org _ _ _ Hok Ho) as [Hco Hho]. pose proof Hv as [].
  cbn [pg_vexec]. unfold PgSecrets.SetIntegrationCredential. destruct (String.eqb_spec secret "") as [->|Hs]; cbn [pbind].
  { exists v. split; [apply vspec_set_empty|done]. }
  erewrite run_atomic'; [|reflexivity].
  erewrite run_atomic'; [|apply exec_ok; unfold upsert_credential; stmt; [reflexivity|exact Hho]].
  cbn [run fst snd]. eexists. split; [by apply vspec_set|]. split; cbn; try done.
  - intros n Hn. apply pw_fresh0. lia.
  - apply related_insert; [done|]. exact (opened_sealed _ (pg_tick s) secret pw_honest0).
Qed.

Lemma pg_vrefined_GetIntegrationCredential org name : pg_vrefined (VGetIntegrationCredential org name).
Proof.
  intros l v s Hok Hv Hc. cbn in Hc. exists v. cbn [pg_vexec]. unfold PgSecrets.GetIntegrationCredential. cbn [pbind].
  erewrite run_atomic'; [|apply query_row_ok; stmt; reflexivity].
  pose proof (vspec_secret v org name) as Hs. pose proof (pw_secrets _ _ Hv (org, name)) as Hx.
  pose proof (pg_vault_tick _ _ Hv) as Ht.
  destruct (va_secrets v !! (org, name)) as [x|], (db_integration_credentials (pg_db s) !! (org, name)) as [t|]; try done.
  cbn [pbind run]. change (open_ t (s <| pg_tick ::= S |> <| pg_db := pg_db s |>))
    with (opened (pg_keys s) t, s <| pg_tick ::= S |> <| pg_db := pg_db s |>).
  rewrite Hx. done.
Qed.

(** ** Lists *)

Lemma related_entries {A B C} (R : string * string -> A -> B -> Prop) (f : A -> C) (g : B -> C) m n :
  related R m n -> (forall k a b, R k a b -> f a = g b) ->
  prod_map id f <$> map_to_list m ≡ₚ prod_map id g <$> map_to_list n.
Proof.
  intros Hr Hf. rewrite <- !map_to_list_fmap. f_equiv. apply map_eq. intros k. rewrite !lookup_fmap. specialize (Hr k).
  destruct (m !! k), (n !! k); try done. cbn. f_equal. by eapply Hf.
Qed.

(** What an organization has, through a function of the entries. *)
Definition own_list {A C} (org : string) (f : string -> A -> C) (l : list (string * string * A)) : list C :=
  omap (fun '(o, n, x) => if String.eqb o org then Some (f n x) else None) l.

Lemma own_list_map {A B C} org (f : string -> B -> C) (g : A -> B) l :
  own_list org f (prod_map id g <$> l) = own_list org (fun n x => f n (g x)) l.
Proof.
  unfold own_list. induction l as [|[[o n] x] l IH]; [done|]. rewrite fmap_cons. cbn.
  destruct (String.eqb o org); cbn; by rewrite IH.
Qed.

Lemma own_list_entries {A C} org (f : string * A -> C) m :
  f <$> org_entries org m = own_list org (fun n x => f (n, x)) (map_to_list m).
Proof.
  unfold org_entries, own_list. induction (map_to_list m) as [|[[o n] x] l IH]; [done|]. cbn.
  destruct (String.eqb o org); cbn; [|done]. by rewrite <- IH.
Qed.

Lemma own_list_perm {A C} org (f : string -> A -> C) l l' : l ≡ₚ l' -> own_list org f l ≡ₚ own_list org f l'.
Proof. intros H. unfold own_list. by rewrite H. Qed.

Lemma pg_vrefined_ListIntegrationCredentials org : pg_vrefined (VListIntegrationCredentials org).
Proof.
  intros l v s Hok Hv Hc. cbn in Hc. exists v. cbn [pg_vexec]. unfold PgSecrets.ListIntegrationCredentials. cbn [pbind].
  erewrite run_atomic'; [|apply query_ok; stmt; reflexivity]. cbn [run fst snd default from_option Datatypes.id].
  split; [|by apply (pg_vault_tick v s)]. apply vspec_names. rewrite order_perm, own_list_entries.
  pose proof (related_entries _ (fun _ => tt) (fun _ => tt) _ _ (pw_secrets _ _ Hv) (fun _ _ _ _ => eq_refl)) as H.
  apply (own_list_perm org (fun n _ => n)) in H. rewrite !own_list_map in H. by rewrite H.
Qed.

(** ** MCP servers *)

Lemma scan_stored id created srv token n p :
  honest p -> plain_server srv ->
  row_holds p (ms_OrgID srv, ms_Name srv) (stored_server srv token)
    (MkMcpRow id (ms_OrgID srv) (ms_Name srv) (ms_URL srv) (sealed_text p n token) (ms_Tools srv) (ms_Classes srv) created).
Proof.
  intros Hp [Ht Hc]. split; [done|]. split; [|by apply opened_sealed]. destruct srv. unfold stored_server, scanMCPServer, server_view. cbn.
  by rewrite (sealed_empty p n token Hp), (trip_tools_plain _ Ht), (trip_classes_plain _ Hc).
Qed.

Lemma pg_vrefined_UpsertMCPServer srv token : pg_vrefined (VUpsertMCPServer srv token).
Proof.
  intros l v s Hok Hv (Ho & Hid & Hplain). destruct (pg_org _ _ _ Hok Ho) as [Hco Hho]. pose proof Hv as [].
  cbn [pg_vexec]. unfold PgSecrets.UpsertMCPServer. cbn [pbind].
  erewrite run_atomic'; [|reflexivity].
  set (row := fun x => MkMcpRow (fst x) (ms_OrgID srv) (ms_Name srv) (ms_URL srv) (sealed_text (pg_keys s) (pg_tick s) token)
    (ms_Tools srv) (ms_Classes srv) (snd x)).
  assert (Hq : exists x db, upsert_mcp srv (sealed_text (pg_keys s) (pg_tick s) token) (S (pg_tick s)) (pg_db s) = Some (Some x, db) /\
    db = (pg_db s) <| db_mcp_servers ::= <[ (ms_OrgID srv, ms_Name srv) := row x ]> |>).
  { unfold upsert_mcp. stmt; [|exact Hho].
    destruct (db_mcp_servers (pg_db s) !! (ms_OrgID srv, ms_Name srv)) as [r|]; stmt;
      [exists (mr_server_id r, mr_created_at r)|exists (gen_random_uuid (S (pg_tick s)), db_now (S (pg_tick s)))]; by eexists. }
  destruct Hq as ([id created] & db & Hq & ->).
  erewrite run_atomic'; [|apply query_row_ok; exact Hq].
  exists (v <| va_servers ::= <[ (ms_OrgID srv, ms_Name srv) := stored_server srv token ]> |>). split; cycle 1.
  - cbn [run fst snd]. split; cbn; try done.
    + intros n Hn. apply pw_fresh0. lia.
    + apply (related_insert _ _ _ _ (stored_server srv token)); [done|]. by apply scan_stored.
  - cbn [run fst snd].
    assert (Hs : forall id t b, server_view (srv <| ms_ID := id |> <| ms_HasToken := b |> <| ms_CreatedAt := t |>) =
      (server_view srv) <| ms_HasToken := b |>) by by destruct srv.
    assert (Hs' : forall id b, server_view (srv <| ms_ID := id |> <| ms_HasToken := b |>) =
      (server_view srv) <| ms_HasToken := b |>) by by destruct srv.
    destruct (parse_text_time created); rewrite ?Hs, ?Hs'; apply vspec_upsert.
Qed.

Lemma pg_vrefined_GetMCPServer org name : pg_vrefined (VGetMCPServer org name).
Proof.
  intros l v s Hok Hv Hc. cbn in Hc. exists v. cbn [pg_vexec]. unfold PgSecrets.GetMCPServer. cbn [pbind].
  erewrite run_atomic'; [|apply query_row_ok; stmt; reflexivity].
  pose proof (vspec_server v org name) as Hs. pose proof (pw_servers _ _ Hv (org, name)) as Hx.
  pose proof (pg_vault_tick _ _ Hv) as Ht.
  destruct (va_servers v !! (org, name)) as [[x tok]|], (db_mcp_servers (pg_db s) !! (org, name)) as [row|]; try done.
  destruct Hx as (_ & Hx & Hopen). cbn in Hx, Hopen. cbn [pbind run scanMCPServer].
  change (open_ (mr_auth_token row) (s <| pg_tick ::= S |> <| pg_db := pg_db s |>))
    with (opened (pg_keys s) (mr_auth_token row), s <| pg_tick ::= S |> <| pg_db := pg_db s |>).
  rewrite Hopen. subst x. exact (conj Hs Ht).
Qed.

Lemma rows_of {C} org (g : McpRow -> C) l :
  (forall k row, (k, row) ∈ l -> mr_org_id row = k.1) ->
  g <$> List.filter (fun r => String.eqb (mr_org_id r) org) l.*2 = own_list org (fun _ x => g x) l.
Proof.
  unfold own_list. induction l as [|[[o n] row] l IH]; intros Hl; [done|].
  pose proof (Hl (o, n) row (list_elem_of_here _ _)) as Hr. cbn in Hr. rewrite fmap_cons. cbn. rewrite Hr.
  specialize (IH (fun k r H => Hl k r (list_elem_of_further _ _ _ H))).
  destruct (String.eqb o org); cbn; [f_equal|]; exact IH.
Qed.

Lemma pg_vrefined_ListMCPServers org : pg_vrefined (VListMCPServers org).
Proof.
  intros l v s Hok Hv Hc. cbn in Hc. exists v. cbn [pg_vexec]. unfold PgSecrets.ListMCPServers. cbn [pbind].
  erewrite run_atomic'; [|apply query_ok; stmt; reflexivity]. cbn [run fst snd default from_option Datatypes.id].
  split; [|by apply (pg_vault_tick v s)]. apply vspec_servers. rewrite order_perm.
  rewrite <- !list_fmap_compose. unfold rows. rewrite rows_of.
  2: { intros k row Hin. apply elem_of_map_to_list in Hin. pose proof (pw_servers _ _ Hv k) as Hx. rewrite Hin in Hx.
       destruct (va_servers v !! k); [|done]. by destruct Hx as (<- & _). }
  rewrite own_list_entries.
  pose proof (related_entries _ (listed_view ∘ fst) (listed_view ∘ fst ∘ scanMCPServer false) _ _ (pw_servers _ _ Hv)) as H.
  apply (own_list_perm org (fun _ x => x)) in H; [by rewrite !own_list_map in H|].
  intros k [x tok] row (_ & E & _). cbn in *. by rewrite E.
Qed.

Lemma pg_vrefines op : pg_vrefined op.
Proof.
  destruct op.
  - apply pg_vrefined_StoreCredential.
  - apply pg_vrefined_GetCredential.
  - apply pg_vrefined_RevokeCredential.
  - apply pg_vrefined_TouchCredential.
  - apply pg_vrefined_CreateOperatorToken.
  - apply pg_vrefined_GetOperatorToken.
  - apply pg_vrefined_TouchOperatorToken.
  - apply pg_vrefined_SetIntegrationCredential.
  - apply pg_vrefined_GetIntegrationCredential.
  - apply pg_vrefined_ListIntegrationCredentials.
  - apply pg_vrefined_UpsertMCPServer.
  - apply pg_vrefined_GetMCPServer.
  - apply pg_vrefined_ListMCPServers.
Qed.

#[export] Instance postgres_vault_laws : VStoreLaws Pg.
Proof.
  split.
  - intros l v s op Hl Hv Ha. destruct (pg_vrefines op l v s Hl Hv Ha) as (v' & Hs & Hv'). exists v'.
    split; [exact Hs|]. split; [|exact Hv'].
    destruct (run_within (R := core_eq) _ s (pg_vexec_aside op)) as (C & _ & U & T). by eapply pg_ok_core.
  - intros l v s op _ Hv _. by apply pg_vault_framed.
Qed.

Lemma pg_vault_New p : honest p -> pg_vault empty_vault (new_pg p).
Proof. intros Hp. by split. Qed.

End PgVault.

(** C12: both stores keep secrets as the contract says.  With a key provider
    that opens what it sealed, any sequence of calls of the Store interface,
    each admissible when it is made (what it refers to exists, its identifiers
    are well formed, key identifiers are fresh, and what is kept as JSON, the
    tools and classes of an MCP server among it, is ASCII without NUL), on a
    new MemoryStore, or on a new PGStore over an undisturbed database (no
    statement refused from outside the constraints, no result cut off), is
    a run of the vault: a revoked credential is never read again and is
    revoked once, and a credential, an operator token, an integration secret
    and an MCP server with its token are read as they were last written,
    whatever the calls in between do to the rest of the store. *)
Theorem stores_keep_secrets `{RL : RuntimeLaws} `{PE : PgEnv} `{PL : !PgLaws} `{PJ : !PgJsonLaws} `{PI : !PlainIds} p cs :
  honest p ->
  (forall tools, vcallable (VS := memory_vault) cs (keyed_new p tools) ->
     exists v, vrun empty_vault (exec_calls (VS := memory_vault) cs (keyed_new p tools)).1 v /\
       mem_vault v (exec_calls (VS := memory_vault) cs (keyed_new p tools)).2 /\
       vault_honoured (exec_calls (VS := memory_vault) cs (keyed_new p tools)).1) /\
  (Undisturbed -> vcallable (VS := postgres_vault) cs (new_pg p) ->
     exists v, vrun empty_vault (exec_calls (VS := postgres_vault) cs (new_pg p)).1 v /\
       pg_vault v (exec_calls (VS := postgres_vault) cs (new_pg p)).2 /\
       vault_honoured (exec_calls (VS := postgres_vault) cs (new_pg p)).1).
Proof.
  intros Hp. split.
  - intros tools Hc. assert (Hl : mem_ok empty_ledger (keyed_new p tools)).
    { eapply mem_ok_frame; [..|apply (mem_ok_New tools)]; done. }
    exact (vault_contract (VS := memory_vault) cs _ _ _ Hl (mem_vault_New p tools Hp) Hc).
  - intros UD Hc. exact (vault_contract (VS := postgres_vault) cs _ _ _ (pg_ok_new p) (pg_vault_New p Hp) Hc).
Qed.
