(* ===== verification/Auth.v ===== *)
(** * Auth: bearer credentials and rate limiting (internal/auth/auth.go)

    bcrypt and the system's random source are parameters ([Secrets]). *)

From Stdlib Require Import Ascii.
From S2P Require Export StoreSecrets.

Open Scope Z_scope.

Class Secrets := {
  (** [bcrypt.CompareHashAndPassword(hash, secret) == nil] *)
  bcrypt_ok : string -> string -> bool;
  (** [bcrypt.GenerateFromPassword], salted by the draw *)
  bcrypt_hash : nat -> string -> option string;
  (** [n] random bytes in hexadecimal; [None] is an error of the source *)
  rand_hex : nat -> nat -> option string
}.

Record Identity := MkIdentity {
  id_OrgID : string;
  id_AgentID : string;
  id_Operator : bool;
  id_Name : string;
  id_KeyID : string }.

(** The parts of an HTTP request the middleware reads. *)
Record Request := MkRequest {
  rq_Path : string; rq_Authorization : string; rq_OrgHeader : string }.

(** What a rejected request gets: 401 or 429 with an error code. *)
Inductive Answer (A : Type) := Rejected (status : Z) (code : string) | Served (a : A).
Arguments Rejected {A} status code.
Arguments Served {A} a.

Section Auth.
Context `{RT : Runtime} `{SE : Secrets}.

Definition underscore : ascii := "095"%char.

Definition randHex (n : nat) : M (option string) :=
  let* t := tick in m_ret (rand_hex t n).

(** keyID, secret, hash; [prefix] is "st_" for agents, "sto_" for operators. *)
Definition new_secret (prefix : string) : M (option (string * string * string)) :=
  let* kid := randHex 6 in
  match kid with
  | None => m_ret None
  | Some kid =>
      let* r := randHex 24 in
      match r with
      | None => m_ret None
      | Some r =>
          let secret := prefix +:+ kid +:+ "_" +:+ r in
          let* t := tick in
          m_ret (h ← bcrypt_hash t secret; Some (kid, secret, h))
      end
  end.

Definition NewAgentSecret : M (option (string * string * string)) := new_secret "st_".
Definition NewOperatorSecret : M (option (string * string * string)) := new_secret "sto_".

Definition check (secret hash : string) : bool := bcrypt_ok hash secret.

(** The scan of the legacy credentials: the first agent whose hash matches. *)
Definition legacy_agent (secret : string) (hashes : list (string * string)) : option string :=
  fst <$> List.find (fun '(_, hash) => check secret hash) hashes.

Definition Authenticate (secret headerOrg : string) : prog (option Identity) :=
  if HasPrefix secret "sto_" then
    let '(kid, _, found) := Cut (TrimPrefix secret "sto_") underscore in
    if negb found then Ret None
    else
      let@ tok := GetOperatorToken kid in
      match tok with
      | Some (org, name, hash) =>
          if check secret hash then
            let@ _ := TouchOperatorToken kid in
            Ret (Some (MkIdentity org "" true name kid))
          else Ret None
      | None => Ret None
      end
  else if HasPrefix secret "st_" then
    let '(kid, _, found) := Cut (TrimPrefix secret "st_") underscore in
    if found : bool then
      let@ cred := GetCredential kid in
      match cred with
      | Some (org, agent, hash) =>
          if check secret hash then
            let@ _ := TouchCredential kid in
            Ret (Some (MkIdentity org agent false "" kid))
          else Ret None
      | None => Ret None
      end
    else if String.eqb headerOrg "" then Ret None
    else
      let@ hashes := AgentCredentialHashes headerOrg in
      let@ entries := ranging hashes in
      Ret (agent ← legacy_agent secret entries; Some (MkIdentity headerOrg agent false "" ""))
  else Ret None.

(** ** The limiter *)

Definition allow_at (now : time) (key : string) (l : Limiter) : bool * Limiter :=
  let fresh := (true, l <| lim_hits ::= <[ key := MkBucket 1 now ]> |>) in
  match lim_hits l !! key with
  | None => fresh
  | Some b =>
      if lim_window l <=? now - bk_start b then fresh
      else if lim_max l <=? bk_count b then (false, l)
      else (true, l <| lim_hits ::= <[ key := MkBucket (bk_count b + 1) (bk_start b) ]> |>)
  end.

Definition Allow (key : string) : M bool :=
  let* t := now in
  fun w => let '(ok, l) := allow_at t key (w_limiter w) in (ok, w <| w_limiter := l |>).

(** ** The middleware *)

Definition open_path (path : string) : bool :=
  String.eqb path "/health" || String.eqb path "/openapi.json".

Definition Middleware {A} (next : option Identity -> prog A) (r : Request) : prog (Answer A) :=
  let serve (id : option Identity) := let! a := next id in Ret (Served a) in
  if open_path (rq_Path r) then serve None
  else
    let h := rq_Authorization r in
    let secret := TrimPrefix h "Bearer " in
    if String.eqb h "" || String.eqb secret h then Ret (Rejected 401 "missing_credentials")
    else
      let limitKey := if Nat.ltb 32 (String.length secret) then take_string 32 secret else secret in
      let@ ok := Allow limitKey in
      if negb ok then Ret (Rejected 429 "rate_limited")
      else
        let! id := Authenticate secret (rq_OrgHeader r) in
        match id with
        | None => Ret (Rejected 401 "invalid_credentials")
        | Some id => serve (Some id)
        end.

End Auth.
