(* ===== verification/AuthSpec.v ===== *)
(** * AuthSpec: who is let in

    The credentials that authenticate ([keyed], [legacy]), what the middleware
    lets through, and the bound of the rate limiter. *)

From S2P Require Export Auth.

Open Scope Z_scope.

Section AuthSpec.
Context `{RL : RuntimeLaws} `{SE : Secrets}.

(** ** Credentials *)

(** The identity a secret with a key identifier stands for. *)
Inductive keyed (s : MemoryStore) (secret : string) : Identity -> Prop :=
  | keyed_operator kid rest org name hash used :
      secret = "sto_" +:+ kid +:+ String underscore rest -> free_of underscore kid = true ->
      st_opTokens s !! kid = Some (MkOpToken org name hash false used) ->
      check secret hash = true -> keyed s secret (MkIdentity org "" true name kid)
  | keyed_agent kid rest org agent hash used :
      secret = "st_" +:+ kid +:+ String underscore rest -> free_of underscore kid = true ->
      st_credByKey s !! kid = Some (MkCredRef org agent hash false used) ->
      check secret hash = true -> keyed s secret (MkIdentity org agent false "" kid).

(** A hash recorded for an agent of an organization. *)
Definition recorded_hash (s : MemoryStore) (org agent hash : string) : Prop :=
  (exists a, st_agents s !! agent = Some a /\ ag_OrgID a = org /\
     st_credentials s !! agent = Some hash) \/
  (exists k used, st_credByKey s !! k = Some (MkCredRef org agent hash false used)).

(** The identity of a secret without a key identifier: the organization is the
    one the request names. *)
Inductive legacy (s : MemoryStore) (secret org : string) : Identity -> Prop :=
  | legacy_hash agent rest hash :
      secret = "st_" +:+ rest -> free_of underscore rest = true -> org <> "" ->
      recorded_hash s org agent hash -> check secret hash = true ->
      legacy s secret org (MkIdentity org agent false "" "").

Lemma legacy_hashes_spec org s agents agent hash :
  (forall id a, (id, a) ∈ agents -> st_agents s !! id = Some a) ->
  legacy_hashes org s agents !! agent = Some hash -> recorded_hash s org agent hash.
Proof.
  unfold legacy_hashes. intros Hin.
  assert (Hout : forall h, (∅ : gmap string string) !! agent = Some h -> recorded_hash s org agent h)
    by (intros h; by rewrite lookup_empty).
  revert Hout. generalize (∅ : gmap string string).
  induction agents as [|[id a] agents IH]; intros out Hout; cbn; [apply Hout|].
  apply IH; [intros; apply Hin; by right|]. intros h.
  destruct (String.eqb _ _) eqn:Eo; [|apply Hout]. bool_guards.
  destruct (st_credentials s !! id) as [c|] eqn:Ec; [|apply Hout].
  destruct (decide (id = agent)) as [->|Hne]; [|rewrite lookup_insert_ne by done; apply Hout].
  rewrite lookup_insert_eq. intros Heq. injection Heq as <-. left. exists a.
  split; [apply Hin; by left|done].
Qed.

Lemma keyed_hashes_spec org s out creds agent hash :
  (forall k c, (k, c) ∈ creds -> st_credByKey s !! k = Some c) ->
  (forall h, out !! agent = Some h -> recorded_hash s org agent h) ->
  keyed_hashes org out creds !! agent = Some hash -> recorded_hash s org agent hash.
Proof.
  unfold keyed_hashes. revert out. induction creds as [|[k c] creds IH]; intros out Hin Hout; cbn.
  { apply Hout. }
  apply IH; [intros; apply Hin; by right|]. intros h.
  destruct (String.eqb _ _) eqn:Eo; cbn [negb]; [|apply Hout]. bool_guards.
  destruct (cr_revoked c) eqn:Er.
  { intros Hd. apply lookup_delete_Some in Hd as [_ Hd]. by apply Hout. }
  destruct (decide (cr_agentID c = agent)) as [<-|Hne].
  2: { rewrite lookup_insert_ne by done. apply Hout. }
  rewrite lookup_insert_eq. intros Heq. injection Heq as <-. right. exists k, (cr_lastUsed c).
  rewrite (Hin k c) by by left. destruct c; cbn in *. by subst.
Qed.

Lemma AgentCredentialHashes_spec org w agent hash :
  fst (AgentCredentialHashes org w) !! agent = Some hash ->
  recorded_hash (w_store w) org agent hash.
Proof.
  cbn. apply keyed_hashes_spec; [intros k c; apply range_map_elem|].
  intros h. apply legacy_hashes_spec. intros id a. apply range_map_elem.
Qed.

(** The store without the last-used stamps of the credentials. *)
Definition unstamped (s : MemoryStore) : MemoryStore :=
  s <| st_credByKey ::= fmap (fun c => c <| cr_lastUsed := zero_time |>) |>
    <| st_opTokens ::= fmap (fun c => c <| ot_lastUsed := zero_time |>) |>.

(** Only stamps, the limiter and the clock moved. *)
Definition only_stamps (w w' : World) : Prop :=
  unstamped (w_store w') = unstamped (w_store w) /\ w_tools w' = w_tools w /\
  w_signer w' = w_signer w /\ w_uid w' = w_uid w /\ w_calls w' = w_calls w.

Lemma unstamped_cred s m :
  (fun c : credRef => c <| cr_lastUsed := zero_time |>) <$> m =
    (fun c => c <| cr_lastUsed := zero_time |>) <$> st_credByKey s ->
  unstamped (s <| st_credByKey := m |>) = unstamped s.
Proof. intros Heq. exact (f_equal (fun m' => s <| st_credByKey := m' |>
  <| st_opTokens ::= fmap (fun c => c <| ot_lastUsed := zero_time |>) |>) Heq). Qed.

Lemma unstamped_token s m :
  (fun c : opToken => c <| ot_lastUsed := zero_time |>) <$> m =
    (fun c => c <| ot_lastUsed := zero_time |>) <$> st_opTokens s ->
  unstamped (s <| st_opTokens := m |>) = unstamped s.
Proof. intros Heq. exact (f_equal (fun m' => s <| st_opTokens := m' |>
  <| st_credByKey ::= fmap (fun c => c <| cr_lastUsed := zero_time |>) |>) Heq). Qed.

Lemma TouchCredential_stamps kid w : only_stamps w (snd (TouchCredential kid w)).
Proof.
  unfold TouchCredential, m_bind, get_store.
  destruct (st_credByKey (w_store w) !! kid) as [c|] eqn:Ec; [|done].
  split; [|done]. by apply unstamped_cred, (fmap_insert_same _ _ _ _ _ Ec).
Qed.

Lemma TouchOperatorToken_stamps kid w : only_stamps w (snd (TouchOperatorToken kid w)).
Proof.
  unfold TouchOperatorToken, m_bind, get_store.
  destruct (st_opTokens (w_store w) !! kid) as [c|] eqn:Ec; [|done].
  split; [|done]. by apply unstamped_token, (fmap_insert_same _ _ _ _ _ Ec).
Qed.

Lemma only_stamps_trans w1 w2 w3 :
  only_stamps w1 w2 -> only_stamps w2 w3 -> only_stamps w1 w3.
Proof. unfold only_stamps. intros (? & ? & ? & ? & ?) (? & ? & ? & ? & ?). repeat split; congruence. Qed.

(** The caller is known under [r], and only stamps moved. *)
Definition admitted (secret header : string) (w : World) (res : option Identity * World) : Prop :=
  (forall id, fst res = Some id ->
     keyed (w_store w) secret id \/ legacy (w_store w) secret header id) /\
  only_stamps w (snd res).

Lemma refused_admitted secret header w : admitted secret header w (None, w).
Proof. by split. Qed.

Lemma operator_admitted header kid rest w :
  free_of underscore kid = true ->
  let secret := "sto_" +:+ kid +:+ String underscore rest in
  admitted secret header w
    (run (let@ tok := GetOperatorToken kid in
          match tok with
          | Some (org, name, hash) =>
              if check secret hash then
                let@ _ := TouchOperatorToken kid in
                Ret (Some (MkIdentity org "" true name kid))
              else Ret None
          | None => Ret None
          end) w).
Proof.
  intros Hf secret. cbn [run]. unfold GetOperatorToken, m_bind, get_store, m_ret.
  destruct (st_opTokens (w_store w) !! kid) as [[org name hash rev used]|] eqn:Et;
    [|apply refused_admitted].
  destruct rev; cbn; [apply refused_admitted|].
  destruct (check secret hash) eqn:Eh; [|apply refused_admitted]. cbn [run].
  pose proof (TouchOperatorToken_stamps kid w) as Hs.
  destruct (TouchOperatorToken kid w) as [u w1]. split; [|exact Hs].
  intros id Hid. injection Hid as <-. left. by eapply keyed_operator.
Qed.

Lemma agent_admitted header kid rest w :
  free_of underscore kid = true ->
  let secret := "st_" +:+ kid +:+ String underscore rest in
  admitted secret header w
    (run (let@ cred := GetCredential kid in
          match cred with
          | Some (org, agent, hash) =>
              if check secret hash then
                let@ _ := TouchCredential kid in
                Ret (Some (MkIdentity org agent false "" kid))
              else Ret None
          | None => Ret None
          end) w).
Proof.
  intros Hf secret. cbn [run]. unfold GetCredential, m_bind, get_store, m_ret.
  destruct (st_credByKey (w_store w) !! kid) as [[org agent hash rev used]|] eqn:Et;
    [|apply refused_admitted].
  destruct rev; cbn; [apply refused_admitted|].
  destruct (check secret hash) eqn:Eh; [|apply refused_admitted]. cbn [run].
  pose proof (TouchCredential_stamps kid w) as Hs.
  destruct (TouchCredential kid w) as [u w1]. split; [|exact Hs].
  intros id Hid. injection Hid as <-. left. by eapply keyed_agent.
Qed.

Lemma legacy_admitted header rest w :
  free_of underscore rest = true -> header <> "" ->
  let secret := "st_" +:+ rest in
  admitted secret header w
    (run (let@ hashes := AgentCredentialHashes header in
          let@ entries := ranging hashes in
          Ret (agent ← legacy_agent secret entries; Some (MkIdentity header agent false "" ""))) w).
Proof.
  intros Hf Hh secret. pose proof (AgentCredentialHashes_spec header w) as Hs.
  cbn [run]. destruct (AgentCredentialHashes header w) as [hashes w1] eqn:Eh. cbn in Hs |- *.
  assert (Hw : only_stamps w w1) by (unfold AgentCredentialHashes in Eh; by injection Eh as _ <-).
  split; [|exact Hw]. intros id Hid. cbn [fst] in Hid. unfold legacy_agent in Hid.
  destruct (List.find _ _) as [[agent hash]|] eqn:Ef; [|done]. apply find_some in Ef as [Hin Hc].
  injection Hid as <-. right. apply list_elem_of_In, range_map_elem in Hin.
  by apply (legacy_hash _ _ _ agent rest hash); auto.
Qed.

Lemma Authenticate_admits secret header w :
  admitted secret header w (run (Authenticate secret header) w).
Proof.
  unfold Authenticate.
  destruct (HasPrefix secret "sto_") eqn:E1; [|destruct (HasPrefix secret "st_") eqn:E2];
    [| |apply refused_admitted].
  - apply HasPrefix_inv in E1 as [s ->]. rewrite TrimPrefix_app.
    pose proof (Cut_spec s underscore) as Hc.
    destruct (Cut s underscore) as [[kid rest] []]; [|apply refused_admitted].
    destruct Hc as [-> Hf]. by apply operator_admitted.
  - apply HasPrefix_inv in E2 as [s ->]. rewrite TrimPrefix_app.
    pose proof (Cut_spec s underscore) as Hc.
    destruct (Cut s underscore) as [[kid rest] []].
    + destruct Hc as [-> Hf]. by apply agent_admitted.
    + destruct (String.eqb header "") eqn:Eh; [apply refused_admitted|]. bool_guards.
      by apply legacy_admitted.
Qed.

Lemma keyed_admitted secret header w id :
  keyed (w_store w) secret id -> fst (run (Authenticate secret header) w) = Some id.
Proof.
  intros [kid rest org name hash used -> Hf Ht Hh|kid rest org agent hash used -> Hf Ht Hh];
    unfold Authenticate.
  - rewrite HasPrefix_app, TrimPrefix_app, Cut_app by done. cbn [negb run].
    unfold GetOperatorToken, m_bind, get_store, m_ret. rewrite Ht. cbn. rewrite Hh. cbn [run].
    by destruct (TouchOperatorToken kid w).
  - assert (HasPrefix ("st_" +:+ kid +:+ String underscore rest) "sto_" = false) as -> by done.
    rewrite HasPrefix_app, TrimPrefix_app, Cut_app by done. cbn [run].
    unfold GetCredential, m_bind, get_store, m_ret. rewrite Ht. cbn. rewrite Hh. cbn [run].
    by destruct (TouchCredential kid w).
Qed.

(** C26: authentication is exact.  A caller is admitted only as the owner of a
    live operator token or agent credential whose key the secret names and
    whose hash it matches, or, for a secret without a key, as an agent of the
    organization in the header with a recorded hash it matches; keyed secrets
    are always admitted, whatever the header says; and nothing but last-used
    stamps changes. *)
Theorem Authenticate_exact secret header w :
  let '(r, w') := run (Authenticate secret header) w in
  (forall id, r = Some id -> keyed (w_store w) secret id \/ legacy (w_store w) secret header id) /\
  (forall id, keyed (w_store w) secret id -> r = Some id) /\ only_stamps w w'.
Proof.
  pose proof (Authenticate_admits secret header w) as Ha.
  assert (Hk := fun id => keyed_admitted secret header w id).
  destruct (run (Authenticate secret header) w) as [r w']. destruct Ha as [Ha Hs].
  split; [exact Ha|]. split; [exact Hk|exact Hs].
Qed.

(** ** The middleware *)

(** C27: the gate.  Outside the two open paths a handler runs only for a caller
    that presents a bearer secret and is authenticated, and it runs with
    exactly that identity, in a world that differs from the one before by the
    limiter and last-used stamps; a rejected request changes nothing else and
    is answered 401 or 429. *)
Theorem Middleware_gate {A} (next : option Identity -> prog A) r w :
  open_path (rq_Path r) = false ->
  let '(ans, w') := run (Middleware next r) w in
  match ans with
  | Served a => exists secret id w1, rq_Authorization r = "Bearer " +:+ secret /\
      (keyed (w_store w) secret id \/ legacy (w_store w) secret (rq_OrgHeader r) id) /\
      only_stamps w w1 /\ run (next (Some id)) w1 = (a, w')
  | Rejected status code => only_stamps w w' /\
      (status = 401 /\ (code = "missing_credentials" \/ code = "invalid_credentials") \/
       status = 429 /\ code = "rate_limited")
  end.
Proof.
  intros Ho. unfold Middleware. rewrite Ho. cbv zeta.
  set (secret := TrimPrefix _ _).
  destruct (_ || _) eqn:Eb; [cbn [run]; split; [done|left; auto]|]. bool_guards.
  assert (Hs : rq_Authorization r = "Bearer " +:+ secret) by by apply TrimPrefix_changed.
  cbn [run]. set (key := if Nat.ltb _ _ then _ else _).
  destruct (Allow key w) as [ok w1] eqn:Ea.
  assert (H1 : w_store w1 = w_store w /\ w_tools w1 = w_tools w /\ w_signer w1 = w_signer w /\
    w_uid w1 = w_uid w /\ w_calls w1 = w_calls w).
  { unfold Allow, m_bind, now in Ea. destruct (allow_at _ _ _) in Ea. by injection Ea as _ <-. }
  destruct H1 as (S1 & T1 & G1 & U1 & C1).
  assert (Hw1 : only_stamps w w1) by (split; [by rewrite S1|done]).
  destruct ok; cbn [negb]; [|cbn [run]; split; [exact Hw1|right; auto]].
  rewrite run_pbind. pose proof (Authenticate_admits secret (rq_OrgHeader r) w1) as Ha.
  destruct (run (Authenticate _ _) w1) as [[id|] w2]; destruct Ha as [Ha Hs2]; cbn [fst snd] in *.
  2: { cbn [run]. split; [|left; auto]. by eapply only_stamps_trans. }
  rewrite run_pbind. destruct (run (next (Some id)) w2) as [a w3] eqn:En. cbn [run].
  exists secret, id, w2. split; [exact Hs|]. rewrite <- S1.
  split; [by apply Ha|]. split; [by eapply only_stamps_trans|exact En].
Qed.

(** ** The limiter *)

(** How many requests of [key] the limiter lets through in [s, s + window)
    when it gets the given requests (key and time) in order. *)
Fixpoint passed (key : string) (s : time) (reqs : list (string * time)) (l : Limiter) : Z :=
  match reqs with
  | [] => 0
  | (k, t) :: reqs =>
      let '(ok, l') := allow_at t k l in
      (if ok && String.eqb k key && (s <=? t) && (t <? s + lim_window l) then 1 else 0) +
      passed key s reqs l'
  end.

(** A bucket that was opened no later than any request to come. *)
Definition bucket_ok (mx : Z) (reqs : list (string * time)) (b : bucket) : Prop :=
  1 <= bk_count b <= mx /\ Forall (fun r => bk_start b <= r.2) reqs.

Definition limiter_ok (mx window : Z) (key : string) (reqs : list (string * time)) (l : Limiter) : Prop :=
  lim_max l = mx /\ lim_window l = window /\
  forall b, lim_hits l !! key = Some b -> bucket_ok mx reqs b.

(** How many more requests can pass, once all are at [s] or later. *)
Definition room (mx window s : Z) (b : option bucket) : Z :=
  match b with
  | None => mx
  | Some b =>
      if s <=? bk_start b then (if bk_start b <? s + window then mx - bk_count b else 0)
      else 2 * mx - bk_count b
  end.

Lemma allow_at_other t k key l :
  k <> key -> lim_hits (snd (allow_at t k l)) !! key = lim_hits l !! key.
Proof.
  intros Hne. unfold allow_at.
  destruct (lim_hits l !! k) as [b|]; cbn; [|by rewrite lookup_insert_ne].
  destruct (_ <=? _); [cbn; by rewrite lookup_insert_ne|].
  destruct (_ <=? _); cbn; [done|by rewrite lookup_insert_ne].
Qed.

Lemma allow_at_params t k l :
  lim_max (snd (allow_at t k l)) = lim_max l /\ lim_window (snd (allow_at t k l)) = lim_window l.
Proof.
  unfold allow_at. destruct (lim_hits l !! k) as [b|]; [|done].
  destruct (_ <=? _); [done|]. by destruct (_ <=? _).
Qed.

(** One request of [key] itself: what it does to its bucket. *)
Lemma allow_at_same t key l :
  let '(ok, l') := allow_at t key l in
  (ok = true /\ lim_hits l' !! key = Some (MkBucket 1 t) /\
    match lim_hits l !! key with Some b => bk_start b + lim_window l <= t | None => True end) \/
  (exists b, lim_hits l !! key = Some b /\ t < bk_start b + lim_window l /\
    (ok = false /\ lim_hits l' !! key = Some b /\ lim_max l <= bk_count b \/
     ok = true /\ lim_hits l' !! key = Some (MkBucket (bk_count b + 1) (bk_start b)) /\
       bk_count b < lim_max l)).
Proof.
  unfold allow_at. destruct (lim_hits l !! key) as [b|] eqn:Eb; cbv beta iota zeta.
  2: { left. split; [done|]. split; [|done]. cbn. by rewrite lookup_insert_eq. }
  destruct (Z.leb_spec (lim_window l) (t - bk_start b)); cbv beta iota.
  { left. split; [done|]. cbn. rewrite lookup_insert_eq. split; [done|lia]. }
  destruct (Z.leb_spec (lim_max l) (bk_count b)); cbv beta iota;
    (right; exists b; split; [done|]; split; [lia|]).
  - left. by rewrite Eb.
  - right. cbn. by rewrite lookup_insert_eq.
Qed.

Lemma limiter_ok_step mx window key k t reqs l :
  1 <= mx -> StronglySorted (fun p q : string * time => p.2 <= q.2) ((k, t) :: reqs) ->
  limiter_ok mx window key ((k, t) :: reqs) l ->
  limiter_ok mx window key reqs (snd (allow_at t k l)).
Proof.
  intros Hmx Hs (Hm & Hw & Hb). pose proof (allow_at_params t k l) as [Hm' Hw'].
  split; [congruence|]. split; [congruence|]. inversion Hs as [|? ? Hs' Hall]; subst.
  destruct (decide (k = key)) as [->|Hne].
  2: { rewrite allow_at_other by done. intros b Hk. destruct (Hb b Hk) as [Hc Hf].
       split; [done|]. by inversion Hf. }
  pose proof (allow_at_same t key l) as Hsame. destruct (allow_at t key l) as [ok l']. cbn.
  destruct Hsame as [(_ & -> & _)|(b & Hk & _ & Hcase)].
  - intros b Heq. injection Heq as <-. split; [cbn; lia|]. exact Hall.
  - destruct (Hb b Hk) as [Hc Hf]. inversion Hf; subst.
    destruct Hcase as [(_ & -> & _)|(_ & -> & Hlt)]; intros b' Heq; injection Heq as <-.
    + by split.
    + split; [cbn in *; lia|done].
Qed.

Lemma passed_room mx window key s reqs l :
  1 <= mx -> 0 < window -> StronglySorted (fun p q : string * time => p.2 <= q.2) reqs ->
  Forall (fun r => s <= r.2) reqs -> limiter_ok mx window key reqs l ->
  passed key s reqs l <= room mx window s (lim_hits l !! key).
Proof.
  intros Hmx Hwin. revert l. induction reqs as [|[k t] reqs IH]; intros l Hs Hf Hl.
  { destruct Hl as (_ & _ & Hb). destruct (lim_hits l !! key) as [b|]; cbn [passed room]; [|lia].
    destruct (Hb b eq_refl) as [? _].
    destruct (s <=? bk_start b), (bk_start b <? s + window); lia. }
  pose proof (limiter_ok_step _ _ _ _ _ _ _ Hmx Hs Hl) as Hl'.
  inversion Hs as [|? ? Hs' _]; subst. inversion Hf as [|? ? Ht Hf']; subst. cbn in Ht.
  specialize (IH (snd (allow_at t k l)) Hs' Hf' Hl'). destruct Hl as (Hm & Hw & Hb).
  cbn [passed]. rewrite Hw. destruct (decide (k = key)) as [->|Hne].
  2: { rewrite allow_at_other in IH by done. destruct (allow_at t k l) as [ok l']. cbn [snd] in IH.
       rewrite (proj2 (String.eqb_neq k key)), andb_false_r by done. cbn [andb]. lia. }
  pose proof (allow_at_same t key l) as Hsame. destruct (allow_at t key l) as [ok l'].
  cbn [snd] in IH. rewrite string_eqb_refl, andb_true_r, (proj2 (Z.leb_le s t) Ht), andb_true_r.
  destruct Hsame as [(-> & Hk' & Hexp)|(b & Hk & Hlive & Hcase)].
  - revert IH. rewrite Hk'. cbn [room bk_start bk_count].
    rewrite (proj2 (Z.leb_le s t) Ht). revert Hb Hexp. cbv iota.
    destruct (lim_hits l !! key) as [b|]; cbn [room andb]; intros Hb Hexp;
      destruct (Z.ltb_spec t (s + window)); intros IH; try lia.
    + destruct (Hb b eq_refl) as [? _]. destruct (Z.leb_spec s (bk_start b)); lia.
    + destruct (Hb b eq_refl) as [? _].
      destruct (Z.leb_spec s (bk_start b)), (Z.ltb_spec (bk_start b) (s + window)); lia.
  - rewrite Hk. destruct (Hb b Hk) as [Hc Hstart]. apply Forall_cons in Hstart as [Hbt _].
    cbn in Hbt.
    destruct Hcase as [(-> & Hk' & _)|(-> & Hk' & Hlt)]; revert IH; rewrite Hk';
      cbn [room andb bk_start bk_count]; [lia|].
    destruct (Z.leb_spec s (bk_start b)), (Z.ltb_spec (bk_start b) (s + window)),
      (Z.ltb_spec t (s + window)); lia.
Qed.

(** C39: the rate limit.  Whatever other clients do, a limiter of [mx] requests
    per window lets at most [2 * mx] requests of one credential through in any
    time span of one window. *)
Theorem limiter_bound mx window key s reqs :
  1 <= mx -> 0 < window -> StronglySorted (fun p q : string * time => p.2 <= q.2) reqs ->
  passed key s reqs (NewLimiter mx window) <= 2 * mx.
Proof.
  intros Hmx Hwin.
  assert (Hnew : limiter_ok mx window key reqs (NewLimiter mx window)).
  { split; [done|]. split; [done|]. intros b Hb. cbn in Hb. by rewrite lookup_empty in Hb. }
  revert Hnew. generalize (NewLimiter mx window). induction reqs as [|[k t] reqs IH]; intros l Hl Hs.
  { cbn [passed]. lia. }
  pose proof (limiter_ok_step _ _ _ _ _ _ _ Hmx Hs Hl) as Hl'.
  destruct (Z.leb_spec s t) as [Hst|Hst].
  - etrans; [apply (passed_room mx window)|]; auto.
    + inversion Hs as [|? ? _ Hall]; subst. constructor; [done|].
      eapply Forall_impl; [exact Hall|]. cbn. lia.
    + destruct Hl as (_ & _ & Hb). destruct (lim_hits l !! key) as [b|]; cbn [room]; [|lia].
      destruct (Hb b eq_refl) as [? _].
      destruct (s <=? bk_start b), (bk_start b <? s + window); lia.
  - inversion Hs as [|? ? Hs' _]; subst. specialize (IH _ Hl' Hs'). cbn [passed].
    destruct (allow_at t k l) as [ok l']. cbn [snd] in IH.
    rewrite (proj2 (Z.leb_gt s t)), andb_false_r by done. cbn [andb]. lia.
Qed.

End AuthSpec.
