(* ===== verification/ReceiptChain.v ===== *)
(** * ReceiptChain: what the receipt chain of the memory store guarantees

    The chain of one organization is the sublist of its receipts.  The
    invariant is that the chain verifies and ends in the hash the next append
    will link to. *)

From S2P Require Export StoreSecrets.

Open Scope Z_scope.

Section Chain.
Context `{RT : Runtime}.

(** The hash an organization's chain ends in. *)
Fixpoint chain_end (orgID : string) (rs : list Receipt) (prev : string) : string :=
  match rs with
  | [] => prev
  | r :: rs => chain_end orgID rs (if String.eqb (r_OrgID r) orgID then r_Hash r else prev)
  end.

Definition chain_ok (s : MemoryStore) : Prop := forall orgID,
  verify_loop orgID (st_receiptsList s) 0 "" = -1 /\
  default "" (st_lastHash s !! orgID) = chain_end orgID (st_receiptsList s) "".

(** What a receipt contributes to the hash. *)
Definition hashed (r : Receipt) : string := marshal (receipt_payload r).

(** The digest inputs of one organization's chain, first to last. *)
Fixpoint chain_inputs (orgID : string) (rs : list Receipt) : list string :=
  match rs with
  | [] => []
  | r :: rs =>
      if String.eqb (r_OrgID r) orgID
      then (r_PrevHash r +:+ nul +:+ hashed r) :: chain_inputs orgID rs
      else chain_inputs orgID rs
  end.

Definition chain_of (orgID : string) (rs : list Receipt) : list Receipt :=
  base.filter (fun r => r_OrgID r = orgID) rs.

(** ** The loop of VerifyChain *)

Lemma verify_loop_index orgID rs i j prev :
  0 <= i -> 0 <= j ->
  verify_loop orgID rs i prev = -1 -> verify_loop orgID rs j prev = -1.
Proof.
  revert i j prev. induction rs as [|r rs IH]; intros i j prev Hi Hj; cbn [verify_loop]; [done|].
  destruct (String.eqb (r_OrgID r) orgID); cbn [negb].
  - destruct (_ || _); [lia|]. apply IH; lia.
  - apply IH; lia.
Qed.

Lemma verify_loop_app orgID rs rs' i prev :
  0 <= i ->
  verify_loop orgID (rs ++ rs') i prev = -1 <->
  verify_loop orgID rs i prev = -1 /\
  verify_loop orgID rs' 0 (chain_end orgID rs prev) = -1.
Proof.
  revert i prev. induction rs as [|r rs IH]; intros i prev Hi; cbn [verify_loop chain_end app].
  - split; [intros H; split; [done|]|intros [_ H]]; eapply verify_loop_index; try exact H; lia.
  - destruct (String.eqb (r_OrgID r) orgID); cbn [negb].
    + destruct (_ || _); [lia|]. apply IH. lia.
    + apply IH. lia.
Qed.

Lemma chain_end_app orgID rs rs' prev :
  chain_end orgID (rs ++ rs') prev = chain_end orgID rs' (chain_end orgID rs prev).
Proof. revert prev. induction rs as [|r rs IH]; intros prev; cbn; [done|]. apply IH. Qed.

(** Fields outside the payload do not matter to the loop. *)
Definition same_chain_fields (r r' : Receipt) : Prop :=
  r_OrgID r' = r_OrgID r /\ r_PrevHash r' = r_PrevHash r /\ r_Hash r' = r_Hash r /\
  receipt_payload r' = receipt_payload r.

Lemma verify_loop_ext orgID rs rs' i prev :
  Forall2 same_chain_fields rs rs' ->
  verify_loop orgID rs' i prev = verify_loop orgID rs i prev /\
  chain_end orgID rs' prev = chain_end orgID rs prev.
Proof.
  intros Hf. revert i prev. induction Hf as [|r r' rs rs' (H1 & H2 & H3 & H4) _ IH];
    intros i prev; cbn [verify_loop chain_end]; [done|].
  rewrite H1, H2, H3, H4. destruct (String.eqb (r_OrgID r) orgID); cbn [negb].
  - split; [|apply (IH 0)]. destruct (_ || _); [done|]. apply IH.
  - split; [apply IH|apply (IH 0)].
Qed.

Lemma same_chain_fields_refl r : same_chain_fields r r.
Proof. by repeat split. Qed.

(** A chained receipt extends the chain of its organization. *)
Lemma verify_chained orgID id prev r :
  r_OrgID r = orgID -> verify_loop orgID [chained id prev r] 0 prev = -1.
Proof.
  intros Ho. cbn. rewrite Ho. by rewrite !string_eqb_refl.
Qed.

(** ** Operations preserve the invariant *)

Lemma chain_ok_New : chain_ok New.
Proof. done. Qed.

Lemma chain_ok_AppendReceipt r w :
  chain_ok (w_store w) -> chain_ok (w_store (AppendReceipt r w).2).
Proof.
  intros Hok orgID. cbn.
  set (c := chained _ _ _). assert (Hc : r_OrgID c = r_OrgID r) by done.
  destruct (Hok orgID) as [Hv He].
  rewrite verify_loop_app, chain_end_app by done. split; [split; [done|]|].
  - rewrite <- He. destruct (decide (r_OrgID r = orgID)) as [Ho|Hne].
    + subst c. rewrite Ho. by apply verify_chained.
    + cbn [verify_loop]. rewrite Hc, (proj2 (String.eqb_neq _ _) Hne). done.
  - cbn [chain_end]. rewrite Hc, lookup_insert. destruct (decide (r_OrgID r = orgID)) as [Ho|Hne].
    + by rewrite (proj2 (String.eqb_eq _ _) Ho).
    + by rewrite (proj2 (String.eqb_neq _ _) Hne).
Qed.

Lemma chain_ok_ext s s' :
  Forall2 same_chain_fields (st_receiptsList s) (st_receiptsList s') ->
  st_lastHash s' = st_lastHash s -> chain_ok s -> chain_ok s'.
Proof.
  intros Hf Hl Hok orgID. destruct (Hok orgID) as [Hv He].
  destruct (verify_loop_ext orgID _ _ 0 "" Hf) as [-> ->]. by rewrite Hl.
Qed.

Lemma chain_ok_UpdateReceipt r w :
  chain_ok (w_store w) -> chain_ok (w_store (UpdateReceipt r w).2).
Proof.
  apply chain_ok_ext; [|done]. cbn.
  induction (st_receiptsList (w_store w)) as [|c l IH]; cbn; constructor; [|done].
  unfold update_receipt_in. by destruct (_ && _).
Qed.

(** An assignment through the pointer that leaves the chain fields alone, as
    signReceipt makes it. *)
Lemma chain_ok_write_receipt ptr f w :
  (forall r, same_chain_fields r (f r)) ->
  chain_ok (w_store w) -> chain_ok (w_store (write_receipt ptr f w).2).
Proof.
  intros Hf. apply chain_ok_ext; [|done]. cbn.
  apply Forall2_same_length_lookup. split; [by rewrite length_alter|].
  intros i x y Hx Hy. rewrite list_lookup_alter in Hy.
  destruct (decide (ptr = i)) as [->|]; rewrite Hx in Hy; injection Hy as <-; [apply Hf|].
  apply same_chain_fields_refl.
Qed.

(** ** The chain binds the history *)

Lemma chain_inputs_length orgID rs :
  length (chain_inputs orgID rs) = length (chain_of orgID rs).
Proof.
  unfold chain_of. induction rs as [|r rs IH]; [done|]. cbn [chain_inputs].
  rewrite filter_cons. destruct (decide (r_OrgID r = orgID)) as [Ho|Hne].
  - rewrite (proj2 (String.eqb_eq _ _) Ho). cbn. by rewrite IH.
  - by rewrite (proj2 (String.eqb_neq _ _) Hne).
Qed.

End Chain.

#[export] Hint Resolve chain_ok_AppendReceipt chain_ok_UpdateReceipt : go_inv.
