(* ===== verification/ReceiptTamper.v ===== *)
(** * ReceiptTamper: what a verified receipt chain commits to

    Two histories of an organization that both verify and end in the same
    hash carry the same receipts, field by field for the fields the hash
    covers, unless the digests of two of their entries collide.  The fields
    the payload leaves out are not covered, nor is the end of the chain. *)

From Stdlib Require Import Ascii.
From S2P Require Export ReceiptChain.

Open Scope Z_scope.

Section Linked.
Context `{RT : Runtime}.

(** ** The chain of one organization as a list *)

Definition last_hash (prev : string) (rs : list Receipt) : string :=
  default prev (r_Hash <$> last rs).

Fixpoint linked (prev : string) (rs : list Receipt) : Prop :=
  match rs with
  | [] => True
  | r :: rs => r_PrevHash r = prev /\ r_Hash r = ChainHash prev (receipt_payload r) /\
               linked (r_Hash r) rs
  end.

Definition input (r : Receipt) : string := r_PrevHash r +:+ nul +:+ hashed r.

Lemma last_hash_cons prev r rs : last_hash prev (r :: rs) = last_hash (r_Hash r) rs.
Proof.
  destruct rs as [|r' rs]; [done|]. unfold last_hash. rewrite last_cons_cons.
  destruct (last (r' :: rs)) eqn:El; [done|]. by apply last_None in El.
Qed.

Lemma verify_linked orgID rs prev i :
  0 <= i -> verify_loop orgID rs i prev = -1 <-> linked prev (chain_of orgID rs).
Proof.
  unfold chain_of. revert prev i. induction rs as [|r rs IH]; intros prev i Hi; cbn [verify_loop]; [done|].
  rewrite filter_cons. destruct (decide (r_OrgID r = orgID)) as [Ho|Hne].
  - rewrite (proj2 (String.eqb_eq _ _) Ho). cbn [negb linked].
    destruct (String.eqb (r_PrevHash r) prev) eqn:Ep; cbn [negb orb]; bool_guards.
    + destruct (String.eqb (r_Hash r) _) eqn:Eh; cbn [negb]; bool_guards.
      * rewrite IH by lia. tauto.
      * split; [lia|]. intros (_ & ? & _). done.
    + split; [lia|]. intros (? & _). done.
  - rewrite (proj2 (String.eqb_neq _ _) Hne). cbn [negb]. apply IH. lia.
Qed.

Lemma chain_end_last orgID rs prev : chain_end orgID rs prev = last_hash prev (chain_of orgID rs).
Proof.
  unfold chain_of. revert prev. induction rs as [|r rs IH]; intros prev; cbn [chain_end]; [done|].
  rewrite filter_cons. destruct (decide (r_OrgID r = orgID)) as [Ho|Hne].
  - rewrite (proj2 (String.eqb_eq _ _) Ho), last_hash_cons. apply IH.
  - rewrite (proj2 (String.eqb_neq _ _) Hne). apply IH.
Qed.

Lemma linked_snoc prev rs r :
  linked prev (rs ++ [r]) <->
  linked prev rs /\ r_PrevHash r = last_hash prev rs /\
  r_Hash r = ChainHash (last_hash prev rs) (receipt_payload r).
Proof.
  revert prev. induction rs as [|r0 rs IH]; intros prev; cbn [app linked].
  - unfold last_hash. cbn. tauto.
  - rewrite IH, last_hash_cons. tauto.
Qed.

Lemma last_hash_snoc prev rs r : last_hash prev (rs ++ [r]) = r_Hash r.
Proof. unfold last_hash. by rewrite last_snoc. Qed.

Lemma linked_hash_no_nul rs : linked "" rs -> no_nul (last_hash "" rs) = true.
Proof.
  destruct rs as [|r rs _] using rev_ind; [done|].
  rewrite linked_snoc, last_hash_snoc. intros (_ & _ & ->). apply hex_encode_no_nul.
Qed.

End Linked.

Section Tamper.
Context `{RL : RuntimeLaws}.

Lemma ChainHash_not_empty prev v : ChainHash prev v <> "".
Proof.
  unfold ChainHash. pose proof (sha256_length (prev +:+ nul +:+ marshal v)) as Hl.
  by destruct (sha256 _).
Qed.

(** Equal ends: equal entries, or a collision between two of them. *)
Lemma linked_binds rs rs' :
  linked "" rs -> linked "" rs' -> last_hash "" rs = last_hash "" rs' ->
  input <$> rs = input <$> rs' \/
  exists r r', r ∈ rs /\ r' ∈ rs' /\ sha256_collision (input r) (input r').
Proof.
  revert rs'. induction rs as [|r rs IH] using rev_ind; intros rs' Hl Hl' He.
  - destruct rs' as [|r' rs' _] using rev_ind; [by left|].
    apply linked_snoc in Hl' as (_ & _ & Hh). rewrite last_hash_snoc, Hh in He.
    symmetry in He. by apply ChainHash_not_empty in He.
  - apply linked_snoc in Hl as (Hl & Hp & Hh).
    destruct rs' as [|r' rs' _] using rev_ind.
    { rewrite last_hash_snoc, Hh in He. by apply ChainHash_not_empty in He. }
    apply linked_snoc in Hl' as (Hl' & Hp' & Hh').
    rewrite !last_hash_snoc, Hh, Hh' in He. apply ChainHash_inj in He;
      [|by apply linked_hash_no_nul|by apply linked_hash_no_nul].
    rewrite <- Hp, <- Hp' in He. change (input r) with (r_PrevHash r +:+ nul +:+ hashed r).
    destruct He as [[Hprev Hm]|Hc].
    + destruct (IH rs' Hl Hl') as [IHe|(x & y & Hx & Hy & Hc)]; [congruence| |].
      * left. rewrite !fmap_app, IHe. cbn. unfold input, hashed. by rewrite Hprev, Hm.
      * right. exists x, y. rewrite !elem_of_app. auto.
    + right. exists r, r'. rewrite !elem_of_app, !list_elem_of_singleton. auto.
Qed.

(** ** The fields the payload binds *)

Lemma payload_entries r :
  receipt_payload r = VMap [
    ("action", VString (r_ActionID r)); ("args_hash", VString (r_ArgumentsHash r));
    ("completed", VTime (r_CompletedAt r)); ("decision", VString (PolicyEffect_str (r_Decision r)));
    ("result_hash", VString (r_ResultHash r)); ("started", VTime (r_StartedAt r));
    ("tool", VString (r_Tool r)); ("txn", VString (r_TransactionID r))].
Proof. unfold receipt_payload. vm_compute. reflexivity. Qed.

(** One field of the encoded payload and what follows it. *)
Lemma field_inj k a b r r' :
  is_ascii a = true -> is_ascii b = true ->
  (quote k +:+ ":" +:+ quote a) +:+ r = (quote k +:+ ":" +:+ quote b) +:+ r' -> a = b /\ r = r'.
Proof.
  intros Ha Hb Heq. rewrite !string_app_assoc in Heq. apply string_app_inj_l in Heq.
  apply string_app_inj_l in Heq. by apply quote_inj_app.
Qed.

Lemma time_field_inj k t t' s s' r r' :
  format_time t = Some s -> format_time t' = Some s' ->
  (quote k +:+ ":" +:+ String dquote (s +:+ String dquote EmptyString)) +:+ r =
  (quote k +:+ ":" +:+ String dquote (s' +:+ String dquote EmptyString)) +:+ r' -> s = s' /\ r = r'.
Proof.
  intros Ht Ht' Heq. rewrite !string_app_assoc in Heq. apply string_app_inj_l in Heq.
  apply string_app_inj_l in Heq. eapply quoted_time_inj; eauto.
Qed.

(** The texts and times of a receipt that the payload can carry without
    loss: ASCII text, years 0 to 9999. *)
Definition plain (r : Receipt) : Prop :=
  is_ascii (r_ActionID r) = true /\ is_ascii (r_ArgumentsHash r) = true /\
  is_ascii (PolicyEffect_str (r_Decision r)) = true /\ is_ascii (r_ResultHash r) = true /\
  is_ascii (r_Tool r) = true /\ is_ascii (r_TransactionID r) = true /\
  format_time (r_CompletedAt r) <> None /\ format_time (r_StartedAt r) <> None.

(** The fields the chain hash covers. *)
Definition same_evidence (r r' : Receipt) : Prop :=
  r_PrevHash r = r_PrevHash r' /\ r_ActionID r = r_ActionID r' /\
  r_ArgumentsHash r = r_ArgumentsHash r' /\
  format_time (r_CompletedAt r) = format_time (r_CompletedAt r') /\
  PolicyEffect_str (r_Decision r) = PolicyEffect_str (r_Decision r') /\
  r_ResultHash r = r_ResultHash r' /\
  format_time (r_StartedAt r) = format_time (r_StartedAt r') /\
  r_Tool r = r_Tool r' /\ r_TransactionID r = r_TransactionID r'.

Lemma marshal_entries r s1 s2 :
  format_time (r_CompletedAt r) = Some s1 -> format_time (r_StartedAt r) = Some s2 ->
  hashed r = "{" +:+ Join [
    quote "action" +:+ ":" +:+ quote (r_ActionID r);
    quote "args_hash" +:+ ":" +:+ quote (r_ArgumentsHash r);
    quote "completed" +:+ ":" +:+ String dquote (s1 +:+ String dquote EmptyString);
    quote "decision" +:+ ":" +:+ quote (PolicyEffect_str (r_Decision r));
    quote "result_hash" +:+ ":" +:+ quote (r_ResultHash r);
    quote "started" +:+ ":" +:+ String dquote (s2 +:+ String dquote EmptyString);
    quote "tool" +:+ ":" +:+ quote (r_Tool r);
    quote "txn" +:+ ":" +:+ quote (r_TransactionID r)] "," +:+ "}".
Proof.
  intros H1 H2. unfold hashed, marshal. rewrite payload_entries.
  cbn [encode]. rewrite H1, H2. reflexivity.
Qed.

Lemma join_step x y l t :
  Join (x :: y :: l) "," +:+ t = x +:+ ("," +:+ (Join (y :: l) "," +:+ t)).
Proof.
  change (Join (x :: y :: l) ",") with (x +:+ ("," +:+ Join (y :: l) ",")).
  by rewrite !string_app_assoc.
Qed.

Lemma join_field k a b y y' l l' t t' :
  is_ascii a = true -> is_ascii b = true ->
  Join ((quote k +:+ ":" +:+ quote a) :: y :: l) "," +:+ t =
  Join ((quote k +:+ ":" +:+ quote b) :: y' :: l') "," +:+ t' ->
  a = b /\ Join (y :: l) "," +:+ t = Join (y' :: l') "," +:+ t'.
Proof.
  intros Ha Hb Heq. rewrite !join_step in Heq. apply field_inj in Heq as [Hab Heq]; [|done|done].
  split; [done|]. by apply string_app_inj_l in Heq.
Qed.

Lemma join_time k u v s s' y y' l l' t t' :
  format_time u = Some s -> format_time v = Some s' ->
  Join ((quote k +:+ ":" +:+ String dquote (s +:+ String dquote EmptyString)) :: y :: l) "," +:+ t =
  Join ((quote k +:+ ":" +:+ String dquote (s' +:+ String dquote EmptyString)) :: y' :: l') "," +:+ t' ->
  s = s' /\ Join (y :: l) "," +:+ t = Join (y' :: l') "," +:+ t'.
Proof.
  intros Hu Hv Heq. rewrite !join_step in Heq.
  apply (time_field_inj _ _ _ _ _ _ _ Hu Hv) in Heq as [Hab Heq].
  split; [done|]. by apply string_app_inj_l in Heq.
Qed.

Lemma format_some t : format_time t <> None -> exists s, format_time t = Some s.
Proof. destruct (format_time t) as [s|]; [by exists s|done]. Qed.

Lemma hashed_inj r r' :
  plain r -> plain r' -> hashed r = hashed r' -> r_PrevHash r = r_PrevHash r' -> same_evidence r r'.
Proof.
  intros (A1 & A2 & A3 & A4 & A5 & A6 & T1 & T2) (B1 & B2 & B3 & B4 & B5 & B6 & U1 & U2).
  apply format_some in T1 as [c Ec], T2 as [t Et], U1 as [c' Ec'], U2 as [t' Et'].
  rewrite (marshal_entries r c t), (marshal_entries r' c' t') by assumption.
  intros He Hp.
  apply string_app_inj_l in He.
  apply join_field in He as [E1 He]; [|assumption..]. apply join_field in He as [E2 He]; [|assumption..].
  apply (join_time _ _ _ _ _ _ _ _ _ _ _ Ec Ec') in He as [E3 He].
  apply join_field in He as [E4 He]; [|assumption..]. apply join_field in He as [E5 He]; [|assumption..].
  apply (join_time _ _ _ _ _ _ _ _ _ _ _ Et Et') in He as [E6 He].
  apply join_field in He as [E7 He]; [|assumption..].
  apply field_inj in He as [E8 _]; [|assumption..].
  unfold same_evidence. rewrite Ec, Et, Ec', Et', E3, E6. repeat split; assumption.
Qed.

Lemma inputs_evidence rs rs' :
  Forall plain rs -> Forall plain rs' -> linked "" rs -> linked "" rs' ->
  input <$> rs = input <$> rs' -> Forall2 same_evidence rs rs'.
Proof.
  assert (Hgen : forall rs rs' prev, no_nul prev = true ->
    Forall plain rs -> Forall plain rs' -> linked prev rs -> linked prev rs' ->
    input <$> rs = input <$> rs' -> Forall2 same_evidence rs rs').
  2: { by apply Hgen. }
  clear rs rs'. induction rs as [|r rs IH]; intros [|r' rs'] prev Hn Hp Hp' Hl Hl' He;
    try discriminate He; [constructor|].
  apply Forall_cons in Hp as [Hpr Hp]. apply Forall_cons in Hp' as [Hpr' Hp'].
  cbn [linked fmap list_fmap] in *. destruct Hl as (Hr & Hh & Hl), Hl' as (Hr' & Hh' & Hl').
  injection He as Hi He. unfold input in Hi. rewrite Hr, Hr' in Hi.
  apply string_app_inj_l, string_app_inj_l in Hi.
  assert (Hhash : r_Hash r = r_Hash r').
  { rewrite Hh, Hh'. unfold ChainHash. unfold hashed in Hi. by rewrite Hi. }
  constructor; [by apply hashed_inj; [..|congruence]|].
  apply (IH rs' (r_Hash r)); try assumption; [rewrite Hh; apply hex_encode_no_nul|].
  by rewrite Hhash.
Qed.

(** C21: the receipt chain commits to history.  Take any two lists of receipts
    whose receipts of an organization are plain (the hashed texts are ASCII
    and the times of years 0 to 9999, which the JSON payload carries without
    loss), that both pass VerifyChain for it and end in the same hash.
    Then the organization's receipts agree one by one on transaction, action,
    tool, argument hash, result hash, decision, start and completion time and
    previous hash, or two entries, one of each list, exhibit a collision of
    SHA-256. *)
Theorem chain_commits_to_history orgID rs rs' :
  Forall plain (chain_of orgID rs) -> Forall plain (chain_of orgID rs') ->
  verify_loop orgID rs 0 "" = -1 -> verify_loop orgID rs' 0 "" = -1 ->
  chain_end orgID rs "" = chain_end orgID rs' "" ->
  Forall2 same_evidence (chain_of orgID rs) (chain_of orgID rs') \/
  exists r r', r ∈ rs /\ r' ∈ rs' /\
    sha256_collision (r_PrevHash r +:+ nul +:+ marshal (receipt_payload r))
                     (r_PrevHash r' +:+ nul +:+ marshal (receipt_payload r')).
Proof.
  intros Hp Hp' Hv Hv' He. rewrite verify_linked in Hv, Hv' by done.
  rewrite !chain_end_last in He.
  destruct (linked_binds _ _ Hv Hv' He) as [Hi|(r & r' & Hr & Hr' & Hc)].
  - left. by apply inputs_evidence.
  - right. apply list_elem_of_filter in Hr as [_ Hr]. apply list_elem_of_filter in Hr' as [_ Hr'].
    by exists r, r'.
Qed.

(** Receipts that differ outside the payload only. *)
Definition unbound_change (r : Receipt) (cents : option Z) (compensation action agent : string)
    : Receipt :=
  r <| r_FinancialCents := cents |> <| r_Compensation := compensation |>
    <| r_Action := action |> <| r_AgentID := agent |>.

(** What the chain does not bind.  Rewriting the amount, the compensation
    note, the action name or the agent of any receipts, or dropping receipts
    from the end, leaves VerifyChain at -1. *)
Theorem chain_blind_spots orgID rs n (change : Receipt -> option Z * string * string * string) :
  verify_loop orgID rs 0 "" = -1 ->
  verify_loop orgID ((fun r => let '(c, k, a, g) := change r in unbound_change r c k a g) <$> take n rs)
    0 "" = -1.
Proof.
  intros Hv.
  assert (Ht : verify_loop orgID (take n rs) 0 "" = -1).
  { rewrite <- (take_drop n rs) in Hv. by apply verify_loop_app in Hv as [Hv _]. }
  rewrite <- Ht. apply verify_loop_ext. apply Forall2_fmap_r.
  clear Ht. induction (take n rs) as [|r l IH]; [constructor|]. constructor; [|done].
  unfold compose. cbn beta. destruct (change r) as [[[? ?] ?] ?]. by repeat split.
Qed.

End Tamper.
