(* ===== verification/ArchiveModel.v ===== *)
(** * ArchiveModel: the evidence a store keeps (internal/store/store.go)

    The third part of the contract of the Store interface: the receipts of an
    organization, in the order they were appended and each linked to the one
    before, and the configuration of its integrations.  An abstract machine
    beside the ledger of [StoreModel] and the vault of [VaultModel]; a receipt
    in the archive is the stored one, hash and signature included; a
    configuration is what its JSON says. *)

From S2P Require Export VaultModel ReceiptTamper.

Open Scope Z_scope.

(** The hash the next receipt links to. *)
Abbreviation end_hash := ReceiptTamper.last_hash.

(** ** The archive *)

Record Archive := MkArchive {
  ar_chains : gmap string (list Receipt);
  ar_configs : gmap (string * string) (gmap string value) }.

#[export] Instance eta_Archive : Eta Archive := fun a => MkArchive (ar_chains a) (ar_configs a).

Definition empty_archive : Archive := MkArchive ∅ ∅.

Definition chain_in (a : Archive) (org : string) : list Receipt := default [] (ar_chains a !! org).

Definition map_chains (g : Receipt -> Receipt) (m : gmap string (list Receipt)) : gmap string (list Receipt) :=
  (fun rs : list Receipt => g <$> rs) <$> m.

(** What a receipt says, whatever identifier and link the store gives it;
    a store may keep its times to the microsecond. *)
Definition evidence (r : Receipt) : Receipt :=
  r <| r_ID := "" |> <| r_PrevHash := "" |> <| r_Hash := "" |>
    <| r_StartedAt ::= micro |> <| r_CompletedAt ::= micro |>.

(** [r'] is [r] as it is stored at the end of the chain [rs]. *)
Definition extends `{Runtime} (rs : list Receipt) (r r' : Receipt) : Prop :=
  evidence r' = evidence r /\ r_PrevHash r' = end_hash "" rs /\
  r_Hash r' = ChainHash (end_hash "" rs) (receipt_payload r').

Definition of_txn (txn : string) (rs : list Receipt) : list Receipt :=
  List.filter (fun r => String.eqb (r_TransactionID r) txn) rs.

(** A map of flags, integers and plain texts: what a JSON column gives back. *)
Definition plain_value (v : value) : bool :=
  match v with
  | VNil | VBool _ | VInt _ => true
  | VString s => plain_text s
  | VStrings l => forallb plain_text l
  | VList l => forallb (fun v => match v with VString s => plain_text s | _ => false end) l
  | _ => false
  end.

Definition plain_config (m : gmap string value) : Prop :=
  map_Forall (fun k v => plain_text k = true /\ plain_value v = true) m.

(** Once read from a JSON column a list of strings is a list of values, and
    an integer the nearest [float64]. *)
Definition json_view (v : value) : value :=
  match v with
  | VStrings l => VList (VString <$> l)
  | VInt n => VFloat (float_of_Z n)
  | v => v
  end.

Definition config_view (m : gmap string value) : gmap string value := json_view <$> m.

(** ** Calls *)

Inductive AOp :=
  | AAppendReceipt (r : Receipt)
  | AUpdateReceipt (r : Receipt)
  | AReceiptsForTxn (orgID txnID : string)
  | AVerifyChain (orgID : string)
  | ASetIntegrationConfig (orgID name : string) (config : gomap)
  | AGetIntegrationConfig (orgID name : string).

Inductive ARes :=
  | AReceipt (r : Receipt)
  | AReceipts (rs : list Receipt)
  | AIndex (i : Z)
  | AConfig (c : option (gmap string value))
  | AUnit.

Section Spec.
Context `{RT : Runtime}.

Inductive aspec_step (a : Archive) : AOp -> ARes -> Archive -> Prop :=
  | aspec_append r r' :
      extends (chain_in a (r_OrgID r)) r r' ->
      aspec_step a (AAppendReceipt r) (AReceipt r')
        (a <| ar_chains ::= <[ r_OrgID r := chain_in a (r_OrgID r) ++ [r'] ]> |>)
  | aspec_sign r :
      aspec_step a (AUpdateReceipt r) AUnit (a <| ar_chains ::= map_chains (update_receipt_in r) |>)
  | aspec_list org txn :
      aspec_step a (AReceiptsForTxn org txn) (AReceipts (of_txn txn (chain_in a org))) a
  | aspec_verify org i :
      (i = -1 <-> linked "" (chain_in a org)) ->
      aspec_step a (AVerifyChain org) (AIndex i) a
  | aspec_set org name c :
      aspec_step a (ASetIntegrationConfig org name c) AUnit
        (a <| ar_configs ::= <[ (org, name) := config_view (default ∅ c) ]> |>)
  | aspec_get org name :
      aspec_step a (AGetIntegrationConfig org name) (AConfig (ar_configs a !! (org, name))) a.

(** The calls the service and the handlers make: what a receipt refers to
    exists, and it is signed after it is appended. *)
Definition aadmissible (idok : string -> Prop) (l : Ledger) (op : AOp) : Prop :=
  match op with
  | AAppendReceipt r =>
      r_OrgID r ∈ l_orgs l /\ r_TransactionID r ∈ dom (l_txns l) /\
      optional (r_ActionID r) (dom (l_actions l)) /\ optional (r_AgentID r) (dom (l_agents l)) /\
      optional (r_PrincipalID r) (l_principals l) /\ r_KeyID r = "" /\ r_Signature r = ""
  | AUpdateReceipt r => idok (r_OrgID r) /\ idok (r_ID r)
  | AReceiptsForTxn org txn => idok org /\ idok txn
  | AVerifyChain org => idok org
  | ASetIntegrationConfig org _ c => org ∈ l_orgs l /\ plain_config (default ∅ c)
  | AGetIntegrationConfig org _ => idok org
  end.

End Spec.

(** ** Implementations *)

Class AStore (St : Type) `{VS : VStore St} := {
  exec_aop : AOp -> program St ARes;
  archive_ok : Archive -> St -> Prop }.

(** Each call is a transition of the archive and leaves the ledger and the
    vault as they were; the calls of these leave the archive as it was. *)
Class AStoreLaws (St : Type) `{RT : Runtime} `{AS : AStore St} := {
  archive_refines l v a s op :
    store_ok l s -> vault_ok v s -> archive_ok a s -> aadmissible store_id l op ->
    exists a', aspec_step a op (run (exec_aop op) s).1 a' /\
      store_ok l (run (exec_aop op) s).2 /\ vault_ok v (run (exec_aop op) s).2 /\
      archive_ok a' (run (exec_aop op) s).2;
  archive_framed a s op : archive_ok a s -> archive_ok a (run (exec_op op) s).2;
  archive_vframed a s op : archive_ok a s -> archive_ok a (run (exec_vop op) s).2 }.

(** ** Runs *)

Inductive arun `{Runtime} : Archive -> list (AOp * ARes) -> Archive -> Prop :=
  | arun_nil a : arun a [] a
  | arun_cons a op r a1 tr a2 : aspec_step a op r a1 -> arun a1 tr a2 -> arun a ((op, r) :: tr) a2.

(** A call of the interface, whichever part of the contract it belongs to. *)
Inductive Call :=
  | Books (op : Op)
  | Keys (op : VOp)
  | Evidence (op : AOp).

Section Runs.
Context {St : Type} `{RT : Runtime} `{AS : AStore St}.

(** Calls one after another, with the trace of those of the archive. *)
Fixpoint exec_interface (cs : list Call) (s : St) : list (AOp * ARes) * St :=
  match cs with
  | [] => ([], s)
  | Books op :: cs => exec_interface cs (run (exec_op op) s).2
  | Keys op :: cs => exec_interface cs (run (exec_vop op) s).2
  | Evidence op :: cs =>
      let '(r, s) := run (exec_aop op) s in
      let '(tr, s) := exec_interface cs s in ((op, r) :: tr, s)
  end.

(** Every call is admissible when it is made. *)
Fixpoint interface_callable (cs : list Call) (s : St) : Prop :=
  match cs with
  | [] => True
  | Books op :: cs =>
      (forall l, store_ok l s -> admissible store_id l op) /\ interface_callable cs (run (exec_op op) s).2
  | Keys op :: cs =>
      (forall l v, store_ok l s -> vault_ok v s -> vadmissible store_id l v op) /\
      interface_callable cs (run (exec_vop op) s).2
  | Evidence op :: cs =>
      (forall l, store_ok l s -> aadmissible store_id l op) /\ interface_callable cs (run (exec_aop op) s).2
  end.

Context `{!StoreLaws St} `{!VStoreLaws St} `{!AStoreLaws St}.

Lemma interface_refines cs l v a s :
  store_ok l s -> vault_ok v s -> archive_ok a s -> interface_callable cs s ->
  exists l' v' a', arun a (exec_interface cs s).1 a' /\ store_ok l' (exec_interface cs s).2 /\
    vault_ok v' (exec_interface cs s).2 /\ archive_ok a' (exec_interface cs s).2.
Proof.
  revert l v a s. induction cs as [|[op|op|op] cs IH]; intros l v a s Hl Hv Ha; cbn [interface_callable exec_interface].
  - intros _. exists l, v, a. split; [constructor|done].
  - intros [Had Hc]. specialize (Had l Hl). destruct (store_refines l s op Hl Had) as (l1 & _ & Hl1).
    apply (IH l1 v a); [done|by eapply vault_framed|by apply archive_framed|done].
  - intros [Had Hc]. destruct (vault_refines l v s op Hl Hv (Had l v Hl Hv)) as (v1 & _ & Hl1 & Hv1).
    apply (IH l v1 a); [done|done|by apply archive_vframed|done].
  - intros [Had Hc]. destruct (archive_refines l v a s op Hl Hv Ha (Had l Hl)) as (a1 & Hs & Hl1 & Hv1 & Ha1).
    destruct (run (exec_aop op) s) as [r s1]. cbn in *.
    destruct (IH l v a1 s1 Hl1 Hv1 Ha1 Hc) as (l2 & v2 & a2 & Hr & H2).
    destruct (exec_interface cs s1) as [tr s2]. exists l2, v2, a2. split; [by econstructor|done].
Qed.

End Runs.

(** ** What follows for every implementation *)

Section Honoured.
Context `{RT : Runtime}.

(** What the calls of a trace do to the chain of an organization. *)
Definition replay_one (org : string) (rs : list Receipt) (c : AOp * ARes) : list Receipt :=
  match c with
  | (AAppendReceipt r, AReceipt r') => if String.eqb (r_OrgID r) org then rs ++ [r'] else rs
  | (AUpdateReceipt r, _) => update_receipt_in r <$> rs
  | _ => rs
  end.

Definition replay (org : string) (tr : list (AOp * ARes)) : list Receipt := foldl (replay_one org) [] tr.

(** A trace in which every receipt links to the one appended before it, the
    receipts of a transaction are those that were appended, in order and
    signed as they were last signed, every chain verifies, and a configuration is
    read as it was last written. *)
Record archive_honoured (tr : list (AOp * ARes)) : Prop := {
  ah_append : forall i r res, tr !! i = Some (AAppendReceipt r, res) ->
    exists r', res = AReceipt r' /\ extends (replay (r_OrgID r) (take i tr)) r r';
  ah_listed : forall i org txn res, tr !! i = Some (AReceiptsForTxn org txn, res) ->
    res = AReceipts (of_txn txn (replay org (take i tr)));
  ah_verified : forall i org res, tr !! i = Some (AVerifyChain org, res) -> res = AIndex (-1);
  ah_config : forall i j org name c r res, (i < j)%nat ->
    tr !! i = Some (ASetIntegrationConfig org name c, r) ->
    (forall m c' r', (i < m < j)%nat -> tr !! m <> Some (ASetIntegrationConfig org name c', r')) ->
    tr !! j = Some (AGetIntegrationConfig org name, res) -> res = AConfig (Some (config_view (default ∅ c))) }.

Lemma update_receipt_chain r x :
  r_PrevHash (update_receipt_in r x) = r_PrevHash x /\ r_Hash (update_receipt_in r x) = r_Hash x /\
  receipt_payload (update_receipt_in r x) = receipt_payload x.
Proof. unfold update_receipt_in. by destruct (_ && _). Qed.

(** A signature does not enter the hash. *)
Lemma linked_signed (g : Receipt -> Receipt) prev rs :
  (forall r, r_PrevHash (g r) = r_PrevHash r /\ r_Hash (g r) = r_Hash r /\ receipt_payload (g r) = receipt_payload r) ->
  linked prev rs -> linked prev (g <$> rs).
Proof.
  intros Hg. revert prev. induction rs as [|r rs IH]; intros prev; [done|]. rewrite fmap_cons. cbn [linked].
  destruct (Hg r) as (-> & -> & ->). intros (-> & -> & H). by split_and!; [..|apply IH].
Qed.

Lemma chain_in_fmap a g org : chain_in (a <| ar_chains ::= map_chains g |>) org = g <$> chain_in a org.
Proof. unfold chain_in, map_chains. cbn. rewrite lookup_fmap. by destruct (ar_chains a !! org). Qed.

Lemma chain_in_insert a org rs org' :
  chain_in (a <| ar_chains ::= <[ org := rs ]> |>) org' = if String.eqb org org' then rs else chain_in a org'.
Proof.
  unfold chain_in. cbn. destruct (String.eqb_spec org org') as [->|Hne]; [by rewrite lookup_insert_eq|].
  by rewrite lookup_insert_ne.
Qed.

(** Chains are what the calls made them, and link. *)
Lemma aspec_replays a op r a' org : aspec_step a op r a' ->
  chain_in a' org = replay_one org (chain_in a org) (op, r).
Proof.
  intros Hs. inversion Hs; subst; cbn [replay_one]; try done.
  - rewrite chain_in_insert. by destruct (String.eqb_spec (r_OrgID r0) org) as [->|].
  - apply chain_in_fmap.
Qed.

Lemma aspec_links a op r a' : aspec_step a op r a' ->
  (forall org, linked "" (chain_in a org)) -> forall org, linked "" (chain_in a' org).
Proof.
  intros Hs Hl org. inversion Hs; subst; try apply Hl.
  - rewrite chain_in_insert. destruct (String.eqb_spec (r_OrgID r0) org) as [E|]; [subst org|done].
    match goal with H : extends _ _ _ |- _ => destruct H as (_ & H1 & H2) end. by apply linked_snoc.
  - rewrite chain_in_fmap. apply linked_signed; [|done]. intros x. apply update_receipt_chain.
Qed.

Lemma arun_at a tr a' i op r : arun a tr a' -> tr !! i = Some (op, r) ->
  exists a1 a2, arun a (take i tr) a1 /\ aspec_step a1 op r a2 /\ arun a2 (drop (S i) tr) a'.
Proof.
  intros Hr. revert i. induction Hr as [a|a op' r' a1 tr a2 Hs Hr IH]; intros [|i] Hi; try done.
  - injection Hi as -> ->. exists a, a1. split; [constructor|done].
  - destruct (IH i Hi) as (b1 & b2 & H1 & H2 & H3). exists b1, b2. split; [by econstructor|done].
Qed.

Lemma arun_keeps (P : Archive -> Prop) a tr a' :
  (forall op r b b', (op, r) ∈ tr -> P b -> aspec_step b op r b' -> P b') -> arun a tr a' -> P a -> P a'.
Proof.
  intros Hp Hr. induction Hr as [a|a op r a1 tr a2 Hs Hr IH]; [done|]. intros Ha. apply IH.
  - intros op' r' b b' Hin. apply Hp. by right.
  - eapply Hp; [by left|done|done].
Qed.

Lemma arun_replays a tr a' org : arun a tr a' -> chain_in a' org = foldl (replay_one org) (chain_in a org) tr.
Proof.
  intros Hr. induction Hr as [a|a op r a1 tr a2 Hs Hr IH]; [done|]. cbn [foldl].
  by rewrite IH, (aspec_replays _ _ _ _ org Hs).
Qed.

(** The state in which the call at [i] is made, from an empty archive. *)
Lemma arun_before tr a' i op r : arun empty_archive tr a' -> tr !! i = Some (op, r) ->
  exists a1 a2, aspec_step a1 op r a2 /\ arun a2 (drop (S i) tr) a' /\
    (forall org, chain_in a1 org = replay org (take i tr)) /\ forall org, linked "" (chain_in a1 org).
Proof.
  intros Hr Hi. destruct (arun_at _ _ _ _ _ _ Hr Hi) as (a1 & a2 & H1 & H2 & H3). exists a1, a2.
  split; [done|]. split; [done|]. split; [intros org; exact (arun_replays _ _ _ org H1)|].
  eapply (arun_keeps (fun a => forall org, linked "" (chain_in a org))); [|exact H1|done].
  intros op' r' b b' _ Hl Hs. by eapply aspec_links.
Qed.

Lemma arun_honoured tr a' : arun empty_archive tr a' -> archive_honoured tr.
Proof.
  intros Hr. split.
  - intros i r res Hi. destruct (arun_before _ _ _ _ _ Hr Hi) as (a1 & a2 & Hs & _ & Hc & _).
    inversion Hs; subst. eexists. split; [reflexivity|]. by rewrite <- Hc.
  - intros i org txn res Hi. destruct (arun_before _ _ _ _ _ Hr Hi) as (a1 & a2 & Hs & _ & Hc & _).
    inversion Hs; subst. by rewrite <- Hc.
  - intros i org res Hi. destruct (arun_before _ _ _ _ _ Hr Hi) as (a1 & a2 & Hs & _ & _ & Hl).
    inversion Hs as [| | |? k Hk| |]; subst. f_equal. by apply Hk, Hl.
  - intros i j org name c r res Hij Hi Hno Hj. destruct (arun_before _ _ _ _ _ Hr Hi) as (a1 & a2 & Hs & Hrest & _).
    assert (Hj' : drop (S i) tr !! (j - S i)%nat = Some (AGetIntegrationConfig org name, res)).
    { rewrite lookup_drop. by replace (S i + (j - S i))%nat with j by lia. }
    destruct (arun_at _ _ _ _ _ _ Hrest Hj') as (b1 & b2 & H1 & H2 & _).
    assert (Hb : ar_configs b1 !! (org, name) = Some (config_view (default ∅ c))).
    { eapply (arun_keeps (fun b => ar_configs b !! (org, name) = Some (config_view (default ∅ c)))); [|exact H1|].
      - intros op r' b b' Hin Hb Hstep. inversion Hstep; subst; cbn; try done.
        rewrite lookup_insert_ne; [done|]. intros [= -> ->].
        apply list_elem_of_lookup in Hin as [m Hm]. apply lookup_take_Some in Hm as [Hm Hlt].
        rewrite lookup_drop in Hm. eapply (Hno (S i + m)%nat); [lia|done].
      - inversion Hs; subst. cbn. by rewrite lookup_insert_eq. }
    inversion H2; subst. by rewrite Hb.
Qed.

End Honoured.

(** Every implementation runs as the archive and honours the third part of
    the contract. *)
Lemma archive_contract {St : Type} `{RT : Runtime} `{AS : AStore St} `{!StoreLaws St} `{!VStoreLaws St}
    `{!AStoreLaws St} cs l v s :
  store_ok l s -> vault_ok v s -> archive_ok empty_archive s -> interface_callable cs s ->
  exists a, arun empty_archive (exec_interface cs s).1 a /\ archive_ok a (exec_interface cs s).2 /\
    archive_honoured (exec_interface cs s).1.
Proof.
  intros Hl Hv Ha Hc. destruct (interface_refines cs l v _ s Hl Hv Ha Hc) as (l' & v' & a & Hr & _ & _ & Ha').
  exists a. split; [done|]. split; [done|]. by eapply arun_honoured.
Qed.
