(* ===== verification/MemArchive.v ===== *)
(** * MemArchive: MemoryStore keeps the evidence as the contract says *)

From S2P Require Export ArchiveModel MemVault.

Open Scope Z_scope.

Section MemArchive.
Context `{RL : RuntimeLaws} `{PI : !PlainIds}.

(** The archive a memory store stands for. *)
Record mem_archive (a : Archive) (w : World) : Prop := {
  ma_chains : forall org, chain_in a org = chain_of org (st_receiptsList (w_store w));
  ma_last : forall org, default "" (st_lastHash (w_store w) !! org) = end_hash "" (chain_in a org);
  ma_configs : keyed (fun _ c d => c = config_view d) (ar_configs a) (st_integConfig (w_store w)) }.

Definition mem_aexec (op : AOp) : prog ARes :=
  match op with
  | AAppendReceipt r => let@ ptr := AppendReceipt r in let@ r' := load_receipt ptr in Ret (AReceipt r')
  | AUpdateReceipt r => let@ _ := UpdateReceipt r in Ret AUnit
  | AReceiptsForTxn org txn => let@ rs := ReceiptsForTxn org txn in Ret (AReceipts rs)
  | AVerifyChain org => let@ i := VerifyChain org in Ret (AIndex i)
  | ASetIntegrationConfig org name c => let@ _ := SetIntegrationConfig org name c in Ret AUnit
  | AGetIntegrationConfig org name => let@ c := GetIntegrationConfig org name in Ret (AConfig (config_view <$> c))
  end.

#[export] Instance memory_archive : AStore World := { exec_aop := mem_aexec; archive_ok := mem_archive }.

(** ** Frames *)

(** The part of the store the archive is in. *)
Definition archive_part (s : MemoryStore) := (st_receiptsList s, st_lastHash s, st_integConfig s).

Lemma mem_archive_frame a w w' :
  archive_part (w_store w') = archive_part (w_store w) -> mem_archive a w -> mem_archive a w'.
Proof. intros [= R L C] []. by split; intros; rewrite ?R, ?L, ?C. Qed.

Lemma mem_archive_framed a w op : mem_archive a w -> mem_archive a (run (mem_exec op) w).2.
Proof.
  apply mem_archive_frame. destruct op; cbn; try done;
    unfold CreateAgent, GetAgent, CreateTxn, GetTxn, SetTxnStatus, AddAction, GetAction, UpdateAction, CreateApproval,
      GetApproval, DecideApproval, CreatePolicySet, ActivatePolicySet, Policies, CreateGrant, GrantsForAgent, RevokeGrant,
      ListTxns, ActionsForTxn, PendingApprovals, PolicySets, ActivePolicySet,
      m_bind, get_store, modify_store, uid, now, m_ret, ranging; cbn;
    repeat match goal with |- context [if ?b then _ else _] => destruct b; cbn end; repeat (case_match; cbn); by simplify_eq/=.
Qed.

Lemma mem_archive_vframed a w op : mem_archive a w -> mem_archive a (run (mem_vexec op) w).2.
Proof.
  apply mem_archive_frame. destruct op; cbn; try done;
    unfold StoreCredential, GetCredential, RevokeCredential, TouchCredential, TouchOperatorToken, SetIntegrationCredential,
      GetIntegrationCredential, ListIntegrationCredentials, UpsertMCPServer, GetMCPServer, sealLocked, openLocked,
      m_bind, get_store, modify_store, uid, now, tick, m_ret, ranging; cbn;
    repeat match goal with |- context [if ?b then _ else _] => destruct b; cbn end; repeat (case_match; cbn); by simplify_eq/=.
Qed.

(** A step on the archive alone. *)
Lemma mem_others l v w w' :
  (w_uid w <= w_uid w')%nat ->
  w_store w' = (w_store w) <| st_receiptsList := st_receiptsList (w_store w') |>
                 <| st_lastHash := st_lastHash (w_store w') |> <| st_integConfig := st_integConfig (w_store w') |> ->
  mem_ok l w -> mem_vault v w -> mem_ok l w' /\ mem_vault v w'.
Proof.
  intros Hu Hs Hl Hv. split.
  - eapply mem_ok_frame; [..|exact Hl]; try (by rewrite Hs). lia.
  - apply (mem_vault_frame v w); [by rewrite Hs|done].
Qed.

(** ** The calls *)

Definition arefined (op : AOp) : Prop := forall l v a w,
  mem_ok l w -> mem_vault v w -> mem_archive a w -> aadmissible plain_id l op ->
  exists a', aspec_step a op (run (mem_aexec op) w).1 a' /\ mem_ok l (run (mem_aexec op) w).2 /\
    mem_vault v (run (mem_aexec op) w).2 /\ mem_archive a' (run (mem_aexec op) w).2.

Lemma chain_of_snoc org rs r :
  chain_of org (rs ++ [r]) = if String.eqb (r_OrgID r) org then chain_of org rs ++ [r] else chain_of org rs.
Proof.
  unfold chain_of. rewrite filter_app, filter_cons. destruct (String.eqb_spec (r_OrgID r) org) as [->|Hne].
  - by rewrite decide_True.
  - rewrite decide_False by done. by rewrite app_nil_r.
Qed.

Lemma chained_extends id rs r : extends rs r (chained id (end_hash "" rs) r).
Proof. by destruct r. Qed.

Lemma arefined_AppendReceipt r : arefined (AAppendReceipt r).
Proof.
  intros l v a w Hl Hv Ha _. pose proof Ha as []. cbn -[chained].
  rewrite lookup_app_r by lia. rewrite Nat.sub_diag. cbn [lookup list_lookup default from_option id].
  set (r' := chained _ _ _). eexists. split.
  - apply aspec_append. unfold r'. rewrite ma_last0. apply chained_extends.
  - refine (match mem_others l v w _ _ _ Hl Hv with conj H1 H2 => conj H1 (conj H2 _) end); [cbn; lia|done|].
    split; [| |done]; intros org; rewrite chain_in_insert; cbn -[chained chain_of last_hash].
    + change (r_OrgID r') with (r_OrgID r). rewrite chain_of_snoc, !ma_chains0.
      change (r_OrgID r') with (r_OrgID r). by destruct (String.eqb_spec (r_OrgID r) org) as [->|].
    + change (r_OrgID r') with (r_OrgID r). destruct (String.eqb_spec (r_OrgID r) org) as [->|Hne].
      * rewrite lookup_insert_eq. by rewrite last_hash_snoc.
      * rewrite lookup_insert_ne by done. apply ma_last0.
Qed.

Lemma update_receipt_org r x : r_OrgID (update_receipt_in r x) = r_OrgID x.
Proof. unfold update_receipt_in. by destruct (_ && _). Qed.

Lemma last_hash_fmap (g : Receipt -> Receipt) prev rs : (forall r, r_Hash (g r) = r_Hash r) ->
  end_hash prev (g <$> rs) = end_hash prev rs.
Proof. intros Hg. unfold ReceiptTamper.last_hash. rewrite fmap_last. destruct (last rs); [|done]. cbn. by rewrite Hg. Qed.

Lemma arefined_UpdateReceipt r : arefined (AUpdateReceipt r).
Proof.
  intros l v a w Hl Hv Ha _. pose proof Ha as []. cbn. eexists. split; [apply aspec_sign|].
  refine (match mem_others l v w _ _ _ Hl Hv with conj H1 H2 => conj H1 (conj H2 _) end); [cbn; lia|done|].
  split; [| |done]; intros org; rewrite chain_in_fmap; cbn.
  - rewrite ma_chains0. unfold chain_of. symmetry. apply filter_fmap. intros x. by rewrite update_receipt_org.
  - rewrite ma_last0. symmetry. apply last_hash_fmap. intros x. apply update_receipt_chain.
Qed.

Lemma of_txn_chain org txn rs :
  base.filter (fun r => r_OrgID r = org /\ r_TransactionID r = txn) rs = of_txn txn (chain_of org rs).
Proof.
  unfold of_txn, chain_of. induction rs as [|r rs IH]; [done|]. rewrite !filter_cons.
  destruct (decide (r_OrgID r = org)) as [Ho|Ho]; cbn [List.filter].
  - destruct (String.eqb_spec (r_TransactionID r) txn) as [Ht|Ht].
    + rewrite decide_True by done. by rewrite IH.
    + rewrite decide_False by tauto. exact IH.
  - rewrite decide_False by tauto. exact IH.
Qed.

Lemma arefined_ReceiptsForTxn org txn : arefined (AReceiptsForTxn org txn).
Proof.
  intros l v a w Hl Hv Ha _. exists a. split; [|done]. cbn. rewrite of_txn_chain, <- (ma_chains _ _ Ha). apply aspec_list.
Qed.

Lemma arefined_VerifyChain org : arefined (AVerifyChain org).
Proof.
  intros l v a w Hl Hv Ha _. exists a. split; [|done]. cbn. apply aspec_verify.
  rewrite (ma_chains _ _ Ha). by apply verify_linked.
Qed.

Lemma arefined_SetIntegrationConfig org name c : arefined (ASetIntegrationConfig org name c).
Proof.
  intros l v a w Hl Hv Ha [Ho _]. pose proof (mem_plain _ _ _ Hl Ho) as Hp. pose proof Ha as []. cbn.
  eexists. split; [apply aspec_set|].
  refine (match mem_others l v w _ _ _ Hl Hv with conj H1 H2 => conj H1 (conj H2 _) end); [cbn; lia|done|].
  split; [done|done|]. cbn. by apply keyed_insert.
Qed.

Lemma arefined_GetIntegrationConfig org name : arefined (AGetIntegrationConfig org name).
Proof.
  intros l v a w Hl Hv Ha Hp. cbn in Hp. exists a. split; [|done]. cbn.
  pose proof (keyed_lookup _ _ org name (ma_configs _ _ Ha) Hp) as Hx. unfold config_in.
  change (st_integConfig (w_store w) !! pair_key org name) with (st_integConfig (w_store w) !! (org +:+ "|" +:+ name)) in Hx.
  pose proof (aspec_get a org name) as Hg.
  destruct (ar_configs a !! (org, name)), (st_integConfig (w_store w) !! _); try done. by subst.
Qed.

Lemma mem_arefines op : arefined op.
Proof.
  destruct op.
  - apply arefined_AppendReceipt.
  - apply arefined_UpdateReceipt.
  - apply arefined_ReceiptsForTxn.
  - apply arefined_VerifyChain.
  - apply arefined_SetIntegrationConfig.
  - apply arefined_GetIntegrationConfig.
Qed.

#[export] Instance memory_archive_laws : AStoreLaws World.
Proof.
  split.
  - intros l v a w op Hl Hv Ha Had. exact (mem_arefines op l v a w Hl Hv Ha Had).
  - intros a w op. apply mem_archive_framed.
  - intros a w op. apply mem_archive_vframed.
Qed.

Lemma mem_archive_New p tools : mem_archive empty_archive (keyed_new p tools).
Proof. by split. Qed.

End MemArchive.
