(* ===== verification/LogModel.v ===== *)
(** * LogModel: the audit trail a store keeps (internal/store/store.go)

    The fourth part of the contract of the Store interface: a log to which
    Emit appends, and CreateTxn on its own account, and which Audit reads
    from the newest entry backwards, for an organization or for one of its
    transactions, up to a limit.  An abstract machine beside the ledger, the
    vault and the archive; an entry is what an event says in JSON, without
    the identifier and the time the store gives it.

    Which entries Audit returns is part of the contract whatever the clock
    does; that they come newest first only where the times a store gives them
    tell them apart. *)

From S2P Require Export ArchiveModel.

Open Scope Z_scope.

(** ** The log *)

Record Entry := MkEntry {
  en_OrgID : string;
  en_TransactionID : string;
  en_ActorType : string;
  en_ActorID : string;
  en_Type : string;
  en_Payload : gmap string value }.

Definition payload_map (p : list (string * value)) : gmap string value := list_to_map p.

Definition entry_of (e : AuditEvent) : Entry :=
  MkEntry (e_OrgID e) (e_TransactionID e) (e_ActorType e) (e_ActorID e) (e_Type e) (config_view (payload_map (e_Payload e))).

(** Oldest first. *)
Abbreviation Log := (list Entry).

(** What a reader of the organization, or of one transaction of it, sees. *)
Definition sees (org txn : string) (e : Entry) : bool :=
  String.eqb (en_OrgID e) org && (String.eqb txn "" || String.eqb (en_TransactionID e) txn).

Definition visible (org txn : string) (g : Log) : Log := List.filter (sees org txn) g.

(** An answer of Audit: what the reader sees, up to the limit; newest first
    if the times are [apart]. *)
Definition audit_answer (apart : Prop) (org txn : string) (limit : Z) (g es : Log) : Prop :=
  exists vis, vis ≡ₚ visible org txn g /\ (apart -> vis = reverse (visible org txn g)) /\
    es = take (Z.to_nat limit) vis.

Lemma newest_first (apart : Prop) org txn limit g :
  audit_answer apart org txn limit g (take (Z.to_nat limit) (reverse (visible org txn g))).
Proof. exists (reverse (visible org txn g)). split; [apply reverse_Permutation|done]. Qed.

(** ** Calls *)

Inductive LOp :=
  | LEmit (e : AuditEvent)
  | LAudit (orgID txnID : string) (limit : Z).

Inductive LRes :=
  | LEntries (es : list Entry)
  | LUnit.

Lemma LEntries_inj es es' : LEntries es = LEntries es' -> es = es'.
Proof. by intros [= ->]. Qed.

Inductive lspec_step (apart : Prop) (g : Log) : LOp -> LRes -> Log -> Prop :=
  | lspec_emit e : lspec_step apart g (LEmit e) LUnit (g ++ [entry_of e])
  | lspec_audit org txn limit es :
      audit_answer apart org txn limit g es -> lspec_step apart g (LAudit org txn limit) (LEntries es) g.

(** The service and the handlers emit such events, where their texts are
    plain: what an event refers to exists, the store sets its time, and its
    payload is of flags, integers (policies.go, mcp.go), texts and lists of
    texts (grants.go, integrations.go). *)
Definition emittable (l : Ledger) (e : AuditEvent) : Prop :=
  e_OrgID e ∈ l_orgs l /\ optional (e_TransactionID e) (dom (l_txns l)) /\ e_CreatedAt e = zero_time /\
  plain_config (payload_map (e_Payload e)).

Definition ladmissible (idok : string -> Prop) (l : Ledger) (op : LOp) : Prop :=
  match op with
  | LEmit e => emittable l e
  | LAudit org txn _ => idok org /\ (txn = "" \/ idok txn)
  end.

(** CreateTxn logs the transaction it creates; no other call of the books
    does. *)
Definition creation (t : Transaction) : Entry :=
  MkEntry (t_OrgID t) (t_ID t) "agent" (t_AgentID t) "transaction.created" ∅.

Definition noted (op : Op) (r : Res) : Log :=
  match op, r with
  | OCreateTxn _, RTxn (Some t) => [creation t]
  | _, _ => []
  end.

(** ** Implementations *)

(** [times_apart] is when the times the store gives events order them. *)
Class LStore (St : Type) `{AS : AStore St} := {
  exec_lop : LOp -> program St LRes;
  times_apart : Prop;
  log_ok : Log -> St -> Prop }.

(** Each call is a transition of the log and leaves the ledger and the vault
    as they were; the calls of the other parts leave the log as it was, but
    for what CreateTxn notes. *)
Class LStoreLaws (St : Type) `{RT : Runtime} `{LS : LStore St} := {
  log_refines l v g s op :
    store_ok l s -> vault_ok v s -> log_ok g s -> ladmissible store_id l op ->
    exists g', lspec_step times_apart g op (run (exec_lop op) s).1 g' /\
      store_ok l (run (exec_lop op) s).2 /\ vault_ok v (run (exec_lop op) s).2 /\ log_ok g' (run (exec_lop op) s).2;
  log_noted l g s op :
    store_ok l s -> admissible store_id l op -> log_ok g s ->
    log_ok (g ++ noted op (run (exec_op op) s).1) (run (exec_op op) s).2;
  log_vframed g s op : log_ok g s -> log_ok g (run (exec_vop op) s).2;
  log_aframed g s op : log_ok g s -> log_ok g (run (exec_aop op) s).2;
  log_others l v s op : store_ok l s -> vault_ok v s ->
    store_ok l (run (exec_aop op) s).2 /\ vault_ok v (run (exec_aop op) s).2 }.

(** ** Runs *)

(** A call of the interface, whichever part of the contract it belongs to,
    and what a trace shows of it. *)
Inductive AnyCall :=
  | Other (c : Call)
  | Trail (op : LOp).

Inductive Shown :=
  | ShownBooks (op : Op) (r : Res)
  | ShownOther
  | ShownTrail (op : LOp) (r : LRes).

(** What a call adds to the log. *)
Definition adds (x : Shown) : Log :=
  match x with
  | ShownBooks op r => noted op r
  | ShownTrail (LEmit e) _ => [entry_of e]
  | _ => []
  end.

Definition log_of (tr : list Shown) : Log := tr ≫= adds.

Section Runs.
Context {St : Type} `{RT : Runtime} `{LS : LStore St}.

Definition exec_any (c : AnyCall) (s : St) : Shown * St :=
  match c with
  | Other (Books op) => let '(r, s) := run (exec_op op) s in (ShownBooks op r, s)
  | Other (Keys op) => (ShownOther, (run (exec_vop op) s).2)
  | Other (Evidence op) => (ShownOther, (run (exec_aop op) s).2)
  | Trail op => let '(r, s) := run (exec_lop op) s in (ShownTrail op r, s)
  end.

Fixpoint exec_trail (cs : list AnyCall) (s : St) : list Shown * St :=
  match cs with
  | [] => ([], s)
  | c :: cs =>
      let '(x, s) := exec_any c s in
      let '(tr, s) := exec_trail cs s in (x :: tr, s)
  end.

Definition any_admissible (c : AnyCall) (s : St) : Prop :=
  match c with
  | Other (Books op) => forall l, store_ok l s -> admissible store_id l op
  | Other (Keys op) => forall l v, store_ok l s -> vault_ok v s -> vadmissible store_id l v op
  | Other (Evidence op) => forall l, store_ok l s -> aadmissible store_id l op
  | Trail op => forall l, store_ok l s -> ladmissible store_id l op
  end.

(** Every call is admissible when it is made. *)
Fixpoint trail_callable (cs : list AnyCall) (s : St) : Prop :=
  match cs with
  | [] => True
  | c :: cs => any_admissible c s /\ trail_callable cs (exec_any c s).2
  end.

(** The parts of the contract that say which calls are admissible. *)
Definition keeps_books (s : St) : Prop := exists l v, store_ok l s /\ vault_ok v s.

(** An audit read answers from the log. *)
Definition answered (g : Log) (x : Shown) : Prop :=
  forall org txn limit r, x = ShownTrail (LAudit org txn limit) r ->
    exists es, r = LEntries es /\ audit_answer times_apart org txn limit g es.

Context `{!StoreLaws St} `{!VStoreLaws St} `{!LStoreLaws St}.

Lemma any_refines c g s :
  keeps_books s -> log_ok g s -> any_admissible c s ->
  keeps_books (exec_any c s).2 /\ log_ok (g ++ adds (exec_any c s).1) (exec_any c s).2 /\ answered g (exec_any c s).1.
Proof.
  intros (l & v & Hl & Hv) Hg. destruct c as [[op|op|op]|op]; cbn [any_admissible exec_any]; intros Had.
  - specialize (Had l Hl). destruct (store_refines l s op Hl Had) as (l1 & _ & Hl1).
    pose proof (log_noted l g s op Hl Had Hg) as Hg1. assert (Hv1 : vault_ok v (run (exec_op op) s).2) by (by eapply vault_framed).
    destruct (run (exec_op op) s) as [r s1]. cbn in *. split; [by exists l1, v|by split].
  - destruct (vault_refines l v s op Hl Hv (Had l v Hl Hv)) as (v1 & _ & Hl1 & Hv1).
    cbn. rewrite app_nil_r. split; [by exists l, v1|]. split; [by apply log_vframed|done].
  - destruct (log_others l v s op Hl Hv) as [Hl1 Hv1].
    cbn. rewrite app_nil_r. split; [by exists l, v|]. split; [by apply log_aframed|done].
  - destruct (log_refines l v g s op Hl Hv Hg (Had l Hl)) as (g1 & Hs & Hl1 & Hv1 & Hg1).
    destruct (run (exec_lop op) s) as [r s1]. cbn in *. split; [by exists l, v|].
    inversion Hs; subst; cbn; rewrite ?app_nil_r; split; try done. intros org' txn' limit' r' [= <- <- <- <-]. by eexists.
Qed.

Lemma trail_refines cs g s :
  keeps_books s -> log_ok g s -> trail_callable cs s ->
  log_ok (g ++ log_of (exec_trail cs s).1) (exec_trail cs s).2 /\
  forall i x, (exec_trail cs s).1 !! i = Some x -> answered (g ++ log_of (take i (exec_trail cs s).1)) x.
Proof.
  revert g s. induction cs as [|c cs IH]; intros g s Hk Hg; cbn [trail_callable exec_trail].
  { intros _. cbn. rewrite app_nil_r. done. }
  intros [Had Hc]. destruct (any_refines c g s Hk Hg Had) as (Hk1 & Hg1 & Hx).
  destruct (exec_any c s) as [y s1]. cbn [fst snd] in *. specialize (IH _ s1 Hk1 Hg1 Hc).
  destruct (exec_trail cs s1) as [tr s2]. cbn [fst snd] in *. destruct IH as [Hg2 Hall].
  assert (Hcons : forall t, g ++ log_of (y :: t) = (g ++ adds y) ++ log_of t) by (intros t; unfold log_of; cbn; by rewrite app_assoc).
  split; [by rewrite Hcons|]. intros [|i] x Hi.
  - injection Hi as <-. cbn. by rewrite app_nil_r.
  - cbn [take]. rewrite Hcons. by apply Hall.
Qed.

End Runs.

(** Every implementation keeps the log: an audit read returns, up to its
    limit and newest first if the times are [apart], what the calls before it
    logged. *)
Definition trail_honoured (apart : Prop) (tr : list Shown) : Prop :=
  forall i org txn limit r, tr !! i = Some (ShownTrail (LAudit org txn limit) r) ->
    exists es, r = LEntries es /\ audit_answer apart org txn limit (log_of (take i tr)) es.

Lemma trail_contract {St : Type} `{RT : Runtime} `{LS : LStore St} `{!StoreLaws St} `{!VStoreLaws St}
    `{!LStoreLaws St} cs s :
  keeps_books s -> log_ok [] s -> trail_callable cs s ->
  trail_honoured times_apart (exec_trail cs s).1 /\ log_ok (log_of (exec_trail cs s).1) (exec_trail cs s).2.
Proof.
  intros Hk Hg Hc. destruct (trail_refines cs [] s Hk Hg Hc) as [Hl Ha]. split; [|exact Hl].
  intros i org txn limit r Hi. exact (Ha i _ Hi org txn limit r eq_refl).
Qed.
