(* ===== verification/MemLog.v ===== *)
(** * MemLog: MemoryStore keeps the audit trail as the contract says *)

From S2P Require Export LogModel MemArchive.

Open Scope Z_scope.

Section MemLog.
Context `{RL : RuntimeLaws} `{PI : !PlainIds}.

(** The log a memory store stands for. *)
Definition mem_log (g : Log) (w : World) : Prop := g = entry_of <$> st_audit (w_store w).

Definition mem_lexec (op : LOp) : prog LRes :=
  match op with
  | LEmit e => let@ _ := Emit e in Ret LUnit
  | LAudit org txn limit => let@ es := Audit org txn limit in Ret (LEntries (entry_of <$> es))
  end.

#[export] Instance memory_log : LStore World := { exec_lop := mem_lexec; times_apart := True; log_ok := mem_log }.

(** ** Frames *)

Lemma mem_log_noted op w :
  entry_of <$> st_audit (w_store (run (mem_exec op) w).2) =
  (entry_of <$> st_audit (w_store w)) ++ noted op (run (mem_exec op) w).1.
Proof.
  destruct op; cbn [noted]; rewrite ?app_nil_r;
    cbn; unfold CreateAgent, GetAgent, GetTxn, SetTxnStatus, AddAction, GetAction, UpdateAction, CreateApproval,
      GetApproval, DecideApproval, CreatePolicySet, ActivatePolicySet, Policies, CreateGrant, GrantsForAgent, RevokeGrant,
      ListTxns, ActionsForTxn, PendingApprovals, PolicySets, ActivePolicySet,
      m_bind, get_store, modify_store, uid, now, m_ret, ranging; cbn;
    repeat match goal with |- context [if ?b then _ else _] => destruct b; cbn end; repeat (case_match; cbn); rewrite ?fmap_app; by simplify_eq/=.
Qed.

Lemma mem_log_vframed w op : st_audit (w_store (run (mem_vexec op) w).2) = st_audit (w_store w).
Proof.
  destruct op; cbn; try done;
    unfold StoreCredential, GetCredential, RevokeCredential, TouchCredential, TouchOperatorToken, SetIntegrationCredential,
      GetIntegrationCredential, ListIntegrationCredentials, UpsertMCPServer, GetMCPServer, sealLocked, openLocked,
      m_bind, get_store, modify_store, uid, now, tick, m_ret, ranging; cbn;
    repeat match goal with |- context [if ?b then _ else _] => destruct b; cbn end; repeat (case_match; cbn); by simplify_eq/=.
Qed.

Lemma mem_log_aframed w op : st_audit (w_store (run (mem_aexec op) w).2) = st_audit (w_store w).
Proof. by destruct op. Qed.

(** ** The calls *)

Definition seen_by (org txn : string) (e : AuditEvent) : bool := sees org txn (entry_of e).

(** The backward loop stops when the limit is reached. *)
Lemma audit_loop_takes org txn limit l out : Z.of_nat (length out) <= Z.max 0 limit ->
  audit_loop org txn limit l out = out ++ take (Z.to_nat limit - length out) (List.filter (seen_by org txn) l).
Proof.
  revert out. induction l as [|e l IH]; intros out Hl; cbn [audit_loop List.filter]; [by rewrite take_nil, app_nil_r|].
  destruct (Z.ltb_spec (Z.of_nat (length out)) limit) as [Hlt|Hge].
  2: { replace (Z.to_nat limit - length out)%nat with 0%nat by lia. cbn. by rewrite app_nil_r. }
  unfold seen_by at 1, sees. cbn [entry_of en_OrgID en_TransactionID].
  destruct (String.eqb (e_OrgID e) org); cbn [negb andb]; [|by apply IH].
  destruct (String.eqb txn ""), (String.eqb (e_TransactionID e) txn); cbn [negb andb orb]; try (by apply IH);
    rewrite IH by (rewrite length_app; cbn; lia); rewrite length_app, <- app_assoc; f_equal; cbn;
    (replace (Z.to_nat limit - length out)%nat with (S (Z.to_nat limit - (length out + 1))) by lia); done.
Qed.

Lemma filter_entries {A} (f : A -> Entry) (p : Entry -> bool) (l : list A) :
  List.filter p (f <$> l) = f <$> List.filter (fun x => p (f x)) l.
Proof. induction l as [|x l IH]; [done|]. rewrite fmap_cons. cbn. rewrite IH. by destruct (p (f x)). Qed.

Lemma filter_reverse {A} (f : A -> bool) (l : list A) : List.filter f (reverse l) = reverse (List.filter f l).
Proof.
  induction l as [|x l IH]; [done|]. rewrite reverse_cons, List.filter_app, IH. cbn [List.filter].
  destruct (f x); [by rewrite reverse_cons|by rewrite app_nil_r].
Qed.

Lemma mem_audit org txn limit l :
  entry_of <$> audit_loop org txn limit (reverse l) [] =
  take (Z.to_nat limit) (reverse (visible org txn (entry_of <$> l))).
Proof.
  rewrite audit_loop_takes by (cbn; lia). cbn [app length]. rewrite Nat.sub_0_r, fmap_take. unfold visible.
  by rewrite filter_entries, <- fmap_reverse, filter_reverse.
Qed.

Lemma mem_lrefines l v g w op :
  mem_ok l w -> mem_vault v w -> mem_log g w -> ladmissible plain_id l op ->
  exists g', lspec_step True g op (run (mem_lexec op) w).1 g' /\ mem_ok l (run (mem_lexec op) w).2 /\
    mem_vault v (run (mem_lexec op) w).2 /\ mem_log g' (run (mem_lexec op) w).2.
Proof.
  intros Hl Hv ->. destruct op as [e|org txn limit]; intros Had.
  - eexists. split; [apply lspec_emit|]. cbn.
    split; [by apply (mem_ok_frame l w); cbn; try lia|]. split; [by apply (mem_vault_frame v w)|].
    unfold mem_log. cbn. by rewrite fmap_app.
  - eexists. split; [|done]. cbn. rewrite mem_audit. apply lspec_audit, newest_first.
Qed.

#[export] Instance memory_log_laws : LStoreLaws World.
Proof.
  split.
  - intros l v g w op. apply mem_lrefines.
  - intros l g w op _ _ Hg. cbn in Hg |- *. unfold mem_log in *. subst g. symmetry. apply mem_log_noted.
  - intros g w op Hg. cbn in Hg |- *. unfold mem_log in *. by rewrite mem_log_vframed.
  - intros g w op Hg. cbn in Hg |- *. unfold mem_log in *. by rewrite mem_log_aframed.
  - intros l v w op Hl Hv. destruct op; cbn; (apply (mem_others l v w); cbn; [lia|by destruct (w_store w)|done|done]).
Qed.

Lemma mem_log_New p tools : mem_log [] (keyed_new p tools).
Proof. done. Qed.

End MemLog.
