(* ===== verification/Authority.v ===== *)
(** * Authority: delegated authority (internal/gateway/authority.go)

    Every grant of the list reads the clock for itself: [clk i] is the reading
    the i-th grant gets. *)

From S2P Require Export Policies.

Open Scope Z_scope.

Section Authority.
Context `{RT : Runtime}.

Definition ScopeCovers (scope : list string) (tool action : string) : bool :=
  any (fun s => String.eqb s "*" || String.eqb s (tool +:+ ".*") ||
                String.eqb s (tool +:+ "." +:+ action)) scope.

(** [fmt.Sprintf("%v", l)] of a string slice. *)
Definition show_list (l : list string) : string := "[" +:+ Join l " " +:+ "]".

Definition over (limit amount : option Z) : bool :=
  match limit, amount with
  | Some mx, Some n => mx <? n
  | _, _ => false
  end.

Definition GrantCovers (now : time) (g : AuthorityGrant) (tool action : string)
    (amount : option Z) (env : string) : bool * string :=
  if negb (bool_decide (g_RevokedAt g = None)) then (false, "grant revoked")
  else if match g_ExpiresAt g with Some e => e <? now | None => false end
  then (false, "grant expired")
  else if negb (ScopeCovers (g_Scope g) tool action)
  then (false, "scope does not cover " +:+ tool +:+ "." +:+ action)
  else if over (gc_MaxAmountCents (g_Constraints g)) amount
  then (false, "amount " +:+ pretty (default 0 amount) +:+ " exceeds grant limit " +:+
               pretty (default 0 (gc_MaxAmountCents (g_Constraints g))) +:+ " (cents)")
  else if negb (hits (gc_Environments (g_Constraints g)) (fun e => EqualFold e env))
  then (false, "environment " +:+ Quote env +:+ " outside granted " +:+
               show_list (gc_Environments (g_Constraints g)))
  else if negb (String.eqb (g_Environment g) "") && negb (EqualFold (g_Environment g) env)
  then (false, "grant is for environment " +:+ Quote (g_Environment g))
  else (true, "").

(** The loop over the grants with the reasons gathered so far. *)
Fixpoint authority_loop (clk : nat -> time) (n : nat) (grants : list AuthorityGrant)
    (agent : Agent) (tool action : string) (amount : option Z) (reasons : list string)
    : bool * bool * string :=
  match grants with
  | [] =>
      let detail := Join reasons "; " in
      let detail := if String.eqb detail "" then "no grant covers this operation" else detail in
      (false, true, "Agent " +:+ ag_Name agent +:+ " is not authorized for " +:+ tool +:+ "." +:+
                    action +:+ ": " +:+ detail +:+ ".")
  | g :: grants =>
      let '(ok, reason) := GrantCovers (clk n) g tool action amount (ag_Environment agent) in
      if ok then (true, true, "covered by grant " +:+ g_ID g)
      else authority_loop clk (S n) grants agent tool action amount
             (if String.eqb reason "" then reasons else reasons ++ [reason])
  end.

(** covered, hasGrants, why. *)
Definition CheckAuthority (clk : nat -> time) (grants : list AuthorityGrant) (agent : Agent)
    (tool action : string) (amount : option Z) : bool * bool * string :=
  match grants with
  | [] => (true, false, "no authority grants configured; policy-only mode")
  | _ => authority_loop clk 0 grants agent tool action amount []
  end.

(** ** The specification *)

(** A grant is in force for an operation: the six conditions of the code. *)
Record grant_covers (now : time) (g : AuthorityGrant) (tool action : string)
    (amount : option Z) (env : string) : Prop := {
  gcov_live : g_RevokedAt g = None;
  gcov_unexpired : forall e, g_ExpiresAt g = Some e -> now <= e;
  gcov_scope : exists s, s ∈ g_Scope g /\
    (s = "*" \/ s = tool +:+ ".*" \/ s = tool +:+ "." +:+ action);
  gcov_amount : forall mx n, gc_MaxAmountCents (g_Constraints g) = Some mx ->
    amount = Some n -> n <= mx;
  gcov_envs : gc_Environments (g_Constraints g) = [] \/
    exists e, e ∈ gc_Environments (g_Constraints g) /\ EqualFold e env = true;
  gcov_env : g_Environment g = "" \/ EqualFold (g_Environment g) env = true }.

Lemma hits_spec {A} (l : list A) f :
  hits l f = true <-> l = [] \/ exists x, x ∈ l /\ f x = true.
Proof.
  destruct l as [|x l]; [cbn; split; auto|]. unfold hits. rewrite any_true.
  split; [auto|]. intros [?|?]; [done|auto].
Qed.

Lemma ScopeCovers_spec scope tool action :
  ScopeCovers scope tool action = true <->
  exists s, s ∈ scope /\ (s = "*" \/ s = tool +:+ ".*" \/ s = tool +:+ "." +:+ action).
Proof.
  unfold ScopeCovers. rewrite any_true. split; intros (s & Hs & H); exists s; split; auto.
  - rewrite !orb_true_iff, !String.eqb_eq in H. tauto.
  - rewrite !orb_true_iff, !String.eqb_eq. tauto.
Qed.

Lemma over_spec limit amount :
  over limit amount = false <->
  forall mx n, limit = Some mx -> amount = Some n -> n <= mx.
Proof.
  destruct limit as [mx|], amount as [n|]; cbn; try (split; [intros; congruence|done]).
  rewrite Z.ltb_ge. split; [|auto]. intros H mx' n' ? ?. by simplify_eq.
Qed.

Lemma GrantCovers_iff now g tool action amount env :
  fst (GrantCovers now g tool action amount env) = true <->
  grant_covers now g tool action amount env.
Proof.
  unfold GrantCovers. split.
  - intros H.
    destruct (negb (bool_decide (g_RevokedAt g = None))) eqn:E1; [done|].
    destruct (match g_ExpiresAt g with Some e => e <? now | None => false end) eqn:E2; [done|].
    destruct (negb (ScopeCovers _ _ _)) eqn:E3; [done|].
    destruct (over _ _) eqn:E4; [done|].
    destruct (negb (hits _ _)) eqn:E5; [done|].
    destruct (negb (String.eqb _ _) && _) eqn:E6; [done|]. bool_guards.
    split.
    + done.
    + intros e He. rewrite He in E2. by apply Z.ltb_ge in E2.
    + by apply ScopeCovers_spec.
    + by apply over_spec.
    + by apply hits_spec.
    + apply andb_false_iff in E6 as [E6|E6]; bool_guards; auto.
  - intros [H1 H2 H3 H4 H5 H6]. rewrite H1.
    rewrite bool_decide_true by done.
    replace (match g_ExpiresAt g with Some e => e <? now | None => false end) with false.
    2: { destruct (g_ExpiresAt g) as [e|]; [|done]. symmetry. apply Z.ltb_ge. by apply H2. }
    rewrite (proj2 (ScopeCovers_spec _ _ _) H3), (proj2 (over_spec _ _) H4),
      (proj2 (hits_spec _ _) H5).
    destruct H6 as [-> | ->]; [done|]. by rewrite andb_false_r.
Qed.

(** A refusal always says why. *)
Lemma GrantCovers_reason now g tool action amount env :
  fst (GrantCovers now g tool action amount env) = false ->
  snd (GrantCovers now g tool action amount env) <> "".
Proof. unfold GrantCovers. repeat case_match_goal; first [discriminate|intros _; discriminate]. Qed.

Lemma authority_loop_spec clk n grants agent tool action amount reasons :
  let '(covered, has, why) := authority_loop clk n grants agent tool action amount reasons in
  has = true /\
  (covered = true <-> exists k g, grants !! k = Some g /\
     grant_covers (clk (n + k)%nat) g tool action amount (ag_Environment agent)).
Proof.
  revert n reasons. induction grants as [|g grants IH]; intros n reasons; cbn [authority_loop].
  { split; [done|]. split; [done|]. intros (k & g & Hk & _). by rewrite lookup_nil in Hk. }
  destruct (GrantCovers (clk n) g tool action amount (ag_Environment agent)) as [ok reason] eqn:Eg.
  pose proof (GrantCovers_iff (clk n) g tool action amount (ag_Environment agent)) as Hiff.
  rewrite Eg in Hiff. cbn [fst] in Hiff. destruct ok.
  - split; [done|]. split; [|done]. intros _. exists 0%nat, g.
    split; [done|]. rewrite Nat.add_0_r. by apply Hiff.
  - specialize (IH (S n) (if String.eqb reason "" then reasons else reasons ++ [reason])).
    destruct (authority_loop _ _ _ _ _ _ _ _) as [[covered has] why].
    destruct IH as [Hh IH]. split; [done|]. rewrite IH. split.
    + intros (k & g' & Hk & Hc). exists (S k), g'. split; [done|].
      by rewrite <- Nat.add_succ_comm.
    + intros ([|k] & g' & Hk & Hc).
      * cbn in Hk. injection Hk as <-. rewrite Nat.add_0_r in Hc. by apply Hiff in Hc.
      * exists k, g'. split; [done|]. by rewrite <- Nat.add_succ_comm in Hc.
Qed.

End Authority.

(** ** Properties *)

Section AuthorityProperties.
Context `{RT : Runtime}.

(** C36: authority is refused exactly when the agent has grants and none of
    them is live, unexpired, in scope, within its amount limit and for the
    agent's environment; an agent without grants is in policy-only mode. *)
Theorem CheckAuthority_sound_complete now grants agent tool action amount :
  let '(covered, hasGrants, _) := CheckAuthority (fun _ => now) grants agent tool action amount in
  (hasGrants = true <-> grants <> []) /\
  (covered = true <-> grants = [] \/
     exists g, g ∈ grants /\ grant_covers now g tool action amount (ag_Environment agent)).
Proof.
  unfold CheckAuthority. destruct grants as [|g grants].
  { split; split; try done. by left. }
  pose proof (authority_loop_spec (fun _ => now) 0 (g :: grants) agent tool action amount []) as Hl.
  destruct (authority_loop _ _ _ _ _ _ _ _) as [[covered has] why].
  destruct Hl as [-> Hl]. split; [by split|]. rewrite Hl. split.
  - intros (k & g' & Hk & Hc). right. exists g'. split; [by eapply list_elem_of_lookup_2|done].
  - intros [?|(g' & Hg & Hc)]; [done|].
    apply list_elem_of_lookup in Hg as [k Hk]. by exists k, g'.
Qed.

End AuthorityProperties.
