(* ===== verification/Jev.v ===== *)
(** * Jev: the optional risk screen (internal/jev/jev.go)

    The environment variables of the process and the remote judge are
    parameters ([JevEnv]); the judge's reply is what the client sees of it:
    a transport error, a status that is not 200, or a decoded body. *)

From Stdlib Require Import SpecFloat Ascii.
From S2P Require Export Receipts.

Open Scope Z_scope.

(** ** Types *)

Record JevAction := MkJevAction {
  ja_Tool : string;
  ja_Name : string;
  ja_AmountCents : Z;
  ja_Arguments : gomap;
  ja_Classes : list string;
  ja_AgentName : string;
  ja_AgentGroups : list string;
  ja_AgentEnv : string;
  ja_SiblingCount : Z;
  ja_SiblingTotal : Z }.

Record Risk := MkRisk { rk_Score100 : Z; rk_Confidence : spec_float }.

Record scoreAnswer := MkScoreAnswer { sa_Score : spec_float; sa_Confidence : spec_float }.

Inductive judge_reply :=
  | ReplyBadRequest (err : string)
  | ReplyTransport (err : string)
  | ReplyStatus (status : string)
  | ReplyMalformed (err : string)
  | ReplyAnswers (answers : gmap string scoreAnswer).

Class JevEnv := {
  getenv : string -> string;
  (** the verb %v on a dynamically typed value *)
  sprint_v : value -> string;
  (** the verb %.2f *)
  sprint_2f : spec_float -> string;
  (** tick, endpoint, key and body of the POST *)
  judge : nat -> string -> string -> string -> judge_reply
}.

(** ** Runes *)

Definition rune_error : string :=
  String "239"%char (String "191"%char (String "189"%char EmptyString)).

(** [[]rune(s)], each rune as the bytes [string] gives it back. *)
Fixpoint runes (s : string) : list string :=
  match s with
  | EmptyString => []
  | String b0 s1 =>
      if is_ascii_char b0 then String b0 EmptyString :: runes s1
      else
        match s1 with
        | String b1 s2 =>
            if byte_in 194 223 b0 && cont b1
            then String b0 (String b1 EmptyString) :: runes s2
            else
              match s2 with
              | String b2 s3 =>
                  if byte_in 224 239 b0 && second_ok b0 b1 && cont b2
                  then String b0 (String b1 (String b2 EmptyString)) :: runes s3
                  else
                    match s3 with
                    | String b3 s4 =>
                        if byte_in 240 244 b0 && second_ok b0 b1 && cont b2 && cont b3
                        then String b0 (String b1 (String b2 (String b3 EmptyString))) :: runes s4
                        else rune_error :: runes s1
                    | EmptyString => rune_error :: runes s1
                    end
              | EmptyString => rune_error :: runes s1
              end
        | EmptyString => rune_error :: runes s1
        end
  end.

Section Jev.
Context `{RT : Runtime} `{JE : JevEnv}.

Definition defaultEndpoint : string := "https://api.typesafe.ai/v1/systemone".

Definition maxArgsChars : nat := 2000.

Definition levels : list string :=
  [ "Routine low-value or read-only action with nothing unusual";
    "Normal business action within ordinary bounds";
    "Notable: sizable amount, repeat pattern, or first-seen feature — worth a human glance";
    "Suspicious: odd amount, strange arguments, or an inconsistent burst pattern";
    "Clearly abusive: likely fraud, theft, exfiltration, or deliberate policy evasion" ].

Definition Enabled : bool := String.eqb (getenv "SETTLE_JEV") "1".

Definition Threshold : Z :=
  match Atoi (getenv "SETTLE_JEV_THRESHOLD") with
  | Some v => if (0 <=? v) && (v <=? 100) then v else 70
  | None => 70
  end.

Definition clamp_value (v : value) : string :=
  let s := sprint_v v in
  let r := runes s in
  if Nat.ltb 200 (length r) then Join (take 200 r) "" else s.

(** The loop over the entries in the order [range] meets them. *)
Fixpoint clamp_loop (entries : list (string * value)) (total : nat) (out : gmap string value)
    : gmap string value :=
  match entries with
  | [] => out
  | (k, v) :: entries =>
      let s := clamp_value v in
      let out := <[ k := VString s ]> out in
      let total := (total + (String.length s + String.length k))%nat in
      if Nat.leb maxArgsChars total then out else clamp_loop entries total out
  end.

Definition clampArgs (n : nat) (args : gomap) : gmap string value :=
  clamp_loop (range_map n (default ∅ args)) 0 ∅.

Definition screen_request (n : nat) (a : JevAction) : value :=
  let obj (m : gmap string value) := value_of_map (Some m) in
  obj {[
    "model" := VString "jev-latest";
    "state" := obj {[
      "tool" := VString (ja_Tool a);
      "action" := VString (ja_Name a);
      "amount_cents" := VInt64 (ja_AmountCents a);
      "arguments" := value_of_map (Some (clampArgs n (ja_Arguments a)));
      "classes" := VStrings (ja_Classes a);
      "agent" := obj {[ "name" := VString (ja_AgentName a);
                        "groups" := VStrings (ja_AgentGroups a);
                        "environment" := VString (ja_AgentEnv a) ]};
      "sibling_count" := VInt (ja_SiblingCount a);
      "sibling_total" := VInt64 (ja_SiblingTotal a);
      "risk_threshold" := VInt Threshold ]};
    "questions" := obj {[
      "risk" := obj {[
        "type" := VString "score";
        "instructions" := VString "How risky is this proposed agent action? Weigh the amount, the arguments, the agent's role, and the transaction siblings (repeated similar actions in one transaction raise risk).";
        "criteria" := VStrings levels ]} ]} ]}.

(** [int(risk.Score*25 + 0.5)] clamped to 0..100. *)
Definition score100 (score : spec_float) : Z :=
  let half := float_of_decimal 5 1 in
  let s := int64_of_float
    (SFadd 53 1024 (SFmul 53 1024 score (float_of_Z 25)) half) in
  let s := if s <? 0 then 0 else s in
  if 100 <? s then 100 else s.

Definition ScreenRisk (n : nat) (a : JevAction) : Risk + string :=
  let key := getenv "JEV_API_KEY" in
  if String.eqb key "" then inr "jev: JEV_API_KEY is not set"
  else
    let endpoint := if String.eqb (getenv "JEV_API_URL") "" then defaultEndpoint
                    else getenv "JEV_API_URL" in
    match encode (screen_request n a) with
    | None => inr "jev: encode request: json: unsupported value"
    | Some body =>
        match judge n endpoint key body with
        | ReplyBadRequest err => inr ("jev: build request: " +:+ err)
        | ReplyTransport err => inr ("jev: request failed: " +:+ err)
        | ReplyStatus status => inr ("jev: endpoint returned " +:+ status)
        | ReplyMalformed err => inr ("jev: decode response: " +:+ err)
        | ReplyAnswers answers =>
            match answers !! "risk" with
            | None => inr "jev: response missing risk"
            | Some risk => inl (MkRisk (score100 (sa_Score risk)) (sa_Confidence risk))
            end
        end
    end.

(** [risk.Confidence < 0.5]. *)
Definition torn (r : Risk) : bool := SFltb (rk_Confidence r) (float_of_decimal 5 1).

(** The last tests of jevScreenRisk on the judge's answer. *)
Definition risk_verdict (r : Risk + string) : bool * string :=
  match r with
  | inr err => (true, "risk screen unavailable: " +:+ err)
  | inl risk =>
      if torn risk then
        (true, "uncertain risk (score " +:+ pretty (rk_Score100 risk) +:+ ", confidence " +:+
               sprint_2f (rk_Confidence risk) +:+ ")")
      else if Threshold <=? rk_Score100 risk then
        (true, "risk score " +:+ pretty (rk_Score100 risk) +:+ " >= threshold " +:+
               pretty Threshold)
      else (false, "")
  end.

(** ** Lemmas *)

Lemma Threshold_range : 0 <= Threshold <= 100.
Proof. unfold Threshold. repeat case_match_goal; bool_guards; lia. Qed.

Lemma score100_range s : 0 <= score100 s <= 100.
Proof.
  unfold score100. repeat case_match_goal; lia.
Qed.

Lemma ScreenRisk_score n a risk : ScreenRisk n a = inl risk -> 0 <= rk_Score100 risk <= 100.
Proof.
  unfold ScreenRisk. repeat case_match_goal; intros H; try discriminate H;
    injection H as <-; apply score100_range.
Qed.

End Jev.

(** A quiet judge and one that calls everything risky, for concrete runs. *)
Definition jev_off : JevEnv := {|
  getenv := fun _ => ""; sprint_v := fun _ => "v"; sprint_2f := fun _ => "0.00";
  judge := fun _ _ _ _ => ReplyTransport "off" |}.

Definition jev_on (score confidence : spec_float) : JevEnv := {|
  getenv := fun k => if String.eqb k "SETTLE_JEV" then "1"
                     else if String.eqb k "JEV_API_KEY" then "k" else "";
  sprint_v := fun _ => "v"; sprint_2f := fun _ => "0.00";
  judge := fun _ _ _ _ => ReplyAnswers {[ "risk" := MkScoreAnswer score confidence ]} |}.

Section JevProperties.
Context `{RT : Runtime} `{JE : JevEnv}.

(** The screen fails closed: an action passes without a human only when
    the judge answered with a score below the threshold and a confidence that
    is not below one half; no key, an unreachable or malformed judge, a
    missing answer, and a torn or high score all escalate, each with a
    reason. *)
Theorem screen_fails_closed n a :
  let '(escalate, why) := risk_verdict (ScreenRisk n a) in
  (escalate = false <->
     exists risk, ScreenRisk n a = inl risk /\ torn risk = false /\
                  rk_Score100 risk < Threshold) /\
  (escalate = true <-> why <> "") /\
  (escalate = false -> getenv "JEV_API_KEY" <> "" /\
     exists endpoint body answers ans,
       judge n endpoint (getenv "JEV_API_KEY") body = ReplyAnswers answers /\
       answers !! "risk" = Some ans /\ score100 (sa_Score ans) < Threshold).
Proof.
  unfold risk_verdict. destruct (ScreenRisk n a) as [risk|err] eqn:Er.
  2: { split; [|split]; [|split; [discriminate|done]|done]. split; [done|]. by intros (? & ? & _). }
  destruct (torn risk) eqn:Et.
  { split; [|split]; [|split; [discriminate|done]|done].
    split; [done|]. intros (? & Heq & ? & _). congruence. }
  destruct (Z.leb_spec Threshold (rk_Score100 risk)) as [Hle|Hlt].
  { split; [|split]; [|split; [discriminate|done]|done].
    split; [done|]. intros (? & Heq & _ & ?). injection Heq as <-. lia. }
  split; [|split]; [split; eauto|done|]. intros _.
  unfold ScreenRisk in Er.
  destruct (String.eqb (getenv "JEV_API_KEY") "") eqn:Ek; [done|]. bool_guards.
  split; [done|]. destruct (encode _) as [body|]; [|done].
  destruct (judge _ _ _ _) as [| | | |answers] eqn:Ej; try done.
  destruct (answers !! "risk") as [ans|] eqn:Ea; [|done]. injection Er as <-. eauto 10.
Qed.

End JevProperties.
