(* ===== verification/LocalKeys.v ===== *)
(** * LocalKeys: the local key provider (internal/keys/keys.go)

    Ed25519 and AES-GCM are parameters ([Crypto]) with the equations their
    documentation promises ([CryptoLaws]); everything the program does around
    them - key parsing, the envelope, legacy values - is written out. *)

From Stdlib Require Import Ascii.
From S2P Require Export State Encoding Jev.

Open Scope Z_scope.

Class Crypto := {
  (** [ed25519.GenerateKey]: the 64 bytes of a private key; [None] is an error *)
  GenerateKey : nat -> option string;
  (** [ed25519.NewKeyFromSeed] *)
  NewKeyFromSeed : string -> string;
  (** private key, message *)
  ed25519_Sign : string -> string -> string;
  (** public key, message, signature *)
  ed25519_Verify : string -> string -> string -> bool;
  (** AES-256-GCM: key, nonce, text, additional data *)
  gcm_Seal : string -> string -> string -> string -> string;
  gcm_Open : string -> string -> string -> string -> option string;
  (** the n-th read of 12 bytes from [rand.Reader] *)
  rand_nonce : nat -> option string
}.

(** A private key whose public half belongs to its seed. *)
Definition well_formed_key `{Crypto} (key : string) : Prop :=
  key = NewKeyFromSeed (take_string 32 key).

Class CryptoLaws `{CR : Crypto} := {
  GenerateKey_wf : forall n key, GenerateKey n = Some key -> well_formed_key key;
  seed_key : forall seed, String.length seed = 32%nat ->
    take_string 32 (NewKeyFromSeed seed) = seed;
  sign_nonempty : forall key m, ed25519_Sign key m <> "";
  verify_sign : forall key m, well_formed_key key ->
    ed25519_Verify (drop_string 32 key) m (ed25519_Sign key m) = true;
  gcm_open_seal : forall key nonce pt ad, gcm_Open key nonce (gcm_Seal key nonce pt ad) ad = Some pt;
  rand_nonce_length : forall n nonce, rand_nonce n = Some nonce -> String.length nonce = 12%nat
}.

Section Keys.
Context `{RT : Runtime} `{JE : JevEnv} `{CR : Crypto}.

Record localProvider := MkLocalProvider { lp_id : string; lp_key : string; lp_dataKey : string }.

(** [key.Public()]. *)
Definition Public (key : string) : string := drop_string 32 key.

Definition KeyID (p : localProvider) : string := lp_id p.

Definition Sign (p : localProvider) (message : string) : string := ed25519_Sign (lp_key p) message.

Definition Verify (p : localProvider) (message signature : string) : bool :=
  ed25519_Verify (Public (lp_key p)) message signature.

(** [aes.NewCipher] accepts 16, 24 and 32 bytes. *)
Definition aes_key_ok (key : string) : bool :=
  let n := String.length key in Nat.eqb n 16 || Nat.eqb n 24 || Nat.eqb n 32.

Definition Seal (p : localProvider) (n : nat) (plaintext : string) : option string :=
  if negb (aes_key_ok (lp_dataKey p)) then None
  else
    match rand_nonce n with
    | None => None
    | Some nonce =>
        let ct := nonce +:+ gcm_Seal (lp_dataKey p) nonce plaintext (lp_id p) in
        Some ("v1:" +:+ b64_encode ct)
    end.

Definition Open_ (p : localProvider) (sealed : string) : option string :=
  if negb (HasPrefix sealed "v1:") then Some sealed
  else
    match b64_decode (TrimPrefix sealed "v1:") with
    | None => None
    | Some raw =>
        if negb (aes_key_ok (lp_dataKey p)) then None
        else if Nat.ltb (String.length raw) 12 then None
        else gcm_Open (lp_dataKey p) (take_string 12 raw) (drop_string 12 raw) (lp_id p)
    end.

(** The provider as the rest of the program sees it. *)
Definition provider_of (p : localProvider) : Provider :=
  MkProvider (KeyID p) (Sign p) (Verify p) (Seal p) (Open_ p).

(** The data key and whether it was given. *)
Definition dataKeyFor (key : string) : string * bool :=
  let derived := (sha256 (Public key), false) in
  let raw := getenv "AG_DATA_KEY" in
  if String.eqb raw "" then derived
  else match hex_decode raw with
       | Some b => if Nat.eqb (String.length b) 32 then (b, true) else derived
       | None => derived
       end.

(** The provider and whether its key persists; [None] is an error. *)
Definition Load (n : nat) : option (localProvider * bool) :=
  let raw := getenv "AG_SIGNING_KEY" in
  if String.eqb raw "" then
    match GenerateKey n with
    | None => None
    | Some key => Some (MkLocalProvider "ephemeral-dev" key (fst (dataKeyFor key)), false)
    end
  else
    match hex_decode raw with
    | None => None
    | Some b =>
        let key := if Nat.eqb (String.length b) 32 then Some (NewKeyFromSeed b)
                   else if Nat.eqb (String.length b) 64 then Some b else None in
        match key with
        | None => None
        | Some key => Some (MkLocalProvider ("local-" +:+ hex_encode (take_string 8 (Public key)))
                              key (fst (dataKeyFor key)), true)
        end
    end.

(** ** Properties *)

Context `{!RuntimeLaws} `{!CryptoLaws}.

Lemma dataKeyFor_length key : String.length (fst (dataKeyFor key)) = 32%nat.
Proof.
  unfold dataKeyFor. destruct (String.eqb _ ""); [apply sha256_length|].
  destruct (hex_decode _) as [b|]; [|apply sha256_length].
  destruct (Nat.eqb_spec (String.length b) 32); [done|apply sha256_length].
Qed.

(** The key a provider is loaded with: generated, from a seed, or as given. *)
Lemma Load_cases n p persistent : Load n = Some (p, persistent) ->
  String.length (lp_dataKey p) = 32%nat /\ lp_id p <> "" /\
  (well_formed_key (lp_key p) \/
   exists b, hex_decode (getenv "AG_SIGNING_KEY") = Some b /\ String.length b = 64%nat /\ lp_key p = b).
Proof.
  unfold Load. destruct (String.eqb _ "").
  - destruct (GenerateKey n) as [key|] eqn:Eg; [|done]. intros [= <- <-].
    split; [apply dataKeyFor_length|]. split; [done|]. left. by eapply GenerateKey_wf.
  - destruct (hex_decode _) as [b|] eqn:Eb; [|done].
    destruct (Nat.eqb_spec (String.length b) 32) as [E|_]; [|destruct (Nat.eqb_spec (String.length b) 64) as [E|_]; [|done]];
      intros [= <- <-]; (split; [apply dataKeyFor_length|]); (split; [done|]).
    + left. unfold well_formed_key. cbn [lp_key]. by rewrite seed_key.
    + right. by exists b.
Qed.

Lemma take_app_string s t : take_string (String.length s) (s +:+ t) = s.
Proof.
  induction s as [|c s IH]; [by destruct t|]. change (String c s +:+ t) with (String c (s +:+ t)).
  cbn [String.length take_string]. by rewrite IH.
Qed.

Lemma Open_Seal p n pt sealed : Seal p n pt = Some sealed -> Open_ p sealed = Some pt.
Proof.
  unfold Seal, Open_. destruct (aes_key_ok (lp_dataKey p)) eqn:Ek; cbn [negb]; [|done].
  destruct (rand_nonce n) as [nonce|] eqn:En; [|done]. intros [= <-].
  apply rand_nonce_length in En.
  rewrite HasPrefix_app, TrimPrefix_app, b64_decode_encode. cbn [negb].
  assert (Hlt : Nat.ltb (String.length (nonce +:+ gcm_Seal (lp_dataKey p) nonce pt (lp_id p))) 12 = false).
  { apply Nat.ltb_ge. rewrite string_length_app, En. lia. }
  rewrite Hlt, <- En, take_app_string, drop_string_app. apply gcm_open_seal.
Qed.

Lemma Seal_marked p n pt sealed : Seal p n pt = Some sealed -> HasPrefix sealed "v1:" = true.
Proof.
  unfold Seal. destruct (negb _); [done|]. destruct (rand_nonce n); [|done]. intros [= <-].
  apply HasPrefix_app.
Qed.

Lemma Seal_fails n p persistent k pt : Load n = Some (p, persistent) ->
  Seal p k pt = None -> rand_nonce k = None.
Proof.
  intros Hl. apply Load_cases in Hl as (Hd & _). unfold Seal, aes_key_ok. rewrite Hd. cbn.
  by destruct (rand_nonce k).
Qed.

(** The key provider keeps its promises.  Whatever the environment holds,
    a provider Load returns opens everything it seals, whichever nonce was
    drawn, passes text that was never sealed through unless it begins with
    the seal's own mark, fails to seal only when randomness fails; and unless
    a 64-byte key was given whose public half does not belong to its seed, it
    accepts its own signatures, which are never empty. *)
Theorem Load_provider n p persistent :
  Load n = Some (p, persistent) ->
  (forall k pt sealed, Seal p k pt = Some sealed -> sealed <> "" /\ Open_ p sealed = Some pt) /\
  (forall s, HasPrefix s "v1:" = false -> Open_ p s = Some s) /\
  (forall k pt, Seal p k pt = None <-> rand_nonce k = None) /\
  KeyID p <> "" /\ (forall m, Sign p m <> "") /\
  ((forall b, hex_decode (getenv "AG_SIGNING_KEY") = Some b -> String.length b = 64%nat ->
      well_formed_key b) -> forall m, Verify p m (Sign p m) = true).
Proof.
  intros Hl. apply Load_cases in Hl as (Hd & Hid & Hk). split; [|split; [|split; [|split; [|split]]]].
  - intros k pt sealed Hs. split; [|by eapply Open_Seal]. intros ->. unfold Seal in Hs.
    destruct (negb _); [done|]. by destruct (rand_nonce k).
  - intros s Hs. unfold Open_. by rewrite Hs.
  - intros k pt. unfold Seal, aes_key_ok. rewrite Hd. cbn. by destruct (rand_nonce k).
  - exact Hid.
  - intros m. apply sign_nonempty.
  - intros Hwf m. apply verify_sign. destruct Hk as [Hk|(b & Hb & Hlen & ->)]; [done|by apply Hwf].
Qed.

End Keys.
