(* ===== verification/Net.v ===== *)
(** * Net: the outside world of the live integrations

    What [net/http], [net/url], [net], [encoding/json] and pgx answer to the
    clients of internal/integrations: a request sent at a clock tick gets a
    response or a transport error, a text parses as a URL or not, a host
    resolves to addresses.  These answers are parameters ([Net]).  The loop of
    [http.Client.Do], which sends further requests when a server answers with a
    redirect, and the helpers of packages [strings] and [net] with closed
    definitions are written out. *)

From Stdlib Require Import Ascii.
From S2P Require Export Jev.

Open Scope Z_scope.

(** ** Requests, responses, URLs *)

Record HttpRequest := MkHttpRequest {
  hr_Method : string; hr_URL : string; hr_Headers : gmap string string; hr_Body : option string }.

#[export] Instance eta_HttpRequest : Eta HttpRequest := fun r =>
  MkHttpRequest (hr_Method r) (hr_URL r) (hr_Headers r) (hr_Body r).

(** [hs_Location] is the header of that name, empty when there is none;
    [hs_Body] is what reading the body to its end (or to an error) yields. *)
Record HttpResponse := MkHttpResponse {
  hs_StatusCode : Z; hs_Location : string; hs_Body : string }.

(** One request of a client and its answer: the tick of the call, the number
    of requests the call sent before, the request. *)
Definition Trip : Type := nat -> nat -> HttpRequest -> HttpResponse + string.

Record URL := MkURL { u_Scheme : string; u_Host : string; u_Hostname : string }.

(** The decoded [rpcResponse]: the bytes of the result, code and message of
    the error. *)
Record rpcResponse := MkRpcResponse {
  rpc_Result : option string; rpc_Error : option (Z * string) }.

(** What the client asks of a session with a Postgres server, in order; the
    commit says whether the rows were read to their end. *)
Inductive PgCommand :=
  | PgConnect (dsn : string)
  | PgBeginTx (readOnly : bool)
  | PgExec (sql : string)
  | PgQuery (sql : string)
  | PgCommit (read_to_end : bool).

(** The rows of a query: column names, the rows, each decoded or not, and
    [rows.Err], which depends on whether they were read to their end. *)
Record PgResult := MkPgResult {
  pr_Cols : list string; pr_Rows : list (list value + string); pr_Err : bool -> option string }.

Class Net := {
  (** [http.NewRequestWithContext]: its error for a method and a URL *)
  new_request_err : string -> string -> option string;
  (** the transport: [send] of one request *)
  http_trip : Trip;
  (** [req.URL.Parse] of a Location against the URL of the last request *)
  url_resolve : string -> string -> string + string;
  (** the headers of a redirected request, from the requests sent so far: those
      of the first, the sensitive ones only while the host stays, and Referer *)
  redirect_header : list HttpRequest -> string -> gmap string string;
  (** the text of a [*url.Error]: method, URL and cause *)
  url_error : string -> string -> string -> string;
  (** [url.Parse] *)
  url_Parse : string -> option URL;
  (** the addresses of a host, as [net.IP] bytes; [None] is an error *)
  LookupIPAddr : nat -> string -> option (list (list Z));
  (** the answer to the last command of a session; commands other than a
      query have no rows *)
  pg_session : nat -> list PgCommand -> PgResult + string;
  (** [json.Unmarshal] into a [map[string]any], an [rpcResponse], a tool list *)
  unmarshal_map : string -> gomap + string;
  unmarshal_rpc : string -> rpcResponse + string;
  unmarshal_tools : string -> list (string * string) + string;
  (** Unicode case and space *)
  ToUpper : string -> string;
  ToLower : string -> string;
  TrimSpace : string -> string;
  (** the verb %.20s *)
  sprint_20s : string -> string
}.

(** ** Package http: Client.Do

    The clients of the program are [&http.Client{Timeout: ...}]: no
    [CheckRedirect], no cookie jar.  Such a client follows redirects up to ten
    requests; every body the program sends can be sent again ([GetBody]). *)

(** Method of the next request, and whether it carries the body. *)
Definition redirectBehavior (reqMethod : string) (status : Z) : option (string * bool) :=
  if (status =? 301) || (status =? 302) || (status =? 303) then
    Some (if negb (String.eqb reqMethod "GET") && negb (String.eqb reqMethod "HEAD")
          then "GET" else reqMethod, false)
  else if (status =? 307) || (status =? 308) then Some (reqMethod, true)
  else None.

Section Client.
Context `{NT : Net}.

(** What [do] does with the answer to [req], the last of [sent]: [None] is to
    return it, [inl] the next request, [inr] the error of the Location. *)
Definition next_request (sent : list HttpRequest) (req : HttpRequest) (resp : HttpResponse)
    : option (HttpRequest + string) :=
  match redirectBehavior (hr_Method req) (hs_StatusCode resp) with
  | None => None
  | Some (method, includeBody) =>
      if String.eqb (hs_Location resp) "" then None
      else
        match url_resolve (hr_URL req) (hs_Location resp) with
        | inr err => Some (inr err)
        | inl u => Some (inl (MkHttpRequest method u (redirect_header sent u)
                     (if includeBody then hr_Body req else None)))
        end
  end.

(** The loop of [do] over a transport: the requests sent, in order, and what
    [Do] returns.  [budget] is 9 less the redirects followed so far:
    [defaultCheckRedirect] refuses an eleventh request. *)
Fixpoint do_loop (f : Trip) (n budget : nat) (op : string) (via : list HttpRequest) (req : HttpRequest)
    : list HttpRequest * (HttpResponse + string) :=
  let sent := via ++ [req] in
  match f n (length via) req with
  | inr err => (sent, inr (url_error op (hr_URL req) err))
  | inl resp =>
      match next_request sent req resp with
      | None => (sent, inl resp)
      | Some (inr err) => (sent, inr (url_error op (hr_URL req) err))
      | Some (inl next) =>
          match budget with
          | O => (sent, inr (url_error op (hs_Location resp) "stopped after 10 redirects"))
          | S budget => do_loop f n budget op sent next
          end
      end
  end.

Definition client_do (f : Trip) (n : nat) (req : HttpRequest)
    : list HttpRequest * (HttpResponse + string) :=
  do_loop f n 9 (hr_Method req) [] req.

(** [client.Do] at a clock tick. *)
Definition http_do (n : nat) (req : HttpRequest) : HttpResponse + string :=
  (client_do http_trip n req).2.

(** Each request of the list after the first is the one the answer to the
    request before it asks for. *)
Definition redirected (f : Trip) (n : nat) (sent : list HttpRequest) : Prop :=
  forall i r r', sent !! i = Some r -> sent !! S i = Some r' ->
    exists resp, f n i r = inl resp /\ next_request (take (S i) sent) r resp = Some (inl r').

(** [do] sends [req] first, then only what it is redirected to. *)
Lemma do_loop_sent f n budget op via req :
  exists more, (do_loop f n budget op via req).1 = via ++ req :: more /\ (length more <= budget)%nat /\
    forall i r r', (req :: more) !! i = Some r -> (req :: more) !! S i = Some r' ->
      exists resp, f n (length via + i)%nat r = inl resp /\
        next_request (via ++ take (S i) (req :: more)) r resp = Some (inl r').
Proof.
  revert via req. induction budget as [|budget IH]; intros via req; cbn [do_loop];
    destruct (f n (length via) req) as [resp|err] eqn:Ef;
    try destruct (next_request (via ++ [req]) req resp) as [[next|err]|] eqn:En;
    try (exists []; split; [done|]; split; [cbn; lia|]; intros i r r' _ H; by destruct i).
  destruct (IH (via ++ [req]) next) as (more & Hm & Hl & Hc). exists (next :: more).
  split; [by rewrite Hm, <- (assoc_L (++))|]. split; [cbn; lia|].
  intros [|i] r r' Hr Hr'; cbn in Hr, Hr'.
  - injection Hr as <-. injection Hr' as <-. exists resp. by rewrite Nat.add_0_r.
  - destruct (Hc i r r' Hr Hr') as (resp' & Hf' & Hn'). exists resp'.
    rewrite length_app in Hf'. cbn in Hf'. split.
    { by replace (length via + S i)%nat with (length via + 1 + i)%nat by lia. }
    rewrite <- (assoc_L (++)) in Hn'. exact Hn'.
Qed.

Lemma client_do_sent f n req :
  exists more, (client_do f n req).1 = req :: more /\ (length more <= 9)%nat /\
    redirected f n (client_do f n req).1.
Proof.
  destruct (do_loop_sent f n 9 (hr_Method req) [] req) as (more & Hm & Hl & Hc).
  unfold client_do, redirected. rewrite Hm. exists more. split_and!; [done|done|]. exact Hc.
Qed.

Lemma do_loop_first f n budget op via req : (do_loop f n budget op via req).1 !! length via = Some req.
Proof.
  destruct (do_loop_sent f n budget op via req) as (more & -> & _).
  by rewrite lookup_app_r, Nat.sub_diag by done.
Qed.

(** [do] depends on the answers to the requests it sends and on no others. *)
Lemma do_loop_agree f g n budget op via req :
  (forall i r, (do_loop f n budget op via req).1 !! i = Some r -> (length via <= i)%nat -> g n i r = f n i r) ->
  do_loop g n budget op via req = do_loop f n budget op via req.
Proof.
  revert via req. induction budget as [|budget IH]; intros via req H.
  all: assert (Hg : g n (length via) req = f n (length via) req) by (apply H; [apply do_loop_first|done]).
  all: cbn [do_loop] in *; rewrite Hg; destruct (f n (length via) req) as [resp|err]; [|done].
  all: destruct (next_request (via ++ [req]) req resp) as [[next|err]|]; try done.
  apply IH. intros i r Hi Hlen. apply H; [done|]. rewrite length_app in Hlen. cbn in Hlen. lia.
Qed.

Lemma client_do_agree f g n req :
  (forall i r, (client_do f n req).1 !! i = Some r -> g n i r = f n i r) ->
  client_do g n req = client_do f n req.
Proof. intros H. apply do_loop_agree. intros i r Hi _. by apply H. Qed.

(** No answer, no response. *)
Lemma client_do_dead f n req :
  (forall k r, exists e, f n k r = inr e) -> exists e, client_do f n req = ([req], inr e).
Proof.
  intros H. destruct (H O req) as [e He]. unfold client_do. cbn [do_loop length app].
  rewrite He. by eexists.
Qed.

End Client.

Arguments http_do : simpl never.

(** ** Package strings *)

Definition TrimSuffix (s suffix : string) : string :=
  let n := (String.length s - String.length suffix)%nat in
  if Nat.leb (String.length suffix) (String.length s) && String.eqb (drop_string n s) suffix
  then take_string n s else s.

Definition HasSuffix (s suffix : string) : bool :=
  Nat.leb (String.length suffix) (String.length s) &&
  String.eqb (drop_string (String.length s - String.length suffix) s) suffix.

(** [strings.Index]; [None] is -1. *)
Fixpoint Index (s substr : string) : option nat :=
  if HasPrefix s substr then Some O
  else match s with
       | EmptyString => None
       | String _ s => S <$> Index s substr
       end.

Definition Contains (s substr : string) : bool :=
  match Index s substr with Some _ => true | None => false end.

(** [strings.ReplaceAll] for a non-empty [old]; [skip] counts the characters
    of a match that are still to be passed over. *)
Fixpoint replace_from (skip : nat) (s old new : string) : string :=
  match s with
  | EmptyString => EmptyString
  | String c r =>
      match skip with
      | S k => replace_from k r old new
      | O => if HasPrefix s old then new +:+ replace_from (String.length old - 1) r old new
             else String c (replace_from O r old new)
      end
  end.

Definition ReplaceAll (s old new : string) : string := replace_from O s old new.

(** [strings.TrimRight] with a cutset of ASCII characters. *)
Fixpoint TrimRight (s : string) (cut : ascii -> bool) : string :=
  match s with
  | EmptyString => EmptyString
  | String c r =>
      match TrimRight r cut with
      | EmptyString => if cut c then EmptyString else String c EmptyString
      | r => String c r
      end
  end.

(** [io.LimitReader]. *)
Fixpoint take_bytes (n : Z) (s : string) : string :=
  match s with
  | EmptyString => EmptyString
  | String c s => if n <=? 0 then EmptyString else String c (take_bytes (n - 1) s)
  end.

(** ** Package net: classes of addresses *)

Definition To4 (ip : list Z) : option (list Z) :=
  if Nat.eqb (length ip) 4 then Some ip
  else if Nat.eqb (length ip) 16 && bool_decide (take 12 ip = replicate 10 0 ++ [255; 255])
  then Some (drop 12 ip) else None.

Definition byte_at (ip : list Z) (i : nat) : Z := nth i ip 0.

Definition IsLoopback (ip : list Z) : bool :=
  match To4 ip with
  | Some v4 => byte_at v4 0 =? 127
  | None => bool_decide (ip = replicate 15 0 ++ [1])
  end.

Definition IsPrivate (ip : list Z) : bool :=
  match To4 ip with
  | Some v4 => (byte_at v4 0 =? 10) ||
      ((byte_at v4 0 =? 172) && (Z.land (byte_at v4 1) 240 =? 16)) ||
      ((byte_at v4 0 =? 192) && (byte_at v4 1 =? 168))
  | None => Nat.eqb (length ip) 16 && (Z.land (byte_at ip 0) 254 =? 252)
  end.

Definition IsLinkLocalUnicast (ip : list Z) : bool :=
  match To4 ip with
  | Some v4 => (byte_at v4 0 =? 169) && (byte_at v4 1 =? 254)
  | None => Nat.eqb (length ip) 16 && (byte_at ip 0 =? 254) && (Z.land (byte_at ip 1) 192 =? 128)
  end.

Definition IsLinkLocalMulticast (ip : list Z) : bool :=
  match To4 ip with
  | Some v4 => (byte_at v4 0 =? 224) && (byte_at v4 1 =? 0) && (byte_at v4 2 =? 0)
  | None => Nat.eqb (length ip) 16 && (byte_at ip 0 =? 255) && (Z.land (byte_at ip 1) 15 =? 2)
  end.

Definition IsMulticast (ip : list Z) : bool :=
  match To4 ip with
  | Some v4 => Z.land (byte_at v4 0) 240 =? 224
  | None => Nat.eqb (length ip) 16 && (byte_at ip 0 =? 255)
  end.

Definition IsUnspecified (ip : list Z) : bool :=
  match To4 ip with
  | Some v4 => bool_decide (v4 = [0; 0; 0; 0])
  | None => bool_decide (ip = replicate 16 0)
  end.

Example address_classes :
  IsLoopback [127; 0; 0; 1] = true /\ IsPrivate [172; 31; 0; 9] = true /\
  IsPrivate [172; 32; 0; 9] = false /\ IsLinkLocalUnicast [169; 254; 169; 254] = true /\
  IsLoopback (replicate 10 0 ++ [255; 255; 127; 0; 0; 1]) = true /\
  IsUnspecified (replicate 16 0) = true /\ IsMulticast [239; 1; 1; 1] = true.
Proof. repeat split; vm_compute; reflexivity. Qed.

(** ** Package http: headers *)

(** [CanonicalMIMEHeaderKey] on the keys the program sets, which are letters
    and hyphens. *)
Fixpoint canonical_from (start : bool) (k : string) : string :=
  match k with
  | EmptyString => EmptyString
  | String c k => String (if start then upper_ascii c else lower_ascii c)
                    (canonical_from (Ascii.eqb c "-"%char) k)
  end.

Definition header_set (h : gmap string string) (k v : string) : gmap string string :=
  <[ canonical_from true k := v ]> h.

(** ** Lemmas *)

Lemma take_bytes_prefix n s : HasPrefix s (take_bytes n s) = true.
Proof.
  revert n. unfold HasPrefix. induction s as [|c s IH]; intros n; cbn; [done|].
  destruct (n <=? 0); [done|]. cbn. destruct (Ascii.ascii_dec c c); [apply IH|done].
Qed.

Lemma take_bytes_length n s : 0 <= n -> Z.of_nat (String.length (take_bytes n s)) <= n.
Proof.
  revert n. induction s as [|c s IH]; intros n Hn; cbn; [done|].
  destruct (Z.leb_spec n 0); cbn; [done|]. specialize (IH (n - 1) ltac:(lia)). lia.
Qed.

Lemma Contains_false_free c s : Contains s (String c EmptyString) = false -> free_of c s = true.
Proof.
  unfold Contains, free_of. induction s as [|d s IH]; intros H; [done|].
  cbn [Index all_chars] in *. unfold HasPrefix in *. cbn [String.prefix] in H.
  destruct (Ascii.ascii_dec c d) as [->|Hne]; [by destruct s|].
  destruct (Index s _); [done|]. rewrite IH by done.
  rewrite (proj2 (Ascii.eqb_neq d c)) by congruence. done.
Qed.

(** ** A concrete outside world, for runs: every host is public and answers
    200 with an empty object, servers list one tool *)

Definition demo_url (s : string) : option URL :=
  match Index s "://" with
  | Some i =>
      let host := (Cut (drop_string (i + 3) s) "/"%char).1.1 in
      Some (MkURL (take_string i s) host host)
  | None => None
  end.

Definition demo_net : Net := {|
  new_request_err := fun _ _ => None;
  http_trip := fun _ _ _ => inl (MkHttpResponse 200 "" "{}");
  url_resolve := fun _ loc => inl loc;
  redirect_header := fun _ _ => ∅;
  url_error := fun method url err => method +:+ " " +:+ url +:+ ": " +:+ err;
  url_Parse := demo_url;
  LookupIPAddr := fun _ _ => Some [[93; 184; 215; 14]];
  pg_session := fun _ _ => inl (MkPgResult ["one"] [inl [VInt 1]] (fun _ => None));
  unmarshal_map := fun _ => inl (Some ∅);
  unmarshal_rpc := fun _ => inl (MkRpcResponse (Some "{}") None);
  unmarshal_tools := fun _ => inl [("search", "Search the web")];
  ToUpper := map_string upper_ascii;
  ToLower := map_string lower_ascii;
  TrimSpace := fun s => s;
  sprint_20s := take_string 20 |}.
