(* ===== verification/Integrations.v ===== *)
(** * Integrations: the live tool handlers (internal/integrations/stripe.go,
    github.go, postgres.go, http.go, mcp.go, real.go)

    A handler reads its credential or configuration from the store when it
    is called and talks to the outside world at the clock tick of the call;
    both happen in the one step the registry makes of a handler. *)

From Stdlib Require Import Ascii SpecFloat.
From S2P Require Export Net StoreSecrets.

Open Scope Z_scope.

(** ** Text *)

Definition unreserved (c : ascii) : bool :=
  byte_in 97 122 c || byte_in 65 90 c || byte_in 48 57 c || Ascii.eqb c "-"%char ||
  Ascii.eqb c "_"%char || Ascii.eqb c "."%char || Ascii.eqb c "~"%char.

Definition HEX_digit (n : nat) : ascii :=
  match String.get n "0123456789ABCDEF" with Some c => c | None => "0"%char end.

Definition encode_byte (c : ascii) : string :=
  if unreserved c then String c EmptyString
  else String "%"%char (String (HEX_digit (Nat.div (nat_of_ascii c) 16))
         (String (HEX_digit (Nat.modulo (nat_of_ascii c) 16)) EmptyString)).

Fixpoint urlEncode (s : string) : string :=
  match s with
  | EmptyString => EmptyString
  | String c s => encode_byte c +:+ urlEncode s
  end.

Definition truncate (s : string) (n : nat) : string :=
  if Nat.leb (String.length s) n then s else take_string n s.

(** ** URLs of upstream servers (mcp.go) *)

Section Urls.
Context `{NT : Net}.

(** [None] is the nil error. *)
Definition ValidateURL (raw : string) : option string :=
  match url_Parse raw with
  | Some u =>
      if negb (String.eqb (u_Scheme u) "http") && negb (String.eqb (u_Scheme u) "https")
      then Some "upstream must be an http(s) URL"
      else if String.eqb (u_Host u) "" then Some "upstream URL needs a host" else None
  | None => Some "upstream must be an http(s) URL"
  end.

End Urls.

Definition RedactURL (raw : string) : string :=
  match Index raw "@", Index raw "://" with
  | Some i, Some j =>
      if Nat.ltb j i then take_string (j + 3) raw +:+ "***@" +:+ drop_string (i + 1) raw else raw
  | _, _ => raw
  end.

(** [ToolName]: the engine's tool of an MCP server. *)
Definition ToolName (server : string) : string := "mcp:" +:+ server.

Section Integrations.
Context `{RT : Runtime} `{JE : JevEnv} `{NT : Net}.

(** ** The JSON clients (stripe.go) *)

Definition plain {A} (msg : string) : A + GoError := inr (ErrPlain msg).

Definition urlValues (n : nat) (form : gmap string string) : string :=
  Join ((fun '(k, v) => urlEncode k +:+ "=" +:+ urlEncode v) <$> range_map n form) "&".

(** The answer of a provider as both clients read it: the decoded body and
    the status code, or an error; no response at all is uncertain. *)
Definition read_answer (ans : HttpResponse + string) : (gomap * Z) + GoError :=
  match ans with
  | inr err => inr (Uncertain (ErrWrap ("no response from provider: " +:+ err) (ErrPlain err)))
  | inl resp =>
      let raw := take_bytes 1048576 (hs_Body resp) in
      if 300 <=? hs_StatusCode resp then
        plain ("provider status " +:+ pretty (hs_StatusCode resp) +:+ ": " +:+ truncate raw 300)
      else
        match unmarshal_map raw with
        | inr err => inr (ErrWrap ("provider returned malformed JSON: " +:+ err) (ErrPlain err))
        | inl out => inl (out, hs_StatusCode resp)
        end
  end.

Definition bearer (token : string) (h : gmap string string) : gmap string string :=
  if String.eqb token "" then h else header_set h "Authorization" ("Bearer " +:+ token).

(** [req.Header.Set] for each entry of the map, in the order of its range. *)
Definition extra_headers (n : nat) (extra h : gmap string string) : gmap string string :=
  foldl (fun h '(k, v) => header_set h k v) h (range_map n extra).

Definition doJSON (n : nat) (method url token idemKey : string) (form : option (gmap string string))
    (extra : gmap string string) : (gomap * Z) + GoError :=
  match new_request_err method url with
  | Some err => plain err
  | None =>
      let h := bearer token ∅ in
      let h := header_set h "Content-Type"
        (match form with Some _ => "application/x-www-form-urlencoded" | None => "application/json" end) in
      let h := if String.eqb idemKey "" then h else header_set h "Idempotency-Key" idemKey in
      read_answer (http_do n (MkHttpRequest method url (extra_headers n extra h) (urlValues n <$> form)))
  end.

Definition doJSONRaw (n : nat) (method url token : string) (bodyJSON : option string)
    (extra : gmap string string) : (gomap * Z) + GoError :=
  match new_request_err method url with
  | Some err => plain err
  | None =>
      let h := header_set (bearer token ∅) "Content-Type" "application/json" in
      read_answer (http_do n (MkHttpRequest method url (extra_headers n extra h) bodyJSON))
  end.

(** ** Arguments *)

Fixpoint numArg (args : gomap) (keys : list string) : option Z :=
  match keys with
  | [] => None
  | k :: keys =>
      match index args k with
      | Some (VInt64 n) | Some (VInt n) => Some n
      | Some (VFloat f) => Some (int64_of_float f)
      | _ => numArg args keys
      end
  end.

Fixpoint strArg (args : gomap) (keys : list string) : option string :=
  match keys with
  | [] => None
  | k :: keys =>
      match index args k with
      | Some (VString s) => if String.eqb s "" then strArg args keys else Some s
      | _ => strArg args keys
      end
  end.

(** ** Stripe *)

Definition stripeBaseURL : string := "https://api.stripe.com".
Definition githubBaseURL : string := "https://api.github.com".

Definition stripeKey (secret : string) : string + GoError :=
  if HasPrefix secret "sk_live" then
    plain "live Stripe keys are never accepted; use a test-mode key"
  else if negb (HasPrefix secret "sk_test_") then
    plain "not a Stripe test-mode key (must start sk_test_)"
  else inl secret.

(** [out, _, err := ...; if err != nil { return nil, err }; return out, nil]. *)
Definition answer_of (r : (gomap * Z) + GoError) : gomap + GoError :=
  match r with inl (out, _) => inl out | inr err => inr err end.

Definition Credential : Type := MemoryStore -> string -> option string.

(** The form of the refund request. *)
Definition refund_form (args : gomap) (charge : string) : gmap string string :=
  let form : gmap string string := {[ "charge" := charge ]} in
  let form := match numArg args ["amount_cents"] with
              | Some amt => <[ "amount" := pretty amt ]> form
              | None => form
              end in
  match strArg args ["reason"] with
  | Some reason => <[ "reason" := reason ]> form
  | None => form
  end.

Definition stripeRefundHandler (getCred : Credential) : ToolHandler := fun st n a =>
  match getCred st (a_OrgID a) with
  | None => plain "stripe integration not configured for this org (register a test-mode key first)"
  | Some secret =>
      match stripeKey secret with
      | inr err => inr err
      | inl key =>
          match strArg (a_Arguments a) ["charge"; "charge_id"] with
          | None => plain "stripe.refund needs a charge id"
          | Some charge =>
              answer_of (doJSON n "POST" (stripeBaseURL +:+ "/v1/refunds") key (a_IdempotencyKey a)
                (Some (refund_form (a_Arguments a) charge)) ∅)
          end
      end
  end.

Definition stripeReadCustomerHandler (getCred : Credential) : ToolHandler := fun st n a =>
  match getCred st (a_OrgID a) with
  | None => plain "stripe integration not configured for this org"
  | Some secret =>
      match stripeKey secret with
      | inr err => inr err
      | inl key =>
          match strArg (a_Arguments a) ["customer"; "customer_id"] with
          | None => plain "stripe.read_customer needs a customer id"
          | Some id =>
              answer_of (doJSON n "GET" (stripeBaseURL +:+ "/v1/customers/" +:+ urlEncode id) key "" None ∅)
          end
      end
  end.

(** A refund of the list whose amount is the one asked for. *)
Definition refund_matches (want : Z) (item : value) : bool :=
  match item with
  | VMap m =>
      match index (Some (list_to_map m)) "amount" with
      | Some (VFloat amt) => (want =? 0) || (int64_of_float amt =? want)
      | _ => false
      end
  | _ => false
  end.

(** The loop over [out["data"]]. *)
Definition find_refund (want : Z) (data : list value) : bool * gomap :=
  match List.find (refund_matches want) data with
  | Some (VMap m) => (true, Some (list_to_map m))
  | _ => (false, None)
  end.

Definition stripeRefundReconciler (getCred : Credential) : Reconciler := fun st n a =>
  match getCred st (a_OrgID a) with
  | None => plain "stripe integration not configured"
  | Some secret =>
      match stripeKey secret with
      | inr err => inr err
      | inl key =>
          match strArg (a_Arguments a) ["charge"; "charge_id"] with
          | None => plain "no charge id to reconcile against"
          | Some charge =>
              match doJSON n "GET" (stripeBaseURL +:+ "/v1/refunds?charge=" +:+ urlEncode charge +:+ "&limit=10")
                      key "" None ∅ with
              | inr err => inr err
              | inl (out, _) =>
                  let want := default 0 (numArg (a_Arguments a) ["amount_cents"]) in
                  match index out "data" with
                  | Some (VList data) => inl (find_refund want data)
                  | _ => inl (false, None)
                  end
              end
          end
      end
  end.

(** ** GitHub *)

Definition github_headers : gmap string string :=
  {[ "Accept" := "application/vnd.github+json"; "X-GitHub-Api-Version" := "2022-11-28" ]}.

Definition github_path (pathTmpl owner repo : string) (args : gomap) : string :=
  let path := ReplaceAll (ReplaceAll pathTmpl "{owner}" (urlEncode owner)) "{repo}" (urlEncode repo) in
  match strArg args ["number"; "issue"; "pr"] with
  | Some n => ReplaceAll path "{number}" (urlEncode n)
  | None => path
  end.

Definition githubHandler (getCred : Credential) (method pathTmpl : string) : ToolHandler := fun st n a =>
  match getCred st (a_OrgID a) with
  | None => plain "github integration not configured for this org"
  | Some token =>
      match strArg (a_Arguments a) ["owner"] with
      | None => plain "github action needs an owner"
      | Some owner =>
          match strArg (a_Arguments a) ["repo"] with
          | None => plain "github action needs a repo"
          | Some repo =>
              let url := githubBaseURL +:+ github_path pathTmpl owner repo (a_Arguments a) in
              answer_of
                (if String.eqb method "GET" then doJSON n "GET" url token "" None github_headers
                 else doJSONRaw n method url token (encode (value_of_map (a_Arguments a))) github_headers)
          end
      end
  end.

Definition githubClasses : gmap string (list ActionClass) :=
  let ro := [ClassReadOnly] in
  let ext := [ClassExternalCommunication] in
  let priv := [ClassPrivileged; ClassExternalCommunication] in
  {[ "read_repo" := ro; "read_issue" := ro; "create_issue" := ext; "comment" := ext;
     "open_pr" := ext; "merge_pr" := priv ]}.

End Integrations.
