(* ===== verification/Upstream.v ===== *)
(** * Upstream: outbound HTTP, read-only SQL, MCP servers and the registration
    of all live handlers (internal/integrations/http.go, postgres.go, mcp.go,
    real.go) *)

From Stdlib Require Import Ascii.
From S2P Require Export Integrations.

Open Scope Z_scope.

Section Upstream.
Context `{RT : Runtime} `{JE : JevEnv} `{NT : Net}.

(** ** http.request (http.go) *)

Definition allow_entry (d : string) : string := ToLower (TrimSpace (TrimSuffix d ".")).

Definition domainAllowed (host : string) (allow : list string) : bool :=
  let host := ToLower (TrimSuffix host ".") in
  any (fun d => let d := allow_entry d in
         negb (String.eqb d "") && (String.eqb host d || HasSuffix host ("." +:+ d))) allow.

Definition non_public (ip : list Z) : bool :=
  IsLoopback ip || IsPrivate ip || IsLinkLocalUnicast ip || IsLinkLocalMulticast ip ||
  IsMulticast ip || IsUnspecified ip.

(** [None] is the nil error. *)
Definition publicIP (n : nat) (host : string) : option string :=
  if String.eqb (getenv "AG_ALLOW_LOOPBACK") "1" then None
  else
    match LookupIPAddr n host with
    | None | Some [] => Some ("cannot resolve " +:+ host)
    | Some addrs =>
        if any non_public addrs
        then Some ("destination " +:+ host +:+ " resolves to non-public address") else None
    end.

Definition toStrings (v : option value) : list string :=
  match v with
  | Some (VList l) => omap (fun item => match item with VString s => Some s | _ => None end) l
  | _ => []
  end.

(** The allowlists of an organization, methods defaulting to GET and HEAD. *)
Definition http_lists (cfg : option (gmap string value)) : list string * list string :=
  let get k := match cfg with Some m => toStrings (m !! k) | None => [] end in
  let methods := get "methods" in
  (get "domains", match methods with [] => ["GET"; "HEAD"] | _ => methods end).

Definition httpRequestHandler : ToolHandler := fun st n a =>
  let '(domains, methods) := http_lists (config_in st (a_OrgID a) "http") in
  let method := match strArg (a_Arguments a) ["method"] with Some m => ToUpper m | None => "GET" end in
  if negb (any (fun m => String.eqb m method) methods) then
    plain ("http.request: method " +:+ method +:+ " not in org allowlist " +:+ sprint_v (VStrings methods))
  else
    match strArg (a_Arguments a) ["url"] with
    | None => plain "http.request needs a url"
    | Some raw =>
        let bad := plain "http.request needs an http(s) url" in
        match url_Parse raw with
        | None => bad
        | Some u =>
            if (negb (String.eqb (u_Scheme u) "http") && negb (String.eqb (u_Scheme u) "https")) ||
               String.eqb (u_Host u) "" then bad
            else if negb (domainAllowed (u_Hostname u) domains) then
              plain ("http.request: host " +:+ u_Hostname u +:+ " not in org allowlist (request access first)")
            else
              match publicIP n (u_Hostname u) with
              | Some err => plain ("http.request refused: " +:+ err)
              | None =>
                  match new_request_err method raw with
                  | Some err => plain err
                  | None =>
                      match http_do n (MkHttpRequest method raw ∅ None) with
                      | inr err => inr (Uncertain (ErrWrap ("no response from " +:+ u_Hostname u +:+ ": " +:+ err)
                                                     (ErrPlain err)))
                      | inl resp =>
                          let out : gmap string value :=
                            {[ "status" := VInt (hs_StatusCode resp);
                               "body" := VString (take_bytes 1048576 (hs_Body resp)) ]} in
                          inl (Some (if negb (String.eqb method "GET") && negb (String.eqb method "HEAD")
                                     then <[ "warning" := VString "non-idempotent method: side effects unknown, treat as EXTERNAL_COMMUNICATION" ]> out
                                     else out))
                      end
                  end
              end
        end
    end.

Definition httpClasses : gmap string (list ActionClass) :=
  {[ "request" := [ClassReadOnly; ClassExternalCommunication] ]}.

(** ** postgres.query (postgres.go) *)

Definition read_only_verbs : list string := ["SELECT"; "WITH"; "VALUES"; "TABLE"; "EXPLAIN"].

Definition sql_cut (c : ascii) : bool :=
  Ascii.eqb c ";"%char || Ascii.eqb c " "%char || Nat.eqb (nat_of_ascii c) 9 || Nat.eqb (nat_of_ascii c) 10.

(** [row[c] = vals[i]] for each column; pgx gives one value per column. *)
Definition row_of (cols : list string) (vals : list value) : gmap string value :=
  foldl (fun row '(c, v) => <[ c := v ]> row) ∅ (combine cols vals).

(** The loop over the rows: stops before a row once it holds 100 of them.
    The flag tells whether the result was read to its end. *)
Fixpoint read_rows (cols : list string) (rows : list (list value + string)) (out : list value)
    : (list value * bool) + GoError :=
  match rows with
  | [] => inl (out, true)
  | row :: rows =>
      if negb (Nat.ltb (length out) 100) then inl (out, false)
      else match row with
           | inr err => inr (ErrWrap ("postgres row decode failed: " +:+ err) (ErrPlain err))
           | inl vals => read_rows cols rows (out ++ [value_of_map (Some (row_of cols vals))])
           end
  end.

Definition wrap {A} (msg err : string) : A + GoError := inr (ErrWrap (msg +:+ err) (ErrPlain err)).

(** The session of one call: a read-only transaction under a statement
    timeout, each command sent once the one before was accepted. *)
Definition pg_answer (session : list PgCommand -> PgResult + string) (dsn sql : string) : gomap + GoError :=
  let conn := [PgConnect dsn] in
  match session conn with
  | inr err =>
      inr (Uncertain (ErrWrap ("postgres unreachable (may be transient): " +:+ err) (ErrPlain err)))
  | inl _ =>
      let tx := conn ++ [PgBeginTx true] in
      match session tx with
      | inr err => wrap "postgres begin failed: " err
      | inl _ =>
          let guarded := tx ++ [PgExec "SET LOCAL statement_timeout = '10s'"] in
          match session guarded with
          | inr err => wrap "postgres guard failed: " err
          | inl _ =>
              let queried := guarded ++ [PgQuery sql] in
              match session queried with
              | inr err => wrap "postgres query failed: " err
              | inl rows =>
                  match read_rows (pr_Cols rows) (pr_Rows rows) [] with
                  | inr err => inr err
                  | inl (out, all) =>
                      match pr_Err rows all with
                      | Some err => wrap "postgres rows failed: " err
                      | None =>
                          match session (queried ++ [PgCommit all]) with
                          | inr err => wrap "postgres commit failed: " err
                          | inl _ => inl (Some {[ "columns" := VStrings (pr_Cols rows); "rows" := VList out;
                                                  "truncated" := VBool (Nat.eqb (length out) 100) ]})
                          end
                      end
                  end
              end
          end
      end
  end.

Definition postgresQueryHandler (getCred : Credential) : ToolHandler := fun st n a =>
  match getCred st (a_OrgID a) with
  | None => plain "postgres integration not configured for this org"
  | Some dsn =>
      match strArg (a_Arguments a) ["sql"; "query"] with
      | None => plain "postgres.query needs a sql string"
      | Some sql =>
          let body := TrimSpace sql in
          let upper := ToUpper body in
          if negb (any (HasPrefix upper) read_only_verbs) then
            plain ("postgres.query executes read-only statements (SELECT/WITH/VALUES/TABLE/EXPLAIN); got "
                   +:+ sprint_20s body)
          else
            let trimmed := TrimRight body sql_cut in
            if Contains trimmed ";" then plain "postgres.query rejects multi-statement input"
            else pg_answer (pg_session n) dsn trimmed
      end
  end.

Definition postgresClasses : gmap string (list ActionClass) := {[ "query" := [ClassReadOnly] ]}.

(** ** MCP servers (mcp.go) *)

(** The JSON of [rpcRequest], in the order of its fields; nil parameters are
    left out. *)
Definition rpc_request (method : string) (params : option (gmap string value)) : option string :=
  encode (VMap ([("jsonrpc", VString "2.0"); ("id", VInt 1); ("method", VString method)] ++
    match params with Some p => [("params", value_of_map (Some p))] | None => [] end)).

Definition callUpstream (n : nat) (serverURL token method : string) (params : option (gmap string value))
    : string + GoError :=
  let body := default "" (rpc_request method params) in
  match new_request_err "POST" serverURL with
  | Some err => plain err
  | None =>
      let h := bearer token (header_set ∅ "Content-Type" "application/json") in
      match http_do n (MkHttpRequest "POST" serverURL h (Some body)) with
      | inr err => inr (Uncertain (ErrWrap ("upstream unreachable: " +:+ err) (ErrPlain err)))
      | inl resp =>
          if 300 <=? hs_StatusCode resp then plain ("upstream status " +:+ pretty (hs_StatusCode resp))
          else
            match unmarshal_rpc (hs_Body resp) with
            | inr err => wrap "upstream returned malformed response: " err
            | inl rpc =>
                match rpc_Error rpc, rpc_Result rpc with
                | Some (code, msg), _ => plain ("upstream error " +:+ pretty code +:+ ": " +:+ msg)
                | None, None => plain "upstream returned empty result"
                | None, Some raw => inl raw
                end
            end
      end
  end.

Definition ListTools (n : nat) (serverURL token : string) : list MCPTool + GoError :=
  match callUpstream n serverURL token "tools/list" None with
  | inr err => inr err
  | inl raw =>
      match unmarshal_tools raw with
      | inr err => wrap "upstream tools/list malformed: " err
      | inl tools => inl ((fun '(name, description) => MkMCPTool name description) <$> tools)
      end
  end.

Definition HandlerFor (serverURL token tool : string) : ToolHandler := fun _ n a =>
  match callUpstream n serverURL token "tools/call"
          (Some {[ "name" := VString tool; "arguments" := value_of_map (a_Arguments a) ]}) with
  | inr err => inr err
  | inl raw =>
      match unmarshal_map raw with
      | inr _ => inl (Some {[ "raw" := VString raw ]})
      | inl result =>
          match index result "isError" with
          | Some (VBool true) =>
              plain ("upstream tool reported error: " +:+ sprint_v (default VNil (index result "content")))
          | _ => inl result
          end
      end
  end.

(** ** Registration (real.go) *)

Definition CredentialNames (name : string) : bool :=
  String.eqb name "stripe" || String.eqb name "github" || String.eqb name "postgres".

Definition cred (name : string) : Credential := fun st orgID => credential_in st orgID name.

(** The registrations, in order. *)
Definition real_handlers : list (string * string * list ActionClass * ToolHandler) :=
  let gh action := default [] (githubClasses !! action) in
  [("stripe", "refund", [ClassFinancial; ClassCompensable], stripeRefundHandler (cred "stripe"));
   ("stripe", "read_customer", [ClassReadOnly], stripeReadCustomerHandler (cred "stripe"));
   ("github", "read_repo", gh "read_repo", githubHandler (cred "github") "GET" "/repos/{owner}/{repo}");
   ("github", "read_issue", gh "read_issue",
      githubHandler (cred "github") "GET" "/repos/{owner}/{repo}/issues/{number}");
   ("github", "create_issue", gh "create_issue",
      githubHandler (cred "github") "POST" "/repos/{owner}/{repo}/issues");
   ("github", "comment", gh "comment",
      githubHandler (cred "github") "POST" "/repos/{owner}/{repo}/issues/{number}/comments");
   ("github", "open_pr", gh "open_pr", githubHandler (cred "github") "POST" "/repos/{owner}/{repo}/pulls");
   ("github", "merge_pr", gh "merge_pr",
      githubHandler (cred "github") "PUT" "/repos/{owner}/{repo}/pulls/{number}/merge");
   ("postgres", "query", default [] (postgresClasses !! "query"), postgresQueryHandler (cred "postgres"));
   ("http", "request", default [] (httpClasses !! "request"), httpRequestHandler)].

Definition register_one (r : Registry) (e : string * string * list ActionClass * ToolHandler) : Registry :=
  let '(tool, action, classes, h) := e in Register tool action classes (Some h) None r.

(** RegisterReconciler writes another map than Register, so its place
    among the registrations does not matter. *)
Definition RegisterReal (reg : Registry) : Registry :=
  if String.eqb (getenv "AG_DEMO_MOCKS") "1" then reg
  else RegisterReconciler "stripe" "refund" (stripeRefundReconciler (cred "stripe"))
         (foldl register_one reg real_handlers).

End Upstream.
