(* ===== verification/UrlText.v ===== *)
(** * UrlText: what escaping and path templates guarantee

    [urlEncode] is read back by [urlDecode], its output has no character with
    a meaning in a URL, and filling a path template puts each argument in its
    own place. *)

From Stdlib Require Import Ascii.
From S2P Require Export Upstream.

Open Scope Z_scope.

(** ** Escaping *)

(** Reads one percent-encoded byte string. *)
Fixpoint urlDecode (s : string) : string :=
  match s with
  | EmptyString => EmptyString
  | String c r =>
      match r with
      | String h (String l r') =>
          if Ascii.eqb c "%"%char then
            let up x := let n := nat_of_ascii x in if byte_in 48 57 x then (n - 48)%nat else (n - 55)%nat in
            String (ascii_of_nat (16 * up h + up l)) (urlDecode r')
          else String c (urlDecode r)
      | _ => String c (urlDecode r)
      end
  end.

Lemma urlDecode_unreserved c r : unreserved c = true -> urlDecode (String c r) = String c (urlDecode r).
Proof.
  intros Hc. assert (Hp : Ascii.eqb c "%"%char = false).
  { destruct (Ascii.eqb_spec c "%"%char) as [->|]; [by vm_compute in Hc|done]. }
  cbn [urlDecode]. destruct r as [|h [|l r]]; [done|done|]. by rewrite Hp.
Qed.

Lemma urlDecode_byte c r : urlDecode (encode_byte c +:+ r) = String c (urlDecode r).
Proof.
  unfold encode_byte. destruct (unreserved c) eqn:Hc.
  - change (String c EmptyString +:+ r) with (String c r). by apply urlDecode_unreserved.
  - clear Hc. destruct c as [[] [] [] [] [] [] [] []]; cbn -[urlDecode]; reflexivity.
Qed.

Lemma urlDecode_encode s : urlDecode (urlEncode s) = s.
Proof.
  induction s as [|c s IH]; [done|]. cbn [urlEncode]. by rewrite urlDecode_byte, IH.
Qed.

Lemma urlEncode_inj s t : urlEncode s = urlEncode t -> s = t.
Proof. intros H. apply (f_equal urlDecode) in H. by rewrite !urlDecode_encode in H. Qed.

(** What escaped text is made of. *)
Definition escaped (c : ascii) : bool := unreserved c || Ascii.eqb c "%"%char.

Lemma encode_byte_escaped c : all_chars escaped (encode_byte c) = true.
Proof. destruct c as [[] [] [] [] [] [] [] []]; reflexivity. Qed.

Lemma urlEncode_escaped s : all_chars escaped (urlEncode s) = true.
Proof.
  induction s as [|c s IH]; [done|]. cbn [urlEncode]. by rewrite all_chars_app, encode_byte_escaped, IH.
Qed.

Lemma all_chars_impl (f g : ascii -> bool) s :
  (forall c, f c = true -> g c = true) -> all_chars f s = true -> all_chars g s = true.
Proof.
  intros Hfg. induction s as [|c s IH]; [done|]. cbn. intros H.
  apply andb_true_iff in H as [Hc Hs]. by rewrite (Hfg c Hc), IH.
Qed.

(** Escaped text has none of the characters that structure a URL. *)
Lemma urlEncode_free s c : escaped c = false -> free_of c (urlEncode s) = true.
Proof.
  intros Hc. eapply all_chars_impl; [|apply urlEncode_escaped]. intros d Hd.
  destruct (Ascii.eqb_spec d c) as [->|]; [congruence|done].
Qed.

(** ** Templates *)

(** Text without the first character of the pattern passes through. *)
Lemma replace_free c old s t new :
  free_of c s = true ->
  replace_from O (s +:+ t) (String c old) new = s +:+ replace_from O t (String c old) new.
Proof.
  unfold free_of. induction s as [|d s IH]; intros H; [done|]. cbn [all_chars] in H.
  apply andb_true_iff in H as [Hd Hs]. apply negb_true_iff in Hd.
  change (String d s +:+ t) with (String d (s +:+ t)). cbn [replace_from].
  assert (HasPrefix (String d (s +:+ t)) (String c old) = false) as ->.
  { unfold HasPrefix. cbn. destruct (Ascii.ascii_dec c d) as [->|]; [|done].
    by rewrite Ascii.eqb_refl in Hd. }
  by rewrite IH.
Qed.

Lemma replace_skip s t old new :
  replace_from (String.length s) (s +:+ t) old new = replace_from O t old new.
Proof. induction s as [|c s IH]; [done|]. exact IH. Qed.

(** An occurrence of the pattern is replaced. *)
Lemma replace_hit c old t new :
  replace_from O (String c old +:+ t) (String c old) new =
    new +:+ replace_from O t (String c old) new.
Proof.
  change (String c old +:+ t) with (String c (old +:+ t)). cbn [replace_from].
  assert (HasPrefix (String c (old +:+ t)) (String c old) = true) as ->
    by exact (HasPrefix_app (String c old) t).
  cbn [String.length]. rewrite Nat.sub_succ, Nat.sub_0_r. by rewrite replace_skip.
Qed.

Lemma replace_miss s c old new :
  free_of c s = true -> replace_from O s (String c old) new = s.
Proof.
  intros H. pose proof (replace_free c old s EmptyString new H) as Hr.
  by rewrite !string_app_nil_r in Hr.
Qed.

Section Paths.
Context `{RT : Runtime} `{JE : JevEnv} `{NT : Net}.

(** The path of an issue or pull request action, with its tail. *)
Lemma github_path_fill owner repo args tail :
  free_of "{"%char tail = true ->
  github_path ("/repos/{owner}/{repo}" +:+ tail) owner repo args =
    "/repos/" +:+ urlEncode owner +:+ "/" +:+ urlEncode repo +:+ tail.
Proof.
  intros Ht. unfold github_path, ReplaceAll.
  assert (Ho : forall x, free_of "{"%char (urlEncode x) = true) by (intros; by apply urlEncode_free).
  change ("/repos/{owner}/{repo}" +:+ tail) with ("/repos/" +:+ ("{owner}" +:+ ("/" +:+ ("{repo}" +:+ tail)))).
  rewrite (replace_free "{"%char "owner}" "/repos/") by done.
  rewrite (replace_hit "{"%char "owner}").
  assert (E1 : replace_from O ("/" +:+ ("{repo}" +:+ tail)) "{owner}" (urlEncode owner) =
    "/" +:+ ("{repo}" +:+ tail)).
  { rewrite (replace_free "{"%char "owner}" "/") by done. f_equal.
    change ("{repo}" +:+ tail) with (String "{"%char ("repo}" +:+ tail)). cbn [replace_from].
    change (HasPrefix _ _) with false. cbv iota. f_equal.
    apply replace_miss. unfold free_of in *. by rewrite all_chars_app, Ht. }
  rewrite E1.
  rewrite (replace_free "{"%char "repo}" "/repos/") by done.
  rewrite (replace_free "{"%char "repo}" (urlEncode owner)) by done.
  rewrite (replace_free "{"%char "repo}" "/") by done.
  rewrite (replace_hit "{"%char "repo}"), (replace_miss tail) by done.
  destruct (strArg _ _) as [n|]; [|done].
  apply replace_miss. unfold free_of in *. rewrite !all_chars_app, !Ho, Ht. done.
Qed.

(** The same with a numbered issue or pull request. *)
Lemma github_path_number owner repo args pre post n :
  free_of "{"%char pre = true -> free_of "{"%char post = true ->
  strArg args ["number"; "issue"; "pr"] = Some n ->
  github_path ("/repos/{owner}/{repo}" +:+ pre +:+ "{number}" +:+ post) owner repo args =
    "/repos/" +:+ urlEncode owner +:+ "/" +:+ urlEncode repo +:+ pre +:+ urlEncode n +:+ post.
Proof.
  intros Hpre Hpost Hn. unfold github_path, ReplaceAll. rewrite Hn.
  assert (Ho : forall x, free_of "{"%char (urlEncode x) = true) by (intros; by apply urlEncode_free).
  set (num := "{number}" +:+ post).
  assert (Hnum : forall old new, HasPrefix num (String "{"%char old) = false ->
    replace_from O num (String "{"%char old) new = num).
  { intros old new Hp. unfold num in *. change ("{number}" +:+ post) with (String "{"%char ("number}" +:+ post)) in *.
    cbn [replace_from]. rewrite Hp. f_equal. apply replace_miss. unfold free_of in *. by rewrite all_chars_app, Hpost. }
  change ("/repos/{owner}/{repo}" +:+ pre +:+ num) with
    ("/repos/" +:+ ("{owner}" +:+ ("/" +:+ ("{repo}" +:+ (pre +:+ num))))).
  rewrite (replace_free "{"%char "owner}" "/repos/") by done.
  rewrite (replace_hit "{"%char "owner}").
  assert (E1 : replace_from O ("/" +:+ ("{repo}" +:+ (pre +:+ num))) "{owner}" (urlEncode owner) =
    "/" +:+ ("{repo}" +:+ (pre +:+ num))).
  { rewrite (replace_free "{"%char "owner}" "/") by done. f_equal.
    change ("{repo}" +:+ (pre +:+ num)) with (String "{"%char ("repo}" +:+ (pre +:+ num))). cbn [replace_from].
    change (HasPrefix _ _) with false. cbv iota. f_equal.
    change ("repo}" +:+ (pre +:+ num)) with ("repo}" +:+ (pre +:+ num)).
    rewrite (replace_free "{"%char "owner}" "repo}") by done.
    rewrite (replace_free "{"%char "owner}" pre) by done. by rewrite Hnum. }
  rewrite E1.
  rewrite (replace_free "{"%char "repo}" "/repos/") by done.
  rewrite (replace_free "{"%char "repo}" (urlEncode owner)) by done.
  rewrite (replace_free "{"%char "repo}" "/") by done.
  rewrite (replace_hit "{"%char "repo}"), (replace_free "{"%char "repo}" pre) by done.
  rewrite Hnum by done.
  rewrite (replace_free "{"%char "number}" "/repos/") by done.
  rewrite (replace_free "{"%char "number}" (urlEncode owner)) by done.
  rewrite (replace_free "{"%char "number}" "/") by done.
  rewrite (replace_free "{"%char "number}" (urlEncode repo)) by done.
  rewrite (replace_free "{"%char "number}" pre) by done. unfold num.
  rewrite (replace_hit "{"%char "number}"), replace_miss by done. done.
Qed.

(** Arguments stay in their place.  A GitHub request goes to the path
    its template names with owner, repository and number escaped, each in its
    own segment: an escaped argument has no slash, query, fragment or brace,
    so requests to equal paths name the same owner and repository. *)
Theorem github_path_exact owner repo args tail :
  free_of "{"%char tail = true ->
  let path := github_path ("/repos/{owner}/{repo}" +:+ tail) owner repo args in
  path = "/repos/" +:+ urlEncode owner +:+ "/" +:+ urlEncode repo +:+ tail /\
  (forall pre n, free_of "{"%char pre = true -> strArg args ["number"; "issue"; "pr"] = Some n ->
     github_path ("/repos/{owner}/{repo}" +:+ pre +:+ "{number}" +:+ tail) owner repo args =
       "/repos/" +:+ urlEncode owner +:+ "/" +:+ urlEncode repo +:+ pre +:+ urlEncode n +:+ tail) /\
  (forall x c, In c ["/"%char; "?"%char; "#"%char; "&"%char; "="%char; "{"%char; "@"%char; ":"%char] ->
     free_of c (urlEncode x) = true) /\
  (forall owner' repo' args', tail = "" \/ HasPrefix tail "/" = true ->
     github_path ("/repos/{owner}/{repo}" +:+ tail) owner' repo' args' = path ->
     owner' = owner /\ repo' = repo).
Proof.
  intros Ht. cbv zeta. rewrite github_path_fill by done.
  split; [done|]. split; [intros pre n Hp Hn; by apply github_path_number|]. split.
  - intros x c Hc. apply urlEncode_free. cbn in Hc. by repeat destruct Hc as [<-|Hc].
  - intros owner' repo' args' Hs Heq. rewrite github_path_fill in Heq by done.
    apply string_app_inj_l in Heq.
    change ("/" +:+ ?x) with (String "/"%char x) in Heq.
    apply separated in Heq as [Ho Heq]; [|by apply urlEncode_free..]. apply urlEncode_inj in Ho.
    split; [done|]. apply urlEncode_inj. destruct Hs as [-> |Hs]; [by rewrite !string_app_nil_r in Heq|].
    apply HasPrefix_inv in Hs as [t ->]. change ("/" +:+ ?x) with (String "/"%char x) in Heq.
    by apply separated in Heq as [Hr _]; [|by apply urlEncode_free..].
Qed.

End Paths.
