(* ===== verification/IntegrationSpec.v ===== *)
(** * IntegrationSpec: what the live handlers may do to the outside world

    A transport is compared with another one: a handler that gives the same
    result whatever the transport answers has sent nothing, one that depends
    on the answer to a single request has sent only that. *)

From Stdlib Require Import Ascii.
From S2P Require Export UrlText.

Open Scope Z_scope.

(** The same world with another transport, or another database. *)
Definition with_http (NT : Net) (f : Trip) : Net := {|
  new_request_err := new_request_err; http_trip := f; url_resolve := url_resolve;
  redirect_header := redirect_header; url_error := url_error; url_Parse := url_Parse;
  LookupIPAddr := LookupIPAddr; pg_session := pg_session; unmarshal_map := unmarshal_map;
  unmarshal_rpc := unmarshal_rpc; unmarshal_tools := unmarshal_tools; ToUpper := ToUpper;
  ToLower := ToLower; TrimSpace := TrimSpace; sprint_20s := sprint_20s |}.

Definition with_pg (NT : Net) (g : nat -> list PgCommand -> PgResult + string) : Net := {|
  new_request_err := new_request_err; http_trip := http_trip; url_resolve := url_resolve;
  redirect_header := redirect_header; url_error := url_error; url_Parse := url_Parse;
  LookupIPAddr := LookupIPAddr; pg_session := g; unmarshal_map := unmarshal_map;
  unmarshal_rpc := unmarshal_rpc; unmarshal_tools := unmarshal_tools; ToUpper := ToUpper;
  ToLower := ToLower; TrimSpace := TrimSpace; sprint_20s := sprint_20s |}.

(** No request of tick [n] gets a response. *)
Definition dead (n : nat) (f : Trip) : Prop := forall k r, exists e, f n k r = inr e.

Definition is_uncertain {A} (x : A + GoError) : Prop :=
  exists err, x = inr err /\ as_uncertain err <> None.

(** [x], a result that depends on the transport, hands only requests to URLs
    in [P] to [client.Do]: two transports over which [Do] gives the same
    answers to those, redirects followed, give one result; and either it
    contacts nobody, or without a response it is uncertain. *)
Record contacts {A} (n : nat) (P : string -> Prop) (x : Net -> A + GoError) (NT : Net) : Prop := {
  ct_only : forall f g,
    (forall r, P (hr_URL r) ->
       http_do (NT := with_http NT f) n r = http_do (NT := with_http NT g) n r) ->
    x (with_http NT f) = x (with_http NT g);
  ct_silent : (forall f, x (with_http NT f) = x NT) \/
    (forall f, dead n f -> is_uncertain (x (with_http NT f))) }.

Section Contacts.
Context `{RT : Runtime} `{JE : JevEnv} (NT : Net).

Lemma http_do_dead n f r : dead n f -> exists e, http_do (NT := with_http NT f) n r = inr e.
Proof.
  intros H. destruct (client_do_dead (NT := with_http NT f) f n r H) as [e He]. exists e.
  unfold http_do. cbn [http_trip with_http]. by rewrite He.
Qed.

Lemma contacts_const {A} n P (v : A + GoError) : contacts n P (fun _ => v) NT.
Proof. split; [done|by left]. Qed.

(** A decision on what does not depend on the transport. *)
Lemma contacts_mono {A} n (P Q : string -> Prop) (x : Net -> A + GoError) :
  (forall u, P u -> Q u) -> contacts n P x NT -> contacts n Q x NT.
Proof. intros HPQ [Ho Hs]. split; [|done]. intros f g Hfg. apply Ho. auto. Qed.

Lemma read_answer_dead e : is_uncertain (read_answer (NT := NT) (inr e)).
Proof. by eexists. Qed.

Lemma answer_of_uncertain r : is_uncertain r -> is_uncertain (answer_of r).
Proof. intros (err & -> & H). by exists err. Qed.

Lemma contacts_doJSON n method url token idem form extra :
  contacts n (eq url) (fun NT => doJSON (NT := NT) n method url token idem form extra) NT.
Proof.
  unfold doJSON. cbn [with_http new_request_err]. split.
  - intros f g H. cbn. destruct (new_request_err method url); [done|]. rewrite H by done. reflexivity.
  - cbn. destruct (new_request_err method url); [by left|]. right. intros f Hf.
    match goal with |- context [http_do n ?r] => destruct (http_do_dead n f r Hf) as [e ->] end. by eexists.
Qed.

Lemma contacts_doJSONRaw n method url token body extra :
  contacts n (eq url) (fun NT => doJSONRaw (NT := NT) n method url token body extra) NT.
Proof.
  unfold doJSONRaw. cbn [with_http new_request_err]. split.
  - intros f g H. cbn. destruct (new_request_err method url); [done|]. rewrite H by done. reflexivity.
  - cbn. destruct (new_request_err method url); [by left|]. right. intros f Hf.
    match goal with |- context [http_do n ?r] => destruct (http_do_dead n f r Hf) as [e ->] end. by eexists.
Qed.

Lemma contacts_upstream n url token method params :
  contacts n (eq url) (fun NT => callUpstream (NT := NT) n url token method params) NT.
Proof.
  unfold callUpstream. split.
  - intros f g H. cbn. destruct (new_request_err "POST" url); [done|]. rewrite H by done. reflexivity.
  - cbn. destruct (new_request_err "POST" url); [by left|]. right. intros f Hf.
    match goal with |- context [http_do n ?r] => destruct (http_do_dead n f r Hf) as [e ->] end. by eexists.
Qed.

(** What is done with an answer that keeps errors as they are. *)
Lemma contacts_map {A B} n P (x : Net -> A + GoError) (h : Net -> A -> B + GoError) :
  (forall f a, h (with_http NT f) a = h NT a) -> contacts n P x NT ->
  contacts n P (fun NT => match x NT with inr err => inr err | inl a => h NT a end) NT.
Proof.
  intros Hh [Ho Hs]. split.
  - intros f g Hfg. cbn beta. rewrite (Ho f g Hfg). destruct (x (with_http NT g)); [by rewrite !Hh|done].
  - destruct Hs as [Hs|Hs]; [left|right].
    + intros f. rewrite Hs. destruct (x NT); [apply Hh|done].
    + intros f Hf. destruct (Hs f Hf) as (err & -> & Hu). by exists err.
Qed.

Lemma contacts_answer n P (x : Net -> (gomap * Z) + GoError) :
  contacts n P x NT -> contacts n P (fun NT => answer_of (x NT)) NT.
Proof.
  intros Hx. apply (contacts_map n P x (fun _ '(out, _) => inl out)) in Hx; [|by intros ? []].
  destruct Hx as [Ho Hs]. split.
  - intros f g Hfg. specialize (Ho f g Hfg). unfold answer_of. destruct (x _) as [[]|], (x _) as [[]|]; exact Ho.
  - destruct Hs as [Hs|Hs]; [left|right]; intros f.
    + specialize (Hs f). unfold answer_of. destruct (x _) as [[]|], (x _) as [[]|]; exact Hs.
    + intros Hf. specialize (Hs f Hf). unfold answer_of. by destruct (x _) as [[]|].
Qed.

(** ** The handlers *)

Definition under (prefix url : string) : Prop := HasPrefix url prefix = true.

Lemma under_app prefix rest : under prefix (prefix +:+ rest).
Proof. apply HasPrefix_app. Qed.

Lemma contacts_refund c st n a :
  contacts n (under (stripeBaseURL +:+ "/v1/"))
    (fun NT => stripeRefundHandler (NT := NT) c st n a) NT.
Proof.
  unfold stripeRefundHandler. destruct (c st (a_OrgID a)) as [secret|]; [|apply contacts_const].
  destruct (stripeKey secret) as [key|err]; [|apply contacts_const].
  destruct (strArg _ _) as [charge|]; [|apply contacts_const].
  eapply contacts_mono; [|apply contacts_answer, contacts_doJSON]. by intros u <-.
Qed.

Lemma contacts_customer c st n a :
  contacts n (under (stripeBaseURL +:+ "/v1/"))
    (fun NT => stripeReadCustomerHandler (NT := NT) c st n a) NT.
Proof.
  unfold stripeReadCustomerHandler. destruct (c st (a_OrgID a)) as [secret|]; [|apply contacts_const].
  destruct (stripeKey secret) as [key|err]; [|apply contacts_const].
  destruct (strArg _ _) as [id|]; [|apply contacts_const].
  eapply contacts_mono; [|apply contacts_answer, contacts_doJSON]. intros u <-.
  exact (under_app (stripeBaseURL +:+ "/v1/") ("customers/" +:+ urlEncode id)).
Qed.

Lemma contacts_reconciler c st n a :
  contacts n (under (stripeBaseURL +:+ "/v1/"))
    (fun NT => stripeRefundReconciler (NT := NT) c st n a) NT.
Proof.
  unfold stripeRefundReconciler. destruct (c st (a_OrgID a)) as [secret|]; [|apply contacts_const].
  destruct (stripeKey secret) as [key|err]; [|apply contacts_const].
  destruct (strArg _ _) as [charge|]; [|apply contacts_const].
  set (url := stripeBaseURL +:+ ("/v1/refunds?charge=" +:+ _)).
  eapply contacts_mono; [|apply (contacts_map n (eq url)
    (fun NT => doJSON (NT := NT) n "GET" url key "" None ∅)
    (fun _ '(out, _) => let want := default 0 (numArg (a_Arguments a) ["amount_cents"]) in
       match index out "data" with Some (VList data) => inl (find_refund want data) | _ => inl (false, None) end));
    [by intros ? []|apply contacts_doJSON]].
  intros u <-. exact (under_app (stripeBaseURL +:+ "/v1/") ("refunds?charge=" +:+ (urlEncode charge +:+ "&limit=10"))).
Qed.

Lemma contacts_mcp url token tool st n a :
  contacts n (eq url) (fun NT => HandlerFor (NT := NT) url token tool st n a) NT.
Proof.
  unfold HandlerFor.
  apply (contacts_map n (eq url)
    (fun NT => callUpstream (NT := NT) n url token "tools/call"
       (Some {[ "name" := VString tool; "arguments" := value_of_map (a_Arguments a) ]}))
    (fun NT raw => match unmarshal_map raw with
      | inr _ => inl (Some {[ "raw" := VString raw ]})
      | inl result =>
          match index result "isError" with
          | Some (VBool true) =>
              plain ("upstream tool reported error: " +:+ sprint_v (default VNil (index result "content")))
          | _ => inl result
          end
      end)); [done|apply contacts_upstream].
Qed.

(** The head of a template stays, whatever the arguments are. *)
Lemma github_path_head rest owner repo args :
  exists rest', github_path ("/repos/" +:+ rest) owner repo args = "/repos/" +:+ rest'.
Proof.
  unfold github_path, ReplaceAll.
  rewrite (replace_free "{"%char "owner}" "/repos/"), (replace_free "{"%char "repo}" "/repos/") by done.
  destruct (strArg _ _) as [n|]; [|by eexists].
  rewrite (replace_free "{"%char "number}" "/repos/") by done. by eexists.
Qed.

Lemma contacts_github c method rest st n a :
  contacts n (under (githubBaseURL +:+ "/repos/"))
    (fun NT => githubHandler (NT := NT) c method ("/repos/" +:+ rest) st n a) NT.
Proof.
  unfold githubHandler. destruct (c st (a_OrgID a)) as [token|]; [|apply contacts_const].
  destruct (strArg _ ["owner"]) as [owner|]; [|apply contacts_const].
  destruct (strArg _ ["repo"]) as [repo|]; [|apply contacts_const]. cbv zeta.
  destruct (github_path_head rest owner repo (a_Arguments a)) as [rest' ->].
  assert (Hu : forall u, githubBaseURL +:+ ("/repos/" +:+ rest') = u -> under (githubBaseURL +:+ "/repos/") u).
  { intros u <-. rewrite <- string_app_assoc. apply under_app. }
  destruct (String.eqb method "GET"); (eapply contacts_mono; [exact Hu|]);
    apply contacts_answer; [apply contacts_doJSON|apply contacts_doJSONRaw].
Qed.

(** ** What RegisterReal puts into the registry *)

(** Tool, action and the prefix of every URL the handler sends its
    organization's credential to. *)
Inductive keyed_handler : string -> string -> string -> (Net -> ToolHandler) -> Prop :=
  | kh_refund : keyed_handler "stripe" "refund" "https://api.stripe.com/v1/"
      (fun NT => stripeRefundHandler (NT := NT) (cred "stripe"))
  | kh_customer : keyed_handler "stripe" "read_customer" "https://api.stripe.com/v1/"
      (fun NT => stripeReadCustomerHandler (NT := NT) (cred "stripe"))
  | kh_github action method rest :
      (action, method, rest) ∈ [("read_repo", "GET", "{owner}/{repo}");
        ("read_issue", "GET", "{owner}/{repo}/issues/{number}");
        ("create_issue", "POST", "{owner}/{repo}/issues");
        ("comment", "POST", "{owner}/{repo}/issues/{number}/comments");
        ("open_pr", "POST", "{owner}/{repo}/pulls");
        ("merge_pr", "PUT", "{owner}/{repo}/pulls/{number}/merge")] ->
      keyed_handler "github" action "https://api.github.com/repos/"
        (fun NT => githubHandler (NT := NT) (cred "github") method ("/repos/" +:+ rest)).

Lemma RegisterReal_handler r tool action base h :
  getenv "AG_DEMO_MOCKS" <> "1" -> keyed_handler tool action base h ->
  reg_handlers (RegisterReal (NT := NT) r) !! key tool action = Some (h NT).
Proof.
  intros He Hk. unfold RegisterReal. rewrite (proj2 (String.eqb_neq _ _) He).
  destruct Hk as [| |action method rest Hin].
  - cbn. by rewrite !lookup_insert_ne, lookup_insert_eq by done.
  - cbn. by rewrite !lookup_insert_ne, lookup_insert_eq by done.
  - repeat (apply elem_of_cons in Hin as [[= -> -> ->]|Hin]; [cbn; simplify_map_eq; done|]).
    by apply elem_of_nil in Hin.
Qed.


(** C33: Credentials stay home, and silence is uncertain.  After
    RegisterReal, the handler in force for each Stripe and GitHub action, and
    the Stripe reconciler, hand requests under their provider's own API prefix
    and no others to client.Do, whatever the arguments are: they depend on
    nothing but its answers (where a provider answers with a redirect, Do
    itself follows it); and each call either sends nothing, whatever the transport, or is
    reported uncertain when nobody answers, never as done or as failed. *)
Theorem credentials_stay_home r tool action base h st n a :
  getenv "AG_DEMO_MOCKS" <> "1" -> keyed_handler tool action base h ->
  reg_handlers (RegisterReal (NT := NT) r) !! key tool action = Some (h NT) /\
  contacts n (under base) (fun NT => h NT st n a) NT /\
  reg_reconcilers (RegisterReal (NT := NT) r) !! key "stripe" "refund" =
    Some (stripeRefundReconciler (cred "stripe")) /\
  contacts n (under "https://api.stripe.com/v1/")
    (fun NT => stripeRefundReconciler (NT := NT) (cred "stripe") st n a) NT.
Proof.
  intros He Hk. split; [by eapply RegisterReal_handler|].
  split; [|split; [|apply contacts_reconciler]].
  - destruct Hk; [apply contacts_refund|apply contacts_customer|apply contacts_github].
  - unfold RegisterReal. rewrite (proj2 (String.eqb_neq _ _) He). cbn. by rewrite lookup_insert_eq.
Qed.

(** ** http.request *)

Lemma HasSuffix_spec s suffix : HasSuffix s suffix = true <-> exists p, s = p +:+ suffix.
Proof.
  unfold HasSuffix. split.
  - intros H. apply andb_true_iff in H as [_ H]. apply String.eqb_eq in H.
    exists (take_string (String.length s - String.length suffix) s).
    rewrite <- H at 2. symmetry. apply take_drop_string.
  - intros [p ->]. rewrite string_length_app, Nat.add_sub. apply andb_true_iff. split.
    + apply Nat.leb_le. lia.
    + apply String.eqb_eq, drop_string_app.
Qed.

Lemma domainAllowed_spec host allow :
  domainAllowed (NT := NT) host allow = true <->
  exists d, d ∈ allow /\ allow_entry (NT := NT) d <> "" /\
    let h := ToLower (TrimSuffix host ".") in
    h = allow_entry (NT := NT) d \/ exists p, h = p +:+ "." +:+ allow_entry (NT := NT) d.
Proof.
  unfold domainAllowed. rewrite any_true. cbv zeta. split; intros (d & Hd & H); exists d; (split; [done|]).
  - apply andb_true_iff in H as [Hne H]. split; [by apply negb_true_iff, String.eqb_neq in Hne|].
    apply orb_true_iff in H as [H|H]; [left; by apply String.eqb_eq|right; by apply HasSuffix_spec].
  - destruct H as [Hne H]. apply andb_true_iff. split; [by apply negb_true_iff, String.eqb_neq|].
    apply orb_true_iff. destruct H as [H|H]; [left; by apply String.eqb_eq|right; by apply HasSuffix_spec].
Qed.

(** The destination and the method pass every gate of http.request. *)
Definition http_admitted (st : MemoryStore) (n : nat) (a : TxnAction) (method raw : string) : Prop :=
  exists u, let '(domains, methods) := http_lists (config_in st (a_OrgID a) "http") in
    strArg (a_Arguments a) ["url"] = Some raw /\ url_Parse (Net := NT) raw = Some u /\
    (u_Scheme u = "http" \/ u_Scheme u = "https") /\ u_Host u <> "" /\ method ∈ methods /\
    domainAllowed (NT := NT) (u_Hostname u) domains = true /\
    (getenv "AG_ALLOW_LOOPBACK" = "1" \/
     exists addrs, LookupIPAddr (Net := NT) n (u_Hostname u) = Some addrs /\ addrs <> [] /\
       Forall (fun ip => non_public ip = false) addrs).

Lemma publicIP_spec n host : publicIP (NT := NT) n host = None ->
  getenv "AG_ALLOW_LOOPBACK" = "1" \/
  exists addrs, LookupIPAddr n host = Some addrs /\ addrs <> [] /\
    Forall (fun ip => non_public ip = false) addrs.
Proof.
  unfold publicIP. destruct (String.eqb_spec (getenv "AG_ALLOW_LOOPBACK") "1"); [by left|].
  destruct (LookupIPAddr n host) as [[|ip ips]|] eqn:El; try done.
  destruct (any non_public (ip :: ips)) eqn:Ea; [done|]. intros _. right. exists (ip :: ips).
  split; [done|]. split; [done|]. apply Forall_forall. by apply any_false.
Qed.

(** C31: What http.request checks before it sends, and what follows.
    http.request either sends nothing, whatever the transport would answer, or
    makes exactly one call of client.Do, with a request to an http(s) URL of
    the action's arguments whose method is allowed for the organization, whose
    host is an allowed domain or a subdomain of one, and which resolves to
    public addresses only (unless the loopback override of the tests is set).
    Over any transport that call sends the admitted request first and nothing
    else unless it is redirected: each later request, nine at most, is the one
    the previous answer's Location asks for, and only the first one has been
    checked.  The result depends on the answers to the requests sent; it
    reports status and body of the response Do returns, and is uncertain when
    Do returns an error. *)
Theorem http_request_gate st n a :
  (forall f, httpRequestHandler (NT := with_http NT f) st n a = httpRequestHandler (NT := NT) st n a) \/
  exists method raw, http_admitted st n a method raw /\
    forall f, let '(sent, ans) := client_do f n (MkHttpRequest method raw ∅ None) in
      (exists later, sent = MkHttpRequest method raw ∅ None :: later /\ (length later <= 9)%nat) /\
      redirected f n sent /\
      (forall g, (forall i r, sent !! i = Some r -> g n i r = f n i r) ->
         httpRequestHandler (NT := with_http NT g) st n a = httpRequestHandler (NT := with_http NT f) st n a) /\
      match ans with
      | inl resp => exists out, httpRequestHandler (NT := with_http NT f) st n a = inl (Some out) /\
          out !! "status" = Some (VInt (hs_StatusCode resp)) /\
          out !! "body" = Some (VString (take_bytes 1048576 (hs_Body resp)))
      | inr _ => is_uncertain (httpRequestHandler (NT := with_http NT f) st n a)
      end.
Proof.
  unfold httpRequestHandler, http_admitted.
  destruct (http_lists _) as [domains methods].
  change (@ToUpper (with_http NT ?f)) with (@ToUpper NT).
  set (method := match strArg (a_Arguments a) ["method"] with Some m => ToUpper m | None => "GET" end).
  destruct (any (fun m => String.eqb m method) methods) eqn:Em; cbn [negb]; [|by left].
  destruct (strArg (a_Arguments a) ["url"]) as [raw|]; [|by left].
  cbn [with_http url_Parse]. destruct (url_Parse raw) as [u|] eqn:Eu; [|by left].
  destruct (negb _ && negb _ || _) eqn:Es; [by left|].
  change (domainAllowed (NT := with_http NT ?f)) with (domainAllowed (NT := NT)).
  change (publicIP (NT := with_http NT ?f)) with (publicIP (NT := NT)).
  destruct (domainAllowed (u_Hostname u) domains) eqn:Ed; cbn [negb]; [|by left].
  destruct (publicIP n (u_Hostname u)) as [err|] eqn:Ep; [by left|].
  cbn [with_http new_request_err].
  destruct (new_request_err method raw) as [err|]; [by left|].
  right. exists method, raw. split.
  - exists u. apply orb_false_iff in Es as [Es1 Es2]. apply andb_false_iff in Es1.
    split; [done|]. split; [done|]. split.
    { destruct Es1 as [E|E]; apply negb_false_iff, String.eqb_eq in E; auto. }
    split; [by apply String.eqb_neq|]. split.
    { apply any_true in Em as (m & Hm & E). by apply String.eqb_eq in E as <-. }
    split; [done|]. by apply publicIP_spec.
  - intros f. pose proof (client_do_sent f n (MkHttpRequest method raw ∅ None)) as (later & Hs & Hl & Hr).
    pose proof (fun g => client_do_agree f g n (MkHttpRequest method raw ∅ None)) as Hg.
    change (http_do (NT := with_http NT ?h) n ?r) with (client_do h n r).2.
    destruct (client_do f n _) as [sent ans] eqn:Ef. cbn [fst snd] in *.
    split; [by exists later|]. split; [done|]. split; [intros g Hfg; by rewrite (Hg g Hfg)|].
    destruct ans as [resp|err]; [|by eexists]. eexists. split; [done|].
    destruct (negb (String.eqb method "GET") && _); split; by simplify_map_eq.
Qed.

(** ** postgres.query *)

Lemma read_rows_bound cols rows out l all :
  (length out <= 100)%nat -> read_rows cols rows out = inl (l, all) ->
  (length l <= 100)%nat /\ (all = true -> length l = (length out + length rows)%nat).
Proof.
  revert out. induction rows as [|row rows IH]; intros out Hlen H; cbn [read_rows] in H.
  - injection H as <- <-. split; [done|]. cbn. lia.
  - destruct (Nat.ltb_spec (length out) 100); cbn [negb] in H;
      [|injection H as <- <-; split; [done|discriminate]].
    destruct row as [vals|]; [|done]. apply IH in H; rewrite ?length_app in *; cbn in *; [|lia].
    destruct H as [Hl Ha]. split; [done|]. intros E. specialize (Ha E). lia.
Qed.

(** The commands of one call of postgres.query before its commit. *)
Definition pg_commands (dsn sql : string) : list PgCommand :=
  [PgConnect dsn; PgBeginTx true; PgExec "SET LOCAL statement_timeout = '10s'"; PgQuery sql].

Lemma pg_answer_agree (g h : list PgCommand -> PgResult + string) dsn sql :
  (forall k, (1 <= k <= 4)%nat -> g (take k (pg_commands dsn sql)) = h (take k (pg_commands dsn sql))) ->
  (forall all, g (pg_commands dsn sql ++ [PgCommit all]) = h (pg_commands dsn sql ++ [PgCommit all])) ->
  pg_answer g dsn sql = pg_answer h dsn sql.
Proof.
  intros Hk Hc. pose proof (Hk 1%nat ltac:(lia)) as H1. pose proof (Hk 2%nat ltac:(lia)) as H2.
  pose proof (Hk 3%nat ltac:(lia)) as H3. pose proof (Hk 4%nat ltac:(lia)) as H4.
  cbn in H1, H2, H3, H4, Hc. unfold pg_answer. cbn [app]. rewrite H1, H2, H3, H4.
  destruct (h [PgConnect _]); [|done]. destruct (h [PgConnect _; _]); [|done].
  destruct (h [PgConnect _; _; _]); [|done]. destruct (h [PgConnect _; _; _; _]) as [rows|]; [|done].
  destruct (read_rows _ _ []) as [[out all]|]; [|done]. destruct (pr_Err rows all); [done|]. by rewrite Hc.
Qed.

Lemma pg_answer_ok (g : list PgCommand -> PgResult + string) dsn sql out :
  pg_answer g dsn sql = inl out ->
  (forall k, (1 <= k <= 4)%nat -> exists r, g (take k (pg_commands dsn sql)) = inl r) /\
  exists l, index out "rows" = Some (VList l) /\ (length l <= 100)%nat /\
    index out "truncated" = Some (VBool (Nat.eqb (length l) 100)).
Proof.
  unfold pg_answer. cbn [app].
  destruct (g [PgConnect _]) as [r1|] eqn:E1; [|done]. destruct (g [PgConnect _; _]) as [r2|] eqn:E2; [|done].
  destruct (g [PgConnect _; _; _]) as [r3|] eqn:E3; [|done].
  destruct (g [PgConnect _; _; _; _]) as [r4|] eqn:E4; [|done].
  destruct (read_rows (pr_Cols r4) (pr_Rows r4) []) as [[l all]|] eqn:Er; [|done].
  destruct (pr_Err r4 all); [done|]. intros Ho.
  destruct (g [PgConnect _; _; _; _; _]); [|done]. injection Ho as <-. split.
  - intros k Hk. destruct k as [|[|[|[|[|k]]]]]; try lia; cbn; by eexists.
  - apply read_rows_bound in Er as [Hl _]; [|cbn; lia]. exists l.
    cbn. split; [by simplify_map_eq|]. split; [done|]. by simplify_map_eq.
Qed.

(** C32: Only single read statements reach the database.  postgres.query
    either opens no session, whatever the database would answer, or opens
    exactly one, with the organization's own DSN: it connects, begins a
    read-only transaction, sets the statement timeout, sends one statement
    that has no semicolon and, ignoring case and surrounding space, begins
    with SELECT, WITH, VALUES, TABLE or EXPLAIN, and commits; its result
    depends on the answers to these commands and on no others.  It succeeds
    only when each of them was accepted; an unreachable server is uncertain,
    and an answer holds at most 100 rows and is marked truncated exactly when
    it holds 100. *)
Theorem postgres_query_gate c st n a :
  (forall g, postgresQueryHandler (NT := with_pg NT g) c st n a = postgresQueryHandler (NT := NT) c st n a) \/
  exists dsn sql,
    c st (a_OrgID a) = Some dsn /\ free_of ";"%char sql = true /\
    (exists arg, strArg (a_Arguments a) ["sql"; "query"] = Some arg /\
       sql = TrimRight (TrimSpace arg) sql_cut /\
       exists verb, verb ∈ read_only_verbs /\ HasPrefix (ToUpper (TrimSpace arg)) verb = true) /\
    (forall g, postgresQueryHandler (NT := with_pg NT g) c st n a = pg_answer (g n) dsn sql) /\
    (forall g h : list PgCommand -> PgResult + string,
       (forall k, (1 <= k <= 4)%nat -> g (take k (pg_commands dsn sql)) = h (take k (pg_commands dsn sql))) ->
       (forall all, g (pg_commands dsn sql ++ [PgCommit all]) = h (pg_commands dsn sql ++ [PgCommit all])) ->
       pg_answer g dsn sql = pg_answer h dsn sql) /\
    (forall g out, pg_answer g dsn sql = inl out ->
       (forall k, (1 <= k <= 4)%nat -> exists r, g (take k (pg_commands dsn sql)) = inl r) /\
       exists l, index out "rows" = Some (VList l) /\ (length l <= 100)%nat /\
         index out "truncated" = Some (VBool (Nat.eqb (length l) 100))) /\
    forall g e, g [PgConnect dsn] = inr e -> is_uncertain (pg_answer g dsn sql).
Proof.
  unfold postgresQueryHandler. destruct (c st (a_OrgID a)) as [dsn|]; [|by left].
  destruct (strArg (a_Arguments a) _) as [arg|] eqn:Ea; [|by left]. cbv zeta. cbn [with_pg TrimSpace ToUpper].
  destruct (any _ read_only_verbs) eqn:Ev; cbn [negb]; [|by left].
  set (sql := TrimRight (TrimSpace arg) sql_cut).
  destruct (Contains sql ";") eqn:Ec; [by left|]. right. exists dsn, sql.
  split; [done|]. split; [by apply Contains_false_free|]. split.
  { exists arg. split; [done|]. split; [done|]. apply any_true in Ev as (v & Hv & Hp). by exists v. }
  split; [done|]. split; [intros g h; apply pg_answer_agree|]. split; [intros g out; apply pg_answer_ok|].
  intros g e He. unfold pg_answer. rewrite He. by eexists.
Qed.

(** ** The Stripe reconciler *)

(** The reconciler confirms only a refund Stripe listed: whenever it
    reports the action as executed, its evidence is an entry of the list the
    provider returned for the charge of the action, and the entry's amount is
    the amount asked for unless the action names no amount (in cents), in
    which case any refund of the charge passes. *)
Theorem reconciler_evidence c st n a found result :
  stripeRefundReconciler (NT := NT) c st n a = inl (found, result) ->
  exists secret charge out code, c st (a_OrgID a) = Some secret /\
    strArg (a_Arguments a) ["charge"; "charge_id"] = Some charge /\
    doJSON (NT := NT) n "GET" (stripeBaseURL +:+ "/v1/refunds?charge=" +:+ urlEncode charge +:+ "&limit=10")
      secret "" None ∅ = inl (out, code) /\
    if found then exists data m amt, index out "data" = Some (VList data) /\ VMap m ∈ data /\
      result = Some (list_to_map m) /\ index result "amount" = Some (VFloat amt) /\
      (numArg (a_Arguments a) ["amount_cents"] = Some (int64_of_float amt) \/
       default 0 (numArg (a_Arguments a) ["amount_cents"]) = 0)
    else result = None.
Proof.
  unfold stripeRefundReconciler. destruct (c st (a_OrgID a)) as [secret|]; [|done].
  unfold stripeKey. destruct (HasPrefix secret "sk_live"); [done|].
  destruct (negb (HasPrefix secret "sk_test_")); [done|].
  destruct (strArg _ _) as [charge|]; [|done].
  destruct (doJSON _ _ _ _ _ _ _) as [[out code]|] eqn:Ed; [|done]. cbv zeta. intros H.
  exists secret, charge, out, code. split; [done|]. split; [done|]. split; [done|].
  set (amount := numArg _ _) in *.
  destruct (index out "data") as [[]|] eqn:Eo; try (by injection H as <- <-).
  unfold find_refund in H. destruct (List.find _ _) as [item|] eqn:Ef; [|by injection H as <- <-].
  apply find_some in Ef as [Hin Hm]. destruct item as [| | | | | | | | |m]; try discriminate Hm.
  injection H as <- <-. unfold refund_matches in Hm.
  destruct (index (Some (list_to_map m)) "amount") as [[| | | |amt| | | | |]|] eqn:Ei; try discriminate Hm.
  exists l, m, amt. split; [done|]. split; [by apply list_elem_of_In|]. split; [done|]. split; [done|].
  apply orb_true_iff in Hm as [Hm|Hm]; apply Z.eqb_eq in Hm; [by right|].
  destruct amount as [z|]; cbn in Hm; [left; by rewrite Hm|by right].
Qed.

(** ** What RegisterReal leaves in place *)

Definition real_keys : list string :=
  ["stripe.refund"; "stripe.read_customer"; "github.read_repo"; "github.read_issue";
   "github.create_issue"; "github.comment"; "github.open_pr"; "github.merge_pr";
   "postgres.query"; "http.request"].

Lemma register_one_frame e r k :
  reg_compensators (register_one r e) = reg_compensators r /\
  (k <> key e.1.1.1 e.1.1.2 -> reg_handlers (register_one r e) !! k = reg_handlers r !! k).
Proof.
  destruct e as [[[tool action] classes] h]. unfold register_one, Register. split; [by destruct classes|].
  intros Hne. cbn in *. by rewrite lookup_insert_ne.
Qed.

Lemma register_all_frame l r k :
  reg_compensators (foldl register_one r l) = reg_compensators r /\
  (k ∉ (fun e => key e.1.1.1 e.1.1.2) <$> l -> reg_handlers (foldl register_one r l) !! k = reg_handlers r !! k).
Proof.
  revert r. induction l as [|e l IH]; intros r; cbn [foldl fmap list_fmap]; [done|].
  destruct (IH (register_one r e)) as [Hc Hh]. destruct (register_one_frame e r k) as [Hc1 Hh1].
  split; [congruence|]. intros Hk. apply not_elem_of_cons in Hk as [Hne Hk]. rewrite Hh by done. by apply Hh1.
Qed.

Lemma real_handlers_keys : (fun e => key e.1.1.1 e.1.1.2) <$> real_handlers (NT := NT) = real_keys.
Proof. reflexivity. Qed.

(** What stays a mock.  RegisterReal replaces exactly ten handlers and no
    compensator: every other tool of the default registry keeps reporting a
    mock success without contacting anyone, and after a real Stripe refund the
    compensator in force is still the mock one, which reports the refund
    undone without contacting anyone. *)
Theorem RegisterReal_leaves_mocks r :
  reg_compensators (RegisterReal (NT := NT) r) = reg_compensators r /\
  (forall k, k ∉ real_keys -> reg_handlers (RegisterReal (NT := NT) r) !! k = reg_handlers r !! k) /\
  (forall n a, a_Tool a = "stripe" -> a_Action a = "refund" ->
     Compensate (RegisterReal (NT := NT) DefaultRegistry) n a = None) /\
  (forall st n a, a_Tool a = "email" -> a_Action a = "send" -> ctx_err n = None ->
     Execute (RegisterReal (NT := NT) DefaultRegistry) st n a = inl (Some {[ "sent" := VBool true ]})).
Proof.
  assert (Hframe : forall r k, reg_compensators (RegisterReal (NT := NT) r) = reg_compensators r /\
    (k ∉ real_keys -> reg_handlers (RegisterReal (NT := NT) r) !! k = reg_handlers r !! k)).
  { intros r0 k. unfold RegisterReal. destruct (String.eqb _ _); [done|].
    destruct (register_all_frame real_handlers r0 k) as [Hc Hh]. rewrite real_handlers_keys in Hh.
    revert Hc Hh. generalize (foldl register_one r0 real_handlers). intros r1 Hc Hh.
    split; [exact Hc|exact Hh]. }
  split; [exact (proj1 (Hframe r ""))|]. split; [exact (fun k => proj2 (Hframe r k))|]. split.
  - intros n a Ht Ha. unfold Compensate. rewrite (proj1 (Hframe _ "")), Ht, Ha. reflexivity.
  - intros st n a Ht Ha Hn. unfold Execute. rewrite Ht, Ha.
    assert (Hk : key "email" "send" ∉ real_keys).
    { change (key "email" "send") with "email.send". unfold real_keys. set_solver. }
    rewrite (proj2 (Hframe _ _) Hk).
    change (mock_ok {[ "sent" := VBool true ]} st n a = inl (Some {[ "sent" := VBool true ]})).
    unfold mock_ok. by rewrite Hn.
Qed.

End Contacts.
