(* ===== verification/Gateway.v ===== *)
(** * Gateway: the service that decides and executes actions
    (internal/gateway/service.go, risk.go, simulate.go)

    Each operation is a [prog]: the store's methods are its critical
    sections, the calls of tools and the assignments through the pointer that
    AddAction returns are steps of their own.  [time.Now] and the trace
    identifier take clock ticks; spans of the tracer change no state and are
    left out.  A nil dereference is the error of [panic]. *)

From S2P Require Export StoreSecrets Transactions Authority Jev.

Open Scope Z_scope.

(** ** Amounts *)

Section Amounts.
Context `{RT : Runtime}.

(** The loop over the two keys; a value of another type is skipped. *)
Fixpoint first_cents (args : gomap) (keys : list string) : option Z :=
  match keys with
  | [] => None
  | k :: keys =>
      match index args k ≫= number_of with
      | Some n => Some n
      | None => first_cents args keys
      end
  end.

Definition extractCents (args : gomap) : option Z :=
  match first_cents args ["amount_cents"; "amountCents"] with
  | Some n => Some n
  | None =>
      match index args "amount" with
      | Some (VInt n) => Some (wrap64 (n * 100))
      | Some (VFloat f) => Some (int64_of_float (float_mul_100 f))
      | _ => None
      end
  end.

End Amounts.

Section Gateway.
Context `{RT : Runtime} `{JE : JevEnv}.

(** ** Steps of the service *)

Definition panic {A} : prog (goresult A) :=
  Ret (Err None (ErrPlain "runtime error: invalid memory address or nil pointer dereference")).

Definition get_signer : M (option Provider) := fun w => (w_signer w, w).

(** One clock reading for each of [k] tests of a loop. *)
Definition readings (k : nat) : M (nat -> time) := fun w =>
  (fun i => clock (w_tick w + i), w <| w_tick ::= fun t => (t + k)%nat |>).

Definition TraceID : M string := fun w => (trace_id (w_tick w), w <| w_tick ::= S |>).

Definition event (orgID txnID actorType actorID type : string)
    (payload : list (string * value)) : AuditEvent :=
  MkAuditEvent "" orgID txnID actorType actorID type payload zero_time.

(** Calls of tools, recorded in the trace. *)
Definition tools_Execute (a : TxnAction) : M (gomap + GoError) := fun w =>
  (Execute (w_tools w) (w_store w) (w_tick w) a,
   w <| w_tick ::= S |> <| w_calls ::= fun l => l ++ [CallExecute a] |>).

Definition tools_Compensate (a : TxnAction) : M (option GoError) := fun w =>
  (Compensate (w_tools w) (w_tick w) a,
   w <| w_tick ::= S |> <| w_calls ::= fun l => l ++ [CallCompensate a] |>).

Definition call_reconciler (rec : Reconciler) (a : TxnAction) : M ((bool * gomap) + GoError) :=
  fun w => (rec (w_store w) (w_tick w) a,
            w <| w_tick ::= S |> <| w_calls ::= fun l => l ++ [CallReconcile a] |>).

(** [*stored], and [UpdateAction(stored)] where [stored] is the cell itself. *)
Definition load_action (id : string) : M TxnAction :=
  let* s := get_store in
  m_ret (default zero_action (st_actions s !! id)).

Definition update_cell (id : string) : M unit :=
  let* a := load_action id in UpdateAction a.

(** ** Receipts *)

Definition signReceipt (ptr : nat) : prog unit :=
  let@ signer := get_signer in
  match signer with
  | None => Ret tt
  | Some p =>
      let@ _ := write_receipt ptr (fun r => r <| r_KeyID := kp_KeyID p |>) in
      let@ r := load_receipt ptr in
      let@ _ := write_receipt ptr (fun c =>
        c <| r_Signature := hex_encode (kp_Sign p (r_Hash r)) |>) in
      Ret tt
  end.

Definition update_receipt_cell (ptr : nat) : M unit :=
  let* r := load_receipt ptr in UpdateReceipt r.

(** AppendReceipt, signReceipt, UpdateReceipt; the result is [r.ID]. *)
Definition issue_receipt (r : Receipt) : prog string :=
  let@ ptr := AppendReceipt r in
  let! _ := signReceipt ptr in
  let@ _ := update_receipt_cell ptr in
  let@ r := load_receipt ptr in
  Ret (r_ID r).

(** The receipt of an executed or reconciled action; [None] where the code
    dereferences a nil decision. *)
Definition receipt_for (orgID : string) (a : TxnAction) (res : gomap) (compensation : string)
    (start stop : time) : option Receipt :=
  d ← a_Decision a;
  Some (MkReceipt "" orgID (a_TransactionID a) (a_ID a) "" "" (a_Tool a) (a_Action a)
          (a_ArgumentsHash a) (d_Effect d) (Canonical (value_of_map res)) (a_AmountCents a)
          compensation "" "" "" "" (d_PolicyVersion d) start stop).

(** ** Risk screen (risk.go) *)

Fixpoint siblings (id : string) (acts : list TxnAction) (count total : Z) : Z * Z :=
  match acts with
  | [] => (count, total)
  | s :: acts =>
      if String.eqb (a_ID s) id then siblings id acts count total
      else siblings id acts (count + 1)
             (match a_AmountCents s with Some n => wrap64 (total + n) | None => total end)
  end.

Definition jevScreenRisk (orgID txnID : string) (ag : Agent) (a : TxnAction)
    : prog (bool * string) :=
  if negb Enabled then Ret (false, "")
  else
    let amount := default 0 (a_AmountCents a) in
    let@ acts := ActionsForTxn orgID txnID in
    let '(sibCount, sibTotal) := siblings (a_ID a) acts 0 0 in
    let@ n := tick in
    Ret (risk_verdict (ScreenRisk n
      (MkJevAction (a_Tool a) (a_Action a) amount (a_Arguments a) (a_Classes a)
         (ag_Name ag) (ag_Groups ag) (ag_Environment ag) sibCount sibTotal))).

(** ** ProposeAction *)

(** The rules and the version the decision is taken with: two reads. *)
Definition current_rules (orgID : string) : prog (list PolicyRule * Z) :=
  let@ rules := Policies orgID in
  let@ set := ActivePolicySet orgID in
  Ret (match set with
       | Some set => (ps_Rules set, ps_Version set)
       | None => (rules, 0)
       end).

Definition with_reason (d : PolicyDecision) : PolicyDecision :=
  d <| d_ReasonCode := match d_Effect d with
                       | EffectDeny => ReasonPolicyDenied
                       | EffectRequireApproval => ReasonApprovalRequired
                       | _ => ReasonAllowed
                       end |>.

Definition is_allow (e : PolicyEffect) : bool :=
  match e with EffectAllow | EffectAllowWithConstraints => true | _ => false end.

Definition set_decision (id : string) (d : PolicyDecision) : M unit :=
  write_action id (fun a => a <| a_Decision := Some d |>).

Definition set_status (id : string) (st : ActionStatus) : M unit :=
  write_action id (fun a => a <| a_Status := st |>).

Definition policy_event (orgID txnID : string) (d : PolicyDecision) : AuditEvent :=
  event orgID txnID "policy" (d_RuleID d) "policy.evaluated"
    [("effect", VString (PolicyEffect_str (d_Effect d)));
     ("why", VString (d_Explanation d)); ("reason_code", VString (d_ReasonCode d))].

(** [return stored, nil]: the cell as the caller finds it. *)
Definition return_cell (id : string) : prog (goresult TxnAction) :=
  let@ a := load_action id in Ret (Ok a).

(** Grants that do not cover the operation. *)
Definition deny_authority (orgID txnID agentID id why : string) : prog (goresult TxnAction) :=
  let@ _ := set_decision id (MkPolicyDecision EffectDeny "" why ReasonAuthorityExceeded 0) in
  let@ _ := set_status id StDenied in
  let@ _ := update_cell id in
  let@ _ := Emit (event orgID txnID "authority" agentID "action.denied"
    [("action_id", VString id); ("reason_code", VString ReasonAuthorityExceeded)]) in
  return_cell id.

(** The risk screen of an allowing decision.  [decision] is the variable the
    cell points to, so each assignment to it shows in the cell. *)
Definition screen (orgID txnID : string) (ag : Agent) (id : string) (d : PolicyDecision)
    : prog PolicyDecision :=
  if is_allow (d_Effect d) then
    let@ stored := load_action id in
    let! verdict := jevScreenRisk orgID txnID ag stored in
    if fst verdict then
      let d := d <| d_Effect := EffectRequireApproval |> in
      let@ _ := set_decision id d in
      let d := d <| d_ReasonCode := ReasonApprovalRequired |> in
      let@ _ := set_decision id d in
      let d := d <| d_Explanation := "risk screen: " +:+ snd verdict |> in
      let@ _ := set_decision id d in
      Ret d
    else Ret d
  else Ret d.

(** The last switch of ProposeAction; [t] is the copy read at its start. *)
Definition conclude (orgID txnID agentID : string) (t : Transaction) (amt : option Z)
    (id : string) (d : PolicyDecision) : prog (goresult TxnAction) :=
  match d_Effect d with
  | EffectDeny =>
      let@ _ := set_status id StDenied in
      let@ _ := update_cell id in
      let@ _ := Emit (policy_event orgID txnID d) in
      let@ _ := Emit (event orgID txnID "policy" (d_RuleID d) "action.denied"
        [("action_id", VString id)]) in
      return_cell id
  | EffectRequireApproval =>
      let@ _ := set_status id StAwaitingApproval in
      let@ _ := update_cell id in
      let@ _ := Emit (policy_event orgID txnID d) in
      let@ _ := CreateApproval (MkApproval "" orgID txnID (Some id) agentID (d_Explanation d) amt
                                  ApZero "" None zero_time) in
      let@ _ := Emit (event orgID txnID "system" agentID "approval.requested"
        [("action_id", VString id)]) in
      let t := TryTransition t TxnAwaitingApproval in
      let@ _ := SetTxnStatus orgID txnID (t_Status t) in
      return_cell id
  | _ =>
      let@ _ := set_status id StAllowed in
      let@ _ := update_cell id in
      let@ _ := Emit (policy_event orgID txnID d) in
      return_cell id
  end.

(** ProposeAction from the authority check on; [id] names the cell. *)
Definition decide_fresh (orgID txnID agentID tool action : string) (t : Transaction)
    (ag : Agent) (amt : option Z) (id : string) : prog (goresult TxnAction) :=
  let@ grants := GrantsForAgent orgID agentID in
  let@ clk := readings (length grants) in
  let '(covered, hasGrants, authWhy) := CheckAuthority clk grants ag tool action amt in
  let! _ := (if hasGrants : bool then
               let@ trace := TraceID in
               let@ _ := Emit (event orgID txnID "authority" agentID "authority.evaluated"
                 [("action_id", VString id); ("covered", VBool covered);
                  ("why", VString authWhy); ("trace_id", VString trace)]) in
               Ret tt
             else Ret tt) in
  if hasGrants && negb covered then deny_authority orgID txnID agentID id authWhy
  else
    let! rv := current_rules orgID in
    let@ stored := load_action id in
    let@ clk := readings (length (fst rv)) in
    let d := with_reason (Evaluate clk (fst rv) (snd rv) (MkEvalInput ag stored)) in
    let@ _ := set_decision id d in
    let! d := screen orgID txnID ag id d in
    conclude orgID txnID agentID t amt id d.

Definition ProposeAction (orgID txnID agentID tool action : string) (args : gomap)
    (idemKey : string) : prog (goresult TxnAction) :=
  let@ t := GetTxn orgID txnID in
  match t with
  | None => fail "transaction not found"
  | Some t =>
      if is_terminal (t_Status t)
      then fail ("transaction is terminal (" +:+ TxnStatus_str (t_Status t) +:+ ")")
      else
        let@ ag := GetAgent orgID agentID in
        match ag with
        | None => fail "agent not found"
        | Some ag =>
            let amt := extractCents args in
            let@ tools := get_tools in
            let a := zero_action <| a_OrgID := orgID |> <| a_TransactionID := txnID |>
              <| a_Tool := tool |> <| a_Action := action |> <| a_Arguments := args |>
              <| a_Classes := Classes tools tool action |> <| a_AmountCents := amt |>
              <| a_IdempotencyKey := idemKey |> <| a_Status := StProposed |> in
            let@ r := AddAction a in
            let '(stored, dup) := r in
            if dup : bool then
              let@ _ := Emit (event orgID txnID "system" agentID "action.replayed"
                [("action_id", VString (a_ID stored));
                 ("status", VString (ActionStatus_str (a_Status stored)))]) in
              Ret (Ok stored)
            else decide_fresh orgID txnID agentID tool action t ag amt (a_ID stored)
        end
  end.

(** ** Execution *)

(** [%v] of a [*PolicyDecision]. *)
Definition show_decision (d : option PolicyDecision) : string :=
  match d with
  | None => "<nil>"
  | Some d => "&{" +:+ PolicyEffect_str (d_Effect d) +:+ " " +:+ d_RuleID d +:+ " " +:+
              d_Explanation d +:+ " " +:+ d_ReasonCode d +:+ " " +:+ pretty (d_PolicyVersion d) +:+
              "}"
  end.

(** The transaction statuses [run] moves to EXECUTING. *)
Definition moves_to_executing (st : TxnStatus) : bool :=
  match st with TxnCreated | TxnPlanning | TxnAwaitingApproval => true | _ => false end.

Definition run_action (orgID : string) (a : TxnAction) : prog (goresult TxnAction) :=
  let txnID := a_TransactionID a in
  let@ t := GetTxn orgID txnID in
  let! _ := match t with
            | Some t =>
                if moves_to_executing (t_Status t)
                then let@ _ := SetTxnStatus orgID (t_ID t) TxnExecuting in Ret tt
                else Ret tt
            | None => Ret tt
            end in
  let@ start := now in
  let@ traceID := TraceID in
  let@ _ := Emit (event orgID txnID "agent" "" "action.executing"
    [("action_id", VString (a_ID a)); ("trace_id", VString traceID)]) in
  let@ res := tools_Execute a in
  let@ stop := now in
  let a := a <| a_LatencyMS := Z.quot (stop - start) 1000000 |> in
  match res with
  | inr err =>
      match as_uncertain err with
      | Some ue =>
          let a := a <| a_Status := StUnknown |> <| a_Error := err_Error ue |> in
          let@ _ := UpdateAction a in
          let@ _ := Emit (event orgID txnID "tool" (a_Tool a) "action.unknown"
            [("action_id", VString (a_ID a)); ("error", VString (err_Error ue));
             ("trace_id", VString traceID); ("hint", VString "reconcile before retrying")]) in
          Ret (Err (Some a) ue)
      | None =>
          let a := a <| a_Status := StFailed |> <| a_Error := err_Error err |> in
          let@ _ := UpdateAction a in
          let@ _ := Emit (event orgID txnID "tool" (a_Tool a) "action.failed"
            [("action_id", VString (a_ID a)); ("error", VString (err_Error err));
             ("trace_id", VString traceID)]) in
          Ret (Err (Some a) err)
      end
  | inl res =>
      let a := a <| a_Status := StExecuted |> <| a_Result := res |> in
      let@ _ := UpdateAction a in
      let@ end_ := now in
      match receipt_for orgID a res "none" start end_ with
      | None => panic
      | Some r =>
          let! rid := issue_receipt r in
          let@ _ := Emit (event orgID txnID "tool" (a_Tool a) "action.executed"
            [("action_id", VString (a_ID a)); ("receipt_id", VString rid);
             ("trace_id", VString traceID)]) in
          Ret (Ok a)
      end
  end.

Definition ExecuteAllowed (orgID actionID : string) : prog (goresult TxnAction) :=
  let@ a := GetAction orgID actionID in
  match a with
  | None => fail "action not found"
  | Some a =>
      if bool_decide (a_Status a = StExecuted) then Ret (Ok a)
      else if bool_decide (a_Status a = StUnknown) then
        fail ("action " +:+ a_ID a +:+ " is in EXECUTION_UNKNOWN: reconcile it before retrying, or it may duplicate the side effect")
      else if negb (match a_Decision a with Some d => is_allow (d_Effect d) | None => false end) then
        fail ("action " +:+ a_ID a +:+ " is not executable (status=" +:+ ActionStatus_str (a_Status a) +:+
              " decision=" +:+ show_decision (a_Decision a) +:+ "): approval required or denied")
      else if negb (bool_decide (a_Status a = StAllowed)) && negb (bool_decide (a_Status a = StApproved))
      then fail ("action " +:+ a_ID a +:+ " not in executable state (" +:+
                 ActionStatus_str (a_Status a) +:+ ")")
      else run_action orgID a
  end.

Definition RunApproved (orgID actionID : string) : prog (goresult TxnAction) :=
  let@ a := GetAction orgID actionID in
  match a with
  | None => fail "action not found"
  | Some a =>
      if bool_decide (a_Status a = StExecuted) then Ret (Ok a)
      else if negb (bool_decide (a_Status a = StApproved)) then
        fail ("action " +:+ a_ID a +:+ " has no granted approval (status=" +:+
              ActionStatus_str (a_Status a) +:+ ")")
      else run_action orgID a
  end.

(** ** Commit *)

(** The loop over the actions: the refusal of the first unresolved one. *)
Fixpoint commit_blocker (acts : list TxnAction) : option string :=
  match acts with
  | [] => None
  | a :: acts =>
      match a_Status a with
      | StExecuted | StDenied | StCompensated => commit_blocker acts
      | StAwaitingApproval => Some ("cannot commit: action " +:+ a_ID a +:+ " awaits approval")
      | StUnknown => Some ("cannot commit: action " +:+ a_ID a +:+ " is unreconciled")
      | StFailed | StCompensationFailed => Some ("cannot commit: action " +:+ a_ID a +:+ " failed")
      | st => Some ("cannot commit: action " +:+ a_ID a +:+ " is " +:+ ActionStatus_str st)
      end
  end.

Definition Commit (orgID txnID : string) : prog (goresult (option Transaction)) :=
  let@ t := GetTxn orgID txnID in
  match t with
  | None => fail "transaction not found"
  | Some t =>
      if is_terminal (t_Status t)
      then fail ("transaction is terminal (" +:+ TxnStatus_str (t_Status t) +:+ ")")
      else
        let@ acts := ActionsForTxn orgID txnID in
        match commit_blocker acts with
        | Some why => fail why
        | None =>
            match MustTransition t TxnCommitted with
            | inr err => fail err
            | inl _ =>
                let@ ok := SetTxnStatus orgID txnID TxnCommitted in
                if negb ok then fail "transaction not found"
                else
                  let@ trace := TraceID in
                  let@ _ := Emit (event orgID txnID "system" "gateway" "transaction.committed"
                    [("trace_id", VString trace)]) in
                  let@ out := GetTxn orgID txnID in
                  Ret (Ok out)
            end
        end
  end.

(** ** Reconcile *)

Definition Reconcile (orgID actionID : string) : prog (goresult TxnAction) :=
  let@ a := GetAction orgID actionID in
  match a with
  | None => fail "action not found"
  | Some a =>
      let txnID := a_TransactionID a in
      if negb (bool_decide (a_Status a = StUnknown)) then
        fail ("action " +:+ a_ID a +:+ " is " +:+ ActionStatus_str (a_Status a) +:+
              ", nothing to reconcile")
      else
        let@ tools := get_tools in
        match ReconcilerFor tools (a_Tool a) (a_Action a) with
        | None =>
            let@ _ := Emit (event orgID txnID "system" "gateway" "reconcile.no_reconciler"
              [("action_id", VString (a_ID a)); ("tool", VString (a_Tool a))]) in
            fail ("no reconciler for " +:+ a_Tool a +:+ "." +:+ a_Action a +:+
                  "; action remains unknown")
        | Some rec =>
            let@ answer := call_reconciler rec a in
            match answer with
            | inr err =>
                let@ _ := Emit (event orgID txnID "tool" (a_Tool a) "reconcile.error"
                  [("action_id", VString (a_ID a)); ("error", VString (err_Error err))]) in
                Ret (Err None (ErrWrap ("reconciliation failed: " +:+ err_Error err) err))
            | inl (found, result) =>
                let@ traceID := TraceID in
                if negb found then
                  let a := a <| a_Status := StFailed |>
                    <| a_Error := "reconciliation confirmed the action never executed upstream" |> in
                  let@ _ := UpdateAction a in
                  let@ _ := Emit (event orgID txnID "tool" (a_Tool a) "action.reconciled"
                    [("action_id", VString (a_ID a)); ("outcome", VString "absent");
                     ("trace_id", VString traceID)]) in
                  Ret (Ok a)
                else
                  let@ end_ := now in
                  let a := a <| a_Status := StExecuted |> <| a_Result := result |>
                    <| a_Error := "" |> in
                  let@ _ := UpdateAction a in
                  match receipt_for orgID a result "reconciled" (a_CreatedAt a) end_ with
                  | None => panic
                  | Some r =>
                      let! rid := issue_receipt r in
                      let@ _ := Emit (event orgID txnID "tool" (a_Tool a) "action.reconciled"
                        [("action_id", VString (a_ID a)); ("outcome", VString "confirmed");
                         ("receipt_id", VString rid); ("trace_id", VString traceID)]) in
                      Ret (Ok a)
                  end
            end
        end
  end.

(** ** CompensateTransaction *)

(** [ac, _ := GetAction(...); ac.Status = st; UpdateAction(ac)], then the
    event; [None] when the cell is gone (nil dereference). *)
Definition settle (orgID txnID id : string) (st : ActionStatus) (type : string)
    (payload : list (string * value)) (failed : bool) : prog (option bool) :=
  let@ ac := GetAction orgID id in
  match ac with
  | None => Ret None
  | Some ac =>
      let@ _ := UpdateAction (ac <| a_Status := st |>) in
      let@ _ := Emit (event orgID txnID "system" "gateway" type payload) in
      Ret (Some failed)
  end.

(** One round of the loop; the accumulator is [failed], [None] after a panic. *)
Definition compensate_one (orgID txnID : string) (a : TxnAction) (failed : option bool)
    : prog (option bool) :=
  match failed with
  | None => Ret None
  | Some failed =>
      if negb (bool_decide (a_Status a = StExecuted)) then Ret (Some failed)
      else if IsIrreversible a && negb (IsCompensable a) then
        let@ _ := Emit (event orgID txnID "system" "gateway" "compensation.skipped_irreversible"
          [("action_id", VString (a_ID a))]) in
        Ret (Some true)
      else
        let@ err := tools_Compensate a in
        match err with
        | Some err =>
            settle orgID txnID (a_ID a) StCompensationFailed "compensation.failed"
              [("action_id", VString (a_ID a)); ("error", VString (err_Error err))] true
        | None =>
            settle orgID txnID (a_ID a) StCompensated "compensation.succeeded"
              [("action_id", VString (a_ID a))] failed
        end
  end.

Definition CompensateTransaction (orgID txnID : string) : prog (goresult TxnStatus) :=
  let@ t := GetTxn orgID txnID in
  match t with
  | None => fail "transaction not found"
  | Some _ =>
      let@ acts := ActionsForTxn orgID txnID in
      let@ _ := SetTxnStatus orgID txnID TxnCompensating in
      let@ _ := Emit (event orgID txnID "system" "gateway" "compensation.started" []) in
      let! failed := for_each (compensate_one orgID txnID) (reverse acts) (Some false) in
      match failed with
      | None => panic
      | Some failed =>
          let final := if failed : bool then TxnPartiallyCompensated else TxnRolledBack in
          let@ _ := SetTxnStatus orgID txnID final in
          Ret (Ok final)
      end
  end.

(** ** Simulate (simulate.go) *)

Record Simulation := MkSimulation {
  si_covered : bool;
  si_enforced : bool;
  si_why : string;
  si_decision : PolicyDecision;
  si_classes : list ActionClass;
  si_policy_version : option Z;
  si_would_execute : bool }.

Definition Simulate (orgID agentID tool action : string) (args : gomap)
    : prog (goresult Simulation) :=
  let@ ag := GetAgent orgID agentID in
  match ag with
  | None => fail "agent not found"
  | Some ag =>
      let amt := extractCents args in
      let@ tools := get_tools in
      let act := zero_action <| a_OrgID := orgID |> <| a_Tool := tool |> <| a_Action := action |>
        <| a_Arguments := args |> <| a_Classes := Classes tools tool action |>
        <| a_AmountCents := amt |> <| a_ArgumentsHash := Canonical (value_of_map args) |> in
      let@ grants := GrantsForAgent orgID agentID in
      let@ clk := readings (length grants) in
      let '(covered, hasGrants, authWhy) := CheckAuthority clk grants ag tool action amt in
      if hasGrants && negb covered then
        Ret (Ok (MkSimulation false true authWhy
          (MkPolicyDecision EffectDeny "" authWhy ReasonAuthorityExceeded 0)
          (a_Classes act) None false))
      else
        let! rv := current_rules orgID in
        let@ clk := readings (length (fst rv)) in
        let d := with_reason (Evaluate clk (fst rv) (snd rv) (MkEvalInput ag act)) in
        Ret (Ok (MkSimulation covered hasGrants authWhy d (a_Classes act) (Some (snd rv))
                   (is_allow (d_Effect d))))
  end.

End Gateway.
