(* ===== verification/GatewaySpec.v ===== *)
(** * GatewaySpec: commit, compensation and simulation run alone *)

From S2P Require Export Gateway.

Open Scope Z_scope.

Section GatewaySpec.
Context `{RL : RuntimeLaws} `{JE : JevEnv}.

(** ** Commit *)

(** The statuses Commit accepts. *)
Definition resolved (st : ActionStatus) : bool :=
  match st with StExecuted | StDenied | StCompensated => true | _ => false end.

Lemma commit_blocker_spec acts :
  commit_blocker acts = None <-> forall a, a ∈ acts -> resolved (a_Status a) = true.
Proof.
  induction acts as [|a acts IH]; cbn [commit_blocker].
  { split; [|done]. intros _ a Ha. by apply elem_of_nil in Ha. }
  split.
  - intros H b Hb. apply elem_of_cons in Hb as [->|Hb].
    + by destruct (a_Status a).
    + apply IH; [|done]. by destruct (a_Status a).
  - intros H. assert (Ha : resolved (a_Status a) = true) by (apply H; by left).
    assert (Hr : commit_blocker acts = None) by (apply IH; intros b Hb; apply H; by right).
    by destruct (a_Status a).
Qed.

Lemma ActionsForTxn_elem orgID txnID w a :
  a ∈ fst (ActionsForTxn orgID txnID w) <->
  exists id, st_actions (w_store w) !! id = Some a /\ in_txn orgID txnID a.
Proof.
  cbn. rewrite list_elem_of_filter, list_elem_of_fmap. split.
  - intros [HP ([id y] & -> & Hin)]. apply range_map_elem in Hin. by exists id.
  - intros (id & Hin & HP). split; [done|]. exists (id, a). split; [done|]. by apply range_map_elem.
Qed.

(** What Commit demands. *)
Definition committable (orgID txnID : string) (s : MemoryStore) : Prop :=
  (exists t, st_txns s !! txnID = Some t /\ t_OrgID t = orgID /\ t_Status t = TxnExecuting) /\
  forall id a, st_actions s !! id = Some a -> in_txn orgID txnID a -> resolved (a_Status a) = true.

Lemma run_GetTxn orgID id (w : World) :
  GetTxn orgID id w = (t ← st_txns (w_store w) !! id;
                       if String.eqb (t_OrgID t) orgID then Some t else None, w).
Proof. done. Qed.

Lemma GetTxn_some orgID id w t :
  fst (GetTxn orgID id w) = Some t -> st_txns (w_store w) !! id = Some t /\ t_OrgID t = orgID.
Proof.
  cbn. destruct (st_txns (w_store w) !! id) as [t'|]; [|done]. cbn.
  destruct (String.eqb (t_OrgID t') orgID) eqn:Eo; [|done]. bool_guards.
  intros Heq. injection Heq as <-. done.
Qed.

Lemma run_atomic {X A} (m : M X) (k : X -> prog A) w x w1 :
  m w = (x, w1) -> run (Atomic m k) w = run (k x) w1.
Proof. cbn [run]. by intros ->. Qed.

Lemma commit_transition t :
  is_terminal (t_Status t) = false ->
  MustTransition t TxnCommitted =
    if bool_decide (t_Status t = TxnExecuting) then inl (t <| t_Status := TxnCommitted |>)
    else inr ("illegal transaction transition " +:+ TxnStatus_str (t_Status t) +:+ " -> COMMITTED").
Proof. unfold MustTransition. by destruct (t_Status t). Qed.

Lemma run_SetTxnStatus orgID id st t w :
  st_txns (w_store w) !! id = Some t -> t_OrgID t = orgID ->
  SetTxnStatus orgID id st w =
    (true, w <| w_tick ::= S |> <| w_store ::= fun s => s <| st_txns ::=
       <[ id := t <| t_Status := st |> <| t_UpdatedAt := clock (w_tick w) |> ]> |> |>).
Proof.
  intros Hin Ho. unfold SetTxnStatus, m_bind. rewrite run_GetTxn, Hin. cbn.
  by rewrite (proj2 (String.eqb_eq _ _) Ho).
Qed.

(** Commit succeeds exactly when the transaction is the organization's,
    is EXECUTING, and every action of it is executed, denied or compensated;
    the transaction is then COMMITTED and no action changes.  Otherwise it
    refuses and the store is untouched. *)
Theorem Commit_exact orgID txnID w :
  let '(r, w') := run (Commit orgID txnID) w in
  (committable orgID txnID (w_store w) ->
     exists t, r = Ok (Some t) /\ t_Status t = TxnCommitted /\
       st_txns (w_store w') !! txnID = Some t /\
       st_actions (w_store w') = st_actions (w_store w)) /\
  (~ committable orgID txnID (w_store w) ->
     (exists e, r = Err None e) /\ w_store w' = w_store w).
Proof.
  unfold Commit. rewrite (run_atomic _ _ w _ w (run_GetTxn _ _ _)).
  pose proof (GetTxn_some orgID txnID w) as Ht. cbn [GetTxn fst] in Ht.
  set (r0 := (t ← st_txns (w_store w) !! txnID; _)).
  change (fst (GetTxn orgID txnID w)) with r0 in Ht.
  assert (Hnone : r0 = None -> ~ committable orgID txnID (w_store w)).
  { unfold r0. intros Hn [(t & Hin & Ho & _) _]. rewrite Hin in Hn. cbn in Hn.
    by rewrite (proj2 (String.eqb_eq _ _) Ho) in Hn. }
  destruct r0 as [t|]; [|split; [intros Hc; by apply Hnone in Hc|]; intros _; split; [by eexists|done]].
  destruct (Ht t eq_refl) as [Hin Ho]. clear Hnone Ht.
  destruct (is_terminal (t_Status t)) eqn:Eterm.
  { split; [|intros _; split; [by eexists|done]]. intros [(t' & Hin' & _ & Hs) _].
    rewrite Hin in Hin'. injection Hin' as <-. by rewrite Hs in Eterm. }
  destruct (ActionsForTxn orgID txnID w) as [acts w1] eqn:Ea.
  rewrite (run_atomic _ _ w acts w1 Ea).
  assert (Hacts : forall a, a ∈ acts <->
    exists id, st_actions (w_store w) !! id = Some a /\ in_txn orgID txnID a).
  { intros a. pose proof (ActionsForTxn_elem orgID txnID w a) as H. by rewrite Ea in H. }
  assert (Hw1 : w_store w1 = w_store w).
  { unfold ActionsForTxn in Ea. cbn in Ea. by injection Ea as _ <-. }
  pose proof (commit_blocker_spec acts) as Hblock.
  destruct (commit_blocker acts) as [why|] eqn:Eb.
  { split; [|intros _; split; [by eexists|done]]. intros [_ Hall].
    enough (Some why = None) by done. apply Hblock. intros a Ha. apply Hacts in Ha as (id & ? & ?).
    by eapply Hall. }
  assert (Hres : forall id a, st_actions (w_store w) !! id = Some a -> in_txn orgID txnID a ->
    resolved (a_Status a) = true).
  { intros id a Hida Htx. apply (proj1 Hblock eq_refl). apply Hacts. by exists id. }
  rewrite (commit_transition t Eterm).
  destruct (bool_decide (t_Status t = TxnExecuting)) eqn:Es; bool_guards.
  2: { split; [|intros _; split; [by eexists|done]]. intros [(t' & Hin' & _ & Hs) _].
       rewrite Hin in Hin'. injection Hin' as <-. done. }
  assert (Hc : committable orgID txnID (w_store w)) by (split; [by exists t|done]).
  assert (Hin1 : st_txns (w_store w1) !! txnID = Some t) by (by rewrite Hw1).
  rewrite (run_atomic _ _ _ _ _ (run_SetTxnStatus orgID txnID TxnCommitted t w1 Hin1 Ho)).
  cbn. rewrite lookup_insert_eq. cbn. rewrite Ho, string_eqb_refl.
  split; [|done]. intros _. eexists. split; [reflexivity|]. split; [done|].
  split; [done|]. by rewrite Hw1.
Qed.

(** ** Simulate *)

(** The worlds differ in the clock only. *)
Definition same_but_clock (w w' : World) : Prop := w' = w <| w_tick := w_tick w' |>.

Lemma same_but_clock_refl w : same_but_clock w w.
Proof. unfold same_but_clock. by destruct w. Qed.

Lemma same_but_clock_trans w1 w2 w3 :
  same_but_clock w1 w2 -> same_but_clock w2 w3 -> same_but_clock w1 w3.
Proof. unfold same_but_clock. intros -> ->. done. Qed.

(** A step that changes nothing but the clock, and programs made of them. *)
Definition silent {X} (m : M X) : Prop := forall w, same_but_clock w (m w).2.

Fixpoint silent_prog {A} (p : prog A) : Prop :=
  match p with
  | Ret _ => True
  | Atomic m k => silent m /\ forall x, silent_prog (k x)
  end.

Lemma silent_run {A} (p : prog A) w : silent_prog p -> same_but_clock w (run p w).2.
Proof.
  revert w. induction p as [a|X m k IH]; intros w Hp; cbn [run] in *.
  { apply same_but_clock_refl. }
  destruct Hp as [Hm Hk]. specialize (Hm w). destruct (m w) as [x w1]. cbn in Hm.
  eapply same_but_clock_trans; [exact Hm|]. by apply IH.
Qed.

Lemma silent_pbind {A B} (p : prog A) (f : A -> prog B) :
  silent_prog p -> (forall a, silent_prog (f a)) -> silent_prog (pbind p f).
Proof. induction p as [a|X m k IH]; intros Hp Hf; cbn in *; [done|]. destruct Hp. auto. Qed.

Lemma silent_read {X} (m : M X) : (forall w, (m w).2 = w) -> silent m.
Proof. intros H w. rewrite H. apply same_but_clock_refl. Qed.

(** Simulation has no effects: no action, approval, receipt or audit
    event results, no tool is called, the policies, grants and limiter are as
    before; only clock readings are spent. *)
Theorem Simulate_has_no_effect orgID agentID tool action args w :
  let w' := (run (Simulate orgID agentID tool action args) w).2 in
  w_store w' = w_store w /\ w_tools w' = w_tools w /\ w_signer w' = w_signer w /\
  w_limiter w' = w_limiter w /\ w_uid w' = w_uid w /\ w_calls w' = w_calls w.
Proof.
  cbv zeta. assert (Hs : silent_prog (Simulate orgID agentID tool action args)).
  { unfold Simulate. split; [by apply silent_read|]. intros [ag|]; [|done].
    split; [by apply silent_read|]. intros tools. split; [by intros w'|]. intros grants.
    split; [by intros w'|]. intros clk.
    destruct (CheckAuthority _ _ _ _ _ _) as [[covered has] why].
    destruct (has && negb covered); [done|]. apply silent_pbind.
    - split; [by apply silent_read|]. intros rules. split; [by apply silent_read|done].
    - intros rv. split; [by intros w'|done]. }
  rewrite (silent_run _ w Hs). done.
Qed.

(** The clock readings of a loop that starts at draw [n]. *)
Definition ticks (n : nat) (i : nat) : time := clock (n + i).

(** The verdict of a simulation: the decision is a denial with code
    AUTHORITY_EXCEEDED exactly when the agent has grants and none covers the
    attempt; otherwise it is the decision of the policy engine on the
    organization's current rules, and "would execute" means ALLOW or
    ALLOW_WITH_CONSTRAINTS. *)
Theorem Simulate_verdict orgID agentID tool action args w ag :
  st_agents (w_store w) !! agentID = Some ag -> ag_OrgID ag = orgID ->
  exists si n m act, (w_tick w <= n <= m)%nat /\
    fst (run (Simulate orgID agentID tool action args) w) = Ok si /\
    a_Tool act = tool /\ a_Action act = action /\ a_Arguments act = args /\
    a_AmountCents act = extractCents args /\ a_Classes act = Classes (w_tools w) tool action /\
    let '(covered, hasGrants, why) :=
      CheckAuthority (ticks n) (fst (GrantsForAgent orgID agentID w)) ag tool action (extractCents args) in
    let rules := match fst (ActivePolicySet orgID w) with
                 | Some set => ps_Rules set | None => fst (Policies orgID w) end in
    let version := match fst (ActivePolicySet orgID w) with
                   | Some set => ps_Version set | None => 0 end in
    if hasGrants && negb covered then
      si_would_execute si = false /\ d_Effect (si_decision si) = EffectDeny /\
      d_ReasonCode (si_decision si) = ReasonAuthorityExceeded
    else
      si_decision si = with_reason (Evaluate (ticks m) rules version (MkEvalInput ag act)) /\
      si_would_execute si = is_allow (d_Effect (si_decision si)).
Proof.
  intros Hag Ho. unfold Simulate.
  assert (Hget : GetAgent orgID agentID w = (Some ag, w)).
  { unfold GetAgent, m_bind, get_store, m_ret. rewrite Hag. cbn.
    by rewrite (proj2 (String.eqb_eq _ _) Ho). }
  rewrite (run_atomic _ _ w _ w Hget). rewrite (run_atomic get_tools _ w (w_tools w) w eq_refl).
  destruct (GrantsForAgent orgID agentID w) as [grants w1] eqn:Eg.
  rewrite (run_atomic _ _ w grants w1 Eg).
  destruct (readings (length grants) w1) as [clk w2] eqn:Ec.
  rewrite (run_atomic _ _ w1 clk w2 Ec). cbn [fst].
  assert (Hs2 : w_store w2 = w_store w /\ ticks (w_tick w1) = clk /\
    (w_tick w <= w_tick w1 <= w_tick w2)%nat).
  { unfold readings in Ec. injection Ec as <- <-. unfold GrantsForAgent in Eg. cbn in Eg.
    injection Eg as _ <-. split; [done|]. split; [done|]. cbn. lia. }
  destruct Hs2 as (Hs2 & <- & Hle). set (clk := ticks (w_tick w1)) in *.
  destruct (CheckAuthority clk grants ag tool action (extractCents args)) as [[covered has] why] eqn:Ea.
  match goal with
  | |- context [MkEvalInput ag ?b] => set (act := b)
  end.
  destruct (has && negb covered) eqn:Eh.
  { eexists _, (w_tick w1), (w_tick w2), act. fold clk. split; [done|]. split; [reflexivity|]. do 5 (split; [reflexivity|]). by rewrite Ea, Eh. }
  rewrite run_pbind. unfold current_rules, Policies, ActivePolicySet.
  cbn -[Evaluate CheckAuthority extractCents]. rewrite Hs2.
  eexists _, (w_tick w1), (w_tick w2), act. fold clk. split; [done|]. split; [reflexivity|]. do 5 (split; [reflexivity|]). rewrite Ea, Eh.
  cbn -[Evaluate extractCents].
  destruct (List.find is_active (sets_of (w_store w) orgID)) as [set|]; cbn [fst snd];
    (split; [|reflexivity]); reflexivity.
Qed.

(** ** Compensation *)

(** The compensator of [a] was called and reported success. *)
Definition undone (w w' : World) (a : TxnAction) : Prop :=
  IsIrreversible a && negb (IsCompensable a) = false /\ CallCompensate a ∈ w_calls w' /\
  exists n, Compensate (w_tools w) n a = None.

(** Tools stay, the trace of calls grows. *)
Definition grows (w w' : World) : Prop :=
  w_tools w' = w_tools w /\ w_calls w `prefix_of` w_calls w'.

Lemma grows_trans w1 w2 w3 : grows w1 w2 -> grows w2 w3 -> grows w1 w3.
Proof. intros [? ?] [? ?]. split; [congruence|by etrans]. Qed.

Lemma undone_grows w w1 w2 a : grows w1 w2 -> undone w w1 a -> undone w w2 a.
Proof.
  intros [_ [l Hl]] (? & Hc & ?). split; [done|]. split; [|done].
  rewrite Hl. apply elem_of_app. auto.
Qed.

Lemma run_settle orgID txnID id st type payload failed w :
  let '(r, w') := run (settle orgID txnID id st type payload failed) w in
  w_tools w' = w_tools w /\ w_calls w' = w_calls w /\ (r = None \/ r = Some failed).
Proof.
  unfold settle. cbn [run]. unfold GetAction, m_bind, get_store, m_ret.
  destruct (st_actions (w_store w) !! id) as [a|]; cbn; [|auto].
  destruct (String.eqb (a_OrgID a) orgID); cbn; [|auto]. unfold UpdateAction. cbn.
  destruct (st_actions (w_store w) !! a_ID a); cbn; auto.
Qed.

Lemma run_compensate_one orgID txnID a s w :
  let '(r, w') := run (compensate_one orgID txnID a s) w in
  grows w w' /\
  (r = Some false -> s = Some false /\ (a_Status a = StExecuted -> undone w w' a)).
Proof.
  unfold compensate_one. destruct s as [failed|]; [|split; [by split|done]].
  destruct (bool_decide (a_Status a = StExecuted)) eqn:Es; cbn [negb]; bool_guards.
  2: { cbn [run]. split; [by split|]. intros Hr. split; [exact Hr|]. intros Hx. by destruct Es. }
  destruct (IsIrreversible a && negb (IsCompensable a)) eqn:Ei.
  { cbn. split; [split; [done|by exists []; rewrite app_nil_r]|done]. }
  set (w1 := (tools_Compensate a w).2).
  assert (Hg : grows w w1) by (split; [done|by apply prefix_app_r]).
  assert (Hin : CallCompensate a ∈ w_calls w1) by (apply elem_of_app; right; by left).
  rewrite (run_atomic _ _ w (Compensate (w_tools w) (w_tick w) a) w1 eq_refl).
  destruct (Compensate (w_tools w) (w_tick w) a) as [err|] eqn:Ec.
  - pose proof (run_settle orgID txnID (a_ID a) StCompensationFailed "compensation.failed"
      [("action_id", VString (a_ID a)); ("error", VString (err_Error err))] true w1) as Hs.
    destruct (run _ _) as [r w2]. destruct Hs as (Ht & Hc & Hr). split.
    + destruct Hg as [Ht1 [l Hl]]. split; [congruence|]. rewrite Hc. by exists l.
    + intros ->. by destruct Hr.
  - pose proof (run_settle orgID txnID (a_ID a) StCompensated "compensation.succeeded"
      [("action_id", VString (a_ID a))] failed w1) as Hs.
    destruct (run _ _) as [r w2]. destruct Hs as (Ht & Hc & Hr). split.
    + destruct Hg as [Ht1 [l Hl]]. split; [congruence|]. rewrite Hc. by exists l.
    + intros ->. destruct Hr as [Hr|Hr]; [done|]. injection Hr as <-. split; [done|].
      intros _. split; [done|]. split; [by rewrite Hc|by exists (w_tick w)].
Qed.

Lemma run_compensate_loop orgID txnID l s w :
  let '(r, w') := run (for_each (compensate_one orgID txnID) l s) w in
  grows w w' /\
  (r = Some false -> s = Some false /\
     forall a, a ∈ l -> a_Status a = StExecuted -> undone w w' a).
Proof.
  revert s w. induction l as [|a l IH]; intros s w; cbn [for_each run].
  { split; [by split|]. intros Hr. split; [exact Hr|]. intros b Hb. by apply elem_of_nil in Hb. }
  rewrite run_pbind. pose proof (run_compensate_one orgID txnID a s w) as H1.
  destruct (run (compensate_one orgID txnID a s) w) as [s1 w1]. destruct H1 as [Hg1 H1].
  specialize (IH s1 w1). destruct (run _ w1) as [r w2]. destruct IH as [Hg2 IH].
  split; [by eapply grows_trans|]. intros Hr. destruct (IH Hr) as [Hs1 Hl].
  destruct (H1 Hs1) as [Hs Ha]. split; [done|]. intros b Hb Hex.
  apply elem_of_cons in Hb as [->|Hb].
  - eapply undone_grows; [exact Hg2|]. by apply Ha.
  - destruct (Hl b Hb Hex) as (? & ? & n & Hn). split; [done|]. split; [done|].
    exists n. destruct Hg1 as [Ht _]. by rewrite Ht in Hn.
Qed.

(** C18: "rolled back" is never claimed falsely.  Run alone,
    CompensateTransaction ends ROLLED_BACK or PARTIALLY_COMPENSATED; it says
    ROLLED_BACK only if no executed action of the transaction was
    irreversible without compensation and the compensator of every executed
    action was called and reported success. *)
Theorem rolled_back_is_honest orgID txnID w :
  let '(r, w') := run (CompensateTransaction orgID txnID) w in
  (forall st, r = Ok st -> st = TxnRolledBack \/ st = TxnPartiallyCompensated) /\
  (r = Ok TxnRolledBack ->
     forall id a, st_actions (w_store w) !! id = Some a -> in_txn orgID txnID a ->
       a_Status a = StExecuted ->
       (IsIrreversible a = true -> IsCompensable a = true) /\ CallCompensate a ∈ w_calls w' /\
       exists n, Compensate (w_tools w) n a = None).
Proof.
  unfold CompensateTransaction. rewrite (run_atomic _ _ w _ w (run_GetTxn _ _ _)).
  destruct (_ ≫= _) as [t|]; [|by split].
  destruct (ActionsForTxn orgID txnID w) as [acts w1] eqn:Ea.
  assert (Hacts : forall a, a ∈ acts <->
    exists id, st_actions (w_store w) !! id = Some a /\ in_txn orgID txnID a).
  { intros a. pose proof (ActionsForTxn_elem orgID txnID w a) as H. by rewrite Ea in H. }
  assert (Hg1 : w_tools w1 = w_tools w).
  { unfold ActionsForTxn in Ea. cbn in Ea. by injection Ea as _ <-. }
  rewrite (run_atomic _ _ w acts w1 Ea).
  destruct (SetTxnStatus orgID txnID TxnCompensating w1) as [ok w2] eqn:E2.
  assert (Hg2 : w_tools w2 = w_tools w1).
  { unfold SetTxnStatus, m_bind in E2. rewrite run_GetTxn in E2.
    destruct (_ ≫= _) in E2; cbn in E2; by injection E2 as _ <-. }
  rewrite (run_atomic _ _ _ _ _ E2).
  destruct (Emit (event orgID txnID "system" "gateway" "compensation.started" []) w2) as [u w3] eqn:E3.
  assert (Hg3 : w_tools w3 = w_tools w2) by (unfold Emit in E3; cbn in E3; by injection E3 as _ <-).
  rewrite (run_atomic _ _ _ _ _ E3), run_pbind.
  pose proof (run_compensate_loop orgID txnID (reverse acts) (Some false) w3) as Hl.
  destruct (run (for_each _ _ _) w3) as [[failed|] w4]; [|by split].
  destruct Hl as [_ Hl].
  destruct (SetTxnStatus orgID txnID (if failed then TxnPartiallyCompensated else TxnRolledBack) w4)
    as [ok' w5] eqn:E5.
  assert (Hg5 : w_calls w5 = w_calls w4).
  { unfold SetTxnStatus, m_bind in E5. rewrite run_GetTxn in E5.
    destruct (_ ≫= _) in E5; cbn in E5; by injection E5 as _ <-. }
  rewrite (run_atomic _ _ _ _ _ E5). cbn [run].
  destruct failed; split; try (intros st Heq; injection Heq as <-; auto); [done|].
  intros _ id a Hin Htx Hex. destruct (Hl eq_refl) as [_ Hall].
  destruct (Hall a) as (Hi & Hc & n & Hn); [apply elem_of_reverse, Hacts; by exists id|done|].
  split; [|split].
  - intros Hirr. rewrite Hirr in Hi. by destruct (IsCompensable a).
  - by rewrite Hg5.
  - exists n. by rewrite <- Hg1, <- Hg2, <- Hg3.
Qed.

End GatewaySpec.
