(* ===== verification/Api.v ===== *)
(** * Api: the HTTP handlers (internal/api/server.go, grants.go, policies.go,
    reconcile.go, transactions.go)

    A handler gets the identity the middleware left in the request context,
    the path and query values it reads, and the body as the JSON decoder left
    it ([None] is a decoding error).  Its result is the status code and the
    value it writes. *)

From Stdlib Require Import Ascii.
From S2P Require Export Gateway Auth Encoding Upstream.

Open Scope Z_scope.

(** ** Responses *)

Inductive body :=
  | BHealth
  | BError (error why : string)
  | BAgent (a : Agent) (secret : string)
  | BTxn (t : option Transaction)
  | BTxns (l : list Transaction)
  | BDetail (t : Transaction) (acts : list TxnAction) (rs : list Receipt) (ev : list AuditEvent)
  | BAction (a : TxnAction)
  | BApproval (a : Approval)
  | BApprovals (l : list Approval)
  | BReceipts (l : list Receipt)
  | BAudit (l : list AuditEvent)
  | BRules (l : list PolicyRule)
  | BGrant (g : AuthorityGrant)
  | BGrants (l : list AuthorityGrant)
  | BRevoked (id : string)
  | BCredential (agentID keyID secret : string)
  | BSimulation (s : Simulation)
  | BSet (s : PolicySet)
  | BSets (l : list PolicySet)
  | BActive (version : Z)
  | BVerify (broken : Z) (rs : list (Receipt * bool * bool * string))
  | BSignature (id hash : string) (ok : bool) (detail : string)
  | BMCPServer (srv : MCPServer)
  | BMCPServers (l : list MCPServer)
  | BIntegrations (credentials : list string) (mcp_servers : nat)
  | BConfigured (name : string)
  | BAllowlist (domains methods : list string)
  | BOpenAPI.

Record Response := MkResponse { rs_Code : Z; rs_Body : body }.

Definition errJSON (code : Z) (msg why : string) : prog Response :=
  Ret (MkResponse code (BError msg why)).

Definition writeJSON (code : Z) (b : body) : prog Response := Ret (MkResponse code b).

(** ** Request bodies *)

Record RegisterBody := MkRegisterBody {
  rb_PrincipalID : string; rb_Name : string; rb_Environment : string; rb_Groups : list string }.

Record TxnBody := MkTxnBody {
  tb_AgentID : string; tb_PrincipalID : string; tb_SessionID : string; tb_Objective : string }.

Record ActionBody := MkActionBody {
  ab_TransactionID : string; ab_AgentID : string; ab_Tool : string; ab_Action : string;
  ab_Arguments : gomap; ab_IdempotencyKey : string }.

Record DecideBody := MkDecideBody { db_Approve : bool; db_DecidedBy : string }.

Record GrantBody := MkGrantBody {
  gb_AgentID : string; gb_PrincipalID : string; gb_Scope : list string;
  gb_Constraints : GrantConstraints; gb_Environment : string; gb_ExpiresAt : option time;
  gb_Bootstrap : bool }.

Record SimulateBody := MkSimulateBody {
  sb_AgentID : string; sb_Tool : string; sb_Action : string; sb_Arguments : gomap }.

(** [uuid.Parse(s)] succeeds (google/uuid). *)
Class UuidParse := uuid_valid : string -> bool.

Section Api.
Context `{RT : Runtime} `{JE : JevEnv} `{SE : Secrets} `{UP : UuidParse}.

(** ** The caller *)

Definition orgOf (id : option Identity) : string :=
  match id with Some id => id_OrgID id | None => "" end.

Definition callerIsOperator (id : option Identity) : bool :=
  match id with Some id => id_Operator id | None => false end.

Definition callerAgentID (id : option Identity) : string :=
  match id with Some id => id_AgentID id | None => "" end.

Definition operatorName (id : option Identity) : string :=
  match id with
  | Some id => if String.eqb (id_Name id) "" then "operator" else id_Name id
  | None => "operator"
  end.

(** The test of the handlers that act for an agent. *)
Definition agent_mismatch (id : option Identity) (agentID : string) : bool :=
  negb (callerIsOperator id) && negb (String.eqb agentID (callerAgentID id)).

(** ** Agents and transactions *)

Definition handleRegisterAgent (id : option Identity) (rbody : option RegisterBody) : prog Response :=
  let orgID := orgOf id in
  if String.eqb orgID "" then errJSON 401 "unauthenticated" "Valid bearer credential required."
  else if negb (callerIsOperator id) then
    errJSON 403 "operator_required" "Only a human operator token can register agents."
  else
    let bad := errJSON 400 "bad_request" "Body needs name, principal_id, environment, groups." in
    match rbody with
    | None => bad
    | Some b =>
        if String.eqb (rb_Name b) "" then bad
        else if negb (uuid_valid (rb_PrincipalID b)) then
          errJSON 400 "bad_principal" "principal_id must be a UUID of a principal in this organization."
        else
          let@ sec := NewAgentSecret in
          match sec with
          | None => errJSON 500 "secret_failed" "Could not issue credential."
          | Some (keyID, secret, hash) =>
              let@ a := CreateAgent orgID (rb_PrincipalID b) (rb_Name b) (rb_Environment b)
                          (rb_Groups b) hash in
              let@ _ := StoreCredential orgID (ag_ID a) keyID hash in
              let@ _ := Emit (event orgID "" "system" "api" "agent.registered"
                [("agent_id", VString (ag_ID a))]) in
              writeJSON 201 (BAgent a secret)
          end
    end.

Definition handleCreateTxn (id : option Identity) (rbody : option TxnBody) : prog Response :=
  let orgID := orgOf id in
  let bad := errJSON 400 "bad_request" "Body needs agent_id, principal_id, session_id, objective." in
  match rbody with
  | None => bad
  | Some b =>
      if String.eqb (tb_AgentID b) "" then bad
      else
        let@ ag := GetAgent orgID (tb_AgentID b) in
        match ag with
        | None => errJSON 404 "agent_not_found" "Agent is not in this organization."
        | Some _ =>
            if agent_mismatch id (tb_AgentID b) then
              errJSON 403 "agent_mismatch" "A credential may only act as its own agent identity."
            else
              let@ t := CreateTxn (MkTransaction "" orgID (tb_AgentID b) (tb_PrincipalID b)
                          (tb_SessionID b) (tb_Objective b) TxnPlanning None zero_time zero_time) in
              writeJSON 201 (BTxn (Some t))
        end
  end.

Definition handleListTxns (id : option Identity) : prog Response :=
  let@ l := ListTxns (orgOf id) in writeJSON 200 (BTxns l).

Definition handleGetTxn (id : option Identity) (path : string) : prog Response :=
  let orgID := orgOf id in
  let txn := TrimPrefix path "/v1/transactions/" in
  let@ t := GetTxn orgID txn in
  match t with
  | None => errJSON 404 "not_found" "Transaction not found in this organization."
  | Some t =>
      let@ acts := ActionsForTxn orgID txn in
      let@ rs := ReceiptsForTxn orgID txn in
      let@ ev := Audit orgID txn 100 in
      writeJSON 200 (BDetail t acts rs ev)
  end.

(** ** Actions *)

Definition handleProposeAction (id : option Identity) (rbody : option ActionBody) : prog Response :=
  let orgID := orgOf id in
  let bad := errJSON 400 "bad_request" "Body needs transaction_id, agent_id, tool, action, arguments, idempotency_key." in
  match rbody with
  | None => bad
  | Some b =>
      if String.eqb (ab_TransactionID b) "" || String.eqb (ab_Tool b) "" then bad
      else if String.eqb (ab_IdempotencyKey b) "" then
        errJSON 400 "idempotency_required" "Every action needs an idempotency_key so retries never double-execute payments, emails, or deletions."
      else if agent_mismatch id (ab_AgentID b) then
        errJSON 403 "agent_mismatch" "A credential may only act as its own agent identity."
      else
        let! r := ProposeAction orgID (ab_TransactionID b) (ab_AgentID b) (ab_Tool b)
                    (ab_Action b) (ab_Arguments b) (ab_IdempotencyKey b) in
        match r with
        | Err _ err => errJSON 400 "propose_failed" (err_Error err)
        | Ok a => writeJSON 201 (BAction a)
        end
  end.

(** [post] tells whether the method is POST; every branch of an execution
    answers the same way but for the error code. *)
Definition answer_execution (code : string) (r : goresult TxnAction) : prog Response :=
  match r with
  | Err _ err => errJSON 400 code (err_Error err)
  | Ok a => writeJSON 200 (BAction a)
  end.

Definition handleActionSub (id : option Identity) (post : bool) (path : string) : prog Response :=
  let orgID := orgOf id in
  let parts := Split (TrimPrefix path "/v1/actions/") "/"%char in
  match parts with
  | [actionID; verb] =>
      if negb (String.eqb verb "execute") || negb post then
        errJSON 404 "not_found" "Use POST /v1/actions/:id/execute."
      else
        let@ a := GetAction orgID actionID in
        if match a with Some a => bool_decide (a_Status a = StApproved) | None => false end then
          let! out := RunApproved orgID actionID in answer_execution "execute_failed" out
        else
          let! out := ExecuteAllowed orgID actionID in answer_execution "execute_refused" out
  | _ => errJSON 404 "not_found" "Use POST /v1/actions/:id/execute."
  end.

(** ** Approvals *)

Definition handleListApprovals (id : option Identity) : prog Response :=
  let@ l := PendingApprovals (orgOf id) in writeJSON 200 (BApprovals l).

(** What follows a granted approval of an action. *)
Definition approve_action (orgID : string) (ap : Approval) (actionID : string) : prog unit :=
  let@ a := GetAction orgID actionID in
  match a with
  | None => Ret tt
  | Some a =>
      let@ _ := UpdateAction (a <| a_Status := StApproved |>) in
      let@ t := GetTxn orgID (ap_TransactionID ap) in
      match t with
      | None => Ret tt
      | Some t =>
          let t := TryTransition t TxnExecuting in
          let@ _ := SetTxnStatus orgID (t_ID t) (t_Status t) in
          Ret tt
      end
  end.

(** What follows a denied approval. *)
Definition abort_txn (orgID : string) (ap : Approval) : prog unit :=
  let@ t := GetTxn orgID (ap_TransactionID ap) in
  match t with
  | None => Ret tt
  | Some t =>
      let t := TryTransition t TxnAborting in
      let@ _ := SetTxnStatus orgID (t_ID t) (t_Status t) in
      Ret tt
  end.

(** The decoding error of the body is dropped: the body is then empty. *)
Definition handleDecideApproval (id : option Identity) (post : bool) (path : string)
    (rbody : option DecideBody) : prog Response :=
  let orgID := orgOf id in
  if negb (callerIsOperator id) then
    errJSON 403 "operator_required" "Approvals are human decisions; an operator token is required."
  else
    match Split (TrimPrefix path "/v1/approvals/") "/"%char with
    | [approvalID; verb] =>
        if negb (String.eqb verb "decide") || negb post then
          errJSON 404 "not_found" "Use POST /v1/approvals/:id/decide."
        else
          let b := default (MkDecideBody false "") rbody in
          let by_ := if String.eqb (db_DecidedBy b) "" then "human" else db_DecidedBy b in
          let@ ap := DecideApproval orgID approvalID by_ (db_Approve b) in
          match ap with
          | None => errJSON 404 "approval_not_found" "Approval is missing, already decided, or in another organization."
          | Some ap =>
              let@ _ := Emit (event orgID (ap_TransactionID ap) "human" by_
                (if db_Approve b then "approval.granted" else "approval.denied")
                [("approval_id", VString (ap_ID ap))]) in
              let! _ := match ap_ActionID ap with
                        | Some actionID =>
                            if db_Approve b then approve_action orgID ap actionID else Ret tt
                        | None => Ret tt
                        end in
              let! _ := (if negb (db_Approve b) then abort_txn orgID ap else Ret tt) in
              writeJSON 200 (BApproval ap)
          end
    | _ => errJSON 404 "not_found" "Use POST /v1/approvals/:id/decide."
    end.

(** ** Reads *)

Definition handleListReceipts (id : option Identity) (txn : string) : prog Response :=
  let@ l := ReceiptsForTxn (orgOf id) txn in writeJSON 200 (BReceipts l).

Definition handleAudit (id : option Identity) (txn : string) : prog Response :=
  let@ l := Audit (orgOf id) txn 200 in writeJSON 200 (BAudit l).

Definition handleListPolicies (id : option Identity) : prog Response :=
  let@ l := Policies (orgOf id) in writeJSON 200 (BRules l).

(** ** Grants (grants.go) *)

Definition lower_or_digit (c : ascii) : bool := byte_in 97 122 c || byte_in 48 57 c.

Definition scope_tool_char (c : ascii) : bool :=
  lower_or_digit c || Ascii.eqb c ":"%char || Ascii.eqb c "_"%char || Ascii.eqb c "-"%char.

Definition scope_action_char (c : ascii) : bool := scope_tool_char c || Ascii.eqb c "*"%char.

(** The regular expression scopeEntry; neither class has a dot, so the dot is
    the first one. *)
Definition scopeEntry (s : string) : bool :=
  let '(tool, action, found) := Cut s "."%char in
  found && negb (String.eqb tool "") && negb (String.eqb action "") &&
  all_chars scope_tool_char tool && all_chars scope_action_char action.

Definition validScope (scope : list string) : bool :=
  match scope with
  | [] => false
  | _ => negb (any (fun s => negb (String.eqb s "*") && negb (scopeEntry s)) scope)
  end.

(** A string between double quotes. *)
Definition quoted (s : string) : string :=
  String dquote (s +:+ String dquote EmptyString).

Definition handleCreateGrant (id : option Identity) (rbody : option GrantBody) : prog Response :=
  let orgID := orgOf id in
  if negb (callerIsOperator id) then
    errJSON 403 "operator_required" "Only a human operator token can grant authority."
  else
    let bad := errJSON 400 "bad_request" ("Body needs agent_id, scope (e.g. [" +:+ quoted "stripe.refund" +:+ ", " +:+
      quoted "crm.*" +:+ "]), and optional constraints/environment/expires_at.") in
    match rbody with
    | None => bad
    | Some b =>
        if String.eqb (gb_AgentID b) "" then bad
        else
          let@ ag := GetAgent orgID (gb_AgentID b) in
          match ag with
          | None => errJSON 404 "agent_not_found" "Agent is not in this organization."
          | Some _ =>
              if negb (validScope (gb_Scope b)) then
                errJSON 400 "bad_scope" ("Scope entries must be " +:+ quoted "*" +:+ ", " +:+ quoted "tool.*" +:+ ", or " +:+
                  quoted "tool.action" +:+ " (lowercase, digits, _ - :).")
              else
                let@ g := CreateGrant (MkAuthorityGrant "" orgID (gb_PrincipalID b) (gb_AgentID b)
                            (gb_Scope b) (gb_Constraints b) (gb_Environment b) (operatorName id)
                            zero_time (gb_ExpiresAt b) None (gb_Bootstrap b)) in
                let@ _ := Emit (event orgID "" "human" (operatorName id) "grant.issued"
                  [("grant_id", VString (g_ID g)); ("agent_id", VString (g_AgentID g));
                   ("scope", VStrings (g_Scope g))]) in
                writeJSON 201 (BGrant g)
          end
    end.

Definition handleListGrants (id : option Identity) (agentID : string) : prog Response :=
  if negb (callerIsOperator id) &&
     (String.eqb agentID "" || negb (String.eqb agentID (callerAgentID id))) then
    errJSON 403 "agent_mismatch" "Agents may only inspect their own grants."
  else if String.eqb agentID "" then
    errJSON 400 "bad_request" "Pass ?agent_id= (operators may list per agent)."
  else
    let@ l := GrantsForAgent (orgOf id) agentID in writeJSON 200 (BGrants l).

Definition handleRevokeGrant (id : option Identity) (grantID : string) : prog Response :=
  let orgID := orgOf id in
  if negb (callerIsOperator id) then
    errJSON 403 "operator_required" "Only a human operator token can revoke authority."
  else
    let@ ok := RevokeGrant orgID grantID in
    if negb ok then
      errJSON 404 "grant_not_found" "Grant is missing, already revoked, or in another organization."
    else
      let@ _ := Emit (event orgID "" "human" (operatorName id) "grant.revoked"
        [("grant_id", VString grantID)]) in
      writeJSON 200 (BRevoked grantID).

Definition handleRotateCredential (id : option Identity) (agentID : string) : prog Response :=
  let orgID := orgOf id in
  if negb (callerIsOperator id) then
    errJSON 403 "operator_required" "Only a human operator token can issue credentials."
  else
    let@ ag := GetAgent orgID agentID in
    match ag with
    | None => errJSON 404 "agent_not_found" "Agent is not in this organization."
    | Some ag =>
        let@ sec := NewAgentSecret in
        match sec with
        | None => errJSON 500 "secret_failed" "Could not issue credential."
        | Some (keyID, secret, hash) =>
            let@ _ := StoreCredential orgID (ag_ID ag) keyID hash in
            let@ _ := Emit (event orgID "" "human" (operatorName id) "credential.issued"
              [("agent_id", VString (ag_ID ag)); ("key_id", VString keyID)]) in
            writeJSON 201 (BCredential (ag_ID ag) keyID secret)
        end
    end.

Definition handleRevokeCredential (id : option Identity) (keyID : string) : prog Response :=
  let orgID := orgOf id in
  if negb (callerIsOperator id) then
    errJSON 403 "operator_required" "Only a human operator token can revoke credentials."
  else
    let@ cred := GetCredential keyID in
    if match cred with
       | Some (org, _, _) => negb (String.eqb org orgID)
       | None => true
       end
    then errJSON 404 "credential_not_found" "Credential is missing, already revoked, or in another organization."
    else
      let@ _ := RevokeCredential keyID in
      let@ _ := Emit (event orgID "" "human" (operatorName id) "credential.revoked"
        [("key_id", VString keyID)]) in
      writeJSON 200 (BRevoked keyID).

(** ** Policies (policies.go) *)

Definition handleSimulatePolicy (id : option Identity) (rbody : option SimulateBody) : prog Response :=
  let bad := errJSON 400 "bad_request" "Body needs agent_id, tool, action, arguments. Nothing is persisted or executed." in
  match rbody with
  | None => bad
  | Some b =>
      if String.eqb (sb_Tool b) "" then bad
      else if agent_mismatch id (sb_AgentID b) then
        errJSON 403 "agent_mismatch" "A credential may only simulate its own agent identity."
      else
        let! out := Simulate (orgOf id) (sb_AgentID b) (sb_Tool b) (sb_Action b) (sb_Arguments b) in
        match out with
        | Err _ err => errJSON 400 "simulate_failed" (err_Error err)
        | Ok s => writeJSON 200 (BSimulation s)
        end
  end.

Definition known_effect (e : PolicyEffect) : bool :=
  match e with EffectOther _ => false | _ => true end.

(** The loop over the rules: the first one with an unknown effect. *)
Fixpoint bad_rule (i : Z) (rules : list PolicyRule) : option string :=
  match rules with
  | [] => None
  | r :: rules =>
      if known_effect (pr_Effect r) then bad_rule (i + 1) rules
      else Some ("Rule " +:+ pretty i +:+ " (" +:+ pr_Name r +:+
                 "): effect must be ALLOW, DENY, REQUIRE_APPROVAL, or ALLOW_WITH_CONSTRAINTS.")
  end.

Definition handleCreatePolicySet (id : option Identity) (rbody : option (list PolicyRule)) : prog Response :=
  let orgID := orgOf id in
  if negb (callerIsOperator id) then
    errJSON 403 "operator_required" "Only a human operator token can draft policies."
  else
    match rbody with
    | None | Some [] =>
        errJSON 400 "bad_request" "Body needs rules (array of {name, match, effect, explanation}). Created as draft; activate separately."
    | Some rules =>
        match bad_rule 0 rules with
        | Some why => errJSON 400 "bad_rule" why
        | None =>
            let@ set := CreatePolicySet orgID rules (operatorName id) in
            let@ _ := Emit (event orgID "" "human" (operatorName id) "policy.set_created"
              [("version", VInt (ps_Version set)); ("rules", VInt (Z.of_nat (length (ps_Rules set))))]) in
            writeJSON 201 (BSet set)
        end
    end.

Definition handleListPolicySets (id : option Identity) : prog Response :=
  let@ l := PolicySets (orgOf id) in writeJSON 200 (BSets l).

Definition handleActivatePolicySet (id : option Identity) (version : string) : prog Response :=
  let orgID := orgOf id in
  if negb (callerIsOperator id) then
    errJSON 403 "operator_required" "Only a human operator token can activate policies."
  else
    match Atoi version with
    | None => errJSON 400 "bad_request" "Version must be an integer."
    | Some v =>
        let@ ok := ActivatePolicySet orgID v in
        if negb ok then errJSON 404 "policy_set_not_found" "No such draft version in this organization."
        else
          let@ _ := Emit (event orgID "" "human" (operatorName id) "policy.activated"
            [("version", VInt v)]) in
          writeJSON 200 (BActive v)
    end.

(** ** Reconciliation and receipts (reconcile.go) *)

Definition handleReconcile (id : option Identity) (actionID : string) : prog Response :=
  if negb (callerIsOperator id) then
    errJSON 403 "operator_required" "Reconciliation settles uncertain side effects; an operator token is required."
  else
    let! out := Reconcile (orgOf id) actionID in answer_execution "reconcile_failed" out.

Definition sigOK (verifier : option Provider) (r : Receipt) : bool * string :=
  if String.eqb (r_Signature r) "" || String.eqb (r_KeyID r) "" then (false, "unsigned")
  else
    match verifier with
    | None => (false, "no verifier configured")
    | Some p =>
        match hex_decode (r_Signature r) with
        | None => (false, "malformed signature")
        | Some sig =>
            if negb (kp_Verify p (r_Hash r) sig) then (false, "signature invalid")
            else (true, "valid (key " +:+ r_KeyID r +:+ ")")
        end
    end.

Definition handleVerifyReceipts (id : option Identity) (txn : string) : prog Response :=
  let orgID := orgOf id in
  let@ rs := ReceiptsForTxn orgID txn in
  let@ broken := VerifyChain orgID in
  let chainOK := broken =? -1 in
  let@ verifier := get_signer in
  writeJSON 200 (BVerify broken
    ((fun rc => let '(ok, detail) := sigOK verifier rc in (rc, chainOK, ok, detail)) <$> rs)).

Definition handleVerifyReceipt (rbody : option Receipt) : prog Response :=
  match rbody with
  | None => errJSON 400 "bad_request" "Body must be a receipt object."
  | Some rc =>
      let@ verifier := get_signer in
      let '(ok, detail) := sigOK verifier rc in
      writeJSON 200 (BSignature (r_ID rc) (r_Hash rc) ok detail)
  end.

(** ** Commit (transactions.go) *)

Definition handleCommitTxn (id : option Identity) (txnID : string) : prog Response :=
  let orgID := orgOf id in
  let@ t := GetTxn orgID txnID in
  match t with
  | None => errJSON 404 "not_found" "Transaction not found in this organization."
  | Some t =>
      if agent_mismatch id (t_AgentID t) then
        errJSON 403 "agent_mismatch" "Only the owning agent or an operator can commit a transaction."
      else
        let! out := Commit orgID txnID in
        match out with
        | Err _ err => errJSON 400 "commit_refused" (err_Error err)
        | Ok t => writeJSON 200 (BTxn t)
        end
  end.

End Api.
