(* ===== verification/ApiMcp.v ===== *)
(** * ApiMcp: the MCP and integration handlers (internal/api/mcp.go,
    integrations.go) and the table of routes (server.go, routes) *)

From Stdlib Require Import Ascii.
From S2P Require Export Api.

Open Scope Z_scope.

(** ** Request bodies *)

Record MCPServerBody := MkMCPServerBody {
  mb_Name : string; mb_URL : string; mb_AuthToken : string; mb_Classes : gmap string (list string) }.

Record MCPCallBody := MkMCPCallBody {
  cb_TransactionID : string; cb_AgentID : string; cb_Server : string; cb_Tool : string;
  cb_Arguments : gomap; cb_IdempotencyKey : string }.

Record DomainsBody := MkDomainsBody { hb_Domains : list string; hb_Methods : list string }.

Section ApiMcp.
Context `{RT : Runtime} `{JE : JevEnv} `{SE : Secrets} `{UP : UuidParse} `{NT : Net}.

(** ** MCP servers (mcp.go) *)

Definition name_char (c : ascii) : bool := lower_or_digit c || Ascii.eqb c "-"%char.

(** The regular expression mcpName. *)
Definition mcpName (s : string) : bool :=
  match s with
  | EmptyString => false
  | String c r => lower_or_digit c && all_chars name_char r && Nat.leb (String.length r) 63
  end.

Definition known_classes : list string :=
  ["READ_ONLY"; "REVERSIBLE"; "COMPENSABLE"; "IRREVERSIBLE"; "FINANCIAL"; "DESTRUCTIVE";
   "EXTERNAL_COMMUNICATION"; "PRIVILEGED"; "UNKNOWN"].

Definition known_class (c : string) : bool := any (String.eqb c) known_classes.

(** The loop over the entries in the order of the range; [inr] is
    [errBadClass] of the first unknown class met. *)
Fixpoint validClasses (entries : list (string * list string)) (out : gmap string (list ActionClass))
    : gmap string (list ActionClass) + string :=
  match entries with
  | [] => inl out
  | (tool, l) :: entries =>
      match List.find (fun c => negb (known_class c)) l with
      | Some c => inr ("unknown action class " +:+ c)
      | None => validClasses entries (<[ tool := l ]> out)
      end
  end.

(** [s.svc.Tools().Register(..., nil)]. *)
Definition tools_Register (tool action : string) (classes : list ActionClass) (h : ToolHandler) : M unit :=
  fun w => (tt, w <| w_tools ::= Register tool action classes (Some h) None |>).

Definition fetch_tools (url token : string) : M (list MCPTool + GoError) := fun w =>
  (ListTools (w_tick w) url token, w <| w_tick ::= S |>).

(** The registration loop over the fetched tools. *)
Definition register_tools (name url token : string) (classes : gmap string (list ActionClass))
    (tools : list MCPTool) : prog unit :=
  for_each (fun t _ =>
    let@ _ := tools_Register (ToolName name) (mt_Name t) (default [] (classes !! mt_Name t))
                (HandlerFor url token (mt_Name t)) in Ret tt) tools tt.

Definition callerName (id : option Identity) : string :=
  match id with
  | Some id => if String.eqb (id_Name id) "" then "operator" else id_Name id
  | None => "operator"
  end.

Definition handleRegisterMCPServer (id : option Identity) (rbody : option MCPServerBody) : prog Response :=
  let orgID := orgOf id in
  if negb (callerIsOperator id) then
    errJSON 403 "operator_required" "Only a human operator token can register upstream MCP servers."
  else
    let bad := errJSON 400 "bad_request" "Body needs name (lowercase letters, digits, dashes), url, and optional auth_token and classes." in
    match rbody with
    | None => bad
    | Some b =>
        if String.eqb (mb_Name b) "" || String.eqb (mb_URL b) "" then bad
        else if negb (mcpName (mb_Name b)) then
          errJSON 400 "bad_name" "Server name must match ^[a-z0-9][a-z0-9-]{0,63}$ so policy rules can target mcp:<name> unambiguously."
        else
          match ValidateURL (mb_URL b) with
          | Some err => errJSON 400 "bad_url" err
          | None =>
              let@ entries := ranging (mb_Classes b) in
              match validClasses entries ∅ with
              | inr err => errJSON 400 "bad_class" (err +:+ ". Valid: READ_ONLY REVERSIBLE COMPENSABLE IRREVERSIBLE FINANCIAL DESTRUCTIVE EXTERNAL_COMMUNICATION PRIVILEGED UNKNOWN.")
              | inl classes =>
                  let@ answer := fetch_tools (mb_URL b) (mb_AuthToken b) in
                  match answer with
                  | inr err => errJSON 502 "upstream_unreachable" ("Could not fetch tools/list from upstream: " +:+ err_Error err)
                  | inl tools =>
                      let@ srv := UpsertMCPServer
                        (MkMCPServer "" orgID (mb_Name b) (mb_URL b) false tools classes zero_time) (mb_AuthToken b) in
                      let! _ := register_tools (mb_Name b) (mb_URL b) (mb_AuthToken b) classes tools in
                      let@ _ := Emit (event orgID "" "human" (callerName id) "mcp.server_registered"
                        [("server", VString (mb_Name b)); ("url", VString (RedactURL (mb_URL b)));
                         ("tools", VInt (Z.of_nat (length tools)))]) in
                      writeJSON 201 (BMCPServer srv)
                  end
              end
          end
    end.

Definition handleListMCPServers (id : option Identity) : prog Response :=
  let@ l := ListMCPServers (orgOf id) in writeJSON 200 (BMCPServers l).

Definition handleListMCPTools (id : option Identity) (server : string) : prog Response :=
  if negb (String.eqb server "") then
    let@ e := GetMCPServer (orgOf id) server in
    match e with
    | None => errJSON 404 "server_not_found" ("No MCP server " +:+ server +:+ " in this organization.")
    | Some (srv, _) => writeJSON 200 (BMCPServer srv)
    end
  else
    let@ l := ListMCPServers (orgOf id) in writeJSON 200 (BMCPServers l).

Definition handleMCPCall (id : option Identity) (rbody : option MCPCallBody) : prog Response :=
  let orgID := orgOf id in
  let bad := errJSON 400 "bad_request" "Body needs transaction_id, agent_id, server, tool, arguments, idempotency_key." in
  match rbody with
  | None => bad
  | Some b =>
      if String.eqb (cb_TransactionID b) "" || String.eqb (cb_Server b) "" || String.eqb (cb_Tool b) "" then bad
      else if String.eqb (cb_IdempotencyKey b) "" then
        errJSON 400 "idempotency_required" "Every proxied call needs an idempotency_key."
      else if agent_mismatch id (cb_AgentID b) then
        errJSON 403 "agent_mismatch" "A credential may only act as its own agent identity."
      else
        let@ e := GetMCPServer orgID (cb_Server b) in
        match e with
        | None => errJSON 404 "server_not_found" ("No MCP server " +:+ cb_Server b +:+ " in this organization.")
        | Some (srv, token) =>
            if negb (any (fun t => String.eqb (mt_Name t) (cb_Tool b)) (ms_Tools srv)) then
              errJSON 400 "tool_not_listed" ("Tool " +:+ cb_Tool b +:+ " is not in " +:+ cb_Server b +:+ "'s cached catalog; re-register the server to refresh it.")
            else
              let@ _ := tools_Register (ToolName (cb_Server b)) (cb_Tool b)
                          (default [] (ms_Classes srv !! cb_Tool b))
                          (HandlerFor (ms_URL srv) token (cb_Tool b)) in
              let! r := ProposeAction orgID (cb_TransactionID b) (cb_AgentID b) (ToolName (cb_Server b))
                          (cb_Tool b) (cb_Arguments b) (cb_IdempotencyKey b) in
              match r with
              | Err _ err => errJSON 400 "propose_failed" (err_Error err)
              | Ok a => writeJSON 201 (BAction a)
              end
        end
  end.

(** ** Integrations (integrations.go) *)

Definition handleListIntegrations (id : option Identity) : prog Response :=
  let@ creds := ListIntegrationCredentials (orgOf id) in
  let@ servers := ListMCPServers (orgOf id) in
  writeJSON 200 (BIntegrations creds (length servers)).

(** The switch on the name: code and text of the refusal. *)
Definition secret_refused (name secret : string) : option (string * string) :=
  if String.eqb name "stripe" then
    if HasPrefix secret "sk_live" then
      Some ("live_key_refused", "Live Stripe keys are never accepted; use a test-mode key (sk_test_).")
    else if negb (HasPrefix secret "sk_test_") then Some ("bad_secret", "Not a Stripe test-mode key.")
    else None
  else if String.eqb name "postgres" then
    if negb (HasPrefix secret "postgres://") && negb (HasPrefix secret "postgresql://")
    then Some ("bad_secret", "Postgres credential must be a postgres:// DSN.") else None
  else None.

(** [secret] is the field of the decoded body. *)
Definition handleSetIntegrationCredential (id : option Identity) (name : string) (rbody : option string)
    : prog Response :=
  let orgID := orgOf id in
  if negb (callerIsOperator id) then
    errJSON 403 "operator_required" "Only a human operator token can register third-party credentials."
  else if negb (CredentialNames name) then
    errJSON 400 "unknown_integration" "Known integrations: stripe, github, postgres."
  else
    let secret := default "" rbody in
    if String.eqb secret "" then
      errJSON 400 "bad_request" "Body needs a secret. It is sealed at rest and never returned."
    else
      match secret_refused name secret with
      | Some (msg, why) => errJSON 400 msg why
      | None =>
          let@ ok := SetIntegrationCredential orgID name secret in
          if negb ok then errJSON 500 "store_failed" "Could not store credential."
          else
            let@ _ := Emit (event orgID "" "human" (operatorName id) "integration.credential_set"
              [("integration", VString name)]) in
            writeJSON 201 (BConfigured name)
      end.

(** The loop over the domains; [inr] is the first one that is not a bare
    hostname. *)
Fixpoint clean_domains (l : list string) : list string + string :=
  match l with
  | [] => inl []
  | d :: l =>
      let d := ToLower (TrimSpace d) in
      let bare := match url_Parse ("https://" +:+ d) with
                  | Some u => String.eqb (u_Hostname u) d && negb (Contains d "/")
                  | None => false
                  end in
      if negb bare then inr d
      else match clean_domains l with inl ds => inl (d :: ds) | inr e => inr e end
  end.

Definition supported_method (m : string) : bool :=
  any (String.eqb (ToUpper m)) ["GET"; "HEAD"; "POST"; "PUT"; "PATCH"; "DELETE"].

Definition handleSetHTTPDomains (id : option Identity) (rbody : option DomainsBody) : prog Response :=
  let orgID := orgOf id in
  if negb (callerIsOperator id) then
    errJSON 403 "operator_required" "Only a human operator token can set the HTTP allowlist."
  else
    let bad := errJSON 400 "bad_request" ("Body needs domains (e.g. [" +:+ String dquote ("api.example.com" +:+
      String dquote "]) and optional methods (default GET, HEAD).")) in
    match rbody with
    | None => bad
    | Some b =>
        match hb_Domains b with
        | [] => bad
        | domains =>
            match clean_domains domains with
            | inr d => errJSON 400 "bad_domain" (d +:+ " is not a bare hostname.")
            | inl clean =>
                let methods := match hb_Methods b with [] => ["GET"; "HEAD"] | l => l end in
                match List.find (fun m => negb (supported_method m)) methods with
                | Some m => errJSON 400 "bad_method" (m +:+ " is not a supported method.")
                | None =>
                    let@ _ := SetIntegrationConfig orgID "http"
                      (Some {[ "domains" := VStrings clean; "methods" := VStrings methods ]}) in
                    let@ _ := Emit (event orgID "" "human" (operatorName id) "integration.http_allowlist_set"
                      [("domains", VStrings clean); ("methods", VStrings methods)]) in
                    writeJSON 201 (BAllowlist clean methods)
                end
            end
        end
    end.

(** ** Requests *)

(** One constructor per route (server.go, routes), with what it reads. *)
Inductive Route :=
  | RHealth
  | RRegisterAgent (b : option RegisterBody)
  | RCreateTxn (b : option TxnBody)
  | RListTxns
  | RGetTxn (path : string)
  | RProposeAction (b : option ActionBody)
  | RActionSub (path : string)
  | RListApprovals
  | RDecideApproval (path : string) (b : option DecideBody)
  | RListReceipts (txn : string)
  | RAudit (txn : string)
  | RListPolicies
  | RCreateGrant (b : option GrantBody)
  | RListGrants (agentID : string)
  | RRevokeGrant (grantID : string)
  | RRotateCredential (agentID : string)
  | RRevokeCredential (keyID : string)
  | RReconcile (actionID : string)
  | RVerifyReceipts (txn : string)
  | RVerifyReceipt (b : option Receipt)
  | RSimulatePolicy (b : option SimulateBody)
  | RCreatePolicySet (b : option (list PolicyRule))
  | RListPolicySets
  | RActivatePolicySet (version : string)
  | RCommitTxn (txnID : string)
  | RRegisterMCPServer (b : option MCPServerBody)
  | RListMCPServers
  | RListMCPTools (server : string)
  | RMCPCall (b : option MCPCallBody)
  | RListIntegrations
  | RSetIntegrationCredential (name : string) (secret : option string)
  | RSetHTTPDomains (b : option DomainsBody)
  | ROpenAPI.

Definition route (rt : Route) (id : option Identity) : prog Response :=
  match rt with
  | RHealth => writeJSON 200 BHealth
  | RRegisterAgent b => handleRegisterAgent id b
  | RCreateTxn b => handleCreateTxn id b
  | RListTxns => handleListTxns id
  | RGetTxn p => handleGetTxn id p
  | RProposeAction b => handleProposeAction id b
  | RActionSub p => handleActionSub id true p
  | RListApprovals => handleListApprovals id
  | RDecideApproval p b => handleDecideApproval id true p b
  | RListReceipts t => handleListReceipts id t
  | RAudit t => handleAudit id t
  | RListPolicies => handleListPolicies id
  | RCreateGrant b => handleCreateGrant id b
  | RListGrants a => handleListGrants id a
  | RRevokeGrant g => handleRevokeGrant id g
  | RRotateCredential a => handleRotateCredential id a
  | RRevokeCredential k => handleRevokeCredential id k
  | RReconcile a => handleReconcile id a
  | RVerifyReceipts t => handleVerifyReceipts id t
  | RVerifyReceipt b => handleVerifyReceipt b
  | RSimulatePolicy b => handleSimulatePolicy id b
  | RCreatePolicySet b => handleCreatePolicySet id b
  | RListPolicySets => handleListPolicySets id
  | RActivatePolicySet v => handleActivatePolicySet id v
  | RCommitTxn t => handleCommitTxn id t
  | RRegisterMCPServer b => handleRegisterMCPServer id b
  | RListMCPServers => handleListMCPServers id
  | RListMCPTools s => handleListMCPTools id s
  | RMCPCall b => handleMCPCall id b
  | RListIntegrations => handleListIntegrations id
  | RSetIntegrationCredential n b => handleSetIntegrationCredential id n b
  | RSetHTTPDomains b => handleSetHTTPDomains id b
  | ROpenAPI => writeJSON 200 BOpenAPI
  end.

End ApiMcp.
