(* ===== verification/Mux.v ===== *)
(** * Mux: the routes of the server (internal/api/server.go, routes)

    The table of patterns, as they are written, and the ServeMux of net/http:
    the segments of a pattern, the tree a request descends (a literal before a
    wildcard before the rest of the path), the redirections to a clean path
    and to a trailing slash, and the methods.  Patterns have no host. *)

From Stdlib Require Import Ascii.
From S2P Require Export ApiMcp.

Open Scope Z_scope.

(** ** Patterns *)

Inductive seg :=
  | Lit (s : string)
  | Wild (name : string)
  | Multi.

#[export] Instance seg_eq_dec : EqDecision seg.
Proof. solve_decision. Defined.

Definition slash : ascii := "/".

(** A segment of a pattern: [{name}] is a wildcard. *)
Definition parse_seg (s : string) : seg :=
  match s with
  | String c r =>
      if Ascii.eqb c "{"%char then Wild (take_string (String.length r - 1) r) else Lit s
  | EmptyString => Lit s
  end.

(** The segments of a path pattern; the empty one after a final slash stands
    for the rest of the path. *)
Fixpoint parse_segs (l : list string) : list seg :=
  match l with
  | [] => []
  | [s] => if String.eqb s "" then [Multi] else [parse_seg s]
  | s :: l => parse_seg s :: parse_segs l
  end.

Definition parse_path (s : string) : list seg := parse_segs (tail (Split s slash)).

(** "METHOD /path". *)
Definition parse_pattern (s : string) : string * list seg :=
  let '(m, p, _) := Cut s " "%char in (m, parse_path p).

(** ** The tree

    A node is the list of what remains of the patterns below it. *)

Definition node (H : Type) := list (list seg * H).

Section Tree.
Context {H : Type}.

Definition lit_child (s : string) (t : node H) : node H :=
  omap (fun x => match x.1 with Lit s' :: p => if String.eqb s s' then Some (p, x.2) else None | _ => None end) t.

Definition wild_child (t : node H) : node H :=
  omap (fun x => match x.1 with Wild _ :: p => Some (p, x.2) | _ => None end) t.

Definition multi_child (t : node H) : option H :=
  snd <$> List.find (fun x => match x.1 with [Multi] => true | _ => false end) t.

Definition leaf (t : node H) : option H :=
  snd <$> List.find (fun x => match x.1 with [] => true | _ => false end) t.

(** [matchPath]: the handler, and the segments the wildcards took.  The empty
    segment after a final slash is "/" there, which no wildcard takes, nor an
    escaped slash. *)
Fixpoint matchPath (segs : list string) (t : node H) (matches : list string) : option (H * list string) :=
  match segs with
  | [] => h ← leaf t; Some (h, matches)
  | s :: segs =>
      match matchPath segs (lit_child s t) matches with
      | Some r => Some r
      | None =>
          match (if String.eqb s "" || String.eqb s "/" then None else matchPath segs (wild_child t) (matches ++ [s])) with
          | Some r => Some r
          | None => h ← multi_child t; Some (h, matches)
          end
      end
  end.

End Tree.

(** ** Paths *)

(** [url.PathUnescape]. *)
Fixpoint PathUnescape (s : string) : option string :=
  match s with
  | EmptyString => Some EmptyString
  | String c s' =>
      if Ascii.eqb c "%"%char then
        match s' with
        | String a (String b r) =>
            x ← hex_nibble a; y ← hex_nibble b; r ← PathUnescape r;
            Some (String (ascii_of_nat (16 * x + y)) r)
        | _ => None
        end
      else r ← PathUnescape s'; Some (String c r)
  end.

(** [pathUnescape] of net/http: as it was when the escapes are malformed. *)
Definition pathUnescape (s : string) : string := default s (PathUnescape s).

(** [path.Clean] on the segments after the leading slash, in reverse. *)
Fixpoint clean_segs (segs : list string) (acc : list string) : list string :=
  match segs with
  | [] => reverse acc
  | s :: segs =>
      if String.eqb s "" || String.eqb s "." then clean_segs segs acc
      else if String.eqb s ".." then clean_segs segs (tail acc)
      else clean_segs segs (s :: acc)
  end.

(** [cleanPath]: the final slash stays, and the root is one. *)
Definition cleanPath (segs : list string) : list string :=
  match clean_segs segs [] with
  | [] => [""]
  | l => match last segs with Some "" => l ++ [""] | _ => l end
  end.

Definition trailing_slash (segs : list string) : bool := bool_decide (last segs = Some "").

(** ** Requests *)

(** The body, as the decoder of each handler leaves it. *)
Record Bodies := MkBodies {
  bd_agent : option RegisterBody;
  bd_txn : option TxnBody;
  bd_action : option ActionBody;
  bd_decide : option DecideBody;
  bd_grant : option GrantBody;
  bd_receipt : option Receipt;
  bd_simulate : option SimulateBody;
  bd_rules : option (list PolicyRule);
  bd_mcp : option MCPServerBody;
  bd_call : option MCPCallBody;
  bd_secret : option string;
  bd_domains : option DomainsBody }.

Record ServerRequest := MkServerRequest {
  hq_Method : string;
  hq_EscapedPath : string;
  hq_Query : string -> string;
  hq_Origin : string;
  hq_RequestID : string;
  hq_Authorization : string;
  hq_OrgHeader : string;
  hq_Body : Bodies }.

(** [r.URL.Path]. *)
Definition url_path (r : ServerRequest) : string := pathUnescape (hq_EscapedPath r).

(** The segments of [r.URL.EscapedPath()] after the first slash. *)
Definition segments (r : ServerRequest) : list string := tail (Split (hq_EscapedPath r) slash).

(** What a registered handler reads of a request: the values of its wildcards
    are in [PathValue]. *)
Definition Endpoint : Type := ServerRequest -> (string -> string) -> Route.

(** The calls of HandleFunc in [routes]. *)
Definition routes : list (string * Endpoint) := [
  ("GET /health", fun _ _ => RHealth);
  ("POST /v1/agents", fun r _ => RRegisterAgent (bd_agent (hq_Body r)));
  ("POST /v1/transactions", fun r _ => RCreateTxn (bd_txn (hq_Body r)));
  ("GET /v1/transactions", fun _ _ => RListTxns);
  ("GET /v1/transactions/", fun r _ => RGetTxn (url_path r));
  ("POST /v1/actions", fun r _ => RProposeAction (bd_action (hq_Body r)));
  ("POST /v1/actions/", fun r _ => RActionSub (url_path r));
  ("GET /v1/approvals", fun _ _ => RListApprovals);
  ("POST /v1/approvals/", fun r _ => RDecideApproval (url_path r) (bd_decide (hq_Body r)));
  ("GET /v1/receipts", fun r _ => RListReceipts (hq_Query r "transaction_id"));
  ("GET /v1/audit", fun r _ => RAudit (hq_Query r "transaction_id"));
  ("GET /v1/policies", fun _ _ => RListPolicies);
  ("POST /v1/mcp/servers", fun r _ => RRegisterMCPServer (bd_mcp (hq_Body r)));
  ("GET /v1/mcp/servers", fun _ _ => RListMCPServers);
  ("GET /v1/mcp/tools", fun r _ => RListMCPTools (hq_Query r "server"));
  ("POST /v1/mcp/call", fun r _ => RMCPCall (bd_call (hq_Body r)));
  ("POST /v1/grants", fun r _ => RCreateGrant (bd_grant (hq_Body r)));
  ("GET /v1/grants", fun r _ => RListGrants (hq_Query r "agent_id"));
  ("POST /v1/grants/{id}/revoke", fun _ v => RRevokeGrant (v "id"));
  ("POST /v1/agents/{id}/credentials", fun _ v => RRotateCredential (v "id"));
  ("DELETE /v1/credentials/{keyID}", fun _ v => RRevokeCredential (v "keyID"));
  ("POST /v1/actions/{id}/reconcile", fun _ v => RReconcile (v "id"));
  ("GET /v1/receipts/verify", fun r _ => RVerifyReceipts (hq_Query r "transaction_id"));
  ("POST /v1/receipts/verify", fun r _ => RVerifyReceipt (bd_receipt (hq_Body r)));
  ("POST /v1/policies/evaluate", fun r _ => RSimulatePolicy (bd_simulate (hq_Body r)));
  ("POST /v1/policies/sets", fun r _ => RCreatePolicySet (bd_rules (hq_Body r)));
  ("GET /v1/policies/sets", fun _ _ => RListPolicySets);
  ("POST /v1/policies/sets/{version}/activate", fun _ v => RActivatePolicySet (v "version"));
  ("GET /v1/integrations", fun _ _ => RListIntegrations);
  ("POST /v1/integrations/{name}/credentials",
    fun r v => RSetIntegrationCredential (v "name") (bd_secret (hq_Body r)));
  ("POST /v1/transactions/{id}/commit", fun _ v => RCommitTxn (v "id"));
  ("POST /v1/integrations/http/domains", fun r _ => RSetHTTPDomains (bd_domains (hq_Body r)));
  ("GET /openapi.json", fun _ _ => ROpenAPI)].

(** ** The ServeMux *)

(** A registered pattern: method, segments, handler. *)
Definition registered : list (string * list seg * Endpoint) :=
  (fun x => (parse_pattern x.1, x.2)) <$> routes.

(** A handler keeps its pattern, for the names of the wildcards. *)
Definition method_tree (m : string) : node (list seg * Endpoint) :=
  omap (fun x => if String.eqb x.1.1 m then Some (x.1.2, (x.1.2, x.2)) else None) registered.

(** [matchMethodAndPath]: GET handlers serve HEAD. *)
Definition mux_match (m : string) (segs : list string) : option (list seg * Endpoint * list string) :=
  match matchPath (pathUnescape <$> segs) (method_tree m) [] with
  | Some r => Some r
  | None => if String.eqb m "HEAD" then matchPath (pathUnescape <$> segs) (method_tree "GET") [] else None
  end.

(** [exactMatch]. *)
Definition exactMatch (n : option (list seg * Endpoint * list string)) (segs : list string) : bool :=
  match n with
  | None => false
  | Some (p, _, _) =>
      negb (bool_decide (last p = Some Multi)) ||
      trailing_slash segs && Nat.eqb (length p) (length segs)
  end.

Definition wild_names (p : list seg) : list string :=
  omap (fun s => match s with Wild n => Some n | _ => None end) p.

(** [r.PathValue]. *)
Fixpoint PathValue (names values : list string) (name : string) : string :=
  match names, values with
  | n :: names, v :: values => if String.eqb n name then v else PathValue names values name
  | _, _ => ""
  end.

Definition methods : list string := remove_dups ((fun x => x.1.1) <$> registered).

(** Some method has a handler for the path ([matchingMethods]). *)
Definition other_method (segs : list string) : bool :=
  let has segs m := bool_decide (matchPath (pathUnescape <$> segs) (method_tree m) [] <> None) in
  existsb (has segs) methods || negb (trailing_slash segs) && existsb (has (segs ++ [""])) methods.

Inductive Dispatch :=
  | Handle (p : list seg) (rt : Route)
  | Redirect
  | MethodNotAllowed
  | NotFound.

(** [findHandler], for every method but CONNECT. *)
Definition findHandler (r : ServerRequest) : Dispatch :=
  let segs := cleanPath (segments r) in
  let n := mux_match (hq_Method r) segs in
  if negb (exactMatch n segs) && negb (trailing_slash segs) &&
     exactMatch (mux_match (hq_Method r) (segs ++ [""])) (segs ++ [""])
  then Redirect
  else if negb (bool_decide (segs = segments r)) then Redirect
  else
    match n with
    | Some (p, h, values) => Handle p (h r (PathValue (wild_names p) values))
    | None => if other_method segs then MethodNotAllowed else NotFound
    end.

(** ** What a pattern matches *)

Inductive matches : list seg -> list string -> list string -> Prop :=
  | m_done : matches [] [] []
  | m_lit p s ss v : matches p ss v -> matches (Lit s :: p) (s :: ss) v
  | m_wild n p s ss v : s <> "" -> s <> "/" -> matches p ss v -> matches (Wild n :: p) (s :: ss) (s :: v)
  | m_multi s ss : matches [Multi] (s :: ss) [].

Definition matched (p : list seg) (ss : list string) : Prop := exists v, matches p ss v.

(** The order in which the tree tries patterns. *)
Fixpoint no_later (p p' : list seg) : bool :=
  match p, p' with
  | [], [] | Lit _ :: _, (Wild _ | Multi) :: _ | Wild _ :: _, Multi :: _ | Multi :: _, Multi :: _ => true
  | Lit _ :: p, Lit _ :: p' | Wild _ :: p, Wild _ :: p' => no_later p p'
  | _, _ => false
  end.

(** [p'] matches what [p] matches. *)
Fixpoint covers (p' p : list seg) : bool :=
  match p', p with
  | [], [] => true
  | [Multi], _ :: _ => true
  | Lit a :: p', Lit b :: p => String.eqb a b && covers p' p
  | Wild _ :: p', Lit b :: p => negb (String.eqb b "") && negb (String.eqb b "/") && covers p' p
  | Wild _ :: p', Wild _ :: p => covers p' p
  | _, _ => false
  end.

(** No path matches both. *)
Fixpoint disjointb (p p' : list seg) : bool :=
  match p, p' with
  | [], [] | Multi :: _, _ :: _ | _ :: _, Multi :: _ => false
  | [], _ :: _ | _ :: _, [] => true
  | Lit a :: p, Lit b :: p' => negb (String.eqb a b) || disjointb p p'
  | _ :: p, _ :: p' => disjointb p p'
  end.

Lemma covers_sound p' p ss : covers p' p = true -> matched p ss -> matched p' ss.
Proof.
  intros Hc [v Hm]. revert p' Hc. induction Hm as [|p s ss v Hm IH|n p s ss v Hs Hs' Hm IH|s ss]; intros p' Hc.
  - destruct p' as [|[?|?|] [|]]; try done. exists []. constructor.
  - destruct p' as [|[a|n|] p']; try done; cbn in Hc.
    + apply andb_true_iff in Hc as [->%String.eqb_eq Hc]. destruct (IH _ Hc) as [w Hw]. exists w. by constructor.
    + apply andb_true_iff in Hc as [[H1%negb_true_iff%String.eqb_neq H2%negb_true_iff%String.eqb_neq]%andb_true_iff Hc].
      destruct (IH _ Hc) as [w Hw]. exists (s :: w). by constructor.
    + destruct p'; [|done]. exists []. constructor.
  - destruct p' as [|[a|n'|] p']; try done; cbn in Hc.
    + destruct (IH _ Hc) as [w Hw]. exists (s :: w). by constructor.
    + destruct p'; [|done]. exists []. constructor.
  - destruct p' as [|[a|n|] [|]]; try done. exists []. constructor.
Qed.

Lemma disjointb_sound p p' ss : disjointb p p' = true -> matched p ss -> matched p' ss -> False.
Proof.
  intros Hd [v Hm] [v' Hm']. revert p' v' Hd Hm'.
  induction Hm as [|p s ss v Hm IH|n p s ss v Hs Hs' Hm IH|s ss]; intros p' v' Hd Hm'.
  - inversion Hm'; by subst.
  - inversion Hm'; subst; cbn in Hd; try done; [|eapply IH; [exact Hd|eassumption]].
    rewrite string_eqb_refl in Hd. eapply IH; [exact Hd|eassumption].
  - inversion Hm'; subst; cbn in Hd; try done; (eapply IH; [exact Hd|eassumption]).
  - inversion Hm'; by subst.
Qed.

(** ** The tree finds the first of the patterns that match *)

Section TreeSpec.
Context {H : Type}.
Implicit Types t : node H.

Lemma elem_of_lit_child s t p h : (p, h) ∈ lit_child s t <-> (Lit s :: p, h) ∈ t.
Proof.
  unfold lit_child. rewrite list_elem_of_omap. split.
  - intros ([q h'] & Hin & Hq). cbn in Hq. destruct q as [|[s'| |] q]; try done.
    destruct (String.eqb_spec s s') as [->|]; [|done]. by injection Hq as -> ->.
  - intros Hin. exists (Lit s :: p, h). split; [done|]. cbn. by rewrite string_eqb_refl.
Qed.

Lemma elem_of_wild_child t p h : (p, h) ∈ wild_child t <-> exists n, (Wild n :: p, h) ∈ t.
Proof.
  unfold wild_child. rewrite list_elem_of_omap. split.
  - intros ([q h'] & Hin & Hq). cbn in Hq. destruct q as [|[|n|] q]; try done. injection Hq as -> ->. by exists n.
  - intros [n Hin]. by exists (Wild n :: p, h).
Qed.

Lemma find_rest (f : list seg -> bool) t :
  match snd <$> List.find (fun x => f x.1) t with
  | Some h => exists p, (p, h) ∈ t /\ f p = true
  | None => forall p h, (p, h) ∈ t -> f p = false
  end.
Proof.
  destruct (List.find _ t) as [[p h]|] eqn:E; cbn.
  - apply find_some in E as [Hin Hf]. exists p. split; [by apply list_elem_of_In|done].
  - intros p h Hin. apply list_elem_of_In in Hin. exact (find_none _ _ E _ Hin).
Qed.

(** The first of the patterns of a node that match. *)
Definition tree_first (t : node H) (segs acc : list string) (r : option (H * list string)) : Prop :=
  match r with
  | Some (h, vs) => exists p v, (p, h) ∈ t /\ matches p segs v /\ vs = acc ++ v /\
      forall p' h', (p', h') ∈ t -> matched p' segs -> no_later p p' = true
  | None => forall p h, (p, h) ∈ t -> ~ matched p segs
  end.

Lemma tree_first_multi t s segs acc :
  (forall p h, (Lit s :: p, h) ∈ t -> ~ matched p segs) ->
  (forall n p h, (Wild n :: p, h) ∈ t -> s <> "" -> s <> "/" -> ~ matched p segs) ->
  tree_first t (s :: segs) acc (h ← multi_child t; Some (h, acc)).
Proof.
  intros Hl Hw. unfold multi_child.
  pose proof (find_rest (fun p => match p with [Multi] => true | _ => false end) t) as Hf.
  destruct (snd <$> _) as [h|]; cbn.
  - destruct Hf as (p & Hin & Hp). destruct p as [|[| |] [|]]; try done. exists [Multi], [].
    split; [done|]. split; [constructor|]. split; [by rewrite app_nil_r|].
    intros p' h' Hin' [v' Hm']. inversion Hm'; subst; [destruct (Hl _ _ Hin'); by eexists| |done].
    destruct (Hw _ _ _ Hin'); [done|done|by eexists].
  - intros p h Hin [v Hm]. specialize (Hf p h Hin). inversion Hm; subst; [destruct (Hl _ _ Hin); by eexists| |done].
    destruct (Hw _ _ _ Hin); [done|done|by eexists].
Qed.

Lemma matchPath_spec segs t acc : tree_first t segs acc (matchPath segs t acc).
Proof.
  revert t acc. induction segs as [|s segs IH]; intros t acc; cbn [matchPath].
  - unfold leaf. pose proof (find_rest (fun p => match p with [] => true | _ => false end) t) as Hf.
    destruct (snd <$> _) as [h|]; cbn.
    + destruct Hf as (p & Hin & Hp). destruct p; [|done]. exists [], []. split; [done|]. split; [constructor|].
      split; [by rewrite app_nil_r|]. intros p' h' Hin' [v' Hm']. by inversion Hm'; subst.
    + intros p h Hin [v Hm]. specialize (Hf p h Hin). by inversion Hm; subst.
  - pose proof (IH (lit_child s t) acc) as Hl. destruct (matchPath segs (lit_child s t) acc) as [[h vs]|].
    { destruct Hl as (p & v & Hin & Hm & Hv & Hmin). apply elem_of_lit_child in Hin.
      exists (Lit s :: p), v. split; [done|]. split; [by constructor|]. split; [done|].
      intros p' h' Hin' [v' Hm']. inversion Hm'; subst; try done. cbn. eapply Hmin; [by apply elem_of_lit_child|by eexists]. }
    assert (Hl' : forall p h, (Lit s :: p, h) ∈ t -> ~ matched p segs) by (intros p h Hin; by eapply Hl, elem_of_lit_child).
    destruct (String.eqb_spec s "") as [->|Hs]; [by apply tree_first_multi|].
    destruct (String.eqb_spec s "/") as [->|Hs']; [by apply tree_first_multi|]. cbn [orb].
    pose proof (IH (wild_child t) (acc ++ [s])) as Hw.
    destruct (matchPath segs (wild_child t) (acc ++ [s])) as [[h vs]|].
    + destruct Hw as (p & v & Hin & Hm & Hv & Hmin). apply elem_of_wild_child in Hin as [n Hin].
      exists (Wild n :: p), (s :: v). split; [done|]. split; [by constructor|]. split; [by rewrite Hv, <- app_assoc|].
      intros p' h' Hin' [v' Hm']. inversion Hm'; subst; cbn; [|eapply Hmin; [apply elem_of_wild_child; by eexists|by eexists]|done].
      destruct (Hl' _ _ Hin'). by eexists.
    + apply tree_first_multi; [done|]. intros n p h Hin _ _. eapply Hw, elem_of_wild_child. by eexists.
Qed.

End TreeSpec.

(** ** The table *)

Definition patterns : list (string * list seg) := (fun x => parse_pattern x.1) <$> routes.

Definition same_method (x y : string * list seg) : bool := String.eqb x.1 y.1.

(** A pattern is tried before another only if it matches less, or nothing the
    other matches. *)
Definition tree_order (x y : string * list seg) : bool :=
  negb (same_method x y && no_later x.2 y.2) || disjointb x.2 y.2 || covers y.2 x.2.

(** HandleFunc does not panic over two patterns. *)
Definition no_conflict (x y : string * list seg) : bool :=
  negb (same_method x y) || disjointb x.2 y.2 ||
  xorb (covers y.2 x.2) (covers x.2 y.2).

Fixpoint all_pairs {A} (f : A -> A -> bool) (l : list A) : bool :=
  match l with
  | [] => true
  | x :: l => forallb (f x) l && all_pairs f l
  end.

Lemma tree_order_all : forallb (fun x => forallb (tree_order x) patterns) patterns = true.
Proof. vm_compute. reflexivity. Qed.

Lemma no_conflict_all : all_pairs no_conflict patterns = true.
Proof. vm_compute. reflexivity. Qed.

Lemma all_pairs_spec {A} (f : A -> A -> bool) l i j x y :
  all_pairs f l = true -> (i < j)%nat -> l !! i = Some x -> l !! j = Some y -> f x y = true.
Proof.
  revert i j. induction l as [|z l IH]; intros i j Hf Hij Hi Hj; [done|].
  cbn in Hf. apply andb_true_iff in Hf as [Hz Hf]. destruct j as [|j]; [lia|]. destruct i as [|i].
  - injection Hi as ->. rewrite forallb_forall in Hz. apply Hz, list_elem_of_In. by eapply list_elem_of_lookup_2.
  - eapply (IH i j); [done|lia|done|done].
Qed.

Lemma patterns_registered m p h : ((m, p), h) ∈ registered -> (m, p) ∈ patterns.
Proof.
  unfold registered, patterns. rewrite !list_elem_of_fmap. intros (x & E & Hx). exists x. split; [|done].
  by injection E as ->.
Qed.

Lemma tree_order_spec m p h p' h' : ((m, p), h) ∈ registered -> ((m, p'), h') ∈ registered ->
  no_later p p' = true -> forall ss, matched p ss -> matched p' ss -> forall ss', matched p ss' -> matched p' ss'.
Proof.
  intros Hp%patterns_registered Hp'%patterns_registered Hn ss Hs Hs' ss' Hm.
  pose proof tree_order_all as H. rewrite forallb_forall in H. specialize (H _ (proj1 (list_elem_of_In _ _) Hp)).
  rewrite forallb_forall in H. specialize (H _ (proj1 (list_elem_of_In _ _) Hp')).
  unfold tree_order, same_method in H. cbn in H. rewrite string_eqb_refl, Hn in H. cbn in H.
  apply orb_true_iff in H as [H|H]; [destruct (disjointb_sound _ _ _ H Hs Hs')|by eapply covers_sound].
Qed.

Lemma elem_of_method_tree m p q h : (p, (q, h)) ∈ method_tree m <-> q = p /\ ((m, p), h) ∈ registered.
Proof.
  unfold method_tree. rewrite list_elem_of_omap. split.
  - intros ([[m' p'] h'] & Hin & Hq). cbn in Hq. destruct (String.eqb_spec m' m) as [->|]; [|done].
    by injection Hq as -> -> ->.
  - intros [-> Hin]. exists ((m, p), h). split; [done|]. cbn. by rewrite string_eqb_refl.
Qed.

(** The methods a pattern serves. *)
Definition serves (m m' : string) : Prop := m' = m \/ m = "HEAD" /\ m' = "GET".

Lemma method_match_some m segs p h v :
  matchPath segs (method_tree m) [] = Some ((p, h), v) ->
  ((m, p), h) ∈ registered /\ matches p segs v /\
  forall p' h', ((m, p'), h') ∈ registered -> matched p' segs -> forall ss, matched p ss -> matched p' ss.
Proof.
  intros E. pose proof (matchPath_spec segs (method_tree m) []) as Hs. rewrite E in Hs.
  destruct Hs as (q & w & [-> Hin]%elem_of_method_tree & Hm & -> & Hmin). cbn. split; [done|]. split; [done|].
  intros p' h' Hin' Hm' ss Hss. eapply (tree_order_spec m _ _ _ _ Hin Hin'); [|by eexists|exact Hm'|exact Hss].
  eapply (Hmin p' (p', h')); [by apply elem_of_method_tree|done].
Qed.

Lemma method_match_none m segs :
  matchPath segs (method_tree m) [] = None -> forall p h, ((m, p), h) ∈ registered -> ~ matched p segs.
Proof.
  intros E p h Hin. pose proof (matchPath_spec segs (method_tree m) []) as Hs. rewrite E in Hs.
  apply (Hs p (p, h)). by apply elem_of_method_tree.
Qed.

Lemma mux_match_some m segs p h v : mux_match m segs = Some ((p, h), v) ->
  exists m', serves m m' /\ ((m', p), h) ∈ registered /\ matches p (pathUnescape <$> segs) v /\
  forall p' h', ((m', p'), h') ∈ registered -> matched p' (pathUnescape <$> segs) ->
    forall ss, matched p ss -> matched p' ss.
Proof.
  unfold mux_match. destruct (matchPath _ (method_tree m) []) as [[[q g] w]|] eqn:E.
  - intros [= -> -> ->]. apply method_match_some in E. exists m. split; [by left|done].
  - destruct (String.eqb_spec m "HEAD") as [->|]; [|done]. intros E'%method_match_some.
    exists "GET". split; [by right|done].
Qed.

Lemma mux_match_none m segs : mux_match m segs = None ->
  forall m' p h, serves m m' -> ((m', p), h) ∈ registered -> ~ matched p (pathUnescape <$> segs).
Proof.
  unfold mux_match. destruct (matchPath _ (method_tree m) []) as [|] eqn:E; [done|].
  intros E' m' p h [->|[-> ->]] Hin; [exact (method_match_none m _ E p h Hin)|].
  exact (method_match_none "GET" _ E' p h Hin).
Qed.

Lemma elem_of_methods m p h : ((m, p), h) ∈ registered -> m ∈ methods.
Proof.
  intros Hin. unfold methods. apply elem_of_remove_dups, list_elem_of_fmap. by exists ((m, p), h).
Qed.

Lemma last_segs_slash segs : trailing_slash segs = true <-> last segs = Some "".
Proof. unfold trailing_slash. apply bool_decide_eq_true. Qed.

Lemma exactMatch_some n segs : exactMatch n segs = true -> exists p h v, n = Some ((p, h), v).
Proof. destruct n as [[[p h] v]|]; [|done]. intros _. by exists p, h, v. Qed.

Lemma other_method_none segs : other_method segs = false ->
  forall m p h, ((m, p), h) ∈ registered -> ~ matched p (pathUnescape <$> segs).
Proof.
  unfold other_method. intros [Hn _]%orb_false_iff m p h Hin Hm.
  assert (Ht : existsb (fun m => bool_decide (matchPath (pathUnescape <$> segs) (method_tree m) [] <> None)) methods = true).
  { apply existsb_exists. exists m. split; [by eapply list_elem_of_In, elem_of_methods|]. apply bool_decide_eq_true.
    intros E. by eapply (method_match_none m _ E p h Hin). }
  congruence.
Qed.

(** A route that is chosen. *)
Lemma findHandler_handle r p rt : findHandler r = Handle p rt ->
  cleanPath (segments r) = segments r /\
  exists m h v, serves (hq_Method r) m /\ ((m, p), h) ∈ registered /\
    matches p (pathUnescape <$> segments r) v /\ rt = h r (PathValue (wild_names p) v) /\
    forall p' h', ((m, p'), h') ∈ registered -> matched p' (pathUnescape <$> segments r) ->
      forall ss, matched p ss -> matched p' ss.
Proof.
  unfold findHandler. destruct (_ && _ && _); [done|].
  destruct (bool_decide_reflect (cleanPath (segments r) = segments r)) as [->|]; [|done]. cbn [negb].
  destruct (mux_match _ (segments r)) as [[[q h] v]|] eqn:E; [|by destruct (other_method _)].
  intros [= -> <-]. split; [done|]. apply mux_match_some in E as (m & H1 & H2 & H3 & H4). by exists m, h, v.
Qed.

(** C25: a request is routed to the most specific pattern that matches it.
    Registering the routes does not panic: of two patterns of a method either
    no path matches both or one matches strictly more.  A route is chosen
    only for a path in clean form; the pattern chosen matches it, with the
    values of the wildcards the handler reads, and every other pattern of the
    method that matches it matches whatever the chosen one does.  404 is
    answered only where no pattern of any method matches, 405 only where none
    of the request's method does. *)
Theorem findHandler_most_specific r :
  all_pairs no_conflict patterns = true /\
  match findHandler r with
  | Handle p rt =>
      cleanPath (segments r) = segments r /\
      exists m h v, serves (hq_Method r) m /\ ((m, p), h) ∈ registered /\
        matches p (pathUnescape <$> segments r) v /\ rt = h r (PathValue (wild_names p) v) /\
        forall p' h', ((m, p'), h') ∈ registered -> matched p' (pathUnescape <$> segments r) ->
          forall ss, matched p ss -> matched p' ss
  | Redirect =>
      cleanPath (segments r) <> segments r \/
      last (segments r) <> Some "" /\
      exists m p h, serves (hq_Method r) m /\ ((m, p), h) ∈ registered /\
        matched p (pathUnescape <$> segments r ++ [""])
  | MethodNotAllowed =>
      cleanPath (segments r) = segments r /\
      forall m p h, serves (hq_Method r) m -> ((m, p), h) ∈ registered -> ~ matched p (pathUnescape <$> segments r)
  | NotFound =>
      cleanPath (segments r) = segments r /\
      forall m p h, ((m, p), h) ∈ registered -> ~ matched p (pathUnescape <$> segments r)
  end.
Proof.
  split; [exact no_conflict_all|]. pose proof (findHandler_handle r) as Hh. revert Hh. unfold findHandler.
  destruct (decide (cleanPath (segments r) = segments r)) as [->|Hc].
  - rewrite bool_decide_eq_true_2 by done. cbn [negb].
    destruct (negb (exactMatch _ (segments r)) && _ && exactMatch _ _) eqn:Er.
    + intros _. right. apply andb_true_iff in Er as [[_ Hs%negb_true_iff]%andb_true_iff Hx]. split.
      { intros H%last_segs_slash. congruence. }
      apply exactMatch_some in Hx as (p & h & v & E). apply mux_match_some in E as (m & H1 & H2 & H3 & _).
      exists m, p, h. split; [done|]. split; [done|]. by exists v.
    + destruct (mux_match _ (segments r)) as [[[p h] v]|] eqn:E.
      * intros Hh. by apply Hh.
      * intros _. destruct (other_method _) eqn:Eo; (split; [done|]).
        -- intros m p h. by eapply mux_match_none.
        -- by apply other_method_none.
  - rewrite (bool_decide_eq_false_2 (cleanPath (segments r) = segments r)) by done. cbn [negb].
    intros _. destruct (_ && _ && _); by left.
Qed.
