(* ===== verification/Handler.v ===== *)
(** * Handler: the server as one handler (internal/api/cors.go,
    internal/observe/observe.go, internal/api/server.go, Handler)

    CORS outside the request identifiers, those outside authentication, and
    the mux inside.  A handler gets the headers set so far and returns those
    of the response; the headers the routes set themselves (Content-Type) are
    left out, and a span has no state of its own. *)

From Stdlib Require Import Ascii.
From S2P Require Export Mux AuthSpec.

Open Scope Z_scope.

Abbreviation headers := (gmap string string).

(** What the mux answers with. *)
Inductive MuxAnswer :=
  | Responded (x : Response)
  | Redirected
  | Refused (code : Z).

Inductive HttpAnswer :=
  | Preflight
  | Answered (a : Answer MuxAnswer).

Record Reply := MkReply { rp_Headers : headers; rp_Answer : HttpAnswer }.

Section Handler.
Context `{RT : Runtime} `{JE : JevEnv} `{SE : Secrets} `{UP : UuidParse} `{NT : Net}.

Definition HttpHandler : Type := ServerRequest -> headers -> prog Reply.

(** ** CORS *)

Definition listed_origins : list string :=
  List.filter (fun o => negb (String.eqb o "")) (TrimSpace <$> Split (getenv "AG_CORS_ORIGINS") ","%char).

Definition cors_origins : list string :=
  match listed_origins with
  | [] => ["http://localhost:3000"; "http://127.0.0.1:3000"]
  | l => l
  end.

Definition corsMiddleware (next : HttpHandler) : HttpHandler := fun r h =>
  let origin := hq_Origin r in
  let h :=
    if existsb (String.eqb origin) cors_origins then
      <[ "Access-Control-Allow-Methods" := "GET, POST, OPTIONS" ]>
      (<[ "Access-Control-Allow-Headers" := "Authorization, Content-Type, X-Org-ID, X-Request-ID" ]>
      (<[ "Vary" := "Origin" ]> (<[ "Access-Control-Allow-Origin" := origin ]> h)))
    else h in
  if String.eqb (hq_Method r) "OPTIONS" then Ret (MkReply h Preflight) else next r h.

(** ** Request identifiers *)

Definition observe_Middleware (next : HttpHandler) : HttpHandler := fun r h =>
  let@ reqID := (if String.eqb (hq_RequestID r) "" then uid else m_ret (hq_RequestID r)) in
  let@ tid := TraceID in
  let h := <[ "X-Request-ID" := reqID ]> h in
  next r (if String.eqb tid "" then h else <[ "X-Trace-ID" := tid ]> h).

(** ** The server *)

Definition ServeHTTP (r : ServerRequest) (id : option Identity) : prog MuxAnswer :=
  match findHandler r with
  | Handle _ rt => let! x := route rt id in Ret (Responded x)
  | Redirect => Ret Redirected
  | MethodNotAllowed => Ret (Refused 405)
  | NotFound => Ret (Refused 404)
  end.

Definition auth_request (r : ServerRequest) : Request :=
  MkRequest (url_path r) (hq_Authorization r) (hq_OrgHeader r).

Definition auth_handler : HttpHandler := fun r h =>
  let! a := Middleware (ServeHTTP r) (auth_request r) in Ret (MkReply h (Answered a)).

Definition Handler (r : ServerRequest) : prog Reply :=
  corsMiddleware (observe_Middleware auth_handler) r ∅.

End Handler.

(** ** The open paths *)

Lemma hex_nibble_slash c n : hex_nibble c = Some n -> c <> slash.
Proof. by intros H ->. Qed.

Lemma PathUnescape_free e s : PathUnescape e = Some s -> free_of slash s = true -> free_of slash e = true.
Proof.
  revert s. remember (String.length e) as n eqn:Hn. revert e Hn.
  induction (lt_wf n) as [n _ IH]. intros e -> s. destruct e as [|c e]; cbn [PathUnescape]; [done|].
  destruct (Ascii.eqb_spec c "%"%char) as [->|Hc].
  - destruct e as [|a [|b e]]; try done.
    destruct (hex_nibble a) as [x|] eqn:Ea; [|done]. destruct (hex_nibble b) as [y|] eqn:Eb; [|done]. cbn.
    destruct (PathUnescape e) as [s'|] eqn:E; [|done]. intros [= <-] Hf.
    apply hex_nibble_slash in Ea, Eb. unfold free_of in *. cbn [all_chars] in *.
    apply andb_true_iff in Hf as [_ Hf].
    rewrite (proj2 (Ascii.eqb_neq a slash)), (proj2 (Ascii.eqb_neq b slash)) by done. cbn.
    eapply (IH (String.length e)); [cbn; lia|done|exact E|done].
  - cbn. destruct (PathUnescape e) as [s'|] eqn:E; [|done]. intros [= <-] Hf. unfold free_of in *. cbn [all_chars] in *.
    apply andb_true_iff in Hf as [-> Hf]. cbn. eapply (IH (String.length e)); [cbn; lia|done|exact E|done].
Qed.

Lemma Split_free c e : free_of c e = true -> Split e c = [e].
Proof.
  unfold free_of. induction e as [|d e IH]; cbn [all_chars Split]; [done|].
  intros [Hd He]%andb_true_iff. rewrite IH by done. apply negb_true_iff in Hd. by rewrite Hd.
Qed.

Lemma pathUnescape_slash e : pathUnescape (String slash e) = String slash (pathUnescape e).
Proof. unfold pathUnescape. cbn. by destruct (PathUnescape e). Qed.

Lemma segments_of_path r s : url_path r = String slash s -> free_of slash s = true ->
  segments r = [] \/ exists e, segments r = [e] /\ pathUnescape e = s.
Proof.
  unfold url_path, segments. destruct (hq_EscapedPath r) as [|c e]; [done|].
  assert (Hfree : forall x, pathUnescape x = s -> free_of slash s = true -> free_of slash x = true).
  { unfold pathUnescape. intros x. destruct (PathUnescape x) as [y|] eqn:E; cbn; [|by intros ->].
    intros -> Hs. by eapply PathUnescape_free. }
  destruct (Ascii.eqb_spec c slash) as [->|Hc].
  - rewrite pathUnescape_slash. intros [= E] Hs. right. exists e. split; [|done]. cbn. by rewrite (Split_free slash) by auto.
  - intros E Hs. left. cbn [Split]. rewrite (proj2 (Ascii.eqb_neq c slash)) by done.
    assert (Hr : exists rest, PathUnescape (String c e) = Some (String slash rest) /\ rest = s).
    { unfold pathUnescape in E. destruct (PathUnescape (String c e)) as [y|] eqn:Ey; cbn in E; [|congruence].
      exists s. by subst y. }
    destruct Hr as (rest & Hr & ->). cbn [PathUnescape] in Hr. destruct (Ascii.eqb_spec c "%"%char) as [->|Hp].
    2: { cbn in Hr. destruct (PathUnescape e); [|done]. by injection Hr as ->. }
    destruct e as [|a [|b e]]; try done.
    destruct (hex_nibble a) as [x|] eqn:Ea; [|done]. destruct (hex_nibble b) as [y|] eqn:Eb; [|done]. cbn in Hr.
    destruct (PathUnescape e) as [s'|] eqn:Ee; [|done]. injection Hr as _ ->.
    apply hex_nibble_slash in Ea, Eb. cbn [Split].
    rewrite (proj2 (Ascii.eqb_neq a slash)), (proj2 (Ascii.eqb_neq b slash)) by done.
    by rewrite (Split_free slash e) by by eapply PathUnescape_free.
Qed.

(** The handlers of an open path. *)
Definition is_open (rt : Route) : Prop := rt = RHealth \/ rt = ROpenAPI.

Lemma open_patterns r m p h v s : ((m, p), h) ∈ registered -> matches p [s] v ->
  s = "health" \/ s = "openapi.json" -> is_open (h r (PathValue (wild_names p) v)).
Proof.
  intros Hin Hm Hs. unfold registered in Hin. apply list_elem_of_fmap in Hin as ([str g] & E & Hin). cbn in E.
  injection E as Ep ->. revert Hin Ep. unfold routes.
  repeat (intros [[= -> ->]|Hin]%elem_of_cons;
    [vm_compute (parse_pattern _); intros [= -> ->]; inversion Hm; subst;
     repeat match goal with H : matches _ [] _ |- _ => inversion H; subst; clear H end;
     first [by left|by right|by destruct Hs]|revert Hin]).
  by intros ?%elem_of_nil.
Qed.

Lemma open_path_routes r p rt :
  open_path (url_path r) = true -> findHandler r = Handle p rt -> is_open rt.
Proof.
  intros Ho Hf. apply findHandler_handle in Hf as (Hc & m & h & v & _ & Hin & Hm & -> & _).
  assert (Hs : exists s, url_path r = String slash s /\ (s = "health" \/ s = "openapi.json") /\ free_of slash s = true).
  { apply orb_true_iff in Ho as [E%String.eqb_eq|E%String.eqb_eq]; eexists; (split; [exact E|]); split; auto. }
  destruct Hs as (s & E & Hs & Hf). destruct (segments_of_path _ _ E Hf) as [E'|(e & E' & <-)].
  - by rewrite E' in Hc.
  - rewrite E' in Hm. cbn in Hm. by eapply open_patterns.
Qed.

Section Gate.
Context `{RT : Runtime} `{JE : JevEnv} `{SE : Secrets} `{UP : UuidParse} `{NT : Net}.

(** What a request that presents no credential can get. *)
Definition public_answer (a : Answer MuxAnswer) : Prop :=
  a = Rejected 401 "missing_credentials" \/
  a = Served (Responded (MkResponse 200 BHealth)) \/ a = Served (Responded (MkResponse 200 BOpenAPI)) \/
  a = Served Redirected \/ exists code, a = Served (Refused code).

Lemma unauthenticated_run r w : TrimPrefix (hq_Authorization r) "Bearer " = hq_Authorization r ->
  exists a, run (Middleware (ServeHTTP r) (auth_request r)) w = (a, w) /\ public_answer a.
Proof.
  intros Ht. unfold Middleware, auth_request. cbn [rq_Path rq_Authorization].
  destruct (open_path (url_path r)) eqn:Ho.
  - unfold ServeHTTP. destruct (findHandler r) as [p rt| | |] eqn:Ef; cbn.
    + destruct (open_path_routes r p rt Ho Ef) as [->| ->]; cbn; eexists; (split; [reflexivity|]); unfold public_answer; auto.
    + eexists. split; [reflexivity|]. unfold public_answer. auto.
    + eexists. split; [reflexivity|]. unfold public_answer. eauto 10.
    + eexists. split; [reflexivity|]. unfold public_answer. eauto 10.
  - rewrite Ht, string_eqb_refl, orb_true_r. cbn. eexists. split; [reflexivity|]. by left.
Qed.

Definition cors_header (r : ServerRequest) : option string :=
  if existsb (String.eqb (hq_Origin r)) cors_origins then Some (hq_Origin r) else None.

(** C24: the outermost handler.  A browser is told an origin may read the
    answer exactly when the origin is listed, and never for all origins; a
    preflight is answered 204 and changes nothing at all, credential or not;
    every other request reaches the authentication middleware in the same
    world but for the identifiers drawn, keeps the request identifier it
    came with, and gets its answer.  Without a bearer credential that answer
    is a 401, the health check, the API description or the mux's own, and no
    state changes: no path spelled with escapes or dots reaches a handler. *)
Theorem Handler_gate r w :
  let '(rep, w') := run (Handler r) w in
  rp_Headers rep !! "Access-Control-Allow-Origin" = cors_header r /\
  (hq_Method r = "OPTIONS" -> rp_Answer rep = Preflight /\ w' = w) /\
  (hq_Method r <> "OPTIONS" -> exists a w1,
     rp_Answer rep = Answered a /\ w1 = w <| w_uid := w_uid w1 |> <| w_tick := w_tick w1 |> /\
     run (Middleware (ServeHTTP r) (auth_request r)) w1 = (a, w') /\
     (hq_RequestID r <> "" -> rp_Headers rep !! "X-Request-ID" = Some (hq_RequestID r)) /\
     (TrimPrefix (hq_Authorization r) "Bearer " = hq_Authorization r -> w' = w1 /\ public_answer a)).
Proof.
  unfold Handler, corsMiddleware. set (h := if existsb _ _ then _ else _).
  assert (Hh : h !! "Access-Control-Allow-Origin" = cors_header r).
  { unfold h, cors_header. by destruct (existsb _ _). }
  clearbody h. destruct (String.eqb_spec (hq_Method r) "OPTIONS") as [Hm|Hm].
  { cbn. split; [done|]. split; [done|]. by intros []. }
  unfold observe_Middleware. cbn [run].
  assert (Hid : exists id w0, (if String.eqb (hq_RequestID r) "" then uid else m_ret (hq_RequestID r)) w = (id, w0) /\
    w0 = w <| w_uid := w_uid w0 |> /\ (hq_RequestID r <> "" -> id = hq_RequestID r)).
  { destruct (String.eqb_spec (hq_RequestID r) "") as [E|E]; do 2 eexists; (split; [reflexivity|]); by destruct w. }
  destruct Hid as (id & w0 & -> & Hw0 & Hid). cbn [TraceID].
  set (w1 := w0 <| w_tick ::= S |>). unfold auth_handler. rewrite run_pbind.
  set (h1 := if String.eqb _ "" then _ else _).
  assert (Hh1 : h1 !! "Access-Control-Allow-Origin" = cors_header r /\ h1 !! "X-Request-ID" = Some id).
  { unfold h1. destruct (String.eqb _ ""); split; rewrite ?lookup_insert_ne, ?lookup_insert_eq by done; done. }
  clearbody h1. destruct Hh1 as [H1 H2].
  destruct (run (Middleware (ServeHTTP r) (auth_request r)) w1) as [a w2] eqn:Er. cbn [run rp_Headers rp_Answer].
  split; [done|]. split; [done|]. intros _. exists a, w1. split; [done|]. split; [unfold w1; rewrite Hw0; by destruct w|].
  split; [exact Er|]. split; [intros Hr; by rewrite H2, (Hid Hr)|]. intros Ht.
  destruct (unauthenticated_run r w1 Ht) as (a' & E' & Hp). rewrite Er in E'. by injection E' as -> ->.
Qed.

End Gate.
