(* ===== verification/ApiSpec.v ===== *)
(** * ApiSpec: who may do what through the API *)

From S2P Require Export ApiMcp.

Open Scope Z_scope.

Section ApiSpec.
Context `{RT : Runtime} `{JE : JevEnv} `{SE : Secrets} `{UP : UuidParse} `{NT : Net}.

(** The routes that decide, grant, rotate, revoke, reconcile, change policy or
    configure integrations. *)
Definition operator_only (rt : Route) : bool :=
  match rt with
  | RRegisterAgent _ | RDecideApproval _ _ | RCreateGrant _ | RRevokeGrant _
  | RRotateCredential _ | RRevokeCredential _ | RReconcile _ | RCreatePolicySet _
  | RActivatePolicySet _ | RRegisterMCPServer _ | RSetIntegrationCredential _ _
  | RSetHTTPDomains _ => true
  | _ => false
  end.

(** The agent a request acts as. *)
Definition acts_as (w : World) (id : option Identity) (rt : Route) : option string :=
  match rt with
  | RCreateTxn b => tb_AgentID <$> b
  | RProposeAction b => ab_AgentID <$> b
  | RMCPCall b => cb_AgentID <$> b
  | RSimulatePolicy b => sb_AgentID <$> b
  | RListGrants agentID => Some agentID
  | RCommitTxn txnID => t_AgentID <$> fst (GetTxn (orgOf id) txnID w)
  | _ => None
  end.

(** C28: separation of duties.  A caller that is not an operator gets 401 or
    403 from every administrative route, and any route in which it names
    another agent than itself refuses it with a client error; in both cases
    the world is exactly as before and no tool was called. *)
Theorem agents_cannot_overreach rt id w :
  callerIsOperator id = false ->
  (operator_only rt = true \/
   exists agent, acts_as w id rt = Some agent /\ agent <> callerAgentID id) ->
  exists code why msg, run (route rt id) w = (MkResponse code (BError why msg), w) /\
    (operator_only rt = true -> code = 401 \/ code = 403) /\ 400 <= code < 500.
Proof.
  intros Hop [Ho|(agent & Ha & Hne)].
  - destruct rt; try discriminate Ho; cbn [route];
      unfold handleRegisterAgent, handleDecideApproval, handleCreateGrant, handleRevokeGrant,
        handleRotateCredential, handleRevokeCredential, handleReconcile, handleCreatePolicySet,
        handleActivatePolicySet, handleRegisterMCPServer, handleSetIntegrationCredential,
        handleSetHTTPDomains; rewrite Hop; cbn [negb];
      try (eexists _, _, _; split; [reflexivity|]; split; [auto|lia]).
    destruct (String.eqb _ _); eexists _, _, _; (split; [reflexivity|]); (split; [auto|lia]).
  - assert (Hmis : agent_mismatch id agent = true).
    { unfold agent_mismatch. by rewrite Hop, (proj2 (String.eqb_neq _ _) Hne). }
    destruct rt; cbn [acts_as] in Ha; try discriminate Ha; cbn [route operator_only].
    + destruct b as [b|]; [|done]. cbn in Ha. injection Ha as Ha. unfold handleCreateTxn. rewrite Ha, Hmis.
      destruct (String.eqb _ _); [eexists _, _, _; split; [reflexivity|]; split; [done|lia]|].
      cbn [run]. unfold GetAgent, m_bind, get_store, m_ret.
      destruct (_ ≫= _); eexists _, _, _; (split; [reflexivity|]); (split; [done|lia]).
    + destruct b as [b|]; [|done]. cbn in Ha. injection Ha as Ha. unfold handleProposeAction.
      rewrite Ha, Hmis.
      destruct (_ || _); [eexists _, _, _; split; [reflexivity|]; split; [done|lia]|].
      destruct (String.eqb _ _); eexists _, _, _; (split; [reflexivity|]); (split; [done|lia]).
    + injection Ha as ->. unfold handleListGrants.
      unfold agent_mismatch in Hmis. apply andb_true_iff in Hmis as [-> ->]. rewrite orb_true_r.
      eexists _, _, _; split; [reflexivity|]; split; [done|lia].
    + destruct b as [b|]; [|done]. cbn in Ha. injection Ha as Ha. unfold handleSimulatePolicy.
      rewrite Ha, Hmis.
      destruct (String.eqb _ _); eexists _, _, _; (split; [reflexivity|]); (split; [done|lia]).
    + unfold handleCommitTxn. cbn [run]. unfold GetTxn, m_bind, get_store, m_ret in *. cbn in Ha.
      destruct (st_txns (w_store w) !! txnID ≫= _) as [t|] eqn:Et; [|done]. cbn in Ha.
      injection Ha as Ha. rewrite Ha, Hmis.
      eexists _, _, _; split; [reflexivity|]; split; [done|lia].
    + destruct b as [b|]; [|done]. cbn in Ha. injection Ha as Ha. unfold handleMCPCall.
      rewrite Ha, Hmis.
      destruct (_ || _); [eexists _, _, _; split; [reflexivity|]; split; [done|lia]|].
      destruct (String.eqb _ _); eexists _, _, _; (split; [reflexivity|]); (split; [done|lia]).
Qed.

End ApiSpec.
