(* ===== verification/Interleave.v ===== *)
(** * Interleave: concurrent requests and a rely-guarantee logic for them

    The server handles every request in its own goroutine.  A configuration
    is the list of programs in progress with the world; a step runs one
    critical section of one of them.  [wp] is the proof obligation of one
    program against any interference the others may cause: an invariant
    [inv], a relation [mono] every step of every program respects, and the
    ownership of at most one action cell in status "proposed", which only its
    owner writes. *)

From S2P Require Export ApiMcp.

Open Scope Z_scope.

(** ** The semantics *)

Abbreviation pool := (list (prog unit)).

Definition finish {W A} (p : program W A) : program W unit := let! _ := p in Ret tt.

Inductive pool_step {W} (client : program W unit -> Prop) (config : W -> W -> Prop)
  : list (program W unit) * W -> list (program W unit) * W -> Prop :=
  | step_spawn p ps w : client p -> pool_step client config (ps, w) (p :: ps, w)
  | step_run ps1 X (m : step W X) k ps2 w x w' :
      m w = (x, w') ->
      pool_step client config (ps1 ++ Atomic m k :: ps2, w) (ps1 ++ k x :: ps2, w')
  | step_config ps w w' : config w w' -> pool_step client config (ps, w) (ps, w').

(** A program run alone is one of the interleavings. *)
Lemma run_steps {W} client config ps1 ps2 (p : program W unit) (w : W) :
  rtc (pool_step client config) (ps1 ++ p :: ps2, w) (ps1 ++ Ret tt :: ps2, (run p w).2).
Proof.
  revert w. induction p as [[]|X m k IH]; intros w; cbn [run]; [constructor|].
  destruct (m w) as [x w'] eqn:Em. eapply rtc_l; [by apply step_run|]. apply IH.
Qed.

Lemma run_finish {A} (p : prog A) w : (run (finish p) w).2 = (run p w).2.
Proof. unfold finish. rewrite run_pbind. by destruct (run p w). Qed.

(** ** Ownership of a proposed cell *)

Definition own : Type := option TxnAction.

Definition own_id (O : own) : option string := a_ID <$> O.

(** The owned cell is in the store, exactly as its owner left it. *)
Definition holds (O : own) (w : World) : Prop :=
  match O with
  | None => True
  | Some a => st_actions (w_store w) !! a_ID a = Some a /\ a_Status a = StProposed
  end.

(** Proposed cells that are not owned are left alone. *)
Definition frame (O : own) (w w' : World) : Prop :=
  forall id a, own_id O <> Some id -> st_actions (w_store w) !! id = Some a ->
    a_Status a = StProposed -> st_actions (w_store w') !! id = Some a.

(** A step may keep its cell, give it up, or acquire one it created. *)
Definition transfer (O O' : own) (w : World) : Prop :=
  own_id O' = None \/ own_id O' = own_id O \/
  exists id, own_id O' = Some id /\ st_actions (w_store w) !! id = None.

Section Logic.
Context (inv : World -> Prop) (mono : World -> World -> Prop).
Context `{!PreOrder mono}.

Fixpoint wp {A} (p : prog A) (O : own) (w : World) (Q : A -> own -> World -> Prop) : Prop :=
  match p with
  | Ret a => Q a O w
  | Atomic m k =>
      forall w1, mono w w1 -> inv w1 -> holds O w1 ->
      let '(x, w2) := m w1 in
      inv w2 /\ mono w1 w2 /\ frame O w1 w2 /\
      exists O', holds O' w2 /\ transfer O O' w1 /\ wp (k x) O' w2 Q
  end.

Lemma wp_pbind {A B} (p : prog A) (f : A -> prog B) O w Q :
  wp p O w (fun a O' w' => wp (f a) O' w' Q) -> wp (pbind p f) O w Q.
Proof.
  revert O w. induction p as [a|X m k IH]; intros O w H; cbn [wp pbind] in *; [done|].
  intros w1 Hm Hi Ho. specialize (H w1 Hm Hi Ho). destruct (m w1) as [x w2].
  destruct H as (? & ? & ? & O' & ? & ? & Hk). eauto 10.
Qed.

Lemma wp_mono_post {A} (p : prog A) O w (Q Q' : A -> own -> World -> Prop) :
  (forall a O' w', Q a O' w' -> Q' a O' w') -> wp p O w Q -> wp p O w Q'.
Proof.
  intros HQ. revert O w. induction p as [a|X m k IH]; intros O w H; cbn [wp] in *; [auto|].
  intros w1 Hm Hi Ho. specialize (H w1 Hm Hi Ho). destruct (m w1) as [x w2].
  destruct H as (? & ? & ? & O' & ? & ? & Hk). eauto 10.
Qed.

(** A step that leaves every action cell and the invariant alone. *)
Definition benign {X} (m : M X) : Prop := forall w, inv w ->
  inv (m w).2 /\ mono w (m w).2 /\
  st_actions (w_store (m w).2) = st_actions (w_store w).

Lemma wp_benign {X A} (m : M X) (k : X -> prog A) O w Q :
  benign m ->
  (forall w1 x w2, m w1 = (x, w2) -> mono w w1 -> inv w1 -> inv w2 -> mono w w2 -> holds O w2 ->
     wp (k x) O w2 Q) ->
  wp (Atomic m k) O w Q.
Proof.
  intros Hb Hk. cbn [wp]. intros w1 Hm Hi Ho.
  destruct (Hb w1 Hi) as (Hi2 & Hm2 & Ha). destruct (m w1) as [x w2] eqn:Em. cbn in *.
  assert (Ho2 : holds O w2) by (destruct O as [a|]; [cbn; by rewrite Ha|done]).
  split; [done|]. split; [done|]. split; [intros id a _ Hid _; by rewrite Ha|].
  exists O. split; [done|]. split; [right; by left|].
  eapply (Hk w1); try done. by transitivity w1.
Qed.

(** A read: the world does not change. *)
Lemma wp_read {X A} (m : M X) (k : X -> prog A) O w Q :
  (forall w1, (m w1).2 = w1) ->
  (forall w1 x, m w1 = (x, w1) -> inv w1 -> mono w w1 -> holds O w1 -> wp (k x) O w1 Q) ->
  wp (Atomic m k) O w Q.
Proof.
  intros Hr Hk. apply wp_benign.
  - intros w1 Hi. rewrite Hr. split; [done|]. split; [reflexivity|done].
  - intros w1 x w2 Em Hm Hi _ _ Ho. specialize (Hr w1). rewrite Em in Hr. cbn in Hr. subst w2.
    by eapply Hk.
Qed.

(** A loop whose every round keeps a stable fact. *)
Lemma wp_for_each {A S} (body : A -> S -> prog S) (l : list A) (P : World -> Prop) s O w
    (Q : S -> own -> World -> Prop) :
  (forall x s w, x ∈ l -> P w -> wp (body x s) O w (fun _ O' w' => O' = O /\ P w')) ->
  P w -> (forall s w, P w -> Q s O w) -> wp (for_each body l s) O w Q.
Proof.
  intros Hbody HP HQ. revert s w HP. induction l as [|x l IH]; intros s w HP; cbn [for_each].
  { by apply HQ. }
  apply wp_pbind. eapply wp_mono_post; [|apply Hbody; [by left|done]].
  cbn. intros s' O' w' [-> HP']. apply IH; [|done].
  intros y s'' w'' Hy. apply Hbody. by right.
Qed.

(** ** Soundness *)

(** One program of a pool: it holds its cell now, and met its obligation at
    some earlier world. *)
Definition thread_ok (w : World) (p : prog unit) (O : own) : Prop :=
  holds O w /\ exists w0, mono w0 w /\ wp p O w0 (fun _ _ _ => True).

(** Ownership is exclusive. *)
Definition disjoint_own (Os : list own) : Prop := forall i j a b,
  Os !! i = Some (Some a) -> Os !! j = Some (Some b) -> a_ID a = a_ID b -> i = j.

Definition pool_ok (c : pool * World) : Prop :=
  inv c.2 /\ exists Os, Forall2 (thread_ok c.2) c.1 Os /\ disjoint_own Os.

Lemma holds_frame O O1 w w' :
  holds O w -> (forall id, own_id O = Some id -> own_id O1 <> Some id) ->
  frame O1 w w' -> holds O w'.
Proof.
  destruct O as [a|]; [|done]. intros [Hc Hs] Hd Hf. split; [|done].
  eapply Hf; try done. by apply Hd.
Qed.

Lemma thread_ok_step O1 w w' p O :
  mono w w' -> frame O1 w w' ->
  (forall id, own_id O = Some id -> own_id O1 <> Some id) ->
  thread_ok w p O -> thread_ok w' p O.
Proof.
  intros Hm Hf Hd [Hh (w0 & Hm0 & Hwp)]. split; [by eapply holds_frame|].
  exists w0. split; [by transitivity w|done].
Qed.

Lemma disjoint_own_insert Os1 Os2 O O' :
  disjoint_own (Os1 ++ O :: Os2) ->
  (forall a, O' = Some a -> own_id O = Some (a_ID a) \/
     forall b, Some b ∈ Os1 ++ Os2 -> a_ID b <> a_ID a) ->
  disjoint_own (Os1 ++ O' :: Os2).
Proof.
  intros Hd HO i j a b Hi Hj Hab.
  assert (Hne : forall k c, k <> length Os1 -> (Os1 ++ O' :: Os2) !! k = Some (Some c) ->
    (Os1 ++ O :: Os2) !! k = Some (Some c) /\ Some c ∈ Os1 ++ Os2).
  { intros k c Hk Hc. destruct (decide (k < length Os1)%nat).
    - rewrite lookup_app_l in Hc by done. rewrite lookup_app_l by done. split; [done|].
      apply elem_of_app. left. by eapply list_elem_of_lookup_2.
    - assert (length Os1 <= k)%nat by lia. rewrite (lookup_app_r Os1 _ k) in Hc by assumption. rewrite (lookup_app_r Os1 _ k) by assumption.
      destruct (k - length Os1)%nat as [|m] eqn:Em; [lia|]. cbn in *. split; [done|].
      apply elem_of_app. right. by eapply list_elem_of_lookup_2. }
  assert (Hat : forall c, (Os1 ++ O' :: Os2) !! length Os1 = Some (Some c) -> O' = Some c).
  { intros c Hc. rewrite lookup_app_r, Nat.sub_diag in Hc by done. by injection Hc. }
  assert (Hold : forall a', own_id O = Some (a_ID a') -> exists o, O = Some o /\ a_ID o = a_ID a').
  { destruct O as [o|]; [|done]. intros a' Ho. injection Ho as Ho. eauto. }
  assert (Hmid : (Os1 ++ O :: Os2) !! length Os1 = Some O)
    by (by rewrite lookup_app_r, Nat.sub_diag by done).
  destruct (decide (i = length Os1)) as [->|Hi'], (decide (j = length Os1)) as [->|Hj']; [done| | |].
  - apply Hat in Hi. destruct (Hne j b Hj' Hj) as [Hj2 Hin].
    destruct (HO a Hi) as [Ho|Hall]; [|by destruct (Hall b Hin)].
    destruct (Hold a Ho) as (o & -> & Hoid). eapply (Hd _ _ o b); [done|done|congruence].
  - apply Hat in Hj. destruct (Hne i a Hi' Hi) as [Hi2 Hin].
    destruct (HO b Hj) as [Ho|Hall]; [|by destruct (Hall a Hin)].
    destruct (Hold b Ho) as (o & -> & Hoid). eapply (Hd _ _ a o); [done|done|congruence].
  - destruct (Hne i a Hi' Hi) as [Hi2 _], (Hne j b Hj' Hj) as [Hj2 _]. by eapply Hd.
Qed.

Lemma disjoint_own_middle Os1 Os2 O b :
  disjoint_own (Os1 ++ O :: Os2) -> Some b ∈ Os1 ++ Os2 -> own_id O <> Some (a_ID b).
Proof.
  intros Hd Hb. destruct O as [o|]; [|done]. cbn. intros Heq. injection Heq as Heq.
  assert (Hmid : (Os1 ++ Some o :: Os2) !! length Os1 = Some (Some o))
    by (by rewrite lookup_app_r, Nat.sub_diag by done).
  apply elem_of_app in Hb as [Hb|Hb]; apply list_elem_of_lookup in Hb as [i Hi].
  - assert (Hl : (i < length Os1)%nat) by (by eapply lookup_lt_Some).
    assert (i = length Os1) as ->; [|lia].
    eapply (Hd _ _ b o); [by rewrite lookup_app_l by done|done|done].
  - assert (length Os1 + S i = length Os1)%nat; [|lia].
    eapply (Hd _ _ b o); [|done|done].
    assert (Hle : (length Os1 <= length Os1 + S i)%nat) by lia.
    rewrite (lookup_app_r Os1 _ _ Hle).
    by replace (length Os1 + S i - length Os1)%nat with (S i) by lia.
Qed.

Lemma threads_ok_step O1 w w' ps Os :
  mono w w' -> frame O1 w w' ->
  (forall b, Some b ∈ Os -> own_id O1 <> Some (a_ID b)) ->
  Forall2 (thread_ok w) ps Os -> Forall2 (thread_ok w') ps Os.
Proof.
  intros Hm Hf Hd Hall. apply Forall2_same_length_lookup. split.
  { by eapply Forall2_length. }
  intros i p O Hp HO. eapply (thread_ok_step O1 w); try done.
  - intros id Hid. destruct O as [b|]; [|done]. injection Hid as <-.
    apply Hd. by eapply list_elem_of_lookup_2.
  - by eapply Forall2_lookup_lr.
Qed.

Lemma threads_hold w ps Os b :
  Forall2 (thread_ok w) ps Os -> Some b ∈ Os ->
  st_actions (w_store w) !! a_ID b = Some b.
Proof.
  intros Hall Hb. apply list_elem_of_lookup in Hb as [i Hi].
  destruct (Forall2_lookup_r _ _ _ _ _ Hall Hi) as (p & _ & Hh & _). apply Hh.
Qed.

Lemma pool_step_ok client config c c' :
  (forall p, client p -> forall w, wp p None w (fun _ _ _ => True)) ->
  (forall w w', config w w' -> inv w ->
     inv w' /\ mono w w' /\ st_actions (w_store w') = st_actions (w_store w)) ->
  pool_step client config c c' -> pool_ok c -> pool_ok c' /\ mono c.2 c'.2.
Proof.
  intros Hclient Hconfig Hstep [Hi (Os & Hall & Hd)]. cbn in *.
  destruct Hstep as [p ps w Hp|ps1 X m k ps2 w x w' Em|ps w w' Hc]; cbn in *.
  - split; [|reflexivity]. split; [done|]. exists (None :: Os). split.
    + constructor; [|done]. split; [done|]. exists w. split; [reflexivity|by apply Hclient].
    + intros [|i] [|j] a b Ha Hb Hab; cbn in *; [done..|].
      f_equal. by eapply Hd.
  - apply Forall2_app_inv_l in Hall as (Os1 & Os2' & H1 & H2 & ->).
    apply Forall2_cons_inv_l in H2 as (O & Os2 & [Hh (w0 & Hm0 & Hwp)] & H2 & ->).
    cbn [wp] in Hwp. specialize (Hwp w Hm0 Hi Hh). rewrite Em in Hwp.
    destruct Hwp as (Hi' & Hm & Hf & O' & Hh' & Ht & Hk). split; [|done]. split; [done|].
    assert (Hmid : forall b, Some b ∈ Os1 ++ Os2 -> own_id O <> Some (a_ID b))
      by (intros; by eapply disjoint_own_middle).
    exists (Os1 ++ O' :: Os2). split.
    + apply Forall2_app; [|constructor].
      * eapply threads_ok_step; [done|done| |done]. intros b Hb. apply Hmid, elem_of_app. auto.
      * split; [done|]. exists w'. split; [reflexivity|done].
      * eapply threads_ok_step; [done|done| |done]. intros b Hb. apply Hmid, elem_of_app. auto.
    + eapply disjoint_own_insert; [done|]. intros a ->.
      destruct Ht as [Ht|[Ht|(id & Ht & Hfresh)]]; [discriminate Ht|left; symmetry; exact Ht|].
      right. injection Ht as <-. intros b Hb Heq.
      assert (Hbs : st_actions (w_store w) !! a_ID b = Some b).
      { apply elem_of_app in Hb as [Hb|Hb];
          [exact (threads_hold _ _ _ _ H1 Hb)|exact (threads_hold _ _ _ _ H2 Hb)]. }
      rewrite Heq, Hfresh in Hbs. done.
  - destruct (Hconfig w w' Hc Hi) as (Hi' & Hm & Ha). split; [|done]. split; [done|]. exists Os.
    split; [|done]. eapply (threads_ok_step None w); [done| |done|done].
    intros id a _ Hid _. cbn. by rewrite Ha.
Qed.

Lemma pool_reachable_ok client config c c' :
  (forall p, client p -> forall w, wp p None w (fun _ _ _ => True)) ->
  (forall w w', config w w' -> inv w ->
     inv w' /\ mono w w' /\ st_actions (w_store w') = st_actions (w_store w)) ->
  rtc (pool_step client config) c c' -> pool_ok c -> pool_ok c' /\ mono c.2 c'.2.
Proof.
  intros Hcl Hco Hr. induction Hr as [c|c1 c2 c3 Hs _ IH]; intros Hok; [by split|].
  destruct (pool_step_ok client config c1 c2 Hcl Hco Hs Hok) as [Hok2 Hm].
  destruct (IH Hok2) as [Hok3 Hm3]. split; [done|]. by transitivity c2.2.
Qed.

Lemma pool_ok_empty w : inv w -> pool_ok ([], w).
Proof.
  intros Hi. split; [done|]. exists []. split; [constructor|].
  intros i j a b Ha. by rewrite lookup_nil in Ha.
Qed.

End Logic.
