(* ===== verification/PgChain.v ===== *)
(** * PgChain: the receipt chain of the Postgres store

    PGStore orders the receipts of an organization by the time of insertion.
    Appended one after another they form a chain that verifies; two appends
    that overlap do not, because the advisory lock of AppendReceipt is
    released before the last hash is read; and VerifyChain reports an intact
    chain whenever it cannot read it. *)

From S2P Require Export ArchiveModel Interleave PgSim.

Open Scope Z_scope.

(** A condition of a run, not a law of the server: each statement reads a
    later now() than the statements before it.  Two that read the same
    microsecond, or a clock that is set back, are excluded. *)
Class StatementsApart `{PE : PgEnv} : Prop :=
  db_now_increases : forall n m, (n < m)%nat -> db_now n < db_now m.

Section Chain.
Context `{RT : Runtime}.

Lemma chain_loop_linked rs prev idx : 0 <= idx -> chain_loop rs prev idx = -1 <-> linked prev rs.
Proof.
  revert prev idx. induction rs as [|r rs IH]; intros prev idx Hi; cbn [chain_loop linked]; [done|].
  destruct (String.eqb_spec (r_PrevHash r) prev) as [Hp|Hp]; cbn [negb orb].
  2: { split; [lia|]. by intros [? _]. }
  destruct (String.eqb_spec (r_Hash r) (ChainHash prev (receipt_payload r))) as [Hh|Hh]; cbn [negb].
  - rewrite IH by lia. tauto.
  - split; [lia|]. by intros (_ & ? & _).
Qed.

End Chain.

Section PgChain.
Context `{RL : RuntimeLaws} `{PE : PgEnv} `{PL : !PgLaws} `{UD : !Undisturbed} `{PC : !StatementsApart}.

(** ** The rows of one organization *)

Lemma rows_fmap {R} (f : R -> R) (m : gmap string R) : rows (f <$> m) = f <$> rows m.
Proof. apply values_fmap. Qed.

Definition of_org (org : string) (r : ReceiptRow) : bool := String.eqb (r_OrgID (rr_receipt r)) org.

(** The chain of an organization, in the order of insertion. *)
Record chain_at (s : Pg) (org : string) (l : list ReceiptRow) : Prop := {
  ca_rows : l ≡ₚ org_receipts (pg_db s) org;
  ca_sorted : StronglySorted (fun x y => rr_created_at x < rr_created_at y) l;
  ca_linked : linked "" (rr_receipt <$> l);
  ca_past : forall x, x ∈ l -> exists n, (n < pg_tick s)%nat /\ rr_created_at x = db_now n }.

Definition chain_inv (s : Pg) : Prop :=
  (forall org, exists l, chain_at s org l) /\
  (forall id row, db_receipts (pg_db s) !! id = Some row -> r_ID (rr_receipt row) = id).

Lemma sorted_NoDup {A} (key : A -> Z) (l : list A) :
  StronglySorted (fun x y => key x < key y) l -> NoDup (key <$> l).
Proof.
  induction 1 as [|x l _ IH Hall]; [constructor|]. rewrite fmap_cons. constructor; [|done].
  intros Hin. apply list_elem_of_fmap in Hin as (y & E & Hy). rewrite Forall_forall in Hall.
  specialize (Hall y Hy). cbn in Hall. lia.
Qed.

(** The server returns the rows in the order of the chain. *)
Lemma order_chain {A} n le (key : A -> Z) (l l' : list A) :
  (forall x y, key x < key y -> le x y = true /\ le y x = false) ->
  StronglySorted (fun x y => key x < key y) l -> l ≡ₚ l' -> order_rows n le l' = l.
Proof.
  intros Hle Hs Hp. apply (StronglySorted_unique_strong (fun x y => key x < key y)).
  - intros x y _ _ H1 H2. lia.
  - apply order_sorted; [done|]. rewrite <- Hp. by apply sorted_NoDup.
  - done.
  - by rewrite order_perm.
Qed.

Lemma receipt_order_key x y : rr_created_at x < rr_created_at y ->
  receipt_order x y = true /\ receipt_order y x = false.
Proof.
  intros H. unfold receipt_order. rewrite (proj2 (Z.ltb_lt _ _) H), (proj2 (Z.ltb_ge _ _)) by lia.
  by rewrite (proj2 (Z.eqb_neq (rr_created_at y) (rr_created_at x))) by lia.
Qed.

Lemma sorted_reverse {A} (key : A -> Z) (l : list A) :
  StronglySorted (fun x y => key x < key y) l -> StronglySorted (fun x y => - key x < - key y) (reverse l).
Proof.
  induction 1 as [|x l _ IH Hall]; [constructor|]. rewrite reverse_cons.
  revert IH Hall. generalize (reverse l), (reverse_Permutation l). intros k Hk IH Hall.
  rewrite Forall_forall in Hall.
  assert (Hx : forall y, y ∈ k -> key x < key y) by (intros y Hy; apply Hall; by rewrite <- Hk).
  clear Hall Hk. induction IH as [|y k _ IH Hall]; cbn; [repeat constructor|].
  constructor; [apply IH; intros z Hz; apply Hx; by right|]. apply Forall_app. split; [done|].
  constructor; [|constructor]. specialize (Hx y ltac:(by left)). lia.
Qed.

Lemma last_hash_run s org org' l :
  uuid_param org = Some org' -> chain_at s org' l ->
  query_row (last_hash org) s = (r_Hash <$> last (rr_receipt <$> l), s <| pg_tick ::= S |>).
Proof.
  intros Ho [Hr Hs _ _]. erewrite query_row_ok.
  2: { unfold last_hash, q_bind, q_uuid, q_db, q_order, q_ret. rewrite Ho. cbn [mbind option_bind].
       rewrite (order_chain (pg_tick s) (fun r r' => receipt_order r' r) (fun x => - rr_created_at x) (reverse l)); [reflexivity| | |].
       - intros x y H. apply receipt_order_key. lia.
       - by apply sorted_reverse.
       - by rewrite reverse_Permutation. }
  replace (s <| pg_tick ::= S |> <| pg_db := pg_db s |>) with (s <| pg_tick ::= S |>) by by destruct s.
  f_equal. clear. destruct l as [|x l] using rev_ind; [done|].
  rewrite reverse_snoc, fmap_app. cbn. by rewrite last_snoc.
Qed.

(** VerifyChain reads the chain. *)
Lemma verify_run s org l : canonical org -> chain_at s org l -> (run (VerifyChain org) s).1 = -1.
Proof.
  intros Hc [Hr Hs Hl _]. unfold VerifyChain. erewrite run_atomic'.
  2: { apply query_ok. rewrite bind_uuid by done. rewrite bind_db. unfold q_order.
       by rewrite (order_chain (pg_tick s) receipt_order rr_created_at l) by (try done; apply receipt_order_key). }
  cbn [run fst]. by apply chain_loop_linked.
Qed.

(** ** Appending and signing *)

(** What a step does to the chain of an organization. *)
Lemma chain_at_mono s s' org l :
  db_receipts (pg_db s') = db_receipts (pg_db s) -> (pg_tick s <= pg_tick s')%nat -> chain_at s org l -> chain_at s' org l.
Proof.
  intros Hr Ht [H1 H2 H3 H4]. split; try done.
  - unfold org_receipts. by rewrite Hr.
  - intros x Hx. destruct (H4 x Hx) as (n & Hn & E). exists n. split; [lia|done].
Qed.

Lemma chain_inv_mono s s' :
  db_receipts (pg_db s') = db_receipts (pg_db s) -> (pg_tick s <= pg_tick s')%nat -> chain_inv s -> chain_inv s'.
Proof.
  intros Hr Ht [Hc Hk]. split; [|by rewrite Hr]. intros org. destruct (Hc org) as (l & [H1 H2 H3 H4]).
  exists l. split; try done.
  - unfold org_receipts. by rewrite Hr.
  - intros x Hx. destruct (H4 x Hx) as (n & Hn & E). exists n. split; [lia|done].
Qed.

(** The state after a row is added. *)
Definition with_row (id : string) (row : ReceiptRow) (s : Pg) : Pg :=
  s <| pg_tick ::= S |> <| pg_db := (pg_db s) <| db_receipts ::= <[ id := row ]> |> |>.

Lemma org_receipts_row id row s org : db_receipts (pg_db s) !! id = None ->
  org_receipts (pg_db (with_row id row s)) org ≡ₚ
    if of_org org row then row :: org_receipts (pg_db s) org else org_receipts (pg_db s) org.
Proof. intros Hf. unfold org_receipts. cbn. rewrite (filter_bool_perm _ _ _ (rows_insert _ id row Hf)). done. Qed.

(** It is at the end of its chain, and in no other. *)
Lemma chain_at_append s org l id row :
  chain_at s org l -> db_receipts (pg_db s) !! id = None ->
  r_OrgID (rr_receipt row) = org -> rr_created_at row = db_now (pg_tick s) ->
  r_PrevHash (rr_receipt row) = end_hash "" (rr_receipt <$> l) ->
  r_Hash (rr_receipt row) = ChainHash (end_hash "" (rr_receipt <$> l)) (receipt_payload (rr_receipt row)) ->
  chain_at (with_row id row s) org (l ++ [row]).
Proof.
  intros [H1 H2 H3 H4] Hf Ho Ht Hp Hh. split.
  - rewrite org_receipts_row by done. unfold of_org. rewrite Ho, string_eqb_refl, H1. symmetry. apply Permutation_cons_append.
  - apply StronglySorted_app_2; [|done|repeat constructor]. intros x y Hx Hy.
    apply list_elem_of_singleton in Hy as ->. destruct (H4 x Hx) as (n & Hn & ->). rewrite Ht.
    by apply db_now_increases.
  - rewrite fmap_app. apply linked_snoc. done.
  - intros x Hx. apply elem_of_app in Hx as [Hx|Hx].
    + destruct (H4 x Hx) as (n & Hn & E). exists n. cbn. split; [lia|done].
    + apply list_elem_of_singleton in Hx as ->. exists (pg_tick s). cbn. split; [lia|done].
Qed.

Lemma chain_at_other s org l id row :
  chain_at s org l -> db_receipts (pg_db s) !! id = None -> r_OrgID (rr_receipt row) <> org ->
  chain_at (with_row id row s) org l.
Proof.
  intros [H1 H2 H3 H4] Hf Hne. split; try done.
  - rewrite org_receipts_row by done. unfold of_org. by rewrite (proj2 (String.eqb_neq _ _) Hne).
  - intros x Hx. destruct (H4 x Hx) as (n & Hn & E). exists n. cbn. split; [lia|done].
Qed.

(** A new row extends the chain of its organization. *)
Lemma chain_inv_append s l0 org id row :
  chain_inv s -> chain_at s org l0 -> db_receipts (pg_db s) !! id = None ->
  r_ID (rr_receipt row) = id -> r_OrgID (rr_receipt row) = org -> rr_created_at row = db_now (pg_tick s) ->
  r_PrevHash (rr_receipt row) = end_hash "" (rr_receipt <$> l0) ->
  r_Hash (rr_receipt row) = ChainHash (end_hash "" (rr_receipt <$> l0)) (receipt_payload (rr_receipt row)) ->
  chain_inv (with_row id row s).
Proof.
  intros [Hc Hk] H0 Hf Hid Ho Ht Hp Hh. split.
  2: { intros i x Hx. cbn in Hx. apply lookup_insert_Some in Hx as [[<- <-]|[_ Hx]]; [done|by apply Hk]. }
  intros org'. destruct (decide (org = org')) as [<-|Hne].
  - exists (l0 ++ [row]). by apply chain_at_append.
  - destruct (Hc org') as (l & Hl). exists l. apply chain_at_other; [done|done|congruence].
Qed.

(** The references a receipt hashes are stored the way it spells them. *)
Definition stored_as_spelled (r : Receipt) : Prop :=
  (forall t, uuid_param (r_TransactionID r) = Some t -> t = r_TransactionID r) /\
  optUUID (r_ActionID r) = r_ActionID r.

Definition built_receipt (id prev : string) (r : Receipt) : Receipt :=
  let r := r <| r_ID := id |> <| r_PrevHash := prev |>
             <| r_StartedAt := micro (r_StartedAt r) |> <| r_CompletedAt := micro (r_CompletedAt r) |> in
  r <| r_Hash := ChainHash (r_PrevHash r) (receipt_payload r) |>.

Lemma insert_receipt_spec r n db org :
  uuid_param (r_OrgID r) = Some org -> canonical (r_ID r) ->
  insert_receipt r n db = None \/
  exists txn agent principal,
    uuid_param (r_TransactionID r) = Some txn /\ db_receipts db !! r_ID r = None /\
    insert_receipt r n db = Some (tt, db <| db_receipts ::= <[ r_ID r :=
      MkReceiptRow (MkReceipt (r_ID r) org txn (optUUID (r_ActionID r)) agent principal (r_Tool r) (r_Action r)
               (r_ArgumentsHash r) (r_Decision r) (r_ResultHash r) (r_FinancialCents r)
               (r_Compensation r) (r_PrevHash r) (r_Hash r) "" "" (r_PolicyVersion r)
               (micro (r_StartedAt r)) (micro (r_CompletedAt r))) (db_now n) ]> |>).
Proof.
  intros Ho [Hc _]. destruct (uuid_param (r_TransactionID r)) as [txn|] eqn:Et.
  2: { left. unfold insert_receipt, q_bind, q_uuid. by rewrite Hc, Ho, Et. }
  destruct (has (db_organizations db) org && has (db_transactions db) txn &&
            has_opt (db_actions db) (optUUID (r_ActionID r)) && has_opt (db_agents db) (optUUID (r_AgentID r)) &&
            has_opt (db_principals db) (optUUID (r_PrincipalID r)) && fresh (db_receipts db) (r_ID r)) eqn:Eg.
  - right. exists txn, (optUUID (r_AgentID r)), (optUUID (r_PrincipalID r)). split; [done|]. split.
    + apply andb_true_iff in Eg as [_ Eg]. by apply fresh_true.
    + unfold insert_receipt, q_bind, q_uuid, q_db, q_guard, q_now. rewrite Hc, Ho, Et.
      cbn [mbind option_bind]. by rewrite Eg.
  - left. unfold insert_receipt, q_bind, q_uuid, q_db, q_guard. rewrite Hc, Ho, Et.
    cbn [mbind option_bind]. by rewrite Eg.
Qed.

Lemma insert_receipt_refused r n db :
  uuid_param (r_OrgID r) = None -> canonical (r_ID r) -> insert_receipt r n db = None.
Proof. intros Ho [Hc _]. unfold insert_receipt, q_bind, q_uuid. by rewrite Hc, Ho. Qed.

Lemma append_chain r s : stored_as_spelled r -> chain_inv s -> chain_inv (run (AppendReceipt r) s).2.
Proof.
  intros [Ht Ha] Hinv. unfold AppendReceipt.
  erewrite run_atomic'; [|by apply query_row_ok]. set (s1 := s <| pg_tick ::= S |> <| pg_db := pg_db s |>).
  assert (Hinv1 : chain_inv s1) by (apply (chain_inv_mono s); cbn; [done|lia|done]).
  clearbody s1. clear s Hinv.
  destruct (uuid_param (r_OrgID r)) as [org|] eqn:Eo.
  - destruct Hinv1 as [Hc Hk] eqn:E. clear E. destruct (Hc org) as (l & Hl).
    rewrite (run_atomic' _ _ _ _ _ (last_hash_run s1 _ org l Eo Hl)). erewrite run_atomic'; [|reflexivity].
    change (default "" _) with (end_hash "" (rr_receipt <$> l)).
    set (prev := end_hash "" (rr_receipt <$> l)). set (id := uuid (pg_uid s1)).
    change (_ <| r_Hash := _ |>) with (built_receipt id prev r).
    set (s2 := s1 <| pg_tick ::= S |> <| pg_uid ::= S |>).
    assert (Hinv2 : chain_inv s2) by (apply (chain_inv_mono s1); cbn; [done|lia|by split]).
    assert (Hl2 : chain_at s2 org l).
    { destruct Hl as [H1 H2 H3 H4]. split; try done. intros x Hx. destruct (H4 x Hx) as (n & Hn & Ex).
      exists n. cbn. split; [lia|done]. }
    change (s1 <| pg_tick ::= S |> <| pg_uid ::= S |>) with s2. clearbody s2.
    destruct (insert_receipt_spec (built_receipt id prev r) (pg_tick s2) (pg_db s2) org Eo (uuid_canonical _))
      as [Hn|(txn & agent & principal & Etxn & Hfresh & Hn)].
    + assert (Hx : exec (insert_receipt (built_receipt id prev r)) s2 = (inr (violation (pg_tick s2)), s2 <| pg_tick ::= S |>)).
      { unfold exec. rewrite no_refusal. cbn -[insert_receipt built_receipt]. by rewrite Hn. }
      rewrite (run_atomic' _ _ _ _ _ Hx). apply (chain_inv_mono s2); cbn; [done|lia|done].
    + rewrite (run_atomic' _ _ _ _ _ (exec_ok _ _ _ _ Hn)). cbn [run snd].
      apply (chain_inv_append s2 l org id); [exact Hinv2|exact Hl2|exact Hfresh|reflexivity..|].
      cbn. rewrite Ha. cbn in Etxn. rewrite (Ht _ Etxn). unfold prev. f_equal. unfold receipt_payload. cbn.
      by rewrite !micro_idem.
  - assert (Hx : query_row (last_hash (r_OrgID r)) s1 = (None, s1 <| pg_tick ::= S |>)).
    { unfold query_row, exec, last_hash, q_bind, q_uuid. by rewrite no_refusal, Eo. }
    rewrite (run_atomic' _ _ _ _ _ Hx). erewrite run_atomic'; [|reflexivity].
    change (_ <| r_Hash := _ |>) with (built_receipt (uuid (pg_uid s1)) "" r).
    assert (Hy : forall s2, exec (insert_receipt (built_receipt (uuid (pg_uid s1)) "" r)) s2 =
      (inr (violation (pg_tick s2)), s2 <| pg_tick ::= S |>)).
    { intros s2. unfold exec. rewrite no_refusal, insert_receipt_refused; [done|exact Eo|apply uuid_canonical]. }
    rewrite (run_atomic' _ _ _ _ _ (Hy _)). apply (chain_inv_mono s1); cbn; [done|lia|done].
Qed.

Lemma filter_fmap_bool {A} (f : A -> bool) (g : A -> A) l :
  (forall x, f (g x) = f x) -> List.filter f (g <$> l) = g <$> List.filter f l.
Proof.
  intros Hg. induction l as [|x l IH]; [done|]. rewrite fmap_cons. cbn [List.filter]. rewrite Hg, IH.
  by destruct (f x).
Qed.

Lemma sorted_fmap {A} (key : A -> Z) (g : A -> A) l : (forall x, key (g x) = key x) ->
  StronglySorted (fun x y => key x < key y) l -> StronglySorted (fun x y => key x < key y) (g <$> l).
Proof.
  intros Hg. induction 1 as [|x l _ IH Hall]; [constructor|]. rewrite fmap_cons. constructor; [done|].
  apply Forall_fmap. eapply Forall_impl; [exact Hall|]. intros y Hy. cbn. by rewrite !Hg.
Qed.

(** What signing does to a row. *)
Definition sign_row (org id : string) (r : Receipt) (row : ReceiptRow) : ReceiptRow :=
  if String.eqb (r_ID (rr_receipt row)) id && String.eqb (r_OrgID (rr_receipt row)) org
  then MkReceiptRow ((rr_receipt row) <| r_KeyID := r_KeyID r |> <| r_Signature := r_Signature r |>)
         (rr_created_at row)
  else row.

Lemma sign_row_same org id r row :
  rr_created_at (sign_row org id r row) = rr_created_at row /\
  r_ID (rr_receipt (sign_row org id r row)) = r_ID (rr_receipt row) /\
  r_OrgID (rr_receipt (sign_row org id r row)) = r_OrgID (rr_receipt row).
Proof. unfold sign_row. by destruct (_ && _). Qed.

Definition with_signature (org id : string) (r : Receipt) (s : Pg) : Pg :=
  s <| pg_db := (pg_db s) <| db_receipts ::= fmap (sign_row org id r) |> |>.

Lemma chain_at_signed s o l org id r :
  chain_at s o l -> chain_at (with_signature org id r s) o (sign_row org id r <$> l).
Proof.
  intros [H1 H2 H3 H4]. split.
  - unfold org_receipts. cbn. rewrite rows_fmap, filter_fmap_bool.
    + by rewrite H1.
    + intros x. by destruct (sign_row_same org id r x) as (_ & _ & ->).
  - apply sorted_fmap; [|done]. intros x. by destruct (sign_row_same org id r x) as (-> & _).
  - set (g := fun x : Receipt => if String.eqb (r_ID x) id && String.eqb (r_OrgID x) org
        then x <| r_KeyID := r_KeyID r |> <| r_Signature := r_Signature r |> else x).
    replace (rr_receipt <$> (sign_row org id r <$> l)) with (g <$> (rr_receipt <$> l)).
    + apply linked_signed; [|done]. intros x. unfold g. by destruct (_ && _).
    + rewrite <- !list_fmap_compose. apply list_fmap_ext. intros i x _. unfold g, sign_row. cbn.
      by destruct (_ && _).
  - intros x Hx. apply list_elem_of_fmap in Hx as (y & -> & Hy). destruct (H4 y Hy) as (n & Hn & E).
    exists n. split; [done|]. by destruct (sign_row_same org id r y) as (-> & _).
Qed.

Lemma signed_keys s org id r :
  (forall i row, db_receipts (pg_db s) !! i = Some row -> r_ID (rr_receipt row) = i) ->
  forall i row, db_receipts (pg_db (with_signature org id r s)) !! i = Some row -> r_ID (rr_receipt row) = i.
Proof.
  intros Hk i row Hr. cbn in Hr. rewrite lookup_fmap in Hr.
  destruct (db_receipts (pg_db s) !! i) as [row0|] eqn:E; [|done]. injection Hr as <-.
  destruct (sign_row_same org id r row0) as (_ & -> & _). by apply Hk.
Qed.

Lemma chain_inv_signed s org id r : chain_inv s -> chain_inv (with_signature org id r s).
Proof.
  intros [Hc Hk]. split; [|by apply signed_keys]. intros o. destruct (Hc o) as (l & Hl).
  exists (sign_row org id r <$> l). by apply chain_at_signed.
Qed.

(** The UPDATE of UpdateReceipt. *)
Lemma alter_signs org id r (m : gmap string ReceiptRow) :
  (forall i row, m !! i = Some row -> r_ID (rr_receipt row) = i) ->
  alter (fun row => if String.eqb (r_OrgID (rr_receipt row)) org
    then MkReceiptRow ((rr_receipt row) <| r_KeyID := r_KeyID r |> <| r_Signature := r_Signature r |>) (rr_created_at row)
    else row) id m = sign_row org id r <$> m.
Proof.
  intros Hk. apply map_eq. intros i. rewrite lookup_fmap. destruct (decide (id = i)) as [<-|Hne].
  - rewrite lookup_alter_eq. destruct (m !! id) as [row|] eqn:E; [|done]. cbn. f_equal.
    unfold sign_row. by rewrite (Hk _ _ E), string_eqb_refl.
  - rewrite lookup_alter_ne by done. destruct (m !! i) as [row|] eqn:E; [|done]. cbn. f_equal.
    unfold sign_row. by rewrite (Hk _ _ E), (proj2 (String.eqb_neq i id)) by done.
Qed.

Lemma sign_chain r s : chain_inv s -> chain_inv (run (UpdateReceipt r) s).2.
Proof.
  intros Hinv. pose proof Hinv as [_ Hk]. unfold UpdateReceipt. set (q := q_bind _ _).
  assert (Hq : q (pg_tick s) (pg_db s) = None \/ exists org id,
    q (pg_tick s) (pg_db s) = Some (tt, (pg_db s) <| db_receipts ::= fmap (sign_row org id r) |>)).
  { unfold q, q_bind, q_uuid. destruct (uuid_param (r_OrgID r)) as [org|]; [|by left].
    cbn [mbind option_bind]. destruct (uuid_param (r_ID r)) as [id|]; [|by left].
    right. exists org, id.
    exact (f_equal (fun m => Some (tt, (pg_db s) <| db_receipts := m |>)) (alter_signs org id r _ Hk)). }
  clearbody q. cbn [run].
  destruct Hq as [Hq|(org & id & Hq)].
  - assert (Hx : exec q s = (inr (violation (pg_tick s)), s <| pg_tick ::= S |>)).
    { unfold exec. rewrite no_refusal. cbn. by rewrite Hq. }
    rewrite Hx. apply (chain_inv_mono s); cbn; [done|lia|done].
  - rewrite (exec_ok _ _ _ _ Hq).
    set (s1 := s <| pg_tick ::= S |>). change (pg_db s) with (pg_db s1). cbn [snd].
    apply chain_inv_signed. apply (chain_inv_mono s); cbn; [done|lia|done].
Qed.

(** ** What the chain guarantees *)

(** Receipts appended and signed, one call after another. *)
Inductive ChainCall := Append (r : Receipt) | Sign (r : Receipt).

Definition chain_call (c : ChainCall) (s : Pg) : Pg :=
  match c with
  | Append r => (run (AppendReceipt r) s).2
  | Sign r => (run (UpdateReceipt r) s).2
  end.

Definition well_spelled (c : ChainCall) : Prop :=
  match c with Append r => stored_as_spelled r | Sign _ => True end.

Lemma chain_calls_inv calls s : Forall well_spelled calls -> chain_inv s ->
  chain_inv (foldl (fun s c => chain_call c s) s calls).
Proof.
  intros Hc. revert s. induction Hc as [|c calls Hw _ IH]; intros s Hinv; [done|]. cbn [foldl]. apply IH.
  destruct c as [r|r]; [by apply append_chain|by apply sign_chain].
Qed.

Lemma chain_inv_empty s : db_receipts (pg_db s) = ∅ -> chain_inv s.
Proof.
  intros He. split; [|intros id row Hr; by rewrite He, lookup_empty in Hr].
  intros org. exists []. split; [|constructor|done|].
  - unfold org_receipts. rewrite He. done.
  - intros x Hx. by apply elem_of_nil in Hx.
Qed.

(** Receipts that are appended one after another form a chain that
    verifies.  From a database without receipts, while the server answers,
    any sequence of AppendReceipt and UpdateReceipt calls leaves every
    organization with a chain VerifyChain accepts. *)
Theorem appended_chain_verifies s calls org :
  db_receipts (pg_db s) = ∅ -> Forall well_spelled calls -> canonical org ->
  (run (VerifyChain org) (foldl (fun s c => chain_call c s) s calls)).1 = -1.
Proof.
  intros He Hc Ho. destruct (chain_calls_inv calls s Hc (chain_inv_empty s He)) as [Hinv _].
  destruct (Hinv org) as (l & Hl). by eapply verify_run.
Qed.

(** ** Appends that overlap *)

(** The second half of AppendReceipt, after the last hash is read. *)
Definition append_rest (r : Receipt) (prev : string) : program Pg Receipt :=
  let@ id := NewString in
  let r := built_receipt id prev r in
  let@ _ := exec (insert_receipt r) in
  Ret r.

(** What a receipt refers to exists. *)
Record storable (db : Db) (r : Receipt) : Prop := {
  sb_canonical : canonical (r_OrgID r) /\ canonical (r_TransactionID r);
  sb_action : optUUID (r_ActionID r) = r_ActionID r;
  sb_agent : optUUID (r_AgentID r) = r_AgentID r;
  sb_principal : optUUID (r_PrincipalID r) = r_PrincipalID r;
  sb_exists : has (db_organizations db) (r_OrgID r) && has (db_transactions db) (r_TransactionID r) &&
    has_opt (db_actions db) (r_ActionID r) && has_opt (db_agents db) (r_AgentID r) &&
    has_opt (db_principals db) (r_PrincipalID r) = true }.

Definition receipt_row (id prev : string) (t : time) (r : Receipt) : ReceiptRow :=
  MkReceiptRow ((built_receipt id prev r) <| r_KeyID := "" |> <| r_Signature := "" |>) t.

(** The two halves, each run without interruption. *)
Lemma append_reads r s : storable (pg_db s) r -> org_receipts (pg_db s) (r_OrgID r) = [] ->
  query_row (last_hash (r_OrgID r)) s = (None, s <| pg_tick ::= S |>).
Proof.
  intros Hs He. destruct (sb_canonical _ _ Hs) as [Ho _].
  rewrite (last_hash_run s (r_OrgID r) (r_OrgID r) []); [done|apply Ho|].
  split; [by rewrite He|constructor|done|]. intros x Hx. by apply elem_of_nil in Hx.
Qed.

Lemma append_writes r prev s :
  storable (pg_db s) r -> db_receipts (pg_db s) !! uuid (pg_uid s) = None ->
  let id := uuid (pg_uid s) in
  exec (insert_receipt (built_receipt id prev r)) (s <| pg_uid ::= S |>) =
  (inl tt, s <| pg_uid ::= S |> <| pg_tick ::= S |> <| pg_db := (pg_db s) <| db_receipts ::=
     <[ id := receipt_row id prev (db_now (pg_tick s)) r ]> |> |>).
Proof.
  intros [[Ho Ht] Ha Hg Hp He] Hf id. apply exec_ok. unfold insert_receipt.
  change (r_ID (built_receipt id prev r)) with id. change (r_OrgID (built_receipt id prev r)) with (r_OrgID r).
  change (r_TransactionID (built_receipt id prev r)) with (r_TransactionID r).
  change (r_ActionID (built_receipt id prev r)) with (r_ActionID r).
  change (r_AgentID (built_receipt id prev r)) with (r_AgentID r).
  change (r_PrincipalID (built_receipt id prev r)) with (r_PrincipalID r).
  rewrite Ha, Hg, Hp. rewrite bind_uuid by apply uuid_canonical. stmt.
  - unfold q_write. do 2 f_equal. unfold receipt_row. cbn -[micro receipt_payload ChainHash].
    by rewrite !micro_idem.
  - cbn. rewrite He. by apply fresh_true.
Qed.

Lemma storable_receipts db f r : storable db r -> storable (db <| db_receipts ::= f |>) r.
Proof. intros []. by split. Qed.

Lemma pool_left {X} (m : step Pg X) (k : X -> program Pg Receipt) q w x w' :
  m w = (x, w') ->
  pool_step (fun _ => False) (fun _ _ => False) ([finish (Atomic m k); q], w) ([finish (k x); q], w').
Proof. intros H. by apply (step_run _ _ [] X m (fun x => finish (k x)) [q]). Qed.

Lemma pool_right {X} (m : step Pg X) (k : X -> program Pg Receipt) q w x w' :
  m w = (x, w') ->
  pool_step (fun _ => False) (fun _ _ => False) ([q; finish (Atomic m k)], w) ([q; finish (k x)], w').
Proof. intros H. by apply (step_run _ _ [q] X m (fun x => finish (k x)) []). Qed.

(** Both read, then both write. *)
Lemma overlapping_schedule s r1 r2 org :
  db_receipts (pg_db s) = ∅ -> storable (pg_db s) r1 -> storable (pg_db s) r2 ->
  r_OrgID r1 = org -> r_OrgID r2 = org ->
  let n := pg_tick s in let id1 := uuid (pg_uid s) in let id2 := uuid (S (pg_uid s)) in
  exists s', rtc (pool_step (fun _ => False) (fun _ _ => False))
      ([finish (AppendReceipt r1); finish (AppendReceipt r2)], s) ([Ret tt; Ret tt], s') /\
    db_receipts (pg_db s') = <[ id2 := receipt_row id2 "" (db_now (5 + n)) r2 ]>
      {[ id1 := receipt_row id1 "" (db_now (4 + n)) r1 ]}.
Proof.
  intros He H1 H2 Ho1 Ho2 n id1 id2. destruct s as [db keys u t]. cbn in He, H1, H2, n, id1, id2.
  assert (Hempty : forall o, org_receipts db o = []) by (intros o; unfold org_receipts; by rewrite He).
  set (db1 := db <| db_receipts ::= <[ id1 := receipt_row id1 "" (db_now (4 + n)) r1 ]> |>).
  set (db2 := db1 <| db_receipts ::= <[ id2 := receipt_row id2 "" (db_now (5 + n)) r2 ]> |>).
  exists (MkPg db2 keys (2 + u) (6 + n)). split; [|unfold db2, db1; cbn; by rewrite He].
  change (AppendReceipt ?r) with
    (Atomic (query_row (q_ret (Some ""))) (fun _ => Atomic (query_row (last_hash (r_OrgID r))) (fun h => append_rest r (default "" h)))).
  eapply rtc_l; [apply pool_left; apply query_row_ok; reflexivity|].
  eapply rtc_l; [apply pool_left; apply (append_reads r1 (MkPg db keys u (1 + n))); [done|apply Hempty]|].
  eapply rtc_l; [apply pool_right; apply query_row_ok; reflexivity|].
  eapply rtc_l; [apply pool_right; apply (append_reads r2 (MkPg db keys u (3 + n))); [done|apply Hempty]|].
  eapply rtc_l; [apply pool_left; reflexivity|].
  eapply rtc_l; [apply pool_left; apply (append_writes r1 "" (MkPg db keys u (4 + n))); [done|]|].
  { cbn. by rewrite He. }
  eapply rtc_l; [apply pool_right; reflexivity|].
  eapply rtc_l; [apply pool_right; apply (append_writes r2 "" (MkPg db1 keys (1 + u) (5 + n)))|].
  - by apply storable_receipts.
  - change (<[ id1 := receipt_row id1 "" (db_now (4 + n)) r1 ]> (db_receipts db) !! id2 = None).
    rewrite He, lookup_insert_ne; [done|]. intros H. apply (inj uuid) in H. lia.
  - apply rtc_refl.
Qed.

Lemma overlapping_appends s r1 r2 org :
  db_receipts (pg_db s) = ∅ -> storable (pg_db s) r1 -> storable (pg_db s) r2 ->
  r_OrgID r1 = org -> r_OrgID r2 = org ->
  exists s', rtc (pool_step (fun _ => False) (fun _ _ => False))
      ([finish (AppendReceipt r1); finish (AppendReceipt r2)], s) ([Ret tt; Ret tt], s') /\
    (forall row, row ∈ org_receipts (pg_db s') org -> r_PrevHash (rr_receipt row) = "") /\
    length (org_receipts (pg_db s') org) = 2%nat /\
    (run (VerifyChain org) s').1 = 1.
Proof.
  intros He H1 H2 Ho1 Ho2. destruct (overlapping_schedule s r1 r2 org He H1 H2 Ho1 Ho2) as (s' & Hrun & Hr).
  exists s'. split; [exact Hrun|]. clear Hrun. set (id1 := uuid (pg_uid s)) in *. set (id2 := uuid (S (pg_uid s))) in *.
  assert (Hne : id1 <> id2) by (intros H; apply (inj uuid) in H; lia).
  set (row1 := receipt_row id1 "" (db_now (4 + pg_tick s)) r1) in *.
  set (row2 := receipt_row id2 "" (db_now (5 + pg_tick s)) r2) in *.
  assert (Hl : [row1; row2] ≡ₚ org_receipts (pg_db s') org).
  { unfold org_receipts. rewrite Hr.
    rewrite (filter_bool_perm _ _ [row2; row1]).
    - cbn. rewrite Ho1, Ho2, string_eqb_refl. apply Permutation_swap.
    - rewrite rows_insert by (by rewrite lookup_singleton_ne). unfold rows. by rewrite map_to_list_singleton. }
  split.
  { intros row Hrow. rewrite <- Hl in Hrow. apply elem_of_cons in Hrow as [->|Hrow]; [done|].
    by apply list_elem_of_singleton in Hrow as ->. }
  split; [by rewrite <- (Permutation_length Hl)|].
  destruct (sb_canonical _ _ H1) as [Hc _]. rewrite Ho1 in Hc. unfold VerifyChain. erewrite run_atomic'.
  2: { apply query_ok. rewrite bind_uuid by done. rewrite bind_db. unfold q_order.
       rewrite (order_chain (pg_tick s') receipt_order rr_created_at [row1; row2]); [reflexivity| | |exact Hl].
       - apply receipt_order_key.
       - repeat constructor. cbn. apply db_now_increases. lia. }
  cbn [run fst fmap list_fmap chain_loop].
  assert (Hh : r_Hash (rr_receipt row1) = ChainHash "" (receipt_payload (rr_receipt row1))) by done.
  rewrite <- Hh, string_eqb_refl. change (r_PrevHash (rr_receipt row1)) with "".
  change (r_PrevHash (rr_receipt row2)) with "".
  assert (Hn : String.eqb "" (r_Hash (rr_receipt row1)) = false).
  { apply String.eqb_neq. rewrite Hh. intros H. by eapply ChainHash_not_empty. }
  rewrite Hn. by rewrite string_eqb_refl.
Qed.

End PgChain.

(** C20: two appends that overlap break the chain.  The advisory lock that is
    to serialize the appends of an organization is released with the
    statement that takes it, so two first receipts may both read an empty
    chain; both are stored, with an empty previous hash, and VerifyChain
    reports the second.  The database is undisturbed (it refuses no
    statement from outside its constraints and cuts off no result) and its
    statements read increasing times: the break needs no fault. *)
Theorem overlapping_appends_break_chain `{RL : RuntimeLaws} `{PE : PgEnv} `{PL : !PgLaws} s r1 r2 org :
  Undisturbed -> StatementsApart ->
  db_receipts (pg_db s) = ∅ -> storable (pg_db s) r1 -> storable (pg_db s) r2 ->
  r_OrgID r1 = org -> r_OrgID r2 = org ->
  exists s', rtc (pool_step (fun _ => False) (fun _ _ => False))
      ([finish (AppendReceipt r1); finish (AppendReceipt r2)], s) ([Ret tt; Ret tt], s') /\
    (forall row, row ∈ org_receipts (pg_db s') org -> r_PrevHash (rr_receipt row) = "") /\
    length (org_receipts (pg_db s') org) = 2%nat /\
    (run (VerifyChain org) s').1 = 1.
Proof. intros UD PC. apply overlapping_appends. Qed.

(** ** A chain that cannot be read *)

Section Unread.
Context `{RT : Runtime} `{PE : PgEnv}.

(** VerifyChain fails open.  It answers -1, an intact chain, when the
    server refuses the query and when the organization is not a UUID; and
    when the result breaks off, its verdict is that of the rows received. *)
Theorem VerifyChain_fails_open org s :
  ((exists e, stmt_err (pg_tick s) = Some e) -> (run (VerifyChain org) s).1 = -1) /\
  (uuid_param org = None -> (run (VerifyChain org) s).1 = -1) /\
  (forall org' k, stmt_err (pg_tick s) = None -> uuid_param org = Some org' ->
     rows_cut (pg_tick s) = Some k ->
     (run (VerifyChain org) s).1 =
       chain_loop (take k (rr_receipt <$> order_rows (pg_tick s) receipt_order (org_receipts (pg_db s) org'))) "" 0).
Proof.
  unfold VerifyChain, query, exec. cbn [run]. split; [|split].
  - intros [e ->]. done.
  - intros Hu. destruct (stmt_err (pg_tick s)); [done|]. unfold q_bind, q_uuid. by rewrite Hu.
  - intros org' k He Hu Hk. rewrite He. unfold q_bind, q_uuid, q_db, q_order. rewrite Hu. cbn -[order_rows].
    by rewrite Hk, fmap_take.
Qed.

End Unread.
