(* ===== verification/PgArchive.v ===== *)
(** * PgArchive: PGStore keeps the evidence as the contract says, one append
    after another *)

From S2P Require Export MemArchive PgVault PgChain.

Open Scope Z_scope.

(** A JSON column of flags and texts comes back as it was. *)
Class PgConfigLaws `{RT : Runtime} `{PE : PgEnv} :=
  trip_map_plain : forall g, plain_config (default ∅ g) ->
    config_view (default ∅ (trip_map g)) = config_view (default ∅ g).

Section PgArchive.
Context `{RL : RuntimeLaws} `{PE : PgEnv} `{PL : !PgLaws} `{PJ : !PgJsonLaws} `{UD : !Undisturbed} `{PC : !StatementsApart} `{PT : !PgConfigLaws}.

(** The archive a database stands for. *)
Record pg_archive (a : Archive) (s : Pg) : Prop := {
  pa_chains : forall org, exists l, chain_at s org l /\ chain_in a org = rr_receipt <$> l;
  pa_keys : forall id row, db_receipts (pg_db s) !! id = Some row -> r_ID (rr_receipt row) = id;
  pa_fresh : forall n, (pg_uid s <= n)%nat -> db_receipts (pg_db s) !! uuid n = None;
  pa_configs : related (fun _ c g => c = config_view (default ∅ g) /\ plain_config (default ∅ g)) (ar_configs a) (db_integration_configs (pg_db s)) }.

Definition pg_aexec (op : AOp) : program Pg ARes :=
  match op with
  | AAppendReceipt r => let! r' := PgStore.AppendReceipt r in Ret (AReceipt r')
  | AUpdateReceipt r => let! _ := PgStore.UpdateReceipt r in Ret AUnit
  | AReceiptsForTxn org txn => let! rs := PgStore.ReceiptsForTxn org txn in Ret (AReceipts rs)
  | AVerifyChain org => let! i := PgStore.VerifyChain org in Ret (AIndex i)
  | ASetIntegrationConfig org name c => let! _ := PgSecrets.SetIntegrationConfig org name c in Ret AUnit
  | AGetIntegrationConfig org name => let! c := PgSecrets.GetIntegrationConfig org name in
      Ret (AConfig (config_view ∘ default ∅ <$> c))
  end.

#[export] Instance postgres_archive : AStore Pg := { exec_aop := pg_aexec; archive_ok := pg_archive }.

(** ** Frames *)

Record archive_same (d d' : Db) : Prop := {
  as_receipts : db_receipts d' = db_receipts d;
  as_configs : db_integration_configs d' = db_integration_configs d }.

#[local] Instance archive_same_preorder : PreOrder archive_same.
Proof. split; [by intros d|]. intros d1 d2 d3 [] []. split; congruence. Qed.

(** The tables of the other two parts of the contract. *)
Record others_same (d d' : Db) : Prop := { os_core : core_eq d d'; os_vault : vault_same d d' }.

#[local] Instance others_same_preorder : PreOrder others_same.
Proof.
  split; [by intros d; split|]. intros d1 d2 d3 [] []. split; [by etrans|].
  destruct os_vault0, os_vault1. split; congruence.
Qed.

Lemma pg_archive_frame a s s' : moved archive_same s s' -> pg_archive a s -> pg_archive a s'.
Proof.
  intros ([R C] & _ & U & T) []. split; rewrite ?R, ?C; try done.
  - intros org. destruct (pa_chains0 org) as (l & Hl & E). exists l. split; [by apply (chain_at_mono s)|done].
  - intros n Hn. apply pa_fresh0. lia.
Qed.

Lemma pg_exec_keeps op : prog_within archive_same (pg_exec op).
Proof.
  destruct op; cbn [pg_exec];
    unfold SeedOrg, CreateAgent, GetAgent, CreateTxn, GetTxn, SetTxnStatus, AddAction, GetAction, UpdateAction, CreateApproval,
      GetApproval, DecideApproval, SetPolicies, CreatePolicySet, ActivatePolicySet, Policies, ActivePolicySet, legacyPolicies, CreateGrant,
      GrantsForAgent, RevokeGrant, Emit, ListTxns, ActionsForTxn, PendingApprovals, PolicySets, insert_organization,
      insert_principal, insert_agent, insert_credential, insert_transaction, update_transaction,
      insert_action, update_action, insert_approval, decide_approval, insert_policy_set, disable_active, activate_version,
      insert_grant, revoke_grant, insert_event;
    repeat first [progress within_all | apply assign_rules_within, _ | case_match_goal].
Qed.

Lemma pg_vexec_keeps op : prog_within archive_same (pg_vexec op).
Proof.
  destruct op; cbn [pg_vexec];
    unfold PgSecrets.StoreCredential, PgSecrets.GetCredential, PgSecrets.RevokeCredential, PgSecrets.TouchCredential,
      PgSecrets.CreateOperatorToken, PgSecrets.GetOperatorToken, PgSecrets.TouchOperatorToken,
      PgSecrets.SetIntegrationCredential, PgSecrets.GetIntegrationCredential, PgSecrets.ListIntegrationCredentials,
      PgSecrets.UpsertMCPServer, PgSecrets.GetMCPServer, PgSecrets.ListMCPServers,
      insert_credential, revoke_credential, upsert_credential, upsert_mcp;
    repeat first [progress within_all | apply seal_within, _ | apply open_within, _ | case_match_goal].
Qed.

Lemma pg_aexec_aside op : prog_within others_same (pg_aexec op).
Proof.
  destruct op; cbn [pg_aexec];
    unfold PgStore.AppendReceipt, PgStore.UpdateReceipt, PgStore.ReceiptsForTxn, PgStore.VerifyChain,
      PgSecrets.SetIntegrationConfig, PgSecrets.GetIntegrationConfig, last_hash, insert_receipt;
    repeat first [progress within_all | case_match_goal].
Qed.

Lemma pg_others l v op s : pg_ok l s -> pg_vault v s ->
  pg_ok l (run (pg_aexec op) s).2 /\ pg_vault v (run (pg_aexec op) s).2.
Proof.
  intros Hl Hv. destruct (run_within (R := others_same) _ s (pg_aexec_aside op)) as ([C V] & K & U & T). split.
  - by apply (pg_ok_core l s).
  - by apply (pg_vault_frame v s).
Qed.

(** ** Receipts *)

Definition pg_arefined (op : AOp) : Prop := forall l a s,
  pg_ok l s -> pg_archive a s -> aadmissible canonical l op ->
  exists a', aspec_step a op (run (pg_aexec op) s).1 a' /\ pg_archive a' (run (pg_aexec op) s).2.

Lemma pg_archive_tick a s : pg_archive a s -> pg_archive a (s <| pg_tick ::= S |>).
Proof. apply pg_archive_frame. split; [reflexivity|]. cbn. split_and!; (done || lia). Qed.

(** What an admissible receipt refers to is in the database. *)
Lemma pg_storable l s r : pg_ok l s -> aadmissible canonical l (AAppendReceipt r) -> storable (pg_db s) r.
Proof.
  intros Hok (Ho & Ht & Ha & Hg & Hp & _). destruct (pg_org _ _ _ Hok Ho) as [Hco Hho].
  pose proof Hok as []. rewrite po_txns, dom_fmap_L in Ht. rewrite po_actions, dom_fmap_L in Ha.
  rewrite po_agents, dom_fmap_L in Hg. rewrite po_principals in Hp.
  assert (Hopt : forall {R} (m : gmap string R) x, (forall id y, m !! id = Some y -> canonical id) ->
    optional x (dom m) -> optUUID x = x).
  { intros R m x Hm [->|Hx]; [done|]. apply opt_canonical. intros _. by eapply canonical_dom. }
  split.
  - split; [done|]. exact (canonical_dom _ _ po_canon_txns Ht).
  - exact (Hopt _ _ _ po_canon_actions Ha).
  - exact (Hopt _ _ _ po_canon_agents Hg).
  - exact (Hopt _ _ _ po_canon_principals Hp).
  - rewrite Hho, (proj2 (has_true _ _) Ht). by rewrite !has_opt_optional.
Qed.

(** The first half of AppendReceipt: the two reads. *)
Lemma append_starts r l s : storable (pg_db s) r -> chain_at s (r_OrgID r) l ->
  run (PgStore.AppendReceipt r) s =
  run (append_rest r (end_hash "" (rr_receipt <$> l))) (s <| pg_tick ::= S |> <| pg_tick ::= S |>).
Proof.
  intros Hs Hl. destruct (sb_canonical _ _ Hs) as [[Ho _] _]. unfold PgStore.AppendReceipt.
  erewrite run_atomic'; [|by apply query_row_ok].
  set (s1 := s <| pg_tick ::= S |> <| pg_db := pg_db s |>).
  assert (Hl1 : chain_at s1 (r_OrgID r) l) by (apply (chain_at_mono s); cbn; [done|lia|done]).
  rewrite (run_atomic' _ _ _ _ _ (last_hash_run s1 (r_OrgID r) (r_OrgID r) l Ho Hl1)). by destruct s.
Qed.

(** The second half: the receipt is built and written. *)
Lemma append_finishes r prev s : storable (pg_db s) r -> db_receipts (pg_db s) !! uuid (pg_uid s) = None ->
  let id := uuid (pg_uid s) in
  run (append_rest r prev) s = (built_receipt id prev r, with_row id (receipt_row id prev (db_now (pg_tick s)) r) (s <| pg_uid ::= S |>)).
Proof.
  intros Hs Hf id. unfold append_rest. erewrite run_atomic'; [|reflexivity].
  rewrite (run_atomic' _ _ _ _ _ (append_writes r prev s Hs Hf)). done.
Qed.

Lemma evidence_fields r : evidence r =
  MkReceipt "" (r_OrgID r) (r_TransactionID r) (r_ActionID r) (r_AgentID r) (r_PrincipalID r) (r_Tool r) (r_Action r)
    (r_ArgumentsHash r) (r_Decision r) (r_ResultHash r) (r_FinancialCents r) (r_Compensation r) "" "" (r_KeyID r)
    (r_Signature r) (r_PolicyVersion r) (micro (r_StartedAt r)) (micro (r_CompletedAt r)).
Proof. done. Qed.

Lemma built_extends id rs r : extends rs r (built_receipt id (end_hash "" rs) r).
Proof.
  split; [|done]. rewrite !evidence_fields. cbn -[micro]. by rewrite !micro_idem.
Qed.

Lemma stored_as_built id prev t r : r_KeyID r = "" -> r_Signature r = "" ->
  rr_receipt (receipt_row id prev t r) = built_receipt id prev r.
Proof. intros Hk Hs. destruct r. cbn in *. by subst. Qed.

Lemma pg_arefined_AppendReceipt r : pg_arefined (AAppendReceipt r).
Proof.
  intros l a s Hok Ha Had. pose proof (pg_storable _ _ _ Hok Had) as Hst.
  destruct Had as (_ & _ & _ & _ & _ & Hk & Hsig). pose proof Ha as [].
  destruct (pa_chains0 (r_OrgID r)) as (c & Hc & Ec). cbn [pg_aexec]. rewrite run_pbind.
  rewrite (append_starts r c s Hst Hc). set (s1 := s <| pg_tick ::= S |> <| pg_tick ::= S |>).
  rewrite append_finishes; [|exact Hst|by apply pa_fresh0]. cbn [run fst snd].
  change (pg_uid s1) with (pg_uid s). set (id := uuid (pg_uid s)). rewrite <- Ec.
  set (prev := end_hash "" (chain_in a (r_OrgID r))). set (row := receipt_row id prev (db_now (pg_tick s1)) r).
  assert (Hrow : rr_receipt row = built_receipt id prev r) by by apply stored_as_built.
  set (s2 := s1 <| pg_uid ::= S |>).
  assert (Hf : db_receipts (pg_db s2) !! id = None) by by apply pa_fresh0.
  assert (Hmono : forall org x, chain_at s org x -> chain_at s2 org x).
  { intros org x. apply chain_at_mono; cbn; [done|lia]. }
  eexists. split; [apply aspec_append, built_extends|]. split.
  - intros org. rewrite chain_in_insert. destruct (String.eqb_spec (r_OrgID r) org) as [<-|Hne].
    + exists (c ++ [row]). rewrite fmap_app, <- Ec. cbn [fmap list_fmap]. rewrite Hrow. split; [|done].
      apply chain_at_append; rewrite ?Hrow, <- ?Ec; try done. by apply Hmono.
    + destruct (pa_chains0 org) as (x & Hx & Ex). exists x. split; [|done].
      apply chain_at_other; [by apply Hmono|done|]. by rewrite Hrow.
  - intros i x Hx. cbn in Hx. apply lookup_insert_Some in Hx as [[<- <-]|[_ Hx]]; [by rewrite Hrow|by apply pa_keys0].
  - intros n Hn. cbn in Hn |- *. rewrite lookup_insert_ne; [apply pa_fresh0; lia|]. apply id_next. lia.
  - done.
Qed.

Lemma sign_row_receipt r row :
  rr_receipt (sign_row (r_OrgID r) (r_ID r) r row) = update_receipt_in r (rr_receipt row).
Proof. unfold sign_row, update_receipt_in. by destruct (_ && _). Qed.

Lemma pg_arefined_UpdateReceipt r : pg_arefined (AUpdateReceipt r).
Proof.
  intros l a s Hok Ha [Ho Hid]. pose proof Ha as []. cbn [pg_aexec]. unfold PgStore.UpdateReceipt. cbn [pbind].
  erewrite run_atomic'; [|apply exec_ok; stmt;
    exact (f_equal (fun m => Some (tt, (pg_db s) <| db_receipts := m |>)) (alter_signs (r_OrgID r) (r_ID r) r _ pa_keys0))].
  cbn [run fst snd]. eexists. split; [apply aspec_sign|].
  change (_ <| pg_db := _ |>) with (with_signature (r_OrgID r) (r_ID r) r (s <| pg_tick ::= S |>)). split.
  - intros org. destruct (pa_chains0 org) as (x & Hx & Ex). exists (sign_row (r_OrgID r) (r_ID r) r <$> x). split.
    + apply chain_at_signed, (chain_at_mono s); cbn; [done|lia|done].
    + rewrite chain_in_fmap, Ex, <- !list_fmap_compose. apply list_fmap_ext. intros i row _. symmetry. apply sign_row_receipt.
  - by apply signed_keys.
  - intros n Hn. cbn in Hn |- *. by rewrite lookup_fmap, pa_fresh0.
  - done.
Qed.

Lemma sorted_filter {A} (R : A -> A -> Prop) (f : A -> bool) (l : list A) : StronglySorted R l -> StronglySorted R (List.filter f l).
Proof.
  induction 1 as [|x l _ IH Hall]; cbn; [constructor|]. destruct (f x); [|done]. constructor; [done|].
  rewrite Forall_forall in Hall |- *. intros y Hy. apply Hall. apply list_elem_of_In, filter_In in Hy as [Hy _].
  by apply list_elem_of_In.
Qed.

(** The query of the chain, in order. *)
Lemma pg_arefined_ReceiptsForTxn org txn : pg_arefined (AReceiptsForTxn org txn).
Proof.
  intros l a s Hok Ha [Ho Ht]. exists a. pose proof Ha as []. destruct (pa_chains0 org) as (c & [Hr Hs Hl Hp] & E).
  cbn [pg_aexec]. unfold PgStore.ReceiptsForTxn. cbn [pbind].
  erewrite run_atomic'; [|apply query_ok; stmt; unfold q_order; reflexivity].
  cbn [run fst snd default from_option Datatypes.id]. split; [|by apply (pg_archive_tick a s)].
  set (f := fun row => String.eqb (r_TransactionID (rr_receipt row)) txn).
  replace (order_rows _ _ _) with (List.filter f c).
  - assert (Hf : of_txn txn (chain_in a org) = rr_receipt <$> List.filter f c).
    { rewrite E. unfold of_txn, f. clear. induction c as [|x c IH]; [done|]. rewrite fmap_cons. cbn [List.filter].
      destruct (String.eqb (r_TransactionID (rr_receipt x)) txn); by rewrite ?fmap_cons, IH. }
    rewrite <- Hf. apply aspec_list.
  - symmetry. apply (order_chain _ receipt_order rr_created_at); [apply receipt_order_key|by apply sorted_filter|].
    by apply filter_bool_perm.
Qed.

Lemma pg_arefined_VerifyChain org : pg_arefined (AVerifyChain org).
Proof.
  intros l a s Hok Ha Ho. cbn in Ho. exists a. pose proof Ha as []. destruct (pa_chains0 org) as (c & Hc & E).
  pose proof (verify_run s org c Ho Hc) as Hv. cbn [pg_aexec]. rewrite run_pbind.
  destruct (run (PgStore.VerifyChain org) s) as [i s'] eqn:Er. cbn in Hv. subst i. cbn [run fst snd]. split.
  - apply aspec_verify. rewrite E. split; [intros _; apply Hc|done].
  - apply (pg_archive_frame a s); [|done].
    assert (Hw : prog_within archive_same (PgStore.VerifyChain org)) by (unfold PgStore.VerifyChain; within_all).
    pose proof (run_within _ s Hw) as Hm. by rewrite Er in Hm.
Qed.

(** ** Configurations *)

Lemma pg_arefined_SetIntegrationConfig org name c : pg_arefined (ASetIntegrationConfig org name c).
Proof.
  intros l a s Hok Ha [Ho Hp]. destruct (pg_org _ _ _ Hok Ho) as [Hco Hho]. pose proof Ha as [].
  cbn [pg_aexec]. unfold PgSecrets.SetIntegrationConfig. cbn [pbind].
  erewrite run_atomic'; [|apply exec_ok; stmt; [reflexivity|exact Hho]].
  cbn [run fst snd]. eexists. split; [apply aspec_set|]. split; try done.
  - intros o. destruct (pa_chains0 o) as (x & Hx & E). exists x. split; [|done].
    apply (chain_at_mono s); cbn; [done|lia|done].
  - cbn. by apply related_insert.
Qed.

Lemma pg_arefined_GetIntegrationConfig org name : pg_arefined (AGetIntegrationConfig org name).
Proof.
  intros l a s Hok Ha Hc. cbn in Hc. exists a. cbn [pg_aexec]. unfold PgSecrets.GetIntegrationConfig. cbn [pbind].
  erewrite run_atomic'; [|apply query_row_ok; stmt; reflexivity]. cbn [run fst snd].
  split; [|by apply (pg_archive_tick a s)]. pose proof (pa_configs _ _ Ha (org, name)) as Hx.
  pose proof (aspec_get a org name) as Hg.
  destruct (ar_configs a !! (org, name)) as [c|], (db_integration_configs (pg_db s) !! (org, name)) as [g|]; try done.
  destruct Hx as [-> Hp]. cbn. by rewrite trip_map_plain.
Qed.

Lemma pg_arefines op : pg_arefined op.
Proof.
  destruct op.
  - apply pg_arefined_AppendReceipt.
  - apply pg_arefined_UpdateReceipt.
  - apply pg_arefined_ReceiptsForTxn.
  - apply pg_arefined_VerifyChain.
  - apply pg_arefined_SetIntegrationConfig.
  - apply pg_arefined_GetIntegrationConfig.
Qed.

#[export] Instance postgres_archive_laws : AStoreLaws Pg.
Proof.
  split.
  - intros l v a s op Hl Hv Ha Had. destruct (pg_arefines op l a s Hl Ha Had) as (a' & Hs & Ha'). exists a'.
    split; [exact Hs|]. destruct (pg_others l v op s Hl Hv) as [Hl' Hv']. done.
  - intros a s op. apply pg_archive_frame, run_within, pg_exec_keeps.
  - intros a s op. apply pg_archive_frame, run_within, pg_vexec_keeps.
Qed.

Lemma pg_archive_New p : pg_archive empty_archive (new_pg p).
Proof.
  split; try done. intros org. exists []. split; [|done]. split; try done; [constructor|].
  intros x Hx. by apply elem_of_nil in Hx.
Qed.

End PgArchive.

(** C13: both stores keep the evidence as the contract says.  With an honest
    key provider, any sequence of calls of the Store interface, each
    admissible when it is made (what it refers to exists, its identifiers are
    well formed, and what is kept as JSON, a configuration of flags and texts
    among it, is ASCII without NUL), on a new MemoryStore or a new PGStore is
    a run of the archive: a receipt is stored with the evidence it was given
    and linked, by hash, to the receipt of its organization appended before
    it; the receipts of a transaction are those that were appended, in order
    and as they were last signed; VerifyChain accepts every chain; and a
    configuration is read as it was last written, whatever else is called in
    between.  For PGStore the calls are made one after another, the database
    is undisturbed (no statement refused from outside the constraints, no
    result cut off), and each of its statements reads a later now() than those
    before, since that is what orders the chain. *)
Theorem stores_keep_evidence `{RL : RuntimeLaws} `{PE : PgEnv} `{PL : !PgLaws} `{PJ : !PgJsonLaws} `{PT : !PgConfigLaws}
    `{PI : !PlainIds} p cs : honest p ->
  (forall tools, interface_callable (AS := memory_archive) cs (keyed_new p tools) ->
     exists a, arun empty_archive (exec_interface (AS := memory_archive) cs (keyed_new p tools)).1 a /\
       mem_archive a (exec_interface (AS := memory_archive) cs (keyed_new p tools)).2 /\
       archive_honoured (exec_interface (AS := memory_archive) cs (keyed_new p tools)).1) /\
  (Undisturbed -> StatementsApart -> interface_callable (AS := postgres_archive) cs (new_pg p) ->
     exists a, arun empty_archive (exec_interface (AS := postgres_archive) cs (new_pg p)).1 a /\
       pg_archive a (exec_interface (AS := postgres_archive) cs (new_pg p)).2 /\
       archive_honoured (exec_interface (AS := postgres_archive) cs (new_pg p)).1).
Proof.
  intros Hp. split.
  - intros tools Hc. assert (Hl : mem_ok empty_ledger (keyed_new p tools)).
    { eapply mem_ok_frame; [..|apply (mem_ok_New tools)]; done. }
    exact (archive_contract (AS := memory_archive) cs _ _ _ Hl (mem_vault_New p tools Hp) (mem_archive_New p tools) Hc).
  - intros UD PC Hc.
    exact (archive_contract (AS := postgres_archive) cs _ _ _ (pg_ok_new p) (pg_vault_New p Hp) (pg_archive_New p) Hc).
Qed.
