(* ===== verification/PgLog.v ===== *)
(** * PgLog: PGStore keeps the audit trail as the contract says *)

From S2P Require Export MemLog PgArchive.

Open Scope Z_scope.

(** A payload of flags, integers and plain texts comes back as it was, but
    for the types JSON has. *)
Class PgAuditLaws `{RT : Runtime} `{PE : PgEnv} :=
  trip_payload_plain : forall p, plain_config (payload_map p) ->
    config_view (payload_map (trip_payload p)) = config_view (payload_map p).

(** A condition of a run, not a law of the clock: each reading of the
    process's clock is of a later microsecond than those before.  Where it
    fails, events of the same microsecond come back in the order of their
    random identifiers. *)
Definition MicroClock `{RT : Runtime} : Prop :=
  forall n m, (n < m)%nat -> micro (clock n) < micro (clock m).

Section PgLog.
Context `{RL : RuntimeLaws} `{PE : PgEnv} `{PL : !PgLaws} `{PJ : !PgJsonLaws} `{UD : !Undisturbed} `{PA : !PgAuditLaws}.

(** A row as Audit reads it. *)
Definition read_event (e : AuditEvent) : AuditEvent := e <| e_Payload := trip_payload (e_Payload e) |>.

(** The log a database stands for: its rows in the order of insertion, which
    is that of their times if the clock moves. *)
Record log_rows (g : Log) (s : Pg) (l : list AuditEvent) : Prop := {
  lr_rows : l ≡ₚ rows (db_audit_events (pg_db s));
  lr_sorted : MicroClock -> StronglySorted (fun x y => e_CreatedAt x < e_CreatedAt y) l;
  lr_past : forall x, x ∈ l -> exists n, (n < pg_tick s)%nat /\ e_CreatedAt x = micro (clock n);
  lr_entries : g = entry_of ∘ read_event <$> l }.

Record pg_log (g : Log) (s : Pg) : Prop := {
  pl_rows : exists l, log_rows g s l;
  pl_fresh : forall n, (pg_tick s <= n)%nat -> db_audit_events (pg_db s) !! gen_random_uuid n = None }.

Definition pg_lexec (op : LOp) : program Pg LRes :=
  match op with
  | LEmit e => let! _ := PgStore.Emit e in Ret LUnit
  | LAudit org txn limit => let! es := PgStore.Audit org txn limit in Ret (LEntries (entry_of <$> es))
  end.

#[export] Instance postgres_log : LStore Pg := { exec_lop := pg_lexec; times_apart := MicroClock; log_ok := pg_log }.

(** ** Frames *)

Definition log_same (d d' : Db) : Prop := db_audit_events d' = db_audit_events d.

#[local] Instance log_same_preorder : PreOrder log_same.
Proof. split; [done|]. intros d1 d2 d3 H1 H2. unfold log_same in *. congruence. Qed.

(** The tables of the other three parts of the contract. *)
Record books_same (d d' : Db) : Prop := { bs_others : others_same d d'; bs_archive : archive_same d d' }.

#[local] Instance books_same_preorder : PreOrder books_same.
Proof.
  split; [by intros d|]. intros d1 d2 d3 [[[] []] []] [[[] []] []]. repeat split; congruence.
Qed.

Lemma pg_log_keep g s s' :
  db_audit_events (pg_db s') = db_audit_events (pg_db s) -> (pg_tick s <= pg_tick s')%nat -> pg_log g s -> pg_log g s'.
Proof.
  intros E T [(l & [R S P G]) F]. split.
  - exists l. split; [by rewrite E|done| |done]. intros x Hx. destruct (P x Hx) as (n & Hn & ?). exists n. split; [lia|done].
  - intros n Hn. rewrite E. apply F. lia.
Qed.

Lemma pg_log_frame g s s' : moved log_same s s' -> pg_log g s -> pg_log g s'.
Proof. intros (E & _ & _ & T). by apply pg_log_keep. Qed.

Lemma pg_exec_quiet op : (forall t, op <> OCreateTxn t) -> prog_within log_same (pg_exec op).
Proof.
  intros Hne. destruct op; try (by destruct (Hne t)); clear Hne; cbn [pg_exec];
    unfold SeedOrg, CreateAgent, GetAgent, GetTxn, SetTxnStatus, AddAction, GetAction, UpdateAction, CreateApproval,
      GetApproval, DecideApproval, SetPolicies, CreatePolicySet, ActivatePolicySet, Policies, ActivePolicySet, legacyPolicies, CreateGrant,
      GrantsForAgent, RevokeGrant, ListTxns, ActionsForTxn, PendingApprovals, PolicySets, insert_organization,
      insert_principal, insert_agent, insert_credential, update_transaction,
      insert_action, update_action, insert_approval, decide_approval, insert_policy_set, disable_active, activate_version,
      insert_grant, revoke_grant;
    repeat first [progress within_all | apply assign_rules_within, _ | case_match_goal].
Qed.

Lemma pg_vexec_quiet op : prog_within log_same (pg_vexec op).
Proof.
  destruct op; cbn [pg_vexec];
    unfold PgSecrets.StoreCredential, PgSecrets.GetCredential, PgSecrets.RevokeCredential, PgSecrets.TouchCredential,
      PgSecrets.CreateOperatorToken, PgSecrets.GetOperatorToken, PgSecrets.TouchOperatorToken,
      PgSecrets.SetIntegrationCredential, PgSecrets.GetIntegrationCredential, PgSecrets.ListIntegrationCredentials,
      PgSecrets.UpsertMCPServer, PgSecrets.GetMCPServer, PgSecrets.ListMCPServers,
      insert_credential, revoke_credential, upsert_credential, upsert_mcp;
    repeat first [progress within_all | apply seal_within, _ | apply open_within, _ | case_match_goal].
Qed.

Lemma pg_aexec_quiet op : prog_within log_same (pg_aexec op).
Proof.
  destruct op; cbn [pg_aexec];
    unfold PgStore.AppendReceipt, PgStore.UpdateReceipt, PgStore.ReceiptsForTxn, PgStore.VerifyChain,
      PgSecrets.SetIntegrationConfig, PgSecrets.GetIntegrationConfig, last_hash, insert_receipt;
    repeat first [progress within_all | case_match_goal].
Qed.

Lemma pg_lexec_aside op : prog_within books_same (pg_lexec op).
Proof.
  destruct op; cbn [pg_lexec]; unfold PgStore.Emit, PgStore.Audit, insert_event;
    repeat first [progress within_all | case_match_goal].
Qed.

(** ** The calls *)

Definition event_row (id : string) (t : time) (e : AuditEvent) : AuditEvent :=
  MkAuditEvent id (e_OrgID e) (e_TransactionID e) (e_ActorType e) (e_ActorID e) (e_Type e) (e_Payload e) (micro t).

Lemma event_inserted e t n db :
  canonical (e_OrgID e) -> has (db_organizations db) (e_OrgID e) = true ->
  optUUID (e_TransactionID e) = e_TransactionID e -> has_opt (db_transactions db) (e_TransactionID e) = true ->
  insert_event (e <| e_CreatedAt := t |>) n db =
    Some (tt, db <| db_audit_events ::= <[ gen_random_uuid n := event_row (gen_random_uuid n) t e ]> |>).
Proof.
  intros Ho Hho Htx Hht. unfold insert_event.
  change (e_OrgID (e <| e_CreatedAt := t |>)) with (e_OrgID e).
  change (e_TransactionID (e <| e_CreatedAt := t |>)) with (e_TransactionID e). rewrite Htx. cbv zeta.
  stmt; [done|by rewrite Hho, Hht].
Qed.

Lemma pg_emits e l g s : pg_ok l s -> pg_log g s -> emittable l e -> pg_log (g ++ [entry_of e]) (run (PgStore.Emit e) s).2.
Proof.
  intros Hok [(c & [R S P G]) F] (Ho & Ht & Hz & Hp). destruct (pg_org _ _ _ Hok Ho) as [Hco Hho].
  assert (Htx : optUUID (e_TransactionID e) = e_TransactionID e /\
    has_opt (db_transactions (pg_db s)) (e_TransactionID e) = true).
  { rewrite (po_txns _ _ Hok), dom_fmap_L in Ht. split; [|by apply has_opt_optional].
    apply (optional_canonical (db_transactions (pg_db s))); [exact (po_canon_txns _ _ Hok)|done]. }
  destruct Htx as [Htx Hht]. unfold PgStore.Emit. rewrite Hz, Z.eqb_refl.
  erewrite run_atomic'; [|reflexivity]. erewrite run_atomic'; [|by apply exec_ok, event_inserted].
  set (n := pg_tick (s <| pg_tick ::= Datatypes.S |>)). set (row := event_row _ _ _). cbn [run fst snd].
  assert (Hnew : db_audit_events (pg_db s) !! gen_random_uuid n = None) by (apply F; cbn; lia). split.
  - exists (c ++ [row]). split.
    + cbn. rewrite rows_insert by done. rewrite <- R. symmetry. apply Permutation_cons_append.
    + intros Hm. specialize (S Hm). apply StronglySorted_app_2; [|done|repeat constructor]. intros x y Hx Hy.
      apply list_elem_of_singleton in Hy as ->. destruct (P x Hx) as (m & Hlt & ->). by apply Hm.
    + intros x Hx. apply elem_of_app in Hx as [Hx|Hx].
      * destruct (P x Hx) as (m & Hm & E). exists m. split; [cbn; lia|done].
      * apply list_elem_of_singleton in Hx as ->. exists (pg_tick s). split; [cbn; lia|done].
    + rewrite fmap_app, G. f_equal. cbn. unfold entry_of, read_event. cbn. by rewrite trip_payload_plain.
  - intros m Hm. cbn in Hm |- *. rewrite lookup_insert_ne; [apply F; lia|apply gen_next; cbn; lia].
Qed.

Lemma later_event_key x y : - e_CreatedAt x < - e_CreatedAt y -> later_event x y = true /\ later_event y x = false.
Proof.
  intros H. unfold later_event. rewrite (proj2 (Z.ltb_lt (e_CreatedAt y) _)) by lia.
  rewrite (proj2 (Z.ltb_ge (e_CreatedAt x) _)) by lia. by rewrite (proj2 (Z.eqb_neq (e_CreatedAt x) (e_CreatedAt y))) by lia.
Qed.

(** What the server answers is an answer from the log. *)
Lemma pg_answers g s c org txn limit n : log_rows g s c ->
  audit_answer MicroClock org txn limit g (entry_of <$> (read_event <$>
    take (Z.to_nat limit) (order_rows n later_event (List.filter (seen_by org txn) (rows (db_audit_events (pg_db s))))))).
Proof.
  intros [R S _ ->]. unfold audit_answer, visible. rewrite filter_entries. rewrite <- list_fmap_compose, fmap_take. eexists. split_and!; [| |reflexivity].
  - rewrite order_perm. apply fmap_Permutation. symmetry. by apply filter_bool_perm.
  - intros Hm. rewrite <- fmap_reverse. f_equal.
    apply (order_chain n later_event (fun e => - e_CreatedAt e)); [apply later_event_key|by apply sorted_reverse, sorted_filter, S|].
    rewrite reverse_Permutation. by apply filter_bool_perm.
Qed.

(** A negative limit is an error, and no rows. *)
Lemma pg_reads org txn limit g s : pg_log g s -> canonical org -> (txn = "" \/ canonical txn) ->
  exists es, (run (pg_lexec (LAudit org txn limit)) s).1 = LEntries es /\ audit_answer MicroClock org txn limit g es.
Proof.
  intros [(c & Hc) _] [Ho _] Ht. pose proof (pg_answers g s c org txn limit (pg_tick s) Hc) as Ha.
  cbn [pg_lexec]. unfold PgStore.Audit. cbn [pbind run fst].
  set (rs := take _ _) in Ha. set (q := q_bind (q_uuid org) _).
  assert (Hq : q (pg_tick s) (pg_db s) = if 0 <=? limit then Some (rs, pg_db s) else None).
  { subst q. assert (Hx : (if String.eqb txn "" then q_ret "" else q_uuid txn) (pg_tick s) (pg_db s) = Some (txn, pg_db s)).
    { destruct Ht as [->|(Ht & _ & Hn)]; [done|]. rewrite (proj2 (String.eqb_neq _ _) Hn). unfold q_uuid. by rewrite Ht. }
    unfold q_bind at 1. unfold q_uuid at 1. rewrite Ho. cbn [mbind option_bind]. unfold q_bind at 1. rewrite Hx.
    rewrite bind_db. unfold q_bind at 1, q_guard. by destruct (0 <=? limit). }
  eexists. split; [|exact Ha]. destruct (Z.leb_spec 0 limit) as [Hl|Hl].
  - by rewrite (query_ok q s _ _ Hq).
  - unfold query, exec. rewrite no_refusal. cbn. rewrite Hq. unfold rs. cbn. by replace (Z.to_nat limit) with 0%nat by lia.
Qed.

Lemma pg_books l v op s : pg_ok l s -> pg_vault v s ->
  pg_ok l (run (pg_lexec op) s).2 /\ pg_vault v (run (pg_lexec op) s).2.
Proof.
  intros Hl Hv. destruct (run_within (R := books_same) _ s (pg_lexec_aside op)) as ([[C V] A] & K & U & T). split.
  - by apply (pg_ok_core l s).
  - by apply (pg_vault_frame v s).
Qed.

Lemma pg_lrefines l g s op : pg_ok l s -> pg_log g s -> ladmissible canonical l op ->
  exists g', lspec_step MicroClock g op (run (pg_lexec op) s).1 g' /\ pg_log g' (run (pg_lexec op) s).2.
Proof.
  intros Hok Hg Had. destruct op as [e|org txn limit]; eexists.
  - cbn [pg_lexec]. rewrite run_pbind. pose proof (pg_emits e l g s Hok Hg Had) as H.
    destruct (run (PgStore.Emit e) s) as [[] s']. split; [apply lspec_emit|exact H].
  - destruct Had as [Ho Ht]. destruct (pg_reads org txn limit g s Hg Ho Ht) as (es & -> & Hes). split; [by apply lspec_audit|].
    apply (pg_log_frame g s); [|done]. apply run_within. cbn [pg_lexec]. unfold PgStore.Audit.
    repeat first [progress within_all | case_match_goal].
Qed.

Lemma pg_log_noted l g s op : pg_ok l s -> admissible canonical l op -> pg_log g s ->
  pg_log (g ++ noted op (run (pg_exec op) s).1) (run (pg_exec op) s).2.
Proof.
  intros Hok Had Hg. assert (Hc : (exists t, op = OCreateTxn t) \/ forall t, op <> OCreateTxn t) by (destruct op; first [by left; eexists | by right]).
  destruct Hc as [[t ->]|Hne].
  - destruct (CreateTxn_inserts t l s Hok Had) as (b & s1 & E & Hv & _ & Hok1 & Hev & Ht).
    cbn [pg_exec]. rewrite run_pbind, E. cbn [run fst snd noted].
    assert (Hid : t_ID (txn_view b) = uuid (pg_uid s)) by (rewrite Hv; unfold new_txn; by case_bool_decide).
    assert (Horg : t_OrgID (txn_view b) = t_OrgID t) by (rewrite Hv; unfold new_txn; by case_bool_decide).
    change (creation (txn_view b)) with (entry_of (txn_event b)). eapply (pg_emits _ _ g s1); [exact Hok1| |].
    + by apply (pg_log_keep g s).
    + split; [cbn; change (t_OrgID b) with (t_OrgID (txn_view b)); rewrite Horg; apply Had|]. split; [|done]. right. cbn.
      change (t_ID b) with (t_ID (txn_view b)). rewrite Hid, dom_insert. set_solver.
  - replace (noted op _) with (@nil Entry) by (destruct op; try done; by destruct (Hne t)). rewrite app_nil_r.
    apply (pg_log_frame g s); [|done]. apply run_within, pg_exec_quiet. exact Hne.
Qed.

#[export] Instance postgres_log_laws : LStoreLaws Pg.
Proof.
  split.
  - intros l v g s op Hl Hv Hg Had. destruct (pg_lrefines l g s op Hl Hg Had) as (g' & Hs & Hg'). exists g'.
    split; [exact Hs|]. destruct (pg_books l v op s Hl Hv) as (? & ?). done.
  - intros l g s op. apply pg_log_noted.
  - intros g s op. apply pg_log_frame, run_within, pg_vexec_quiet.
  - intros g s op. apply pg_log_frame, run_within, pg_aexec_quiet.
  - intros l v s op. apply pg_others.
Qed.

Lemma pg_log_New p : pg_log [] (new_pg p).
Proof. split; [|done]. exists []. split; try done; [constructor|]. intros x Hx. by apply elem_of_nil in Hx. Qed.

End PgLog.

(** C14: both stores keep the audit trail as the contract says.  With an
    honest key provider, in any sequence of calls of the whole Store
    interface, each admissible when it is made (what it refers to exists, its
    identifiers are well formed, and what is kept as JSON is of flags,
    integers and texts in ASCII without NUL), on a new MemoryStore, or on a
    new PGStore over an undisturbed database (no statement refused from
    outside the constraints, no result cut off), an audit read returns up to
    its limit the events emitted before it, and the creations of
    transactions, that belong to the organization and, when asked, to the
    transaction: all of them and no others when the limit allows, whatever is
    called in between.  MemoryStore returns them newest first; PGStore does
    if each reading of the process's clock is of a later microsecond than
    those before, and otherwise orders events of one microsecond by their
    random identifiers. *)
Theorem stores_keep_trail `{RL : RuntimeLaws} `{PE : PgEnv} `{PL : !PgLaws} `{PJ : !PgJsonLaws} `{PA : !PgAuditLaws}
    `{PI : !PlainIds} p cs : honest p ->
  (forall tools, trail_callable (LS := memory_log) cs (keyed_new p tools) ->
     trail_honoured True (exec_trail (LS := memory_log) cs (keyed_new p tools)).1) /\
  (Undisturbed -> trail_callable (LS := postgres_log) cs (new_pg p) ->
     trail_honoured MicroClock (exec_trail (LS := postgres_log) cs (new_pg p)).1).
Proof.
  intros Hp. split.
  - intros tools Hc. eapply (trail_contract (LS := memory_log) cs); [|apply mem_log_New|exact Hc].
    exists empty_ledger, empty_vault. split; [|by apply mem_vault_New].
    eapply mem_ok_frame; [..|apply (mem_ok_New tools)]; done.
  - intros UD Hc. eapply (trail_contract (LS := postgres_log) cs); [|apply pg_log_New|exact Hc].
    exists empty_ledger, empty_vault. split; [apply pg_ok_new|by apply pg_vault_New].
Qed.
