(* ===== verification/Safety.v ===== *)
(** * Safety: the invariant of the gateway under concurrency

    What is true of the store and of the trace of tool calls in every state
    that concurrent requests can reach ([inv]), what no step ever undoes
    ([mono]), and that every critical section respects both. *)

From S2P Require Export ReceiptChain PolicySets Interleave.

Open Scope Z_scope.

Section Safety.
Context `{RT : Runtime}.

(** ** Knowledge about actions *)

(** An identifier already drawn. *)
Definition known (w : World) (id : string) : Prop :=
  exists k, (k < w_uid w)%nat /\ id = uuid k.

Definition decided (a : TxnAction) (e : PolicyEffect) : Prop :=
  exists d, a_Decision a = Some d /\ d_Effect d = e.

(** A human granted an approval of this action. *)
Definition approved_by (w : World) (a : TxnAction) : Prop :=
  exists i ap, st_approvals (w_store w) !! i = Some ap /\ ap_OrgID ap = a_OrgID a /\
    ap_ActionID ap = Some (a_ID a) /\ ap_Status ap = ApApproved.

(** The action may run: its decision allows it, or requires an approval that
    was granted. *)
Definition authorised (w : World) (a : TxnAction) : Prop :=
  exists d, a_Decision a = Some d /\
    (is_allow (d_Effect d) = true \/
     (d_Effect d = EffectRequireApproval /\ approved_by w a)).

(** The tool was called for this action. *)
Definition called (w : World) (id : string) : Prop :=
  exists a, CallExecute a ∈ w_calls w /\ a_ID a = id.

(** The meaning of each status. *)
Definition cell_ok (w : World) (a : TxnAction) : Prop :=
  match a_Status a with
  | StZero => False
  | StProposed => True
  | StDenied => decided a EffectDeny
  | StAllowed => exists d, a_Decision a = Some d /\ d_Effect d <> EffectDeny /\
                           d_Effect d <> EffectRequireApproval
  | StAwaitingApproval => decided a EffectRequireApproval
  | StApproved => decided a EffectRequireApproval /\ approved_by w a
  | StExecuted | StUnknown | StFailed | StCompensated | StCompensationFailed =>
      authorised w a /\ called w (a_ID a)
  end.

(** The fields no step changes once the action is stored. *)
Definition core_of (a : TxnAction) : TxnAction :=
  a <| a_Decision := None |> <| a_Status := StZero |> <| a_Result := None |>
    <| a_Error := "" |> <| a_LatencyMS := 0 |>.

(** [a] is a copy of a cell that is past its decision and was not denied. *)
Definition settled (w : World) (a : TxnAction) : Prop :=
  exists c, st_actions (w_store w) !! a_ID a = Some c /\ core_of c = core_of a /\
    a_Decision c = a_Decision a /\ a_Status c <> StProposed /\ a_Status c <> StDenied.

Definition call_action (c : ToolCall) : TxnAction :=
  match c with CallExecute a | CallCompensate a | CallReconcile a => a end.

Definition call_ok (w : World) (c : ToolCall) : Prop :=
  settled w (call_action c) /\ authorised w (call_action c) /\
  match c with
  | CallCompensate a => IsIrreversible a && negb (IsCompensable a) = false
  | _ => True
  end.

(** A receipt is evidence of an authorised call. *)
Definition receipt_ok (w : World) (r : Receipt) : Prop :=
  exists c d, st_actions (w_store w) !! r_ActionID r = Some c /\
    a_OrgID c = r_OrgID r /\ a_TransactionID c = r_TransactionID r /\
    a_Tool c = r_Tool r /\ a_Action c = r_Action r /\ a_ArgumentsHash c = r_ArgumentsHash r /\
    a_AmountCents c = r_FinancialCents r /\
    a_Status c <> StProposed /\ a_Decision c = Some d /\ d_Effect d = r_Decision r /\
    d_PolicyVersion d = r_PolicyVersion r /\ authorised w c /\ called w (r_ActionID r).

Definition approval_ok (w : World) (i : string) (ap : Approval) : Prop :=
  ap_ID ap = i /\ known w i /\
  exists id a, ap_ActionID ap = Some id /\ st_actions (w_store w) !! id = Some a /\
    a_OrgID a = ap_OrgID ap /\ a_TransactionID a = ap_TransactionID ap /\
    a_Status a <> StProposed /\ decided a EffectRequireApproval.

(** ** The invariant *)

Record inv (w : World) : Prop := {
  inv_cells : forall id a, st_actions (w_store w) !! id = Some a ->
    a_ID a = id /\ known w id /\ cell_ok w a;
  inv_idem : forall k id, st_byIdem (w_store w) !! k = Some id <->
    exists a, st_actions (w_store w) !! id = Some a /\ idemKey a = k;
  inv_approvals : forall i ap, st_approvals (w_store w) !! i = Some ap -> approval_ok w i ap;
  inv_calls : forall c, c ∈ w_calls w -> call_ok w c;
  inv_receipts : forall r, r ∈ st_receiptsList (w_store w) -> receipt_ok w r;
  inv_chain : chain_ok (w_store w);
  inv_policies : policies_ok (w_store w) }.

(** ** What no step undoes *)

Definition evolve (a a' : TxnAction) : Prop :=
  core_of a' = core_of a /\
  (a_Status a <> StProposed ->
     a_Decision a' = a_Decision a /\ a_Status a' <> StProposed /\
     (a_Status a' = StDenied <-> a_Status a = StDenied)).

Definition approval_evolve (ap ap' : Approval) : Prop :=
  ap_OrgID ap' = ap_OrgID ap /\ ap_TransactionID ap' = ap_TransactionID ap /\
  ap_ActionID ap' = ap_ActionID ap /\ (ap_Status ap <> ApPending -> ap' = ap).

Record mono (w w' : World) : Prop := {
  mono_uid : (w_uid w <= w_uid w')%nat;
  mono_cells : forall id a, st_actions (w_store w) !! id = Some a ->
    exists a', st_actions (w_store w') !! id = Some a' /\ evolve a a';
  mono_approvals : forall i ap, st_approvals (w_store w) !! i = Some ap ->
    exists ap', st_approvals (w_store w') !! i = Some ap' /\ approval_evolve ap ap';
  mono_calls : w_calls w `prefix_of` w_calls w';
  mono_audit : st_audit (w_store w) `prefix_of` st_audit (w_store w') }.

Lemma evolve_refl a : evolve a a.
Proof. by split. Qed.

Lemma evolve_trans a b c : evolve a b -> evolve b c -> evolve a c.
Proof.
  intros [H1 H2] [H3 H4]. split; [congruence|]. intros Hp.
  destruct (H2 Hp) as (? & Hb & ?). destruct (H4 Hb) as (? & ? & ?).
  split; [congruence|]. split; [done|]. tauto.
Qed.

Lemma approval_evolve_refl ap : approval_evolve ap ap.
Proof. by repeat split. Qed.

Lemma approval_evolve_trans a b c :
  approval_evolve a b -> approval_evolve b c -> approval_evolve a c.
Proof.
  intros (? & ? & ? & Ha) (? & ? & ? & Hb). split; [congruence|]. split; [congruence|].
  split; [congruence|]. intros Hp. pose proof (Ha Hp). subst b. auto.
Qed.

#[export] Instance mono_preorder : PreOrder mono.
Proof.
  split.
  - intros w. split; [done| | |done|done].
    + intros id a Ha. eauto using evolve_refl.
    + intros i ap Hap. eauto using approval_evolve_refl.
  - intros w1 w2 w3 [U1 C1 A1 L1 E1] [U2 C2 A2 L2 E2]. split; [lia| | |by etrans|by etrans].
    + intros id a Ha. destruct (C1 id a Ha) as (b & Hb & ?). destruct (C2 id b Hb) as (c & ? & ?).
      eauto using evolve_trans.
    + intros i ap Hap. destruct (A1 i ap Hap) as (b & Hb & ?).
      destruct (A2 i b Hb) as (c & ? & ?). eauto using approval_evolve_trans.
Qed.

(** ** Stable facts *)

Lemma core_of_fields a b : core_of a = core_of b ->
  a_ID a = a_ID b /\ a_OrgID a = a_OrgID b /\ a_TransactionID a = a_TransactionID b /\
  a_Tool a = a_Tool b /\ a_Action a = a_Action b /\ a_ArgumentsHash a = a_ArgumentsHash b /\
  a_AmountCents a = a_AmountCents b /\ a_Classes a = a_Classes b /\ idemKey a = idemKey b.
Proof.
  destruct a, b. unfold core_of, idemKey. cbn. intros H. injection H as. by subst.
Qed.

Lemma known_mono w w' id : mono w w' -> known w id -> known w' id.
Proof. intros [U _ _ _ _] (k & ? & ?). exists k. split; [lia|done]. Qed.

Lemma approved_by_core w a b :
  core_of a = core_of b -> approved_by w a -> approved_by w b.
Proof.
  intros Hc (i & ap & ? & ? & ? & ?). apply core_of_fields in Hc as (Hid & Ho & _).
  exists i, ap. rewrite <- Hid, <- Ho. done.
Qed.

Lemma approved_by_mono w w' a : mono w w' -> approved_by w a -> approved_by w' a.
Proof.
  intros Hm (i & ap & Hi & Ho & Ha & Hs).
  destruct (mono_approvals _ _ Hm i ap Hi) as (ap' & Hi' & _ & _ & _ & Heq).
  rewrite Heq in Hi' by congruence. exists i, ap. done.
Qed.

Lemma authorised_mono w w' a : mono w w' -> authorised w a -> authorised w' a.
Proof.
  intros Hm (d & Hd & [He|[He Ha]]); exists d; split; auto.
  right. split; [done|]. by eapply approved_by_mono.
Qed.

Lemma authorised_core w a b :
  core_of a = core_of b -> a_Decision a = a_Decision b -> authorised w a -> authorised w b.
Proof.
  intros Hc Hd (d & Ha & [He|[He Hap]]); exists d; (split; [congruence|]); auto.
  right. split; [done|]. by eapply approved_by_core.
Qed.

Lemma called_mono w w' id : mono w w' -> called w id -> called w' id.
Proof.
  intros Hm (a & Ha & Hid). exists a. split; [|done].
  destruct (mono_calls _ _ Hm) as [l ->]. apply elem_of_app. auto.
Qed.

Lemma cell_ok_mono w w' a : mono w w' -> cell_ok w a -> cell_ok w' a.
Proof.
  intros Hm. unfold cell_ok.
  destruct (a_Status a); try done; intros [? ?]; split;
    eauto using approved_by_mono, authorised_mono, called_mono.
Qed.

Lemma settled_mono w w' a : mono w w' -> settled w a -> settled w' a.
Proof.
  intros Hm (c & Hc & Hcore & Hd & Hp & Hn).
  destruct (mono_cells _ _ Hm _ _ Hc) as (c' & Hc' & Hcore' & He).
  destruct (He Hp) as (Hd' & Hp' & Hn'). exists c'. split; [done|].
  split; [congruence|]. split; [congruence|]. split; [done|]. tauto.
Qed.

Lemma call_ok_mono w w' c : mono w w' -> call_ok w c -> call_ok w' c.
Proof. intros Hm (? & ? & ?). split; [|split]; eauto using settled_mono, authorised_mono. Qed.

Lemma receipt_ok_mono w w' r : mono w w' -> receipt_ok w r -> receipt_ok w' r.
Proof.
  intros Hm (c & d & Hc & ? & ? & ? & ? & ? & ? & Hp & Hd & ? & ? & Hau & Hca).
  destruct (mono_cells _ _ Hm _ _ Hc) as (c' & Hc' & Hcore & He).
  destruct (He Hp) as (Hd' & Hp' & _).
  pose proof (core_of_fields _ _ Hcore) as (? & ? & ? & ? & ? & ? & ? & _).
  exists c', d. repeat (split; [congruence|]).
  split; [|by eapply called_mono].
  eapply authorised_core; [symmetry; exact Hcore|congruence|by eapply authorised_mono].
Qed.

Lemma approval_ok_mono w w' i ap : mono w w' -> approval_ok w i ap -> approval_ok w' i ap.
Proof.
  intros Hm (? & Hk & id & a & Hid & Ha & ? & ? & Hp & d & Hd & He).
  destruct (mono_cells _ _ Hm _ _ Ha) as (a' & Ha' & Hcore & Hev).
  destruct (Hev Hp) as (Hd' & Hp' & _).
  pose proof (core_of_fields _ _ Hcore) as (? & ? & ? & _).
  split; [done|]. split; [by eapply known_mono|]. exists id, a'.
  repeat (split; [congruence|]). exists d. split; [congruence|done].
Qed.

Lemma same_chain_receipt_ok w r r' :
  r_ActionID r' = r_ActionID r -> r_OrgID r' = r_OrgID r ->
  r_TransactionID r' = r_TransactionID r -> r_Tool r' = r_Tool r -> r_Action r' = r_Action r ->
  r_ArgumentsHash r' = r_ArgumentsHash r -> r_FinancialCents r' = r_FinancialCents r ->
  r_Decision r' = r_Decision r -> r_PolicyVersion r' = r_PolicyVersion r ->
  receipt_ok w r -> receipt_ok w r'.
Proof.
  unfold receipt_ok. intros -> -> -> -> -> -> -> -> ->. done.
Qed.

End Safety.
