(* ===== verification/SafetySteps.v ===== *)
(** * SafetySteps: every critical section keeps the invariant

    First the steps that leave actions, approvals, receipts and the trace of
    calls alone ([benign]), then one rule of the logic for each step that
    does not. *)

From S2P Require Export Safety.

Open Scope Z_scope.

(** ** Benign steps *)

Record untouched (w w' : World) : Prop := {
  unt_actions : st_actions (w_store w') = st_actions (w_store w);
  unt_idem : st_byIdem (w_store w') = st_byIdem (w_store w);
  unt_approvals : st_approvals (w_store w') = st_approvals (w_store w);
  unt_receipts : st_receiptsList (w_store w') = st_receiptsList (w_store w);
  unt_lastHash : st_lastHash (w_store w') = st_lastHash (w_store w);
  unt_calls : w_calls w' = w_calls w;
  unt_uid : (w_uid w <= w_uid w')%nat;
  unt_audit : st_audit (w_store w) `prefix_of` st_audit (w_store w');
  unt_policies : policies_ok (w_store w) -> policies_ok (w_store w') }.

Create HintDb benign.

Section Benign.
Context `{RT : Runtime}.

Lemma untouched_refl w : untouched w w.
Proof. by split. Qed.

Lemma untouched_trans w1 w2 w3 : untouched w1 w2 -> untouched w2 w3 -> untouched w1 w3.
Proof. intros [] []. split; try congruence; [lia|by etrans|auto]. Qed.

Lemma untouched_mono w w' : untouched w w' -> mono w w'.
Proof.
  intros [Ha _ Hp _ _ Hc Hu Hau _]. split; [done| | |by rewrite Hc|done].
  - intros id a Hid. rewrite <- Ha in Hid. eauto using evolve_refl.
  - intros i ap Hi. rewrite <- Hp in Hi. eauto using approval_evolve_refl.
Qed.

Lemma untouched_inv w w' : untouched w w' -> inv w -> inv w'.
Proof.
  intros Hu Hi. pose proof (untouched_mono _ _ Hu) as Hm. destruct Hu as [Ha Hid Hp Hr Hl Hc _ _ Hpol].
  destruct Hi as [C I A K R Ch P]. split.
  - intros id a Hin. rewrite Ha in Hin. destruct (C id a Hin) as (? & ? & ?).
    eauto using known_mono, cell_ok_mono.
  - intros k id. rewrite Hid, Ha. apply I.
  - intros i ap Hin. rewrite Hp in Hin. eauto using approval_ok_mono.
  - intros c Hin. rewrite Hc in Hin. eauto using call_ok_mono.
  - intros r Hin. rewrite Hr in Hin. eauto using receipt_ok_mono.
  - intros org. rewrite Hr, Hl. apply Ch.
  - by apply Hpol.
Qed.

(** Enough for [benign]: the core is the same afterwards. *)
Definition quiet {X} (m : M X) : Prop := forall w, untouched w (m w).2.

Lemma quiet_benign {X} (m : M X) : quiet m -> benign inv mono m.
Proof.
  intros Hq w Hi. specialize (Hq w). split; [by eapply untouched_inv|].
  split; [by apply untouched_mono|]. by apply unt_actions.
Qed.

Lemma quiet_ret {X} (x : X) : quiet (m_ret x).
Proof. intros w. apply untouched_refl. Qed.

Lemma quiet_bind {X Y} (m : M X) (k : X -> M Y) :
  quiet m -> (forall x, quiet (k x)) -> quiet (m_bind m k).
Proof.
  intros Hm Hk w. unfold m_bind. specialize (Hm w). destruct (m w) as [x w']. cbn in Hm.
  eapply untouched_trans; [exact Hm|apply Hk].
Qed.

Lemma quiet_read {X} (m : M X) : (forall w, (m w).2 = w) -> quiet m.
Proof. intros H w. rewrite H. apply untouched_refl. Qed.

Lemma quiet_get_store : quiet get_store.
Proof. by apply quiet_read. Qed.

Lemma quiet_get_tools : quiet get_tools.
Proof. by apply quiet_read. Qed.

Lemma quiet_get_signer : quiet get_signer.
Proof. by apply quiet_read. Qed.

Lemma quiet_modify (f : MemoryStore -> MemoryStore) :
  (forall s, st_actions (f s) = st_actions s /\ st_byIdem (f s) = st_byIdem s /\
     st_approvals (f s) = st_approvals s /\ st_receiptsList (f s) = st_receiptsList s /\
     st_lastHash (f s) = st_lastHash s /\ st_audit s `prefix_of` st_audit (f s) /\
     (policies_ok s -> policies_ok (f s))) ->
  quiet (modify_store f).
Proof.
  intros Hf w. destruct (Hf (w_store w)) as (? & ? & ? & ? & ? & ? & ?). by split.
Qed.

Lemma quiet_uid : quiet uid.
Proof. intros w. split; cbn; try done. lia. Qed.

Lemma quiet_tick : quiet tick.
Proof. intros w. by split. Qed.

Lemma quiet_now : quiet now.
Proof. intros w. by split. Qed.

Lemma quiet_ranging {A} (m : gmap string A) : quiet (ranging m).
Proof. intros w. by split. Qed.

Lemma quiet_readings n : quiet (readings n).
Proof. intros w. by split. Qed.

Lemma quiet_TraceID : quiet TraceID.
Proof. intros w. by split. Qed.

Lemma quiet_emitLocked e : quiet (emitLocked e).
Proof.
  apply quiet_modify. intros s. cbn. repeat (split; [done|]).
  split; [by apply prefix_app_r|done].
Qed.

End Benign.

#[export] Hint Resolve quiet_ret quiet_get_store quiet_get_tools quiet_get_signer quiet_uid quiet_tick
  quiet_now quiet_ranging quiet_readings quiet_TraceID quiet_emitLocked : benign.

(** Proves [quiet m] by following the structure of [m]. *)
Ltac quiet_step :=
  first
  [ solve [auto with benign]
  | apply quiet_bind; [|intros ?]
  | apply quiet_modify; intros ?; cbn;
    solve [repeat (split; [reflexivity|]); intros Hpol; exact Hpol]
  | match goal with
    | |- quiet (match ?x with _ => _ end) => destruct x
    | |- quiet (if ?x then _ else _) => destruct x
    end ].
Ltac quiet := repeat quiet_step.

Section Quiet.
Context `{RT : Runtime} `{SE : Secrets}.

Lemma quiet_Emit e : quiet (Emit e).
Proof. unfold Emit. quiet. Qed.
Lemma quiet_GetAgent o a : quiet (GetAgent o a).
Proof. unfold GetAgent. quiet. Qed.
Lemma quiet_CreateAgent o p n e g h : quiet (CreateAgent o p n e g h).
Proof. unfold CreateAgent. quiet. Qed.
Lemma quiet_Policies o : quiet (Policies o).
Proof. unfold Policies. quiet. Qed.
Lemma quiet_latestVersionLocked o : quiet (latestVersionLocked o).
Proof. unfold latestVersionLocked. quiet. Qed.
Hint Resolve quiet_latestVersionLocked : benign.
Lemma quiet_CreatePolicySet o r b : quiet (CreatePolicySet o r b).
Proof.
  intros w. pose proof (policies_ok_CreatePolicySet o r b w) as Hp.
  split; try done. cbn. lia.
Qed.
Lemma quiet_ActivatePolicySet o v : quiet (ActivatePolicySet o v).
Proof.
  intros w. pose proof (policies_ok_ActivatePolicySet o v w) as Hp. revert Hp.
  unfold ActivatePolicySet. cbn. by destruct (any _ _).
Qed.
Lemma quiet_PolicySets o : quiet (PolicySets o).
Proof. unfold PolicySets. quiet. Qed.
Lemma quiet_ActivePolicySet o : quiet (ActivePolicySet o).
Proof. unfold ActivePolicySet. quiet. Qed.
Lemma quiet_Audit o t l : quiet (Audit o t l).
Proof. unfold Audit. quiet. Qed.
Lemma quiet_CreateTxn t : quiet (CreateTxn t).
Proof. unfold CreateTxn. quiet. Qed.
Lemma quiet_GetTxn o t : quiet (GetTxn o t).
Proof. unfold GetTxn. quiet. Qed.
Hint Resolve quiet_GetTxn : benign.
Lemma quiet_SetTxnStatus o t st : quiet (SetTxnStatus o t st).
Proof. unfold SetTxnStatus. quiet. Qed.
Lemma quiet_ListTxns o : quiet (ListTxns o).
Proof. unfold ListTxns. quiet. Qed.
Lemma quiet_GetAction o a : quiet (GetAction o a).
Proof. unfold GetAction. quiet. Qed.
Lemma quiet_load_action i : quiet (load_action i).
Proof. unfold load_action. quiet. Qed.
Lemma quiet_ActionsForTxn o t : quiet (ActionsForTxn o t).
Proof. unfold ActionsForTxn. quiet. Qed.
Lemma quiet_PendingApprovals o : quiet (PendingApprovals o).
Proof. unfold PendingApprovals. quiet. Qed.
Lemma quiet_load_receipt p : quiet (load_receipt p).
Proof. unfold load_receipt. quiet. Qed.
Lemma quiet_ReceiptsForTxn o t : quiet (ReceiptsForTxn o t).
Proof. unfold ReceiptsForTxn. quiet. Qed.
Lemma quiet_VerifyChain o : quiet (VerifyChain o).
Proof. unfold VerifyChain. quiet. Qed.
Lemma quiet_StoreCredential o a k h : quiet (StoreCredential o a k h).
Proof. unfold StoreCredential. quiet. Qed.
Lemma quiet_GetCredential k : quiet (GetCredential k).
Proof. unfold GetCredential. quiet. Qed.
Lemma quiet_AgentCredentialHashes o : quiet (AgentCredentialHashes o).
Proof. unfold AgentCredentialHashes. quiet. Qed.
Lemma quiet_GetOperatorToken k : quiet (GetOperatorToken k).
Proof. unfold GetOperatorToken. quiet. Qed.
Lemma quiet_RevokeCredential k : quiet (RevokeCredential k).
Proof. unfold RevokeCredential. quiet. Qed.
Lemma quiet_TouchCredential k : quiet (TouchCredential k).
Proof. unfold TouchCredential. quiet. Qed.
Lemma quiet_TouchOperatorToken k : quiet (TouchOperatorToken k).
Proof. unfold TouchOperatorToken. quiet. Qed.
Lemma quiet_CreateGrant g : quiet (CreateGrant g).
Proof. unfold CreateGrant. quiet. Qed.
Lemma quiet_GrantsForAgent o a : quiet (GrantsForAgent o a).
Proof. unfold GrantsForAgent. quiet. Qed.
Lemma quiet_RevokeGrant o g : quiet (RevokeGrant o g).
Proof. unfold RevokeGrant. quiet. Qed.
Lemma quiet_randHex n : quiet (randHex n).
Proof. unfold randHex. quiet. Qed.
Hint Resolve quiet_randHex : benign.
Lemma quiet_NewAgentSecret : quiet NewAgentSecret.
Proof. unfold NewAgentSecret, new_secret. quiet. Qed.
Lemma quiet_Allow k : quiet (Allow k).
Proof.
  unfold Allow. apply quiet_bind; [quiet|]. intros t w.
  destruct (allow_at t k (w_limiter w)) as [ok l]. by split.
Qed.

Lemma quiet_sealLocked s : quiet (sealLocked s).
Proof. unfold sealLocked. quiet. Qed.
Lemma quiet_openLocked s : quiet (openLocked s).
Proof. unfold openLocked. quiet. Qed.
Hint Resolve quiet_sealLocked quiet_openLocked : benign.
Lemma quiet_UpsertMCPServer srv token : quiet (UpsertMCPServer srv token).
Proof. unfold UpsertMCPServer. quiet. Qed.
Lemma quiet_GetMCPServer o n : quiet (GetMCPServer o n).
Proof. unfold GetMCPServer. quiet. Qed.
Lemma quiet_ListMCPServers o : quiet (ListMCPServers o).
Proof. unfold ListMCPServers. quiet. Qed.
Lemma quiet_SetIntegrationCredential o n s : quiet (SetIntegrationCredential o n s).
Proof. unfold SetIntegrationCredential. quiet. Qed.
Lemma quiet_ListIntegrationCredentials o : quiet (ListIntegrationCredentials o).
Proof. unfold ListIntegrationCredentials. quiet. Qed.
Lemma quiet_SetIntegrationConfig o n c : quiet (SetIntegrationConfig o n c).
Proof. unfold SetIntegrationConfig. quiet. Qed.
Lemma quiet_tools_Register `{NT : Net} t a c h : quiet (tools_Register t a c h).
Proof. intros w. by split. Qed.
Lemma quiet_fetch_tools `{JE : JevEnv} `{NT : Net} u t : quiet (fetch_tools u t).
Proof. intros w. by split. Qed.

End Quiet.

#[export] Hint Resolve quiet_Emit quiet_GetAgent quiet_CreateAgent quiet_Policies
  quiet_CreatePolicySet quiet_ActivatePolicySet quiet_PolicySets quiet_ActivePolicySet quiet_Audit
  quiet_CreateTxn quiet_GetTxn quiet_SetTxnStatus quiet_ListTxns quiet_GetAction quiet_load_action
  quiet_ActionsForTxn quiet_PendingApprovals quiet_load_receipt quiet_ReceiptsForTxn
  quiet_VerifyChain quiet_StoreCredential quiet_GetCredential quiet_AgentCredentialHashes
  quiet_GetOperatorToken quiet_RevokeCredential quiet_TouchCredential quiet_TouchOperatorToken
  quiet_CreateGrant quiet_GrantsForAgent quiet_RevokeGrant quiet_NewAgentSecret quiet_Allow
  quiet_sealLocked quiet_openLocked quiet_UpsertMCPServer quiet_GetMCPServer quiet_ListMCPServers
  quiet_SetIntegrationCredential quiet_ListIntegrationCredentials quiet_SetIntegrationConfig
  quiet_tools_Register quiet_fetch_tools : benign.

(** ** Programs of quiet steps *)

Section QuietPrograms.
Context `{RT : Runtime}.

(** Sequences of quiet steps leave the core alone. *)
Fixpoint quiet_prog {A} (p : prog A) : Prop :=
  match p with
  | Ret _ => True
  | Atomic m k => quiet m /\ forall x, quiet_prog (k x)
  end.

Lemma quiet_run {A} (p : prog A) w : quiet_prog p -> untouched w (run p w).2.
Proof.
  revert w. induction p as [a|X m k IH]; intros w Hp; cbn [run] in *; [apply untouched_refl|].
  destruct Hp as [Hm Hk]. specialize (Hm w). destruct (m w) as [x w1]. cbn in Hm.
  eapply untouched_trans; [exact Hm|]. by apply IH.
Qed.

Lemma quiet_prog_pbind {A B} (p : prog A) (f : A -> prog B) :
  quiet_prog p -> (forall a, quiet_prog (f a)) -> quiet_prog (pbind p f).
Proof. induction p as [a|X m k IH]; intros Hp Hf; cbn in *; [done|]. destruct Hp. auto. Qed.

Lemma quiet_prog_for_each {A S} (body : A -> S -> prog S) l s :
  (forall x s, quiet_prog (body x s)) -> quiet_prog (for_each body l s).
Proof.
  intros Hb. revert s. induction l as [|x l IH]; intros s; cbn [for_each]; [done|].
  by apply quiet_prog_pbind.
Qed.

End QuietPrograms.

(** Follows a program all of whose steps are quiet. *)
Ltac quiet_prog_step :=
  first
  [ done
  | apply quiet_prog_pbind; [|intros ?]
  | split; [solve [auto with benign]|intros ?]
  | match goal with
    | |- quiet_prog (match ?x with _ => _ end) => destruct x
    | |- quiet_prog (if ?x then _ else _) => destruct x
    | |- quiet_prog (let '(_, _) := ?x in _) => destruct x
    end ].
Ltac quiet_prog_all := cbv zeta; repeat (quiet_prog_step; cbv zeta).
