(* ===== verification/SafetyRules.v ===== *)
(** * SafetyRules: the logic's rule for each step that touches the core *)

From S2P Require Export SafetySteps.

Open Scope Z_scope.

Abbreviation wps := (wp inv mono).

Section Rules.
Context `{RL : RuntimeLaws}.

(** ** General rules *)

Lemma wp_quiet {X A} (m : M X) (k : X -> prog A) O w Q :
  quiet m ->
  (forall x w2, mono w w2 -> inv w2 -> holds O w2 -> wps (k x) O w2 Q) ->
  wps (Atomic m k) O w Q.
Proof.
  intros Hq Hk. apply wp_benign; [apply _|by apply quiet_benign|].
  intros w1 x w2 _ _ _ Hi Hm Ho. by apply Hk.
Qed.

Lemma run_GetAction orgID id (w : World) :
  GetAction orgID id w =
  (a ← st_actions (w_store w) !! id; if String.eqb (a_OrgID a) orgID then Some a else None, w).
Proof. done. Qed.

Lemma wp_GetAction {A} orgID id (k : option TxnAction -> prog A) O w Q :
  (forall r w2, mono w w2 -> inv w2 -> holds O w2 ->
     match r with
     | Some a => st_actions (w_store w2) !! id = Some a /\ a_OrgID a = orgID /\ a_ID a = id /\
                 cell_ok w2 a
     | None => True
     end -> wps (k r) O w2 Q) ->
  wps (Atomic (GetAction orgID id) k) O w Q.
Proof.
  intros Hk. apply wp_read; [apply _|done|]. intros w1 x Em Hi Hm Ho.
  rewrite run_GetAction in Em. injection Em as <-. apply Hk; try done.
  destruct (st_actions (w_store w1) !! id) as [a|] eqn:Ea; [|done]. cbn.
  destruct (String.eqb (a_OrgID a) orgID) eqn:Eo; [|done]. bool_guards.
  destruct (inv_cells _ Hi _ _ Ea) as (? & _ & ?). done.
Qed.

(** ** Writing a cell *)

(** The world with one action cell replaced. *)
Definition put_action (a : TxnAction) (w : World) : World :=
  w <| w_store ::= fun s => s <| st_actions ::= <[ a_ID a := a ]> |> |>.

Lemma put_action_ok w c a :
  inv w -> st_actions (w_store w) !! a_ID a = Some c ->
  evolve c a -> cell_ok (put_action a w) a ->
  inv (put_action a w) /\ mono w (put_action a w).
Proof.
  intros Hi Hc Hev Hok.
  assert (Hcore : core_of a = core_of c) by apply Hev.
  assert (Hm : mono w (put_action a w)).
  { split; [done| | |done|done]; cbn.
    - intros id b Hb. destruct (decide (a_ID a = id)) as [<-|Hne].
      + exists a. rewrite lookup_insert_eq. split; [done|]. congruence.
      + exists b. rewrite lookup_insert_ne by done. eauto using evolve_refl.
    - intros i ap Hap. eauto using approval_evolve_refl. }
  split; [|done]. destruct Hi as [C I Ap K R Ch P]. split; cbn.
  - intros id b Hb. destruct (decide (a_ID a = id)) as [<-|Hne].
    + rewrite lookup_insert_eq in Hb. injection Hb as <-. destruct (C _ _ Hc) as (? & ? & ?).
      split; [done|]. split; [by eapply known_mono|done].
    + rewrite lookup_insert_ne in Hb by done. destruct (C _ _ Hb) as (? & ? & ?).
      split; [done|]. split; [by eapply known_mono|by eapply cell_ok_mono].
  - intros k id. rewrite I. apply core_of_fields in Hcore as (_ & _ & _ & _ & _ & _ & _ & _ & Hk).
    destruct (decide (a_ID a = id)) as [<-|Hne].
    + rewrite lookup_insert_eq, Hc. split; intros (b & Hb & <-); injection Hb as <-; eauto.
    + by rewrite lookup_insert_ne by done.
  - intros i ap Hap. eauto using approval_ok_mono.
  - intros x Hx. eauto using call_ok_mono.
  - intros r Hr. eauto using receipt_ok_mono.
  - exact Ch.
  - exact P.
Qed.

Lemma write_action_put id f w c :
  st_actions (w_store w) !! id = Some c -> a_ID (f c) = id ->
  write_action id f w = (tt, put_action (f c) w).
Proof.
  intros Hc Hid. unfold write_action, modify_store, put_action. f_equal.
  cbn. unfold set_field; cbn. f_equal. unfold set_field; cbn. f_equal.
  rewrite Hid. apply map_eq. intros i. destruct (decide (id = i)) as [<-|Hne].
  - by rewrite lookup_alter_eq, lookup_insert_eq, Hc.
  - by rewrite lookup_alter_ne, lookup_insert_ne by done.
Qed.

Lemma wp_set_decision {A} a d (k : unit -> prog A) w Q :
  let a' := a <| a_Decision := Some d |> in
  (forall w2, mono w w2 -> inv w2 -> holds (Some a') w2 -> wps (k tt) (Some a') w2 Q) ->
  wps (Atomic (set_decision (a_ID a) d) k) (Some a) w Q.
Proof.
  intros a' Hk. cbn [wp]. intros w1 Hm Hi [Hc Hs].
  unfold set_decision. rewrite (write_action_put _ _ _ _ Hc) by done. fold a'.
  destruct (put_action_ok w1 a a' Hi Hc) as [Hi2 Hm2].
  { split; [done|]. intros Hp. done. }
  { unfold cell_ok. cbn. by rewrite Hs. }
  assert (Hh : holds (Some a') (put_action a' w1)).
  { cbn. by rewrite lookup_insert_eq. }
  split; [done|]. split; [done|]. split.
  { intros id b Hne Hb _. cbn. rewrite lookup_insert_ne; [done|]. cbn in *. congruence. }
  exists (Some a'). split; [done|]. split; [right; by left|]. apply Hk; [|done|done].
  by etrans.
Qed.

(** The owner's last write: the cell leaves "proposed". *)
Lemma wp_set_status {A} a st (k : unit -> prog A) w Q :
  let a' := a <| a_Status := st |> in
  st <> StProposed -> (forall w, cell_ok w a') ->
  (forall w2, mono w w2 -> inv w2 -> st_actions (w_store w2) !! a_ID a = Some a' ->
     wps (k tt) None w2 Q) ->
  wps (Atomic (set_status (a_ID a) st) k) (Some a) w Q.
Proof.
  intros a' Hst Hok Hk. cbn [wp]. intros w1 Hm Hi [Hc Hs].
  unfold set_status. rewrite (write_action_put _ _ _ _ Hc) by done. fold a'.
  destruct (put_action_ok w1 a a' Hi Hc) as [Hi2 Hm2]; [|apply Hok|].
  { split; [done|]. intros Hp. done. }
  split; [done|]. split; [done|]. split.
  { intros id b Hne Hb _. cbn. rewrite lookup_insert_ne; [done|]. cbn in *. congruence. }
  exists None. split; [done|]. split; [by left|]. apply Hk; [by etrans|done|].
  cbn. by rewrite lookup_insert_eq.
Qed.

(** [UpdateAction] of a copy that is past its decision. *)
Lemma run_UpdateAction a w c :
  inv w -> st_actions (w_store w) !! a_ID a = Some c -> core_of a = core_of c ->
  UpdateAction a w = (tt, put_action a w).
Proof.
  intros Hi Hc Hcore.
  assert (Hidem : <[ idemKey a := a_ID a ]> (st_byIdem (w_store w)) = st_byIdem (w_store w)).
  { apply insert_id, (inv_idem _ Hi). exists c. split; [done|].
    apply core_of_fields in Hcore as (_ & _ & _ & _ & _ & _ & _ & _ & Hk). done. }
  unfold UpdateAction, put_action. cbn. rewrite Hc. unfold modify_store, set_field. cbn. by rewrite Hidem.
Qed.

Definition past (st : ActionStatus) : Prop := st <> StProposed /\ st <> StDenied.

Lemma wp_UpdateAction {A} a (k : unit -> prog A) w Q :
  settled w a -> cell_ok w a -> past (a_Status a) ->
  (forall w2, mono w w2 -> inv w2 -> wps (k tt) None w2 Q) ->
  wps (Atomic (UpdateAction a) k) None w Q.
Proof.
  intros Hse Hok [Hp Hn] Hk. cbn [wp]. intros w1 Hm Hi _.
  destruct (settled_mono _ _ _ Hm Hse) as (c & Hc & Hcore & Hd & Hcp & Hcn).
  rewrite (run_UpdateAction _ _ c) by done.
  assert (Hev : evolve c a).
  { split; [done|]. intros _. split; [done|]. split; [done|]. tauto. }
  assert (Hok1 : cell_ok w1 a) by (by eapply cell_ok_mono).
  destruct (put_action_ok w1 c a Hi Hc Hev) as [Hi2 Hm2].
  { unfold cell_ok in *. destruct (a_Status a); exact Hok1. }
  split; [done|]. split; [done|]. split.
  { intros id b _ Hb Hbp. cbn. rewrite lookup_insert_ne; [done|]. congruence. }
  exists None. split; [done|]. split; [by left|]. apply Hk; [by etrans|done].
Qed.

(** [UpdateAction(stored)] of the cell itself changes nothing. *)
Lemma wp_update_cell {A} id c (k : unit -> prog A) O w Q :
  st_actions (w_store w) !! id = Some c ->
  (forall w2, mono w w2 -> inv w2 -> holds O w2 -> wps (k tt) O w2 Q) ->
  wps (Atomic (update_cell id) k) O w Q.
Proof.
  intros Hc Hk. cbn [wp]. intros w1 Hm Hi Ho.
  destruct (mono_cells _ _ Hm _ _ Hc) as (c1 & Hc1 & _).
  destruct (inv_cells _ Hi _ _ Hc1) as (Hid & _ & _).
  assert (Hself : put_action c1 w1 = w1).
  { unfold put_action. destruct w1 as [s ? ? ? ? ? ?], s. unfold set_field; cbn in *.
    unfold set_field; cbn. rewrite Hid. by rewrite insert_id. }
  assert (Hrun : update_cell id w1 = (tt, w1)).
  { assert (Hload : load_action id w1 = (c1, w1)) by (unfold load_action; cbn; by rewrite Hc1).
    unfold update_cell. unfold m_bind. rewrite Hload.
    rewrite (run_UpdateAction _ _ c1); [by rewrite Hself|done|by rewrite Hid|done]. }
  rewrite Hrun. split; [done|]. split; [reflexivity|]. split; [by intros id' b|].
  exists O. split; [done|]. split; [right; by left|]. by apply Hk.
Qed.

End Rules.
