(* ===== verification/SafetyRules2.v ===== *)
(** * SafetyRules2: rules for new actions, approvals, tool calls, receipts *)

From S2P Require Export SafetyRules.

Open Scope Z_scope.

Section MoreRules.
Context `{RL : RuntimeLaws}.

(** ** A fresh identifier names nothing yet *)

Lemma uuid_fresh w id : known w id -> id <> uuid (w_uid w).
Proof. intros (k & Hk & ->) Heq. apply (inj uuid) in Heq. lia. Qed.

Lemma fresh_action w : inv w -> st_actions (w_store w) !! uuid (w_uid w) = None.
Proof.
  intros Hi. destruct (st_actions (w_store w) !! uuid (w_uid w)) as [a|] eqn:Ea; [|done].
  destruct (inv_cells _ Hi _ _ Ea) as (_ & Hk & _). by apply uuid_fresh in Hk.
Qed.

Lemma fresh_approval w : inv w -> st_approvals (w_store w) !! uuid (w_uid w) = None.
Proof.
  intros Hi. destruct (st_approvals (w_store w) !! uuid (w_uid w)) as [a|] eqn:Ea; [|done].
  destruct (inv_approvals _ Hi _ _ Ea) as (_ & Hk & _). by apply uuid_fresh in Hk.
Qed.

(** ** AddAction *)

(** The cell a fresh proposal is stored as, and the world after it. *)
Definition new_cell (a : TxnAction) (w : World) : TxnAction :=
  a <| a_ID := uuid (w_uid w) |> <| a_CreatedAt := clock (w_tick w) |>
    <| a_ArgumentsHash := Canonical (value_of_map (a_Arguments a)) |>.

Definition with_cell (a : TxnAction) (w : World) : World :=
  w <| w_store ::= fun s => s <| st_actions ::= <[ a_ID a := a ]> |>
                              <| st_byIdem ::= <[ idemKey a := a_ID a ]> |> |>
    <| w_uid ::= S |> <| w_tick ::= S |>.

Lemma run_AddAction_fresh a w :
  prev_action (w_store w) (idemKey a) = None -> a_Status a = StProposed ->
  AddAction a w = ((new_cell a w, false), with_cell (new_cell a w) w).
Proof.
  intros Hp Hs. destruct a, w as [s ? ? ? ? ? ?]. cbn in Hs. subst.
  unfold AddAction, m_bind, get_store. cbn [w_store] in *. rewrite Hp. reflexivity.
Qed.

Lemma run_AddAction_dup a w prev :
  prev_action (w_store w) (idemKey a) = Some prev -> AddAction a w = ((prev, true), w).
Proof. intros Hp. unfold AddAction. cbn. by rewrite Hp. Qed.

Lemma with_cell_ok a w :
  inv w -> prev_action (w_store w) (idemKey a) = None ->
  a_ID a = uuid (w_uid w) -> a_Status a = StProposed ->
  inv (with_cell a w) /\ mono w (with_cell a w).
Proof.
  intros Hi Hp Hid Hs. pose proof (fresh_action w Hi) as Hf. rewrite <- Hid in Hf.
  assert (Hm : mono w (with_cell a w)).
  { split; [cbn; lia| | |done|done]; cbn.
    - intros id b Hb. exists b. rewrite lookup_insert_ne by congruence. eauto using evolve_refl.
    - intros i ap Hap. eauto using approval_evolve_refl. }
  split; [|done]. destruct Hi as [C I Ap K R Ch P].
  assert (Hnone : forall b id, st_actions (w_store w) !! id = Some b -> idemKey b <> idemKey a).
  { intros b id Hb Hk. assert (Hj : st_byIdem (w_store w) !! idemKey a = Some id)
      by (apply I; eauto).
    unfold prev_action in Hp. rewrite Hj in Hp. cbn in Hp. congruence. }
  split.
  - intros id b Hb. cbn in Hb. destruct (decide (a_ID a = id)) as [<-|Hne].
    + rewrite lookup_insert_eq in Hb. injection Hb as <-. split; [done|]. split.
      * exists (w_uid w). split; [cbn; lia|done].
      * unfold cell_ok. by rewrite Hs.
    + rewrite lookup_insert_ne in Hb by done. destruct (C _ _ Hb) as (? & ? & ?).
      split; [done|]. split; [by eapply known_mono|by eapply cell_ok_mono].
  - intros k id. cbn. destruct (decide (idemKey a = k)) as [<-|Hk].
    + rewrite lookup_insert_eq. split.
      * intros Heq. injection Heq as <-. exists a. by rewrite lookup_insert_eq.
      * intros (b & Hb & Hkb). destruct (decide (a_ID a = id)) as [<-|Hne]; [done|].
        rewrite lookup_insert_ne in Hb by done. by destruct (Hnone b id).
    + rewrite lookup_insert_ne by done. rewrite I.
      destruct (decide (a_ID a = id)) as [<-|Hne].
      * rewrite lookup_insert_eq. split.
        -- intros (b & Hb & _). congruence.
        -- intros (b & Hb & Hkb). congruence.
      * by rewrite lookup_insert_ne by done.
  - intros i ap Hap. eauto using approval_ok_mono.
  - intros x Hx. eauto using call_ok_mono.
  - intros r Hr. eauto using receipt_ok_mono.
  - exact Ch.
  - exact P.
Qed.

Lemma wp_AddAction {A} a (k : TxnAction * bool -> prog A) w Q :
  a_Status a = StProposed ->
  (forall prev w2, mono w w2 -> inv w2 -> wps (k (prev, true)) None w2 Q) ->
  (forall c w2, mono w w2 -> inv w2 -> holds (Some c) w2 ->
     a_OrgID c = a_OrgID a -> a_TransactionID c = a_TransactionID a ->
     wps (k (c, false)) (Some c) w2 Q) ->
  wps (Atomic (AddAction a) k) None w Q.
Proof.
  intros Hs Hdup Hnew. cbn [wp]. intros w1 Hm Hi _.
  destruct (prev_action (w_store w1) (idemKey a)) as [prev|] eqn:Ep.
  - rewrite (run_AddAction_dup _ _ _ Ep). split; [done|]. split; [reflexivity|].
    split; [by intros id b|]. exists None. split; [done|]. split; [by left|]. by apply Hdup.
  - rewrite (run_AddAction_fresh _ _ Ep Hs). set (c := new_cell a w1).
    destruct (with_cell_ok c w1 Hi Ep) as [Hi2 Hm2]; [done|done|].
    pose proof (fresh_action w1 Hi) as Hf.
    assert (Hh : holds (Some c) (with_cell c w1)).
    { cbn. by rewrite lookup_insert_eq. }
    split; [done|]. split; [done|]. split.
    { intros id b _ Hb _. cbn. rewrite lookup_insert_ne; [done|]. cbn. congruence. }
    exists (Some c). split; [done|]. split; [right; right; by exists (a_ID c)|].
    apply Hnew; try done. by etrans.
Qed.

(** ** Approvals *)

(** The action waits, or waited, for an approval. *)
Definition gated (w : World) (orgID txnID id : string) : Prop :=
  exists a, st_actions (w_store w) !! id = Some a /\ a_OrgID a = orgID /\
    a_TransactionID a = txnID /\ a_Status a <> StProposed /\ decided a EffectRequireApproval.

Lemma gated_mono w w' o t id : mono w w' -> gated w o t id -> gated w' o t id.
Proof.
  intros Hm (a & Ha & ? & ? & Hp & d & Hd & He).
  destruct (mono_cells _ _ Hm _ _ Ha) as (a' & Ha' & Hcore & Hev).
  destruct (Hev Hp) as (Hd' & Hp' & _).
  pose proof (core_of_fields _ _ Hcore) as (? & ? & ? & _). exists a'.
  repeat (split; [congruence|]). exists d. split; [congruence|done].
Qed.

(** The world with one approval written. *)
Definition put_approval (i : string) (ap : Approval) (w : World) : World :=
  w <| w_store ::= fun s => s <| st_approvals ::= <[ i := ap ]> |> |>.

Lemma put_approval_ok w i ap :
  inv w -> (forall ap0, st_approvals (w_store w) !! i = Some ap0 -> approval_evolve ap0 ap) ->
  approval_ok w i ap -> inv (put_approval i ap w) /\ mono w (put_approval i ap w).
Proof.
  intros Hi Hev Hok.
  assert (Hm : mono w (put_approval i ap w)).
  { split; [done| | |done|done]; cbn.
    - intros id b Hb. eauto using evolve_refl.
    - intros j ap0 Hap. destruct (decide (i = j)) as [<-|Hne].
      + exists ap. rewrite lookup_insert_eq. auto.
      + exists ap0. rewrite lookup_insert_ne by done. eauto using approval_evolve_refl. }
  split; [|done]. destruct Hi as [C I Ap K R Ch P]. split.
  - intros id b Hb. destruct (C _ _ Hb) as (? & ? & ?). eauto using known_mono, cell_ok_mono.
  - exact I.
  - intros j ap0 Hap. cbn in Hap. eapply approval_ok_mono; [exact Hm|].
    destruct (decide (i = j)) as [<-|Hne].
    + rewrite lookup_insert_eq in Hap. by injection Hap as <-.
    + rewrite lookup_insert_ne in Hap by done. auto.
  - intros x Hx. eauto using call_ok_mono.
  - intros r Hr. eauto using receipt_ok_mono.
  - exact Ch.
  - exact P.
Qed.

(** Draws of identifiers and ticks. *)
Lemma untouched_draws w n m :
  untouched w (w <| w_uid ::= fun u => (n + u)%nat |> <| w_tick ::= fun t => (m + t)%nat |>).
Proof. split; cbn; try done. lia. Qed.

Lemma wp_CreateApproval {A} ap id (k : Approval -> prog A) w Q :
  ap_ActionID ap = Some id -> gated w (ap_OrgID ap) (ap_TransactionID ap) id ->
  (forall x w2, mono w w2 -> inv w2 -> wps (k x) None w2 Q) ->
  wps (Atomic (CreateApproval ap) k) None w Q.
Proof.
  intros Hid Hg Hk. cbn [wp]. intros w1 Hm Hi _.
  set (i := uuid (w_uid w1)).
  set (ap' := ap <| ap_ID := i |> <| ap_CreatedAt := clock (w_tick w1) |>
                 <| ap_Status := ApPending |>).
  set (w0 := w1 <| w_uid ::= fun u => (1 + u)%nat |> <| w_tick ::= fun t => (1 + t)%nat |>).
  assert (Hrun : CreateApproval ap w1 = (ap', put_approval i ap' w0)) by done.
  rewrite Hrun. pose proof (untouched_draws w1 1 1) as Hu. fold w0 in Hu.
  destruct (put_approval_ok w0 i ap') as [Hi2 Hm2].
  - by eapply untouched_inv.
  - intros ap0 Hap. rewrite (unt_approvals _ _ Hu) in Hap. unfold i in Hap.
    by rewrite fresh_approval in Hap.
  - destruct (gated_mono _ _ _ _ _ Hm Hg) as (a & Ha & ? & ? & ? & ?).
    split; [done|]. split; [exists (w_uid w1); split; [cbn; lia|done]|].
    exists id, a. by rewrite (unt_actions _ _ Hu).
  - assert (Hm3 : mono w1 (put_approval i ap' w0)) by (etrans; [by apply untouched_mono|done]).
    split; [done|]. split; [done|]. split; [by intros id' b|].
    exists None. split; [done|]. split; [by left|]. apply Hk; [by etrans|done].
Qed.

Lemma wp_DecideApproval {A} orgID i by_ approve (k : option Approval -> prog A) w Q :
  (forall r w2, mono w w2 -> inv w2 ->
     match r with
     | Some ap => forall id, ap_ActionID ap = Some id ->
         gated w2 orgID (ap_TransactionID ap) id /\
         (approve = true -> forall a, a_OrgID a = orgID -> a_ID a = id -> approved_by w2 a)
     | None => True
     end -> wps (k r) None w2 Q) ->
  wps (Atomic (DecideApproval orgID i by_ approve) k) None w Q.
Proof.
  intros Hk. cbn [wp]. intros w1 Hm Hi _. unfold DecideApproval. unfold m_bind at 1. cbn [get_store].
  destruct (st_approvals (w_store w1) !! i) as [ap|] eqn:Eap.
  2: { cbn. split; [done|]. split; [reflexivity|]. split; [by intros id b|].
       exists None. split; [done|]. split; [by left|]. by apply Hk. }
  destruct (negb (String.eqb (ap_OrgID ap) orgID) || negb (bool_decide (ap_Status ap = ApPending)))
    eqn:Eg; bool_guards.
  { cbn. split; [done|]. split; [reflexivity|]. split; [by intros id b|].
    exists None. split; [done|]. split; [by left|]. by apply Hk. }
  set (ap' := ap <| ap_Status := if approve then ApApproved else ApDenied |>
                 <| ap_DecidedBy := by_ |> <| ap_DecidedAt := Some (clock (w_tick w1)) |>).
  set (w0 := w1 <| w_uid ::= fun u => (0 + u)%nat |> <| w_tick ::= fun t => (1 + t)%nat |>).
  match goal with |- let '(x, w2) := ?m in _ => change m with (Some ap', put_approval i ap' w0) end.
  pose proof (untouched_draws w1 0 1) as Hu. fold w0 in Hu.
  pose proof (inv_approvals _ Hi _ _ Eap) as Hok.
  destruct (put_approval_ok w0 i ap') as [Hi2 Hm2].
  - by eapply untouched_inv.
  - intros ap0 Hap. rewrite (unt_approvals _ _ Hu), Eap in Hap. injection Hap as <-.
    repeat (split; [done|]). intros Hn. congruence.
  - pose proof (approval_ok_mono _ _ _ _ (untouched_mono _ _ Hu) Hok) as Hok'. exact Hok'.
  - assert (Hm3 : mono w1 (put_approval i ap' w0)) by (etrans; [by apply untouched_mono|done]).
    split; [done|]. split; [done|]. split; [by intros id' b|].
    exists None. split; [done|]. split; [by left|]. apply Hk; [by etrans|done|].
    intros id Hid. split.
    + destruct Hok as (_ & _ & id' & a & Hid' & Ha & ? & ? & ? & ?).
      eapply gated_mono; [exact Hm3|]. change (ap_ActionID ap = Some id) in Hid.
      assert (id' = id) as -> by congruence. exists a. repeat (split; [congruence|]). done.
    + intros -> a Ho Ha. exists i, ap'. cbn. rewrite lookup_insert_eq.
      split; [done|]. split; [congruence|]. split; [|done].
      change (ap_ActionID ap = Some (a_ID a)). rewrite Ha. exact Hid.
Qed.

(** ** Steps that leave actions and approvals alone *)

Lemma same_cells_ok w w' :
  inv w ->
  st_actions (w_store w') = st_actions (w_store w) ->
  st_byIdem (w_store w') = st_byIdem (w_store w) ->
  st_approvals (w_store w') = st_approvals (w_store w) ->
  (w_uid w <= w_uid w')%nat -> st_audit (w_store w') = st_audit (w_store w) ->
  w_calls w `prefix_of` w_calls w' ->
  (forall c, c ∈ w_calls w' -> c ∈ w_calls w \/ call_ok w c) ->
  (forall r, r ∈ st_receiptsList (w_store w') -> receipt_ok w r) ->
  chain_ok (w_store w') -> st_policySets (w_store w') = st_policySets (w_store w) ->
  inv w' /\ mono w w'.
Proof.
  intros Hi Ha Hb Hp Hu Hau Hpre Hc Hr Hch Hpol.
  assert (Hm : mono w w').
  { split; [done| | |done|by rewrite Hau].
    - intros id b Hid. rewrite Ha. eauto using evolve_refl.
    - intros j ap0 Hap. rewrite Hp. eauto using approval_evolve_refl. }
  split; [|done]. destruct Hi as [C I Ap K R Ch P]. split.
  - intros id b. rewrite Ha. intros Hid. destruct (C _ _ Hid) as (? & ? & ?).
    eauto using known_mono, cell_ok_mono.
  - intros k id. rewrite Ha, Hb. apply I.
  - intros i ap. rewrite Hp. intros Hap. eauto using approval_ok_mono.
  - intros x Hx. destruct (Hc x Hx); eauto using call_ok_mono.
  - intros r Hin. eauto using receipt_ok_mono.
  - exact Hch.
  - intros org. unfold sets_of. rewrite Hpol. apply P.
Qed.

(** ** Calls of tools *)

Definition put_call (c : ToolCall) (w : World) : World :=
  w <| w_tick ::= S |> <| w_calls ::= fun l => l ++ [c] |>.

Lemma put_call_ok w c : inv w -> call_ok w c -> inv (put_call c w) /\ mono w (put_call c w).
Proof.
  intros Hi Hok. apply same_cells_ok; try done; cbn.
  - by apply prefix_app_r.
  - intros x Hx. apply elem_of_app in Hx as [Hx|Hx]; [by left|right].
    by apply list_elem_of_singleton in Hx as ->.
  - apply (inv_receipts _ Hi).
  - apply (inv_chain _ Hi).
Qed.

Lemma wp_call {X A} (m : M X) c (k : X -> prog A) O w Q :
  (forall w, (m w).2 = put_call c w) -> call_ok w c ->
  (forall x w2, mono w w2 -> inv w2 -> holds O w2 -> c ∈ w_calls w2 -> wps (k x) O w2 Q) ->
  wps (Atomic m k) O w Q.
Proof.
  intros Hrun Hok Hk. cbn [wp]. intros w1 Hm Hi Ho.
  destruct (put_call_ok w1 c Hi) as [Hi2 Hm2]; [by eapply call_ok_mono|].
  specialize (Hrun w1). destruct (m w1) as [x w2]. cbn in Hrun. subst w2.
  split; [done|]. split; [done|]. split; [by intros id b|].
  exists O. split; [by destruct O|]. split; [right; by left|].
  apply Hk; [by etrans|done|by destruct O|]. cbn. apply elem_of_app. right. by left.
Qed.

(** ** Receipts *)

Lemma benign_receipts {X} (m : M X) (g : list Receipt -> list Receipt) :
  (forall w, (m w).2 = w <| w_store ::= fun s => s <| st_receiptsList ::= g |> |>) ->
  (forall w r, (forall r0, r0 ∈ st_receiptsList (w_store w) -> receipt_ok w r0) ->
     r ∈ g (st_receiptsList (w_store w)) -> receipt_ok w r) ->
  (forall w, chain_ok (w_store w) -> chain_ok (w_store (m w).2)) ->
  benign inv mono m.
Proof.
  intros Hrun Hg Hch w Hi. pose proof (Hch w (inv_chain _ Hi)) as Hc.
  rewrite Hrun in *. apply and_assoc. split; [|done].
  apply same_cells_ok; try done; cbn.
  - auto.
  - intros r Hr. eapply Hg; [apply (inv_receipts _ Hi)|done].
Qed.

Lemma benign_write_receipt ptr f :
  (forall r, same_chain_fields r (f r)) -> (forall w r, receipt_ok w r -> receipt_ok w (f r)) ->
  benign inv mono (write_receipt ptr f).
Proof.
  intros Hf Hok. apply (benign_receipts _ (alter f ptr)); [done| |].
  - intros w r R Hr. apply list_elem_of_lookup in Hr as [i Hr].
    rewrite list_lookup_alter in Hr. destruct (decide (ptr = i)) as [->|Hne].
    + destruct (st_receiptsList (w_store w) !! i) as [r0|] eqn:Er; [|done].
      injection Hr as <-. apply Hok, R. by eapply list_elem_of_lookup_2.
    + apply R. by eapply list_elem_of_lookup_2.
  - intros w. by apply chain_ok_write_receipt.
Qed.

Lemma receipt_ok_signed w r k s :
  receipt_ok w r -> receipt_ok w (r <| r_KeyID := k |> <| r_Signature := s |>).
Proof. by apply same_chain_receipt_ok. Qed.

Lemma benign_UpdateReceipt r : benign inv mono (UpdateReceipt r).
Proof.
  apply (benign_receipts _ (fmap (update_receipt_in r))); [done| |].
  - intros w r' R Hr. apply list_elem_of_fmap in Hr as (r0 & -> & Hr0).
    unfold update_receipt_in. destruct (_ && _); [|by apply R].
    apply receipt_ok_signed. by apply R.
  - intros w. by apply chain_ok_UpdateReceipt.
Qed.

Lemma wp_AppendReceipt {A} r (k : nat -> prog A) O w Q :
  receipt_ok w r ->
  (forall ptr w2, mono w w2 -> inv w2 -> holds O w2 -> wps (k ptr) O w2 Q) ->
  wps (Atomic (AppendReceipt r) k) O w Q.
Proof.
  intros Hok Hk. cbn [wp]. intros w1 Hm Hi Ho.
  pose proof (receipt_ok_mono _ _ _ Hm Hok) as Hok1.
  pose proof (chain_ok_AppendReceipt r w1 (inv_chain _ Hi)) as Hch.
  destruct (AppendReceipt r w1) as [ptr w2] eqn:Ew.
  unfold AppendReceipt in Ew. cbn in Ew. injection Ew as <- <-.
  match goal with |- inv ?w2 /\ _ => set (w2' := w2) in * end.
  destruct (same_cells_ok w1 w2' Hi) as [Hi2 Hm2]; try done.
  { cbn. lia. }
  { cbn. auto. }
  { intros r' Hr. apply elem_of_app in Hr as [Hr|Hr]; [by apply (inv_receipts _ Hi)|].
    apply list_elem_of_singleton in Hr as ->. by eapply same_chain_receipt_ok. }
  split; [done|]. split; [done|]. split; [by intros id b|].
  exists O. split; [by destruct O|]. split; [right; by left|].
  apply Hk; [by etrans|done|by destruct O].
Qed.

End MoreRules.

#[export] Hint Resolve quiet_benign benign_UpdateReceipt : benign.
