(* ===== verification/ProposalSpec.v ===== *)
(** * ProposalSpec: what ProposeAction does, run alone

    The functional specification of a fresh proposal on every branch: which
    decision is recorded, which status the action gets, which approval is
    requested and how the transaction moves. *)

From S2P Require Export GatewaySpec SafetyRules2.

Open Scope Z_scope.

Section ProposalSpec.
Context `{RL : RuntimeLaws} `{JE : JevEnv}.

(** ** What most steps leave alone *)

Definition view (w : World) :=
  (st_actions (w_store w), st_approvals (w_store w), st_txns (w_store w),
   st_policySets (w_store w), st_policies (w_store w), st_grants (w_store w), w_calls w).

Lemma view_eq w w' : view w' = view w ->
  st_actions (w_store w') = st_actions (w_store w) /\
  st_approvals (w_store w') = st_approvals (w_store w) /\
  st_txns (w_store w') = st_txns (w_store w) /\
  st_policySets (w_store w') = st_policySets (w_store w) /\
  st_policies (w_store w') = st_policies (w_store w) /\
  st_grants (w_store w') = st_grants (w_store w) /\ w_calls w' = w_calls w.
Proof. unfold view. intros H. by injection H. Qed.

Lemma view_Emit e w : view (snd (Emit e w)) = view w.
Proof. done. Qed.

Lemma run_Emit {A} e (k : unit -> prog A) w :
  exists w1, run (Atomic (Emit e) k) w = run (k tt) w1 /\ view w1 = view w.
Proof. exists (snd (Emit e w)). done. Qed.

(** The status of an action after a decision with the given effect. *)
Definition outcome (e : PolicyEffect) : ActionStatus :=
  match e with
  | EffectDeny => StDenied
  | EffectRequireApproval => StAwaitingApproval
  | _ => StAllowed
  end.

(** The approval a proposal asks for, and what becomes of the transaction. *)
Definition asks_approval (orgID txnID agentID : string) (a : TxnAction) (d : PolicyDecision)
    (t : Transaction) (w w' : World) : Prop :=
  exists i at1 at2,
    st_approvals (w_store w') = <[ i := MkApproval i orgID txnID (Some (a_ID a)) agentID
        (d_Explanation d) (a_AmountCents a) ApPending "" None at1 ]> (st_approvals (w_store w)) /\
    st_txns (w_store w') = <[ txnID := t <| t_Status := t_Status (TryTransition t TxnAwaitingApproval) |>
        <| t_UpdatedAt := at2 |> ]> (st_txns (w_store w)).

(** The world after the proposal [a], decided by [d]. *)
Definition proposed (orgID txnID agentID : string) (t : Transaction) (a : TxnAction)
    (d : PolicyDecision) (w w' : World) : Prop :=
  a_Decision a = Some d /\ a_Status a = outcome (d_Effect d) /\ w_calls w' = w_calls w /\
  st_actions (w_store w') = <[ a_ID a := a ]> (st_actions (w_store w)) /\
  (if bool_decide (d_Effect d = EffectRequireApproval)
   then asks_approval orgID txnID agentID a d t w w'
   else st_approvals (w_store w') = st_approvals (w_store w) /\
        st_txns (w_store w') = st_txns (w_store w)).

(** Writes of the cell [id]. *)
Lemma run_set_status {A} id st (k : unit -> prog A) w a :
  st_actions (w_store w) !! id = Some a -> a_ID a = id ->
  run (Atomic (set_status id st) k) w = run (k tt) (put_action (a <| a_Status := st |>) w).
Proof. intros Ha Hid. apply run_atomic. unfold set_status. by rewrite (write_action_put _ _ _ _ Ha). Qed.

Lemma run_set_decision {A} id d (k : unit -> prog A) w a :
  st_actions (w_store w) !! id = Some a -> a_ID a = id ->
  run (Atomic (set_decision id d) k) w = run (k tt) (put_action (a <| a_Decision := Some d |>) w).
Proof. intros Ha Hid. apply run_atomic. unfold set_decision. by rewrite (write_action_put _ _ _ _ Ha). Qed.

Lemma put_action_cell id a w :
  a_ID a = id -> st_actions (w_store (put_action a w)) !! id = Some a.
Proof. intros <-. cbn. by rewrite lookup_insert_eq. Qed.

Lemma run_update_cell {A} id (k : unit -> prog A) w a :
  st_actions (w_store w) !! id = Some a -> a_ID a = id ->
  exists w1, run (Atomic (update_cell id) k) w = run (k tt) w1 /\ view w1 = view w.
Proof.
  intros Ha Hid. exists (snd (update_cell id w)). split; [by cbn [run]; destruct (update_cell id w) as [[] ?]|].
  unfold update_cell, load_action, m_bind, get_store, m_ret, UpdateAction. cbn. rewrite Ha. cbn.
  rewrite Hid, Ha. unfold view. cbn. rewrite (insert_id _ _ _ Ha). done.
Qed.

(** A cell written, then a step that leaves the view alone. *)
Lemma view_put a w w' : view w' = view (put_action a w) ->
  st_actions (w_store w') = <[ a_ID a := a ]> (st_actions (w_store w)) /\
  st_approvals (w_store w') = st_approvals (w_store w) /\
  st_txns (w_store w') = st_txns (w_store w) /\ w_calls w' = w_calls w.
Proof. intros H. apply view_eq in H as (-> & -> & -> & _ & _ & _ & ->). done. Qed.

Lemma run_return_cell id w a :
  st_actions (w_store w) !! id = Some a -> run (return_cell id) w = (Ok a, w).
Proof. intros Ha. unfold return_cell, load_action, m_bind, get_store, m_ret. cbn. by rewrite Ha. Qed.

(** [set_status; update_cell; Emit]. *)
Lemma run_settle_cell {A} id st e (k : unit -> prog A) w a :
  st_actions (w_store w) !! id = Some a -> a_ID a = id ->
  exists w1,
    run (Atomic (set_status id st) (fun _ => Atomic (update_cell id) (fun _ => Atomic (Emit e) k))) w =
      run (k tt) w1 /\
    view w1 = view (put_action (a <| a_Status := st |>) w).
Proof.
  intros Ha Hid. set (a' := a <| a_Status := st |>).
  assert (Ha' : st_actions (w_store (put_action a' w)) !! id = Some a')
    by by apply put_action_cell.
  destruct (run_update_cell id (fun _ => Atomic (Emit e) k) _ a' Ha' Hid) as (w1 & H1 & Hw1).
  destruct (run_Emit e k w1) as (w2 & H2 & Hw2). exists w2. split; [|congruence].
  rewrite <- H2, <- H1. by apply run_set_status.
Qed.

(** The approval request and the move of the transaction. *)
Lemma run_request orgID txnID t st e ap id w a :
  st_actions (w_store w) !! id = Some a ->
  st_txns (w_store w) !! txnID = Some t -> t_OrgID t = orgID ->
  exists w', run (let@ _ := CreateApproval ap in let@ _ := Emit e in
                  let@ _ := SetTxnStatus orgID txnID st in return_cell id) w = (Ok a, w') /\
    st_actions (w_store w') = st_actions (w_store w) /\ w_calls w' = w_calls w /\
    exists i at1 at2,
      st_approvals (w_store w') = <[ i := ap <| ap_ID := i |> <| ap_CreatedAt := at1 |>
        <| ap_Status := ApPending |> ]> (st_approvals (w_store w)) /\
      st_txns (w_store w') = <[ txnID := t <| t_Status := st |> <| t_UpdatedAt := at2 |> ]>
        (st_txns (w_store w)).
Proof.
  intros Ha Ht Ho. set (w1 := snd (CreateApproval ap w)). set (w2 := snd (Emit e w1)).
  pose proof (run_SetTxnStatus orgID txnID st t w2 Ht Ho) as Hs.
  destruct (SetTxnStatus orgID txnID st w2) as [ok w3] eqn:E3. injection Hs as Hok Hw3.
  exists w3. split.
  - rewrite (run_atomic _ _ w _ w1 eq_refl), (run_atomic _ _ w1 _ w2 eq_refl).
    rewrite (run_atomic _ _ w2 _ w3 E3). apply run_return_cell. by rewrite Hw3.
  - rewrite Hw3. split; [done|]. split; [done|].
    exists (uuid (w_uid w)), (clock (w_tick w)), (clock (w_tick w2)). done.
Qed.

Lemma run_conclude orgID txnID agentID t d id w a :
  st_actions (w_store w) !! id = Some a -> a_ID a = id -> a_Decision a = Some d ->
  st_txns (w_store w) !! txnID = Some t -> t_OrgID t = orgID ->
  let a' := a <| a_Status := outcome (d_Effect d) |> in
  let '(r, w') := run (conclude orgID txnID agentID t (a_AmountCents a) id d) w in
  r = Ok a' /\ proposed orgID txnID agentID t a' d w w'.
Proof.
  intros Ha Hid Hd Ht Ho a'. unfold conclude.
  assert (Hcell : forall st w', view w' = view (put_action (a <| a_Status := st |>) w) ->
    st_actions (w_store w') !! id = Some (a <| a_Status := st |>)).
  { intros st w' Hv. apply view_put in Hv as (-> & _). rewrite <- Hid. apply lookup_insert_eq. }
  destruct (d_Effect d) eqn:Ee.
  1, 4, 5: destruct (run_settle_cell id StAllowed (policy_event orgID txnID d)
    (fun _ => return_cell id) w a Ha Hid) as (w1 & -> & Hv);
    rewrite (run_return_cell _ _ _ (Hcell _ _ Hv)); split; [done|];
    apply view_put in Hv as (Hv1 & Hv2 & Hv3 & Hv4); unfold proposed; rewrite Ee; cbn;
    (split; [done|]; split; [done|]; split; [done|]; split; [exact Hv1|done]).
  - destruct (run_settle_cell id StDenied (policy_event orgID txnID d)
      (fun _ => Atomic (Emit (event orgID txnID "policy" (d_RuleID d) "action.denied"
        [("action_id", VString id)])) (fun _ => return_cell id)) w a Ha Hid) as (w1 & -> & Hv).
    destruct (run_Emit (event orgID txnID "policy" (d_RuleID d) "action.denied"
        [("action_id", VString id)]) (fun _ => return_cell id) w1) as (w2 & -> & Hv2).
    rewrite Hv in Hv2. rewrite (run_return_cell _ _ _ (Hcell _ _ Hv2)). split; [done|].
    apply view_put in Hv2 as (Hv1 & Hva & Hv3 & Hv4). unfold proposed. rewrite Ee. cbn.
    split; [done|]. split; [done|]. split; [done|]. split; [exact Hv1|done].
  - destruct (run_settle_cell id StAwaitingApproval (policy_event orgID txnID d)
      (fun _ => Atomic (CreateApproval (MkApproval "" orgID txnID (Some id) agentID
          (d_Explanation d) (a_AmountCents a) ApZero "" None zero_time)) (fun _ =>
        Atomic (Emit (event orgID txnID "system" agentID "approval.requested"
          [("action_id", VString id)])) (fun _ =>
        Atomic (SetTxnStatus orgID txnID (t_Status (TryTransition t TxnAwaitingApproval)))
          (fun _ => return_cell id)))) w a Ha Hid) as (w1 & -> & Hv).
    pose proof (view_put _ _ _ Hv) as (Hva & Hvp & Hvt & Hvc).
    edestruct (run_request orgID txnID t) as (w2 & -> & Hw2a & Hw2c & i & at1 & at2 & Hw2p & Hw2t);
      [by apply Hcell|by rewrite Hvt|done|]. split; [done|]. unfold proposed. rewrite Ee. cbn.
    split; [done|]. split; [done|]. split; [congruence|]. split; [by rewrite Hw2a|].
    exists i, at1, at2. rewrite Hw2p, Hw2t, Hvp, Hvt. cbn. by rewrite Hid.
Qed.

(** ** The risk screen *)

(** What the screen may make of a decision: it only ever adds an approval. *)
Definition screened (d d' : PolicyDecision) : Prop :=
  d' = d \/
  (Enabled = true /\ is_allow (d_Effect d) = true /\
   exists why, d' = d <| d_Effect := EffectRequireApproval |>
     <| d_ReasonCode := ReasonApprovalRequired |> <| d_Explanation := "risk screen: " +:+ why |>).

Lemma run_jevScreenRisk orgID txnID ag a w :
  exists r w', run (jevScreenRisk orgID txnID ag a) w = (r, w') /\ view w' = view w /\
    (fst r = true -> Enabled = true).
Proof.
  unfold jevScreenRisk. destruct Enabled; cbn [negb]; [|by eexists _, w].
  cbn [run]. destruct (ActionsForTxn orgID txnID w) as [acts w1] eqn:Ea.
  assert (Hv : view w1 = view w) by (unfold ActionsForTxn in Ea; by injection Ea as _ <-).
  destruct (siblings _ _ _ _) as [n k]. cbn [run]. eexists _, _. split; [reflexivity|].
  split; [exact Hv|done].
Qed.

Lemma run_screen orgID txnID ag id d w a :
  st_actions (w_store w) !! id = Some a -> a_ID a = id -> a_Decision a = Some d ->
  exists d' w', run (screen orgID txnID ag id d) w = (d', w') /\ screened d d' /\
    view w' = view (put_action (a <| a_Decision := Some d' |>) w).
Proof.
  intros Ha Hid Hd.
  assert (Hsame : view w = view (put_action (a <| a_Decision := Some d |>) w)).
  { assert (a <| a_Decision := Some d |> = a) as -> by (destruct a; cbn in *; by subst).
    unfold view. cbn. by rewrite insert_id by (by rewrite Hid). }
  unfold screen. destruct (is_allow (d_Effect d)) eqn:Ei; [|exists d, w; split; [done|]; by split; [left|]].
  rewrite (run_atomic (load_action id) _ w (default zero_action (st_actions (w_store w) !! id)) w eq_refl).
  rewrite run_pbind. destruct (run_jevScreenRisk orgID txnID ag (default zero_action (st_actions (w_store w) !! id)) w)
    as ([esc why] & w1 & -> & Hv & Hen). cbn [fst snd] in *.
  destruct esc; [|exists d, w1; split; [done|]; split; [by left|congruence]].
  assert (Ha1 : st_actions (w_store w1) !! id = Some a) by (apply view_eq in Hv as (-> & _); done).
  rewrite (run_set_decision id _ _ w1 a Ha1 Hid).
  rewrite (run_set_decision id _ _ _ (a <| a_Decision := Some (d <| d_Effect := EffectRequireApproval |>) |>))
    by (done || by apply put_action_cell).
  rewrite (run_set_decision id _ _ _ (a <| a_Decision := Some (d <| d_Effect := EffectRequireApproval |>
      <| d_ReasonCode := ReasonApprovalRequired |>) |>))
    by (done || by apply put_action_cell).
  cbn [run]. eexists _, _. split; [reflexivity|]. split.
  - right. split; [by apply Hen|]. split; [done|]. by exists why.
  - unfold view in *. cbn in *. rewrite !insert_insert_eq. injection Hv as -> -> -> -> -> -> ->. done.
Qed.

(** ** Authority and policy *)

(** The rules and version a decision is taken with, as a function of the state. *)
Definition rules_in_force (orgID : string) (s : MemoryStore) : list PolicyRule * Z :=
  match List.find is_active (sets_of s orgID) with
  | Some set => (ps_Rules set, ps_Version set)
  | None => (default [] (st_policies s !! orgID), 0)
  end.

Lemma run_current_rules orgID w :
  run (current_rules orgID) w = (rules_in_force orgID (w_store w), w).
Proof.
  unfold current_rules, Policies, ActivePolicySet, rules_in_force, m_bind, get_store, m_ret.
  cbn [run]. by destruct (List.find is_active (sets_of (w_store w) orgID)).
Qed.

Lemma rules_in_force_view orgID w w' :
  view w' = view w -> rules_in_force orgID (w_store w') = rules_in_force orgID (w_store w).
Proof.
  intros Hv. apply view_eq in Hv as (_ & _ & _ & Hs & Hp & _).
  unfold rules_in_force, sets_of. by rewrite Hs, Hp.
Qed.

(** The grants of an agent, in some order. *)
Definition grants_of (orgID agentID : string) (s : MemoryStore) : list AuthorityGrant :=
  base.filter (fun g => g_OrgID g = orgID /\ g_AgentID g = agentID) (map_to_list (st_grants s)).*2.

Lemma GrantsForAgent_perm orgID agentID w :
  fst (GrantsForAgent orgID agentID w) ≡ₚ grants_of orgID agentID (w_store w).
Proof. cbn. unfold grants_of. by rewrite range_map_perm. Qed.

(** The verdict on the cell [c] from the world [w] on, with the clock read
    later: authority first, then policy, then the screen. *)
Definition decides (orgID agentID tool action : string) (ag : Agent) (w : World)
    (c : TxnAction) (d : PolicyDecision) : Prop :=
  exists grants n m, grants ≡ₚ grants_of orgID agentID (w_store w) /\ (w_tick w <= n <= m)%nat /\
    let '(covered, hasGrants, why) := CheckAuthority (ticks n) grants ag tool action (a_AmountCents c) in
    if hasGrants && negb covered
    then d = MkPolicyDecision EffectDeny "" why ReasonAuthorityExceeded 0
    else let '(rules, version) := rules_in_force orgID (w_store w) in
         screened (with_reason (Evaluate (ticks m) rules version (MkEvalInput ag c))) d.

Lemma run_deny_authority orgID txnID agentID t id why w a :
  st_actions (w_store w) !! id = Some a -> a_ID a = id ->
  let d := MkPolicyDecision EffectDeny "" why ReasonAuthorityExceeded 0 in
  let a' := a <| a_Decision := Some d |> <| a_Status := StDenied |> in
  exists w', run (deny_authority orgID txnID agentID id why) w = (Ok a', w') /\
    proposed orgID txnID agentID t a' d w w'.
Proof.
  intros Ha Hid d a'. unfold deny_authority. fold d. rewrite (run_set_decision id d _ w a Ha Hid).
  set (a1 := a <| a_Decision := Some d |>).
  edestruct (run_settle_cell id StDenied (event orgID txnID "authority" agentID "action.denied"
      [("action_id", VString id); ("reason_code", VString ReasonAuthorityExceeded)])
    (fun _ => return_cell id) (put_action a1 w) a1) as (w1 & -> & Hv);
    [by apply put_action_cell|done|].
  pose proof (view_put _ _ _ Hv) as (Hva & Hvp & Hvt & Hvc). fold a' in Hva.
  exists w1. split.
  - apply run_return_cell. rewrite Hva. cbn. rewrite Hid. apply lookup_insert_eq.
  - split; [done|]. split; [done|]. split; [exact Hvc|]. split; [|done].
    rewrite Hva. cbn. by rewrite insert_insert_eq.
Qed.

(** The policies and the screen decide, from the world [w] on. *)
Lemma run_by_policies orgID txnID agentID t ag id w c :
  st_actions (w_store w) !! id = Some c -> a_ID c = id ->
  st_txns (w_store w) !! txnID = Some t -> t_OrgID t = orgID ->
  exists d w', let a := c <| a_Decision := Some d |> <| a_Status := outcome (d_Effect d) |> in
    run (let! rv := current_rules orgID in
         let@ stored := load_action id in
         let@ clk := readings (length (fst rv)) in
         let d := with_reason (Evaluate clk (fst rv) (snd rv) (MkEvalInput ag stored)) in
         let@ _ := set_decision id d in
         let! d := screen orgID txnID ag id d in
         conclude orgID txnID agentID t (a_AmountCents c) id d) w = (Ok a, w') /\
    proposed orgID txnID agentID t a d w w' /\
    let '(rules, version) := rules_in_force orgID (w_store w) in
    screened (with_reason (Evaluate (ticks (w_tick w)) rules version (MkEvalInput ag c))) d.
Proof.
  intros Hcell Hid Ht Ho. rewrite run_pbind, run_current_rules.
  destruct (rules_in_force orgID (w_store w)) as [rules version]. cbn [fst snd].
  rewrite (run_atomic (load_action id) _ w c w) by (unfold load_action, m_bind, get_store, m_ret; by rewrite Hcell).
  destruct (readings (length rules) w) as [clk w4] eqn:E4.
  assert (Hv4 : view w4 = view w /\ ticks (w_tick w) = clk) by (unfold readings in E4; by injection E4 as <- <-).
  destruct Hv4 as [Hv4 Hclk]. rewrite (run_atomic _ _ w clk w4 E4). set (d0 := with_reason _).
  assert (Hcell4 : st_actions (w_store w4) !! id = Some c) by (apply view_eq in Hv4 as (-> & _); done).
  rewrite (run_set_decision id d0 _ w4 c Hcell4 Hid), run_pbind. set (c1 := c <| a_Decision := Some d0 |>).
  destruct (run_screen orgID txnID ag id d0 (put_action c1 w4) c1) as (d & w5 & -> & Hscr & Hv5);
    [by apply put_action_cell|done|done|].
  set (c2 := c1 <| a_Decision := Some d |>) in *. apply view_put in Hv5 as (Ha5 & Hp5 & Ht5 & Hc5).
  pose proof (view_eq _ _ Hv4) as (Ha4 & Hp4 & Ht4 & _ & _ & _ & Hc4).
  assert (Hact : st_actions (w_store w5) = <[ id := c2 ]> (st_actions (w_store w))).
  { rewrite Ha5. cbn. rewrite Hid, Ha4. apply insert_insert_eq. }
  pose proof (run_conclude orgID txnID agentID t d id w5 c2) as Hconc.
  change (a_AmountCents c2) with (a_AmountCents c) in Hconc.
  destruct (run (conclude _ _ _ _ _ _ _) w5) as [r w6].
  destruct Hconc as [-> Hprop]; [by rewrite Hact, lookup_insert_eq|done|done|by rewrite Ht5; cbn; rewrite Ht4|done|].
  exists d, w6. split; [done|]. split; [|by rewrite Hclk]. revert Hprop. unfold proposed, asks_approval.
  rewrite Hc5, Hact, Hp5, Ht5. cbn. rewrite Hc4, Hp4, Ht4, Hid. by rewrite insert_insert_eq.
Qed.

Lemma run_decide_fresh orgID txnID agentID tool action t ag id w c :
  st_actions (w_store w) !! id = Some c -> a_ID c = id ->
  st_txns (w_store w) !! txnID = Some t -> t_OrgID t = orgID ->
  exists d w', let a := c <| a_Decision := Some d |> <| a_Status := outcome (d_Effect d) |> in
    run (decide_fresh orgID txnID agentID tool action t ag (a_AmountCents c) id) w = (Ok a, w') /\
    proposed orgID txnID agentID t a d w w' /\
    decides orgID agentID tool action ag w c d.
Proof.
  intros Hc Hid Ht Ho. unfold decide_fresh.
  pose proof (GrantsForAgent_perm orgID agentID w) as Hperm.
  destruct (GrantsForAgent orgID agentID w) as [grants w1] eqn:Eg.
  assert (Hv1 : view w1 = view w /\ (w_tick w <= w_tick w1)%nat).
  { unfold GrantsForAgent in Eg. injection Eg as _ <-. split; [done|]. cbn. lia. }
  destruct Hv1 as [Hv1 Hn].
  rewrite (run_atomic _ _ w grants w1 Eg).
  destruct (readings (length grants) w1) as [clk w2] eqn:E2.
  assert (Hv2 : view w2 = view w /\ ticks (w_tick w1) = clk /\ (w_tick w1 <= w_tick w2)%nat).
  { unfold readings in E2. injection E2 as <- <-. split; [done|]. split; [done|]. cbn. lia. }
  destruct Hv2 as (Hv2 & Hclk & Hn2).
  rewrite (run_atomic _ _ w1 clk w2 E2). cbn [fst] in Hperm.
  destruct (CheckAuthority clk grants ag tool action (a_AmountCents c)) as [[cov has] why] eqn:Ea.
  rewrite run_pbind.
  match goal with |- context [run ?p w2] => destruct (run p w2) as [u w3] eqn:E3 end.
  assert (Hv3 : view w3 = view w /\ (w_tick w2 <= w_tick w3)%nat).
  { destruct has; cbn in E3; injection E3 as _ <-; (split; [done|]); cbn; lia. }
  destruct Hv3 as [Hv3 Hn3].
  clear E2 E3 Hv1 Hv2 Eg.
  pose proof (view_eq _ _ Hv3) as (Ha3 & Hp3 & Ht3 & Hs3 & _ & _ & Hc3).
  assert (Hcell : st_actions (w_store w3) !! id = Some c) by (by rewrite Ha3).
  assert (Hback : forall a d w', proposed orgID txnID agentID t a d w3 w' ->
    proposed orgID txnID agentID t a d w w').
  { unfold proposed, asks_approval. intros a d w'. by rewrite Hc3, Ha3, Hp3, Ht3. }
  destruct (has && negb cov) eqn:Eh.
  - destruct (run_deny_authority orgID txnID agentID t id why w3 c Hcell Hid) as (w' & Hrun & Hprop).
    exists (MkPolicyDecision EffectDeny "" why ReasonAuthorityExceeded 0), w'.
    split; [exact Hrun|]. split; [by apply Hback|].
    exists grants, (w_tick w1), (w_tick w3). split; [done|]. split; [lia|].
    by rewrite Hclk, Ea, Eh.
  - destruct (run_by_policies orgID txnID agentID t ag id w3 c Hcell Hid) as (d & w' & Hrun & Hprop & Hscr);
      [by rewrite Ht3|done|]. rewrite (rules_in_force_view _ _ _ Hv3) in Hscr.
    exists d, w'. split; [exact Hrun|]. split; [by apply Hback|].
    exists grants, (w_tick w1), (w_tick w3). split; [done|]. split; [lia|]. by rewrite Hclk, Ea, Eh.
Qed.

(** What a caller asks for, before the store gives it an identifier. *)
Definition request (orgID txnID tool action : string) (args : gomap) (key : string) (tools : Registry)
    : TxnAction :=
  zero_action <| a_OrgID := orgID |> <| a_TransactionID := txnID |> <| a_Tool := tool |>
    <| a_Action := action |> <| a_Arguments := args |> <| a_Classes := Classes tools tool action |>
    <| a_AmountCents := extractCents args |> <| a_IdempotencyKey := key |> <| a_Status := StProposed |>.

(** The proposal seen from before AddAction. *)
Lemma proposed_with_cell orgID txnID agentID t a d c w w' :
  a_ID c = a_ID a -> proposed orgID txnID agentID t a d (with_cell c w) w' ->
  proposed orgID txnID agentID t a d w w'.
Proof.
  intros Hid. unfold proposed, asks_approval. cbn. rewrite Hid. by rewrite insert_insert_eq.
Qed.

(** C2: the decision of a proposal, run alone on an open transaction with a
    new idempotency key.  The action is stored under a fresh identifier with
    exactly the request's fields; it is denied with AUTHORITY_EXCEEDED when
    the agent has grants and none covers it, and otherwise decided by the
    engine on the rules in force, the screen at most turning ALLOW into
    REQUIRE_APPROVAL; its status follows the decision, an approval is
    requested exactly when one is required, and no tool is called. *)
Theorem ProposeAction_decides orgID txnID agentID tool action args key w t ag :
  st_txns (w_store w) !! txnID = Some t -> t_OrgID t = orgID -> is_terminal (t_Status t) = false ->
  st_agents (w_store w) !! agentID = Some ag -> ag_OrgID ag = orgID ->
  prev_action (w_store w) (orgID +:+ "|" +:+ txnID +:+ "|" +:+ key) = None ->
  let c := new_cell (request orgID txnID tool action args key (w_tools w)) w in
  exists d w', let a := c <| a_Decision := Some d |> <| a_Status := outcome (d_Effect d) |> in
    run (ProposeAction orgID txnID agentID tool action args key) w = (Ok a, w') /\
    proposed orgID txnID agentID t a d w w' /\
    decides orgID agentID tool action ag w c d.
Proof.
  intros Ht Ho Hterm Hag Hao Hprev c. unfold ProposeAction.
  rewrite (run_atomic _ _ w (Some t) w).
  2: { rewrite run_GetTxn, Ht. cbn. by rewrite (proj2 (String.eqb_eq _ _) Ho). }
  rewrite Hterm.
  rewrite (run_atomic _ _ w (Some ag) w).
  2: { unfold GetAgent, m_bind, get_store, m_ret. rewrite Hag. cbn.
       by rewrite (proj2 (String.eqb_eq _ _) Hao). }
  rewrite (run_atomic get_tools _ w (w_tools w) w eq_refl).
  fold (request orgID txnID tool action args key (w_tools w)).
  rewrite (run_atomic _ _ w _ _ (run_AddAction_fresh (request orgID txnID tool action args key (w_tools w))
    w Hprev eq_refl)). fold c.
  edestruct (run_decide_fresh orgID txnID agentID tool action t ag (a_ID c) (with_cell c w) c)
    as (d & w' & Hrun & Hprop & Hdec); [cbn; by rewrite lookup_insert_eq|done|done|done|].
  exists d, w'. split; [exact Hrun|]. split.
  2: { destruct Hdec as (grants & n & m & Hp & Hn & Hv). exists grants, n, m.
       split; [exact Hp|]. split; [cbn in Hn; lia|exact Hv]. }
  by apply (proposed_with_cell _ _ _ _ _ _ c).
Qed.

End ProposalSpec.
