(* ===== verification/ExecutionSpec.v ===== *)
(** * ExecutionSpec: what executing an action does, run alone

    The gate of ExecuteAllowed and RunApproved, the three outcomes of a tool
    call, and the receipt issued on success. *)

From S2P Require Export ProposalSpec.

Open Scope Z_scope.

Section ExecutionSpec.
Context `{RL : RuntimeLaws} `{JE : JevEnv}.

(** What a step of [run_action] may leave alone. *)
Definition xview (w : World) :=
  (st_actions (w_store w), st_receiptsList (w_store w), st_lastHash (w_store w),
   w_calls w, w_tools w, w_signer w, st_approvals (w_store w)).

(** ** Receipts *)

(** The receipt [signReceipt] makes of an appended one. *)
Definition issued (signer : option Provider) (id prev : string) (r : Receipt) : Receipt :=
  let c := chained id prev r in
  match signer with
  | None => c
  | Some p => c <| r_KeyID := kp_KeyID p |> <| r_Signature := hex_encode (kp_Sign p (r_Hash c)) |>
  end.

Lemma update_receipt_in_same r : update_receipt_in r r = r.
Proof. unfold update_receipt_in. destruct (_ && _); [|done]. by destruct r. Qed.

Lemma alter_last {A} (f : A -> A) (l : list A) x : alter f (length l) (l ++ [x]) = l ++ [f x].
Proof. induction l as [|y l IH]; [done|]. cbn. f_equal. exact IH. Qed.

Lemma run_signReceipt {A} (k : unit -> prog A) w l c :
  st_receiptsList (w_store w) = l ++ [c] ->
  let c' := match w_signer w with
            | None => c
            | Some p => c <| r_KeyID := kp_KeyID p |> <| r_Signature := hex_encode (kp_Sign p (r_Hash c)) |>
            end in
  run (pbind (signReceipt (length l)) k) w =
    run (k tt) (w <| w_store ::= fun s => s <| st_receiptsList := l ++ [c'] |> |>).
Proof.
  intros Hl. rewrite run_pbind. unfold signReceipt. cbn [run]. unfold get_signer.
  destruct (w_signer w) as [p|] eqn:Es; cbn [run].
  - unfold write_receipt, modify_store, load_receipt, m_bind, get_store, m_ret. unfold set_field.
    cbn -[alter lookup app kp_KeyID]. rewrite Hl, !alter_last, last_snoc_lookup. done.
  - destruct w as [s ? ? ? ? ? ?]. cbn in *. destruct s. cbn in *. by rewrite Hl.
Qed.

Lemma run_issue_receipt r w :
  let rc := issued (w_signer w) (uuid (w_uid w)) (default "" (st_lastHash (w_store w) !! r_OrgID r)) r in
  exists w', run (issue_receipt r) w = (uuid (w_uid w), w') /\
    st_receiptsList (w_store w') = (update_receipt_in rc <$> st_receiptsList (w_store w)) ++ [rc] /\
    st_actions (w_store w') = st_actions (w_store w) /\ w_calls w' = w_calls w /\
    st_approvals (w_store w') = st_approvals (w_store w).
Proof.
  intros rc. unfold issue_receipt.
  set (w1 := snd (AppendReceipt r w)). set (l := st_receiptsList (w_store w)).
  rewrite (run_atomic (AppendReceipt r) _ w (length l) w1 eq_refl).
  rewrite (run_signReceipt _ w1 l (chained (uuid (w_uid w))
    (default "" (st_lastHash (w_store w) !! r_OrgID r)) r) eq_refl). cbv zeta.
  change (match w_signer w1 with None => _ | Some p => _ end) with rc.
  set (w2 := w1 <| w_store ::= _ |>).
  assert (Hrc : update_receipt_cell (length l) w2 =
    (tt, w2 <| w_store ::= fun s => s <| st_receiptsList := (update_receipt_in rc <$> l) ++ [rc] |> |>)).
  { unfold update_receipt_cell, load_receipt, m_bind, get_store, m_ret, UpdateReceipt, modify_store.
    assert (st_receiptsList (w_store w2) !! length l = Some rc) as -> by apply last_snoc_lookup.
    unfold set_field. cbn -[lookup app fmap update_receipt_in].
    rewrite fmap_app. change (update_receipt_in rc <$> [rc]) with [update_receipt_in rc rc].
    by rewrite update_receipt_in_same. }
  rewrite (run_atomic _ _ w2 _ _ Hrc). set (w3 := w2 <| w_store ::= _ |>).
  rewrite (run_atomic (load_receipt (length l)) _ w3 rc w3).
  2: { unfold load_receipt, m_bind, get_store, m_ret.
       assert (st_receiptsList (w_store w3) !! length l = Some rc) as ->; [|done].
       pose proof (last_snoc_lookup (update_receipt_in rc <$> l) rc) as Hlast.
       rewrite length_fmap in Hlast. exact Hlast. }
  exists w3. split; [|done]. cbn [run]. f_equal. unfold rc, issued. by destruct (w_signer w).
Qed.

(** ** The tool call and its outcome *)

(** The action after the call, and what the caller gets. *)
Definition outcome_cell (a : TxnAction) (ms : Z) (ans : gomap + GoError) : TxnAction :=
  let a := a <| a_LatencyMS := ms |> in
  match ans with
  | inl res => a <| a_Status := StExecuted |> <| a_Result := res |>
  | inr err =>
      match as_uncertain err with
      | Some ue => a <| a_Status := StUnknown |> <| a_Error := err_Error ue |>
      | None => a <| a_Status := StFailed |> <| a_Error := err_Error err |>
      end
  end.

Definition outcome_result (a : TxnAction) (ans : gomap + GoError) : goresult TxnAction :=
  match ans with
  | inl _ => Ok a
  | inr err => Err (Some a) (default err (as_uncertain err))
  end.

(** A receipt of the outcome was appended exactly on success. *)
Definition settled_receipts (orgID : string) (a : TxnAction) (ans : gomap + GoError)
    (w w' : World) : Prop :=
  match ans with
  | inl res => exists id prev start stop r, receipt_for orgID a res "none" start stop = Some r /\
      let rc := issued (w_signer w) id prev r in
      st_receiptsList (w_store w') = (update_receipt_in rc <$> st_receiptsList (w_store w)) ++ [rc]
  | inr _ => st_receiptsList (w_store w') = st_receiptsList (w_store w)
  end.

(** The tool was called once, the cell tells how it ended, and a receipt was
    issued exactly on success. *)
Definition executes (orgID : string) (a : TxnAction) (w : World)
    (out : goresult TxnAction * World) : Prop :=
  exists st n ms, secrets_of st = secrets_of (w_store w) /\
    let ans := Execute (w_tools w) st n a in let a' := outcome_cell a ms ans in
    fst out = outcome_result a' ans /\
    w_calls (snd out) = w_calls w ++ [CallExecute a] /\
    st_actions (w_store (snd out)) = <[ a_ID a := a' ]> (st_actions (w_store w)) /\
    st_approvals (w_store (snd out)) = st_approvals (w_store w) /\
    settled_receipts orgID a' ans w (snd out).

Lemma xview_eq w w' : xview w' = xview w ->
  st_actions (w_store w') = st_actions (w_store w) /\
  st_receiptsList (w_store w') = st_receiptsList (w_store w) /\
  st_lastHash (w_store w') = st_lastHash (w_store w) /\
  w_calls w' = w_calls w /\ w_tools w' = w_tools w /\ w_signer w' = w_signer w /\
  st_approvals (w_store w') = st_approvals (w_store w).
Proof. unfold xview. intros H. by injection H. Qed.

Lemma run_same {X A} (m : M X) (k : X -> prog A) w :
  xview (snd (m w)) = xview w ->
  exists x w1, run (Atomic m k) w = run (k x) w1 /\ xview w1 = xview w.
Proof. intros Hv. cbn [run]. destruct (m w) as [x w1]. by exists x, w1. Qed.

Lemma xview_SetTxnStatus orgID id st w : xview (snd (SetTxnStatus orgID id st w)) = xview w.
Proof.
  unfold SetTxnStatus, m_bind. rewrite run_GetTxn. cbv beta iota.
  match goal with |- context [match ?x with Some _ => _ | None => _ end] => destruct x end; reflexivity.
Qed.

Lemma secrets_SetTxnStatus orgID id st w :
  secrets_of (w_store (snd (SetTxnStatus orgID id st w))) = secrets_of (w_store w).
Proof.
  unfold SetTxnStatus, m_bind. rewrite run_GetTxn. cbv beta iota.
  match goal with |- context [match ?x with Some _ => _ | None => _ end] => destruct x end; reflexivity.
Qed.

Lemma run_emitted {A} e (k : unit -> prog A) w :
  run (Atomic (Emit e) k) w = run (k tt) (snd (Emit e w)).
Proof. done. Qed.

(** [UpdateAction] of a copy of a stored cell. *)
Lemma run_update_copy a w c :
  st_actions (w_store w) !! a_ID a = Some c ->
  exists w1, UpdateAction a w = (tt, w1) /\ xview w1 = xview (put_action a w) /\
    view w1 = view (put_action a w).
Proof.
  intros Hc. eexists. split.
  - unfold UpdateAction, m_bind, get_store. rewrite Hc. reflexivity.
  - split; reflexivity.
Qed.

(** The steps of [run_action] before the call: [start] is read on the way. *)
Lemma run_before_call {A} orgID a (k : time -> string -> prog A) w (P : A * World -> Prop) :
  (forall start traceID w1, xview w1 = xview w ->
     secrets_of (w_store w1) = secrets_of (w_store w) -> P (run (k start traceID) w1)) ->
  P (run (let@ t := GetTxn orgID (a_TransactionID a) in
       let! _ := match t with
                 | Some t =>
                     if moves_to_executing (t_Status t)
                     then let@ _ := SetTxnStatus orgID (t_ID t) TxnExecuting in Ret tt
                     else Ret tt
                 | None => Ret tt
                 end in
       let@ start := now in
       let@ traceID := TraceID in
       let@ _ := Emit (event orgID (a_TransactionID a) "agent" "" "action.executing"
         [("action_id", VString (a_ID a)); ("trace_id", VString traceID)]) in
       k start traceID) w).
Proof.
  intros HP. rewrite (run_atomic _ _ w _ w (run_GetTxn _ _ _)), run_pbind.
  match goal with |- context [run ?p w] => destruct (run p w) as [u w1] eqn:E1 end.
  assert (Hv : xview w1 = xview w /\ secrets_of (w_store w1) = secrets_of (w_store w)).
  { match type of E1 with context [match ?x with Some _ => _ | None => _ end] =>
      destruct x as [t|] end; [|cbn in E1; by injection E1 as _ <-].
    destruct (moves_to_executing _); [|cbn in E1; by injection E1 as _ <-].
    pose proof (xview_SetTxnStatus orgID (t_ID t) TxnExecuting w) as Hv.
    pose proof (secrets_SetTxnStatus orgID (t_ID t) TxnExecuting w) as Hs. cbn [run] in E1.
    destruct (SetTxnStatus _ _ _ _) as [ok w2]. by injection E1 as _ <-. }
  cbn [run]. by apply HP; apply Hv.
Qed.

(** Both successful ends: the receipt is issued, then the event. *)
Lemma run_receipt_end orgID a res compensation start stop (fin : string -> AuditEvent) w :
  a_Decision a <> None ->
  exists w', run (match receipt_for orgID a res compensation start stop with
                  | None => panic
                  | Some r => let! rid := issue_receipt r in let@ _ := Emit (fin rid) in Ret (Ok a)
                  end) w = (Ok a, w') /\
    w_calls w' = w_calls w /\ st_actions (w_store w') = st_actions (w_store w) /\
    st_approvals (w_store w') = st_approvals (w_store w) /\
    exists id prev r, receipt_for orgID a res compensation start stop = Some r /\
      let rc := issued (w_signer w) id prev r in
      st_receiptsList (w_store w') = (update_receipt_in rc <$> st_receiptsList (w_store w)) ++ [rc].
Proof.
  intros Hd. destruct (receipt_for orgID a res compensation start stop) as [r|] eqn:Er.
  2: { unfold receipt_for in Er. by destruct (a_Decision a). }
  rewrite run_pbind. destruct (run_issue_receipt r w) as (w1 & -> & Hr1 & Ha1 & Hc1 & Hp1).
  rewrite run_emitted. eexists. split; [reflexivity|]. split; [exact Hc1|]. split; [exact Ha1|].
  split; [exact Hp1|].
  eexists _, _, r. split; [done|exact Hr1].
Qed.

(** The end of a call that failed: the cell is written and an event emitted. *)
Lemma run_failed_end a a' w w3 e r :
  st_actions (w_store w3) !! a_ID a = Some a -> w_calls w3 = w_calls w ++ [CallExecute a] -> a_ID a' = a_ID a ->
  st_actions (w_store w3) = st_actions (w_store w) -> st_approvals (w_store w3) = st_approvals (w_store w) ->
  st_receiptsList (w_store w3) = st_receiptsList (w_store w) ->
  exists w4, run (Atomic (UpdateAction a') (fun _ => Atomic (Emit e) (fun _ => Ret (A := goresult TxnAction) r))) w3 = (r, w4) /\
    w_calls w4 = w_calls w ++ [CallExecute a] /\
    st_actions (w_store w4) = <[ a_ID a := a' ]> (st_actions (w_store w)) /\
    st_approvals (w_store w4) = st_approvals (w_store w) /\
    st_receiptsList (w_store w4) = st_receiptsList (w_store w).
Proof.
  intros Hcell Hcalls Hid Ha3 Hp3 Hr3. destruct (run_update_copy a' w3 a) as (w4 & Hu & Hv4 & _); [by rewrite Hid|].
  rewrite (run_atomic _ _ _ _ _ Hu), run_emitted.
  apply xview_eq in Hv4 as (Ha4 & Hr4 & _ & Hc4 & _ & _ & Hp4). eexists. split; [reflexivity|].
  split; [exact (eq_trans Hc4 Hcalls)|]. split; [|by split; [exact (eq_trans Hp4 Hp3)|exact (eq_trans Hr4 Hr3)]].
  refine (eq_trans Ha4 _). rewrite <- Hid, <- Ha3. reflexivity.
Qed.

Lemma run_run_action orgID a w :
  st_actions (w_store w) !! a_ID a = Some a -> a_Decision a <> None ->
  executes orgID a w (run (run_action orgID a) w).
Proof.
  intros Ha Hd. unfold run_action.
  apply (run_before_call orgID a). intros start traceID w1 Hv1 Hst1. apply xview_eq in Hv1 as (Ha1 & Hr1 & Hl1 & Hc1 & Ht1 & Hs1 & Hp1).
  set (w2 := snd (tools_Execute a w1)).
  rewrite (run_atomic (tools_Execute a) _ w1 (Execute (w_tools w1) (w_store w1) (w_tick w1) a) w2 eq_refl).
  set (w3 := snd (now w2)).
  rewrite (run_atomic now _ w2 (clock (w_tick w2)) w3 eq_refl). cbv zeta.
  set (ms := Z.quot _ _). set (ans := Execute _ _ _ _).
  assert (Hcell : st_actions (w_store w3) !! a_ID a = Some a) by (cbn; by rewrite Ha1).
  assert (Hcalls : w_calls w3 = w_calls w ++ [CallExecute a]) by (cbn; by rewrite Hc1).
  match goal with |- executes _ _ _ (run ?P w3) =>
    enough (Hout : exists w4, run P w3 = (outcome_result (outcome_cell a ms ans) ans, w4) /\
      w_calls w4 = w_calls w ++ [CallExecute a] /\
      st_actions (w_store w4) = <[ a_ID a := outcome_cell a ms ans ]> (st_actions (w_store w)) /\
      st_approvals (w_store w4) = st_approvals (w_store w) /\
      settled_receipts orgID (outcome_cell a ms ans) ans w w4)
  end.
  { destruct Hout as (w4 & -> & Hc4 & Ha4 & Hr4). exists (w_store w1), (w_tick w1), ms. cbv zeta.
    rewrite <- Ht1. fold ans. split; [done|]. split; [done|]. split; [done|]. by split. }
  destruct ans as [res|err].
  - set (a' := outcome_cell a ms (inl res)).
    destruct (run_update_copy a' w3 a Hcell) as (w4 & Hu & Hv4 & _).
    rewrite (run_atomic _ _ _ _ _ Hu).
    apply xview_eq in Hv4 as (Ha4 & Hr4 & Hl4 & Hc4 & Ht4 & Hs4 & Hp4).
    set (w5 := snd (now w4)). rewrite (run_atomic now _ w4 (clock (w_tick w4)) w5 eq_refl).
    destruct (run_receipt_end orgID a' res "none" start (clock (w_tick w4)) (fun rid =>
      event orgID (a_TransactionID a) "tool" (a_Tool a) "action.executed"
        [("action_id", VString (a_ID a)); ("receipt_id", VString rid);
         ("trace_id", VString traceID)]) w5 Hd) as (w6 & Hrun & Hc6 & Ha6 & Hp6 & id & prev & r & Hrf & Hr6).
    exists w6. split; [exact Hrun|]. split; [exact (eq_trans Hc6 (eq_trans Hc4 Hcalls))|]. split.
    { refine (eq_trans Ha6 (eq_trans Ha4 _)). cbn. by rewrite Ha1. }
    split; [exact (eq_trans Hp6 (eq_trans Hp4 Hp1))|].
    exists id, prev, start, (clock (w_tick w4)), r. split; [exact Hrf|].
    refine (eq_trans Hr6 _). change (w_signer w5) with (w_signer w4).
    change (st_receiptsList (w_store w5)) with (st_receiptsList (w_store w4)). rewrite Hr4, Hs4.
    change (st_receiptsList (w_store (put_action a' w3))) with (st_receiptsList (w_store w1)).
    change (w_signer (put_action a' w3)) with (w_signer w1). by rewrite Hr1, Hs1.
  - set (a' := outcome_cell a ms (inr err)).
    assert (Hid : a_ID a' = a_ID a) by (unfold a', outcome_cell; by destruct (as_uncertain err)).
    pose proof (fun e r => run_failed_end a a' w w3 e r Hcell Hcalls Hid Ha1 Hp1 Hr1) as Hfin.
    clear Hid. revert Hfin. unfold a', outcome_cell, outcome_result, settled_receipts.
    destruct (as_uncertain err) as [ue|]; intros Hfin; apply Hfin.
Qed.

(** ** The gates *)

(** What ExecuteAllowed runs: an allowing decision and an open status. *)
Definition executable (a : TxnAction) : bool :=
  match a_Decision a with Some d => is_allow (d_Effect d) | None => false end &&
  (bool_decide (a_Status a = StAllowed) || bool_decide (a_Status a = StApproved)).

(** The call ends in an error and changes nothing. *)
Definition refused (w : World) (out : goresult TxnAction * World) : Prop :=
  exists e, out = (Err None e, w).

Lemma run_GetAction_own {A} orgID a (k : option TxnAction -> prog A) w :
  st_actions (w_store w) !! a_ID a = Some a -> a_OrgID a = orgID ->
  run (Atomic (GetAction orgID (a_ID a)) k) w = run (k (Some a)) w.
Proof.
  intros Ha Ho. apply run_atomic. unfold GetAction, m_bind, get_store, m_ret. rewrite Ha. cbn.
  by rewrite (proj2 (String.eqb_eq _ _) Ho).
Qed.

(** C3: execution is gated and accounted for.  Run alone, ExecuteAllowed and
    RunApproved return an executed action unchanged; otherwise they call the
    tool exactly once when the action is executable (an allowing decision and
    status allowed or approved) respectively approved, record success as
    executed, an uncertain error as execution-unknown and any other error as
    failed, and append one chained and signed receipt exactly on success; in
    every other case they fail without any effect. *)
Theorem execution_outcome orgID w a :
  st_actions (w_store w) !! a_ID a = Some a -> a_OrgID a = orgID -> a_Decision a <> None ->
  (let out := run (ExecuteAllowed orgID (a_ID a)) w in
   if bool_decide (a_Status a = StExecuted) then out = (Ok a, w)
   else if executable a then executes orgID a w out else refused w out) /\
  (let out := run (RunApproved orgID (a_ID a)) w in
   if bool_decide (a_Status a = StExecuted) then out = (Ok a, w)
   else if bool_decide (a_Status a = StApproved) then executes orgID a w out else refused w out).
Proof.
  intros Ha Ho Hd. cbv zeta. unfold ExecuteAllowed, RunApproved.
  rewrite !run_GetAction_own by done. unfold executable. split.
  - destruct (bool_decide (a_Status a = StExecuted)); [done|].
    destruct (bool_decide (a_Status a = StUnknown)) eqn:Eu; bool_guards.
    { rewrite Eu. cbn. rewrite andb_false_r. by eexists. }
    destruct (match a_Decision a with Some d => is_allow (d_Effect d) | None => false end);
      cbn [negb andb]; [|by eexists].
    destruct (bool_decide (a_Status a = StAllowed)), (bool_decide (a_Status a = StApproved));
      cbn [negb andb orb]; try (by apply run_run_action). by eexists.
  - destruct (bool_decide (a_Status a = StExecuted)); [done|].
    destruct (bool_decide (a_Status a = StApproved)); cbn [negb]; [by apply run_run_action|].
    by eexists.
Qed.

(** ** Reconciliation *)

(** The cell after the reconciler answered. *)
Definition reconciled_cell (a : TxnAction) (found : bool) (result : gomap) : TxnAction :=
  if found then a <| a_Status := StExecuted |> <| a_Result := result |> <| a_Error := "" |>
  else a <| a_Status := StFailed |>
         <| a_Error := "reconciliation confirmed the action never executed upstream" |>.

(** The tool's reconciler is asked once; only a definite answer settles the
    action, and only a confirmed effect gets a receipt. *)
Definition reconciles (orgID : string) (a : TxnAction) (w : World)
    (out : goresult TxnAction * World) : Prop :=
  match ReconcilerFor (w_tools w) (a_Tool a) (a_Action a) with
  | None => (exists e, fst out = Err None e) /\ xview (snd out) = xview w
  | Some rec =>
      w_calls (snd out) = w_calls w ++ [CallReconcile a] /\
      st_approvals (w_store (snd out)) = st_approvals (w_store w) /\
      exists n, match rec (w_store w) n a with
      | inr err => (exists e, fst out = Err None e) /\
          st_actions (w_store (snd out)) = st_actions (w_store w) /\
          st_receiptsList (w_store (snd out)) = st_receiptsList (w_store w)
      | inl (found, result) => let a' := reconciled_cell a found result in
          fst out = Ok a' /\
          st_actions (w_store (snd out)) = <[ a_ID a := a' ]> (st_actions (w_store w)) /\
          if found : bool then
            exists id prev stop r,
              receipt_for orgID a' result "reconciled" (a_CreatedAt a) stop = Some r /\
              let rc := issued (w_signer w) id prev r in
              st_receiptsList (w_store (snd out)) =
                (update_receipt_in rc <$> st_receiptsList (w_store w)) ++ [rc]
          else st_receiptsList (w_store (snd out)) = st_receiptsList (w_store w)
      end
  end.

Lemma run_Reconcile orgID w a :
  st_actions (w_store w) !! a_ID a = Some a -> a_OrgID a = orgID -> a_Decision a <> None ->
  let out := run (Reconcile orgID (a_ID a)) w in
  if bool_decide (a_Status a = StUnknown) then reconciles orgID a w out else refused w out.
Proof.
  intros Ha Ho Hd. cbv zeta. unfold Reconcile. rewrite run_GetAction_own by done.
  destruct (bool_decide (a_Status a = StUnknown)); cbn [negb]; [|by eexists].
  rewrite (run_atomic get_tools _ w (w_tools w) w eq_refl). unfold reconciles.
  destruct (ReconcilerFor _ _ _) as [rec|].
  2: { rewrite run_emitted. split; [by eexists|done]. }
  set (w1 := snd (call_reconciler rec a w)).
  rewrite (run_atomic (call_reconciler rec a) _ w (rec (w_store w) (w_tick w) a) w1 eq_refl).
  assert (Hcell : st_actions (w_store w1) !! a_ID a = Some a) by done.
  destruct (rec (w_store w) (w_tick w) a) as [[found result]|err] eqn:Er.
  2: { rewrite run_emitted. split; [done|]. split; [done|]. exists (w_tick w). rewrite Er.
       split; [by eexists|done]. }
  set (w2 := snd (TraceID w1)). rewrite (run_atomic TraceID _ w1 (trace_id (w_tick w1)) w2 eq_refl).
  destruct found; cbn [negb].
  - set (a' := reconciled_cell a true result).
    set (w3 := snd (now w2)). rewrite (run_atomic now _ w2 (clock (w_tick w2)) w3 eq_refl).
    destruct (run_update_copy a' w3 a Hcell) as (w4 & Hu & Hv4 & _). rewrite (run_atomic _ _ _ _ _ Hu).
    apply xview_eq in Hv4 as (Ha4 & Hr4 & _ & Hc4 & _ & Hs4 & Hp4).
    destruct (run_receipt_end orgID a' result "reconciled" (a_CreatedAt a) (clock (w_tick w2)) (fun rid =>
      event orgID (a_TransactionID a) "tool" (a_Tool a) "action.reconciled"
        [("action_id", VString (a_ID a)); ("outcome", VString "confirmed");
         ("receipt_id", VString rid); ("trace_id", VString (trace_id (w_tick w1)))]) w4 Hd)
      as (w6 & Hrun & Hc6 & Ha6 & Hp6 & id & prev & r & Hrf & Hr6).
    match goal with |- context [run ?P w4] =>
      assert (Hout : run P w4 = (Ok a', w6)) by exact Hrun; rewrite Hout end.
    split; [exact (eq_trans Hc6 Hc4)|]. split; [exact (eq_trans Hp6 Hp4)|].
    exists (w_tick w). rewrite Er. split; [done|]. split; [exact (eq_trans Ha6 Ha4)|].
    exists id, prev, (clock (w_tick w2)), r. split; [exact Hrf|].
    refine (eq_trans Hr6 _). by rewrite Hr4, Hs4.
  - set (a' := reconciled_cell a false result).
    destruct (run_update_copy a' w2 a Hcell) as (w4 & Hu & Hv4 & _).
    rewrite (run_atomic _ _ _ _ _ Hu), run_emitted.
    apply xview_eq in Hv4 as (Ha4 & Hr4 & _ & Hc4 & _ & _ & Hp4). split; [exact Hc4|].
    split; [exact Hp4|].
    exists (w_tick w). rewrite Er. split; [done|]. split; [exact Ha4|exact Hr4].
Qed.

(** C15: reconciliation settles only what is known.  Run alone on an action in
    execution-unknown, Reconcile asks the tool's reconciler exactly once; a
    confirmed effect makes the action executed with a receipt marked
    "reconciled", a confirmed absence makes it failed without one, and an
    error or a missing reconciler leaves it unknown; on any other action it
    fails without effect.  It never calls the tool itself. *)
Theorem Reconcile_settles orgID w a :
  st_actions (w_store w) !! a_ID a = Some a -> a_OrgID a = orgID -> a_Decision a <> None ->
  let out := run (Reconcile orgID (a_ID a)) w in
  if bool_decide (a_Status a = StUnknown) then reconciles orgID a w out else refused w out.
Proof. exact (run_Reconcile orgID w a). Qed.

(** ** Signatures *)

(** Every receipt the service signs verifies: for a provider whose
    verification accepts its own signatures, which are not empty, the verify
    endpoint finds the signature of an issued receipt valid, and it rejects it
    as soon as the provider rejects the stored hash. *)
Theorem issued_receipt_verifies p id prev r :
  kp_KeyID p <> "" -> (forall h, kp_Sign p h <> "") ->
  (forall h, kp_Verify p h (kp_Sign p h) = true) ->
  fst (sigOK (Some p) (issued (Some p) id prev r)) = true /\
  (forall h, kp_Verify p h (kp_Sign p (r_Hash (issued (Some p) id prev r))) = false ->
     fst (sigOK (Some p) ((issued (Some p) id prev r) <| r_Hash := h |>)) = false).
Proof.
  intros Hk Hs Hv. unfold sigOK, issued. cbn -[hex_encode chained].
  set (h := r_Hash (chained id prev r)).
  assert (Hne : String.eqb (hex_encode (kp_Sign p h)) "" = false).
  { apply String.eqb_neq. intros He. apply (Hs h). assert (H : hex_decode (hex_encode (kp_Sign p h)) = Some "")
      by (by rewrite He). rewrite hex_decode_encode in H. by injection H. }
  rewrite Hne, (proj2 (String.eqb_neq _ _) Hk), hex_decode_encode. cbn [orb].
  split; [by rewrite Hv|]. intros h' Hh'.
  by rewrite (Hh' : kp_Verify p h' (kp_Sign p h) = false).
Qed.

End ExecutionSpec.
