(* ===== verification/ApprovalSpec.v ===== *)
(** * ApprovalSpec: what a human decision on an approval does, run alone *)

From Stdlib Require Import Ascii.
From S2P Require Export ExecutionSpec.

Open Scope Z_scope.

Section ApprovalSpec.
Context `{RL : RuntimeLaws} `{JE : JevEnv} `{SE : Secrets} `{UP : UuidParse} `{NT : Net}.

(** Who decided. *)
Definition decider (b : DecideBody) : string :=
  if String.eqb (db_DecidedBy b) "" then "human" else db_DecidedBy b.

(** The approval after the decision [b] at [at_]. *)
Definition decided_approval (ap : Approval) (b : DecideBody) (at_ : time) : Approval :=
  ap <| ap_Status := if db_Approve b then ApApproved else ApDenied |>
     <| ap_DecidedBy := decider b |> <| ap_DecidedAt := Some at_ |>.

Lemma run_DecideApproval orgID i by_ (approve : bool) w ap :
  st_approvals (w_store w) !! i = Some ap -> ap_OrgID ap = orgID -> ap_Status ap = ApPending ->
  let ap' := ap <| ap_Status := if approve then ApApproved else ApDenied |>
    <| ap_DecidedBy := by_ |> <| ap_DecidedAt := Some (clock (w_tick w)) |> in
  DecideApproval orgID i by_ approve w =
    (Some ap', w <| w_tick ::= S |> <| w_store ::= fun s => s <| st_approvals ::= <[ i := ap' ]> |> |>).
Proof.
  intros Hap Ho Hs. unfold DecideApproval, m_bind, get_store. rewrite Hap.
  rewrite (proj2 (String.eqb_eq _ _) Ho), bool_decide_true by done. cbn [negb orb].
  by destruct w.
Qed.

(** The move of the transaction. *)
Lemma run_move orgID tid to w t :
  st_txns (w_store w) !! tid = Some t -> t_OrgID t = orgID -> t_ID t = tid ->
  exists at_ w', run (let@ t := GetTxn orgID tid in
       match t with
       | None => Ret tt
       | Some t =>
           let@ _ := SetTxnStatus orgID (t_ID (TryTransition t to)) (t_Status (TryTransition t to)) in
           Ret tt
       end) w = (tt, w') /\ st_actions (w_store w') = st_actions (w_store w) /\
    st_approvals (w_store w') = st_approvals (w_store w) /\ w_calls w' = w_calls w /\
    st_txns (w_store w') = <[ tid := t <| t_Status := t_Status (TryTransition t to) |>
      <| t_UpdatedAt := at_ |> ]> (st_txns (w_store w)).
Proof.
  intros Ht Ho Hid.
  rewrite (run_atomic _ _ w (Some t) w).
  2: { rewrite run_GetTxn, Ht. cbn. by rewrite (proj2 (String.eqb_eq _ _) Ho). }
  destruct (TryTransition_other t to) as [Hid' _]. rewrite Hid', Hid.
  rewrite (run_atomic _ _ _ _ _ (run_SetTxnStatus orgID tid _ t w Ht Ho)).
  by eexists _, _.
Qed.

(** A human decision does what it says.  An operator's decision on a
    pending approval of its organization records who decided and when;
    granting makes the action approved and moves the transaction to EXECUTING
    when the lifecycle allows it; denying leaves every action as it is and
    moves the transaction to ABORTING when the lifecycle allows it.  No tool
    is called and nothing else changes. *)
Theorem decision_takes_effect id path i b w ap aid a t :
  callerIsOperator id = true -> Split (TrimPrefix path "/v1/approvals/") "/"%char = [i; "decide"] ->
  st_approvals (w_store w) !! i = Some ap -> ap_OrgID ap = orgOf id -> ap_Status ap = ApPending ->
  ap_ActionID ap = Some aid -> st_actions (w_store w) !! aid = Some a -> a_ID a = aid ->
  a_OrgID a = orgOf id ->
  st_txns (w_store w) !! ap_TransactionID ap = Some t -> t_OrgID t = orgOf id ->
  t_ID t = ap_TransactionID ap ->
  exists at1 at2 w', let ap' := decided_approval ap b at1 in
    run (handleDecideApproval id true path (Some b)) w = (MkResponse 200 (BApproval ap'), w') /\
    st_approvals (w_store w') = <[ i := ap' ]> (st_approvals (w_store w)) /\
    st_actions (w_store w') =
      (if db_Approve b then <[ aid := a <| a_Status := StApproved |> ]> (st_actions (w_store w))
       else st_actions (w_store w)) /\
    st_txns (w_store w') = <[ ap_TransactionID ap := t
      <| t_Status := t_Status (TryTransition t (if db_Approve b then TxnExecuting else TxnAborting)) |>
      <| t_UpdatedAt := at2 |> ]> (st_txns (w_store w)) /\
    w_calls w' = w_calls w.
Proof.
  intros Hop Hsplit Hap Hao Hs Haid Ha Hid Ho Ht Hto Htid. unfold handleDecideApproval.
  rewrite Hop, Hsplit. cbn [negb orb String.eqb Ascii.eqb Bool.eqb default].
  change (Datatypes.id b) with b. cbv zeta.
  rewrite (run_atomic _ _ _ _ _ (run_DecideApproval (orgOf id) i _ (db_Approve b) w ap Hap Hao Hs)).
  set (ap' := ap <| ap_Status := _ |> <| ap_DecidedBy := _ |> <| ap_DecidedAt := _ |>).
  set (w1 := w <| w_tick ::= S |> <| w_store ::= _ |>). rewrite run_emitted.
  set (w2 := snd (Emit _ w1)). change (ap_ActionID ap') with (ap_ActionID ap). rewrite Haid, run_pbind. cbv iota.
  change (ap_TransactionID ap') with (ap_TransactionID ap).
  destruct (db_Approve b) eqn:Eb; cbn [negb].
  - unfold approve_action. change (ap_TransactionID ap') with (ap_TransactionID ap).
    subst aid. rewrite (run_GetAction_own (orgOf id) a _ w2 Ha Ho).
    set (a' := a <| a_Status := StApproved |>).
    destruct (run_update_copy a' w2 a Ha) as (w3 & Hu & _ & Hv3). rewrite (run_atomic _ _ _ _ _ Hu).
    apply view_eq in Hv3 as (Ha3 & Hp3 & Ht3 & _ & _ & _ & Hc3).
    destruct (run_move (orgOf id) (ap_TransactionID ap) TxnExecuting w3 t)
      as (at2 & w4 & Hrun & Ha4 & Hp4 & Hc4 & Ht4); [by rewrite Ht3|done|done|].
    rewrite Hrun. exists (clock (w_tick w)), at2, w4. split.
    { unfold decided_approval. by rewrite Eb. }
    rewrite Hp4, Ht4, Ha4, Hc4, Hc3, Ha3, Hp3, Ht3. unfold decided_approval. by rewrite Eb.
  - unfold abort_txn. change (ap_TransactionID ap') with (ap_TransactionID ap). cbn [run].
    rewrite run_pbind. cbv zeta.
    destruct (run_move (orgOf id) (ap_TransactionID ap) TxnAborting w2 t)
      as (at2 & w4 & Hrun & Ha4 & Hp4 & Hc4 & Ht4); [done|done|done|].
    rewrite Hrun. exists (clock (w_tick w)), at2, w4. split.
    { unfold decided_approval. by rewrite Eb. }
    rewrite Hp4, Ht4, Ha4, Hc4. unfold decided_approval. by rewrite Eb.
Qed.

End ApprovalSpec.
