(* ===== verification/AnyStore.v ===== *)
(** * AnyStore: the service on any implementation of the Store interface

    Commit (gateway/service.go) and the decision of an approval
    (api/server.go) as programs over the calls of the interface they make.
    On the memory store they are the definitions of [Gateway] and [Api]; what
    they do to the ledger is proved for every store that keeps the contract,
    so it holds on Postgres as well. *)

From Stdlib Require Import Ascii.
From S2P Require Export ApprovalSpec PgRefine.

Open Scope Z_scope.

(** ** The calls *)

Class Backend (St : Type) := {
  be_GetTxn : string -> string -> program St (option Transaction);
  be_SetTxnStatus : string -> string -> TxnStatus -> program St (option string);
  be_GetAction : string -> string -> program St (option TxnAction);
  be_UpdateAction : TxnAction -> program St unit;
  be_ActionsForTxn : string -> string -> program St (list TxnAction);
  be_DecideApproval : string -> string -> string -> bool -> program St (option Approval);
  be_Emit : AuditEvent -> program St unit;
  be_TraceID : program St string }.

#[export] Instance memory_backend `{RT : Runtime} : Backend World := {|
  be_GetTxn o id := let@ t := Store.GetTxn o id in Ret t;
  be_SetTxnStatus o id st :=
    let@ ok := Store.SetTxnStatus o id st in Ret (if ok : bool then None else Some "transaction not found");
  be_GetAction o id := let@ a := Store.GetAction o id in Ret a;
  be_UpdateAction a := let@ u := Store.UpdateAction a in Ret u;
  be_ActionsForTxn o t := let@ l := Store.ActionsForTxn o t in Ret l;
  be_DecideApproval o id b v := let@ a := Store.DecideApproval o id b v in Ret a;
  be_Emit e := let@ u := Store.Emit e in Ret u;
  be_TraceID := let@ t := Gateway.TraceID in Ret t |}.

#[export] Instance postgres_backend `{RT : Runtime} `{PE : PgEnv} : Backend Pg := {|
  be_GetTxn := PgStore.GetTxn;
  be_SetTxnStatus := PgStore.SetTxnStatus;
  be_GetAction := PgStore.GetAction;
  be_UpdateAction := PgStore.UpdateAction;
  be_ActionsForTxn := PgStore.ActionsForTxn;
  be_DecideApproval := PgStore.DecideApproval;
  be_Emit := PgStore.Emit;
  be_TraceID := let@ t := (fun s => (trace_id (pg_tick s), s <| pg_tick ::= S |>)) in Ret t |}.

(** ** The service *)

Section Service.
Context {St : Type} `{BE : Backend St}.

Definition refuse {A} (msg : string) : program St (goresult A) := Ret (Err None (ErrPlain msg)).

Definition Commit (orgID txnID : string) : program St (goresult (option Transaction)) :=
  let! t := be_GetTxn orgID txnID in
  match t with
  | None => refuse "transaction not found"
  | Some t =>
      if is_terminal (t_Status t)
      then refuse ("transaction is terminal (" +:+ TxnStatus_str (t_Status t) +:+ ")")
      else
        let! acts := be_ActionsForTxn orgID txnID in
        match commit_blocker acts with
        | Some why => refuse why
        | None =>
            match MustTransition t TxnCommitted with
            | inr err => refuse err
            | inl _ =>
                let! err := be_SetTxnStatus orgID txnID TxnCommitted in
                match err with
                | Some err => refuse err
                | None =>
                    let! trace := be_TraceID in
                    let! _ := be_Emit (event orgID txnID "system" "gateway" "transaction.committed"
                      [("trace_id", VString trace)]) in
                    let! out := be_GetTxn orgID txnID in
                    Ret (Ok out)
                end
            end
        end
  end.

Definition move_txn (orgID txnID : string) (to : TxnStatus) : program St unit :=
  let! t := be_GetTxn orgID txnID in
  match t with
  | None => Ret tt
  | Some t =>
      let t := TryTransition t to in
      let! _ := be_SetTxnStatus orgID (t_ID t) (t_Status t) in
      Ret tt
  end.

Definition approve_action (orgID : string) (ap : Approval) (actionID : string) : program St unit :=
  let! a := be_GetAction orgID actionID in
  match a with
  | None => Ret tt
  | Some a =>
      let! _ := be_UpdateAction (a <| a_Status := StApproved |>) in
      move_txn orgID (ap_TransactionID ap) TxnExecuting
  end.

Definition respond (code : Z) (b : body) : program St Response := Ret (MkResponse code b).

Definition handleDecideApproval (id : option Identity) (post : bool) (path : string)
    (rbody : option DecideBody) : program St Response :=
  let orgID := orgOf id in
  if negb (callerIsOperator id) then
    respond 403 (BError "operator_required" "Approvals are human decisions; an operator token is required.")
  else
    match Split (TrimPrefix path "/v1/approvals/") "/"%char with
    | [approvalID; verb] =>
        if negb (String.eqb verb "decide") || negb post then
          respond 404 (BError "not_found" "Use POST /v1/approvals/:id/decide.")
        else
          let b := default (MkDecideBody false "") rbody in
          let by_ := if String.eqb (db_DecidedBy b) "" then "human" else db_DecidedBy b in
          let! ap := be_DecideApproval orgID approvalID by_ (db_Approve b) in
          match ap with
          | None => respond 404 (BError "approval_not_found" "Approval is missing, already decided, or in another organization.")
          | Some ap =>
              let! _ := be_Emit (event orgID (ap_TransactionID ap) "human" by_
                (if db_Approve b then "approval.granted" else "approval.denied")
                [("approval_id", VString (ap_ID ap))]) in
              let! _ := match ap_ActionID ap with
                        | Some actionID =>
                            if db_Approve b then approve_action orgID ap actionID else Ret tt
                        | None => Ret tt
                        end in
              let! _ := (if negb (db_Approve b) then move_txn orgID (ap_TransactionID ap) TxnAborting else Ret tt) in
              respond 200 (BApproval ap)
          end
    | _ => respond 404 (BError "not_found" "Use POST /v1/approvals/:id/decide.")
    end.

End Service.

(** On the memory store these are the programs of the service. *)
Lemma Commit_memory `{RT : Runtime} orgID txnID w :
  run (Commit (St := World) orgID txnID) w = run (Gateway.Commit orgID txnID) w.
Proof.
  unfold Commit, Gateway.Commit. cbn -[Store.GetTxn Store.ActionsForTxn Store.SetTxnStatus MustTransition].
  destruct (Store.GetTxn orgID txnID w) as [[t|] w1]; [|done].
  destruct (is_terminal _); [done|]. cbn -[Store.GetTxn Store.ActionsForTxn Store.SetTxnStatus MustTransition].
  destruct (Store.ActionsForTxn orgID txnID w1) as [acts w2].
  destruct (commit_blocker acts); [done|]. destruct (MustTransition t TxnCommitted); [|done].
  cbn -[Store.GetTxn Store.SetTxnStatus]. by destruct (Store.SetTxnStatus orgID txnID TxnCommitted w2) as [[] w3].
Qed.

Lemma handleDecideApproval_memory `{RT : Runtime} id post path b :
  handleDecideApproval (St := World) id post path b = Api.handleDecideApproval id post path b.
Proof. reflexivity. Qed.

(** ** What a backend promises *)

(** A call is the one of the contract, up to the view of its answer. *)
Definition answers {St} `{RT : Runtime} `{!Store St} {A} (op : Op) (p : program St A) (f : A -> Res) : Prop :=
  forall s, run (exec_op op) s = (f (run p s).1, (run p s).2).

Class BackendLaws (St : Type) `{RT : Runtime} `{!Store St} `{!Backend St} := {
  bl_GetTxn o id : answers (OGetTxn o id) (be_GetTxn o id) (fun t => RTxn (txn_view <$> t));
  bl_SetTxnStatus o id st : answers (OSetTxnStatus o id st) (be_SetTxnStatus o id st) (fun err => RBool (bool_decide (err = None)));
  bl_GetAction o id : answers (OGetAction o id) (be_GetAction o id) (fun a => RAction (action_view <$> a) false);
  bl_UpdateAction a : answers (OUpdateAction a) (be_UpdateAction a) (fun _ => RUnit);
  bl_ActionsForTxn o t : answers (OActionsForTxn o t) (be_ActionsForTxn o t) (fun l => RActions (action_view <$> l));
  bl_DecideApproval o id b v :
    answers (ODecideApproval o id b v) (be_DecideApproval o id b v) (fun a => RApproval (approval_view <$> a));
  bl_Emit l s e : store_ok l s -> store_ok l (run (be_Emit e) s).2;
  bl_TraceID l s : store_ok l s -> store_ok l (run be_TraceID s).2 }.

Lemma answers_pbind {St} `{RT : Runtime} `{!Store St} {A} op (p : program St A) (f : A -> Res) :
  exec_op op = pbind p (fun x => Ret (f x)) -> answers op p f.
Proof. intros E s. rewrite E, run_pbind. by destruct (run p s). Qed.

#[export] Instance memory_backend_laws `{RL : RuntimeLaws} `{PI : !PlainIds} : BackendLaws World.
Proof.
  split; try (intros; by apply answers_pbind).
  - intros o id st s. cbn -[Store.SetTxnStatus].
    destruct (Store.SetTxnStatus o id st s) as [[] s']; reflexivity.
  - intros l s e Hok. cbn. by apply (mem_ok_frame l s); cbn; try lia.
  - intros l s Hok. cbn. by apply (mem_ok_frame l s).
Qed.

#[export] Instance postgres_backend_laws `{RL : RuntimeLaws} `{PE : PgEnv} : BackendLaws Pg.
Proof.
  split; try (intros; by apply answers_pbind).
  - intros l s e Hok.
    assert (Hw : prog_within core_eq (PgStore.Emit e)) by (unfold PgStore.Emit, insert_event; repeat first [progress within_all|case_match_goal]).
    destruct (run_within _ s Hw) as (C & _ & U & T). by apply (pg_ok_core l s).
  - intros l s Hok. cbn. by apply pg_ok_tick.
Qed.

(** ** What the calls do, on any store *)

Section OnAnyStore.
Context {St : Type} `{RT : Runtime} `{ST : !Store St} `{BE : !Backend St} `{SL : !StoreLaws St} `{BL : !BackendLaws St}.

Lemma call_refines {A} op (p : program St A) f l s :
  answers op p f -> store_ok l s -> admissible store_id l op ->
  exists x s' l', run p s = (x, s') /\ spec_step l op (f x) l' /\ store_ok l' s'.
Proof.
  intros Ha Hok Had. destruct (store_refines l s op Hok Had) as (l' & Hs & Hok'). rewrite Ha in Hs, Hok'. cbn in Hs, Hok'.
  exists (run p s).1, (run p s).2, l'. split; [by destruct (run p s)|done].
Qed.

Lemma on_GetTxn l s o id : store_ok l s -> store_id o -> store_id id ->
  exists t s', run (be_GetTxn o id) s = (t, s') /\ txn_view <$> t = owned t_OrgID o (l_txns l !! id) /\ store_ok l s'.
Proof.
  intros Hok Ho Hid. destruct (call_refines _ _ _ l s (bl_GetTxn o id) Hok (conj Ho Hid)) as (t & s' & l' & E & Hs & Hok').
  exists t, s'. split; [done|]. inversion Hs; subst. done.
Qed.

Lemma on_GetAction l s o id : store_ok l s -> store_id o -> store_id id ->
  exists a s', run (be_GetAction o id) s = (a, s') /\ action_view <$> a = owned a_OrgID o (l_actions l !! id) /\ store_ok l s'.
Proof.
  intros Hok Ho Hid. destruct (call_refines _ _ _ l s (bl_GetAction o id) Hok (conj Ho Hid)) as (a & s' & l' & E & Hs & Hok').
  exists a, s'. split; [done|]. inversion Hs; subst. done.
Qed.

Lemma on_ActionsForTxn l s o txn : store_ok l s -> store_id o -> store_id txn ->
  exists acts s', run (be_ActionsForTxn o txn) s = (acts, s') /\
    action_view <$> acts ≡ₚ base.filter (in_txn o txn) (map_to_list (l_actions l)).*2 /\ store_ok l s'.
Proof.
  intros Hok Ho Hid. destruct (call_refines _ _ _ l s (bl_ActionsForTxn o txn) Hok (conj Ho Hid)) as (a & s' & l' & E & Hs & Hok').
  exists a, s'. split; [done|]. inversion Hs; subst. done.
Qed.

Lemma on_SetTxnStatus l s o id st t : store_ok l s -> store_id o -> store_id id -> st <> TxnZero ->
  owned t_OrgID o (l_txns l !! id) = Some t ->
  exists s', run (be_SetTxnStatus o id st) s = (None, s') /\
    store_ok (l <| l_txns ::= <[ id := t <| t_Status := st |> ]> |>) s'.
Proof.
  intros Hok Ho Hid Hst Ht.
  destruct (call_refines _ _ _ l s (bl_SetTxnStatus o id st) Hok (conj Ho (conj Hid Hst))) as (b & s' & l' & E & Hs & Hok').
  exists s'. inversion Hs; subst; [|congruence].
  assert (b = None) as -> by (by apply (bool_decide_eq_true_1 _)). split; [done|].
  match goal with H : owned _ _ _ = Some ?x |- _ => assert (x = t) as -> by congruence end. done.
Qed.

Lemma on_Emit l s e : store_ok l s -> exists s', run (be_Emit e) s = (tt, s') /\ store_ok l s'.
Proof. intros Hok. exists (run (be_Emit e) s).2. split; [by destruct (run _ s) as [[] ?]|by apply bl_Emit]. Qed.

Lemma on_TraceID l s : store_ok l s -> exists x s', run be_TraceID s = (x, s') /\ store_ok l s'.
Proof. intros Hok. exists (run be_TraceID s).1, (run be_TraceID s).2. split; [by destruct (run _ s)|by apply bl_TraceID]. Qed.

Lemma owned_own {A} (f : A -> string) org x : f x = org -> owned f org (Some x) = Some x.
Proof. intros <-. unfold owned. cbn. by rewrite string_eqb_refl. Qed.

(** ** Commit *)

(** Executing, and every action of it resolved. *)
Definition commit_ready (l : Ledger) (org txn : string) : Prop :=
  (exists t, owned t_OrgID org (l_txns l !! txn) = Some t /\ t_Status t = TxnExecuting) /\
  forall id a, l_actions l !! id = Some a -> in_txn org txn a -> resolved (a_Status a) = true.

Lemma blocker_views l org txn acts :
  action_view <$> acts ≡ₚ base.filter (in_txn org txn) (map_to_list (l_actions l)).*2 ->
  commit_blocker acts = None <-> forall id a, l_actions l !! id = Some a -> in_txn org txn a -> resolved (a_Status a) = true.
Proof.
  intros Hp. rewrite commit_blocker_spec. split.
  - intros H id a Hid Ha. assert (Hin : a ∈ action_view <$> acts).
    { rewrite Hp. apply list_elem_of_filter. split; [done|]. apply elem_of_values. by exists id. }
    apply list_elem_of_fmap in Hin as (b & -> & Hb). exact (H b Hb).
  - intros H a Ha. assert (Hin : action_view a ∈ action_view <$> acts) by (apply list_elem_of_fmap; by exists a).
    rewrite Hp in Hin. apply list_elem_of_filter in Hin as [Htx Hin]. apply elem_of_values in Hin as [id Hid].
    exact (H id _ Hid Htx).
Qed.

(** C17: Commit is exact on every store.  On a store that keeps the contract
    of the interface, MemoryStore, or PGStore while its database refuses no
    statement from outside and cuts off no result, Commit succeeds exactly when the
    transaction is the organization's, is EXECUTING, and every action of it is
    executed, denied or compensated; the transaction is then COMMITTED, is
    returned so, and nothing else of the ledger changes.  Otherwise it refuses
    and the ledger stays as it is. *)
Theorem commit_on_any_store l s org txn :
  store_ok l s -> store_id org -> store_id txn ->
  let '(r, s') := run (Commit org txn) s in
  (commit_ready l org txn -> exists t t', l_txns l !! txn = Some t /\ r = Ok (Some t') /\
     txn_view t' = t <| t_Status := TxnCommitted |> /\
     store_ok (l <| l_txns ::= <[ txn := t <| t_Status := TxnCommitted |> ]> |>) s') /\
  (~ commit_ready l org txn -> (exists e, r = Err None e) /\ store_ok l s').
Proof.
  intros Hok Ho Ht. unfold Commit. rewrite run_pbind.
  destruct (on_GetTxn l s org txn Hok Ho Ht) as (t & s1 & -> & Ev & Hok1).
  destruct t as [t|]; cbn in Ev.
  2: { split; [|intros _; split; [by eexists|done]]. intros [(x & Hx & _) _]. congruence. }
  destruct (is_terminal (t_Status t)) eqn:Eterm.
  { split; [|intros _; split; [by eexists|done]]. intros [(x & Hx & Hs) _]. rewrite <- Ev in Hx. injection Hx as <-.
    cbn in Hs. by rewrite Hs in Eterm. }
  rewrite run_pbind. destruct (on_ActionsForTxn l s1 org txn Hok1 Ho Ht) as (acts & s2 & -> & Hacts & Hok2).
  pose proof (blocker_views l org txn acts Hacts) as Hblock. destruct (commit_blocker acts) as [why|].
  { split; [|intros _; split; [by eexists|done]]. intros [_ Hall]. by apply Hblock in Hall. }
  rewrite (commit_transition t Eterm). case_bool_decide as Hexec.
  2: { split; [|intros _; split; [by eexists|done]]. intros [(x & Hx & Hs) _]. rewrite <- Ev in Hx. by injection Hx as <-. }
  assert (Hready : commit_ready l org txn) by (split; [by exists (txn_view t)|by apply Hblock]).
  rewrite run_pbind. destruct (on_SetTxnStatus l s2 org txn TxnCommitted (txn_view t) Hok2 Ho Ht ltac:(done) (eq_sym Ev))
    as (s3 & -> & Hok3). rewrite run_pbind.
  destruct (on_TraceID _ s3 Hok3) as (tr & s4 & -> & Hok4). rewrite run_pbind.
  destruct (on_Emit _ s4 (event org txn "system" "gateway" "transaction.committed" [("trace_id", VString tr)]) Hok4)
    as (s5 & -> & Hok5). rewrite run_pbind.
  destruct (on_GetTxn _ s5 org txn Hok5 Ho Ht) as (out & s6 & -> & Eo & Hok6). symmetry in Ev.
  apply owned_Some in Ev as [Hl Hown]. change (l_txns (_ <| l_txns ::= ?f |>)) with (f (l_txns l)) in Eo.
  rewrite lookup_insert_eq, owned_own in Eo by exact Hown. destruct out as [t'|]; [|done].
  apply (inj Some) in Eo.
  split; [intros _|by intros Hn; destruct (Hn Hready)]. exists (txn_view t), t'. split; [exact Hl|]. split; [done|].
  split; [exact Eo|exact Hok6].
Qed.

(** Reads that let Commit pass show that it is ready. *)
Lemma commit_ready_read l s org txn t s1 acts s2 :
  store_ok l s -> store_id org -> store_id txn ->
  run (be_GetTxn org txn) s = (Some t, s1) -> t_Status t = TxnExecuting ->
  run (be_ActionsForTxn org txn) s = (acts, s2) -> commit_blocker acts = None -> commit_ready l org txn.
Proof.
  intros Hok Ho Ht Eg Hs Ea Hb. destruct (on_GetTxn l s org txn Hok Ho Ht) as (t' & s' & E & Ev & _).
  assert (t' = Some t) as -> by congruence. split; [by exists (txn_view t)|].
  destruct (on_ActionsForTxn l s org txn Hok Ho Ht) as (acts' & s'' & E' & Hp & _).
  assert (acts' = acts) as -> by congruence. by apply (blocker_views l org txn acts).
Qed.

(** ** The decision of an approval *)

(** A move of the transaction, refused by the lifecycle or not. *)
Definition moved (org txn : string) (to : TxnStatus) (l : Ledger) : Ledger :=
  match owned t_OrgID org (l_txns l !! txn) with
  | Some t => l <| l_txns ::= <[ txn := TryTransition t to ]> |>
  | None => l
  end.

(** A granted action of the organization, and the move it brings. *)
Definition granted_action (org txn aid : string) (l : Ledger) : Ledger :=
  match owned a_OrgID org (l_actions l !! aid) with
  | Some a => moved org txn TxnExecuting (l <| l_actions ::= <[ aid := a <| a_Status := StApproved |> ]> |>)
  | None => l
  end.

(** What a decision does to the ledger; none when the approval is not the
    organization's or not pending. *)
Definition decision (org id by_ : string) (approve : bool) (l : Ledger) : option (Approval * Ledger) :=
  ap ← owned ap_OrgID org (l_approvals l !! id);
  if negb (bool_decide (ap_Status ap = ApPending)) then None
  else
    let l := l <| l_approvals ::= <[ id := decided by_ approve ap ]> |> in
    Some (decided by_ approve ap,
      if approve then
        match ap_ActionID ap with
        | Some aid => granted_action org (ap_TransactionID ap) aid l
        | None => l
        end
      else moved org (ap_TransactionID ap) TxnAborting l).

Lemma TryTransition_view t to : txn_view t <| t_Status := t_Status (TryTransition t to) |> = TryTransition (txn_view t) to.
Proof. unfold TryTransition, MustTransition. by destruct (CanTransition _ _), t. Qed.

Lemma TryTransition_known t to : t_Status t <> TxnZero -> to <> TxnZero -> t_Status (TryTransition t to) <> TxnZero.
Proof. unfold TryTransition, MustTransition. by destruct (CanTransition _ _). Qed.

Lemma on_UpdateAction l s a cur : store_ok l s -> l_actions l !! a_ID a = Some cur -> same_request a cur ->
  a_ArgumentsHash a = a_ArgumentsHash cur -> a_Status a <> StZero -> known_decision (a_Decision a) ->
  a_Decision a = a_Decision cur ->
  exists s', run (be_UpdateAction a) s = (tt, s') /\ store_ok (l <| l_actions ::= <[ a_ID a := action_view a ]> |>) s'.
Proof.
  intros Hok Hc Hr Hh Hs Hk Hd.
  destruct (call_refines _ _ _ l s (bl_UpdateAction a) Hok) as ([] & s' & l' & E & Hst & Hok'); [exists cur; split_and!; by try left|].
  exists s'. split; [done|]. by inversion Hst; subst.
Qed.

Lemma on_DecideApproval l s org id by_ approve : store_ok l s -> store_id org -> store_id id ->
  exists r s', run (be_DecideApproval org id by_ approve) s = (r, s') /\
    match r with
    | Some ap' => exists ap, owned ap_OrgID org (l_approvals l !! id) = Some ap /\ ap_Status ap = ApPending /\
        approval_view ap' = decided by_ approve ap /\
        store_ok (l <| l_approvals ::= <[ id := decided by_ approve ap ]> |>) s'
    | None => (forall ap, owned ap_OrgID org (l_approvals l !! id) = Some ap -> ap_Status ap <> ApPending) /\ store_ok l s'
    end.
Proof.
  intros Hok Ho Hid.
  destruct (call_refines _ _ _ l s (bl_DecideApproval org id by_ approve) Hok (conj Ho Hid)) as (r & s' & l' & E & Hs & Hok').
  exists r, s'. split; [done|]. remember (RApproval (approval_view <$> r)) as res eqn:Er.
  inversion Hs as [| | | | | | | | | | | | | |? ? ? ? ap Hap Hpend|? ? ? ? Hno| | | | | | | | | | | | | | | |]; subst;
    match goal with E : RApproval _ = RApproval _ |- _ =>
      apply (f_equal (fun x => match x with RApproval a => a | _ => None end)) in E; cbn in E; rename E into Er end.
  - destruct r as [ap'|]; [|done]. apply (inj Some) in Er. exists ap. split; [done|]. split; [done|]. by rewrite <- Er.
  - by destruct r.
Qed.

Lemma on_move l s org txn to : store_ok l s -> store_id org -> store_id txn -> to <> TxnZero ->
  (forall t, l_txns l !! txn = Some t -> t_ID t = txn /\ t_Status t <> TxnZero) ->
  exists s', run (move_txn org txn to) s = (tt, s') /\ store_ok (moved org txn to l) s'.
Proof.
  intros Hok Ho Ht Hto Hl. unfold move_txn, moved. rewrite run_pbind.
  destruct (on_GetTxn l s org txn Hok Ho Ht) as (t & s1 & -> & Ev & Hok1). rewrite <- Ev.
  destruct t as [t|]; cbn [fmap option_fmap option_map]; [|by exists s1].
  symmetry in Ev. pose proof Ev as Ev0. apply owned_Some in Ev0 as [Hin _]. apply Hl in Hin as [Hid Hz].
  change (t_ID t = txn) in Hid. cbv zeta. rewrite run_pbind, (proj1 (TryTransition_other t to)), Hid.
  destruct (on_SetTxnStatus l s1 org txn (t_Status (TryTransition t to)) (txn_view t) Hok1 Ho Ht) as (s2 & -> & Hok2);
    [by apply TryTransition_known|done|]. exists s2. split; [done|]. by rewrite <- TryTransition_view.
Qed.

Lemma on_approve l s org ap aid : store_ok l s -> ledger_ok l -> store_id org -> store_id (ap_TransactionID ap) -> store_id aid ->
  exists s', run (approve_action org ap aid) s = (tt, s') /\ store_ok (granted_action org (ap_TransactionID ap) aid l) s'.
Proof.
  intros Hok Hl Ho Ht Ha. unfold approve_action, granted_action. rewrite run_pbind.
  destruct (on_GetAction l s org aid Hok Ho Ha) as (a & s1 & -> & Ev & Hok1). rewrite <- Ev.
  destruct a as [a|]; cbn [fmap option_fmap option_map]; [|by exists s1].
  symmetry in Ev. apply owned_Some in Ev as [Hin _]. pose proof (lo_actions _ Hl _ _ Hin) as Hid. change (a_ID a = aid) in Hid.
  pose proof (lo_known _ Hl _ _ Hin) as Hk. rewrite run_pbind.
  destruct (on_UpdateAction l s1 (a <| a_Status := StApproved |>) (action_view a) Hok1) as (s2 & -> & Hok2); try done.
  { change (l_actions l !! a_ID a = Some (action_view a)). by rewrite Hid. }
  change (a_ID (a <| a_Status := StApproved |>)) with (a_ID a) in Hok2. rewrite Hid in Hok2.
  apply on_move; [exact Hok2|done..|]. intros t. exact (lo_txns _ Hl _ t).
Qed.

(** C16: the decision of an approval is exact on every store.  On a store
    that keeps the contract of the interface, MemoryStore, or PGStore while
    its database refuses no statement from outside and cuts off no result, an
    operator's decision answers 404 and leaves the ledger when the approval is
    not the organization's or not pending; otherwise it is recorded with who
    made it, the approval is returned, a grant makes the action APPROVED and
    moves the transaction to EXECUTING, a denial moves it to ABORTING, each
    when the lifecycle allows it, and nothing else of the ledger changes. *)
Theorem decision_on_any_store l s id path i b :
  store_ok l s -> ledger_ok l -> callerIsOperator id = true ->
  Split (TrimPrefix path "/v1/approvals/") "/"%char = [i; "decide"] -> store_id (orgOf id) -> store_id i ->
  (forall ap, l_approvals l !! i = Some ap ->
    store_id (ap_TransactionID ap) /\ forall aid, ap_ActionID ap = Some aid -> store_id aid) ->
  let '(r, s') := run (handleDecideApproval id true path (Some b)) s in
  match decision (orgOf id) i (decider b) (db_Approve b) l with
  | Some (ap', l') => (exists ap, r = MkResponse 200 (BApproval ap) /\ approval_view ap = ap') /\ store_ok l' s'
  | None => rs_Code r = 404 /\ store_ok l s'
  end.
Proof.
  intros Hok Hl Hop Hsplit Ho Hi Hrefs. unfold handleDecideApproval. rewrite Hop, Hsplit.
  cbn [negb orb String.eqb Ascii.eqb Bool.eqb default]. change (Datatypes.id b) with b. cbv zeta. rewrite run_pbind.
  change (if String.eqb (db_DecidedBy b) "" then "human" else db_DecidedBy b) with (decider b).
  destruct (on_DecideApproval l s (orgOf id) i (decider b) (db_Approve b) Hok Ho Hi) as (r & s1 & -> & Hr).
  unfold decision. destruct r as [ap'|].
  2: { destruct Hr as [Hno Hok1]. destruct (owned _ _ _) as [ap|]; cbn; [|done]. by rewrite bool_decide_eq_false_2 by auto. }
  destruct Hr as (ap & Eap & Hpend & Hv & Hok1). rewrite Eap. cbn [mbind option_bind].
  rewrite bool_decide_eq_true_2 by done. cbn [negb].
  pose proof Eap as Eown. apply owned_Some in Eown as [Hin _]. destruct (Hrefs ap Hin) as [Ht Ha].
  assert (ap_TransactionID ap = ap_TransactionID ap') as Et by (change (ap_TransactionID ap') with (ap_TransactionID (approval_view ap')); by rewrite Hv).
  assert (ap_ActionID ap = ap_ActionID ap') as Ea by (change (ap_ActionID ap') with (ap_ActionID (approval_view ap')); by rewrite Hv).
  rewrite Et in Ht |- *. rewrite Ea in Ha |- *. clear Et Ea. rewrite run_pbind.
  destruct (on_Emit _ s1 (event (orgOf id) (ap_TransactionID ap') "human" (decider b)
    (if db_Approve b then "approval.granted" else "approval.denied") [("approval_id", VString (ap_ID ap'))]) Hok1) as (s2 & -> & Hok2).
  rewrite run_pbind. set (l1 := l <| l_approvals ::= _ |>) in *.
  assert (Hl1 : ledger_ok l1) by (eapply (spec_ok l (ODecideApproval (orgOf id) i (decider b) (db_Approve b)));
    [exact (conj Ho Hi)|done|by apply spec_decide]).
  destruct (db_Approve b) eqn:Eb; cbn [negb].
  - destruct (ap_ActionID ap') as [aid|].
    + destruct (on_approve l1 s2 (orgOf id) ap' aid Hok2 Hl1 Ho Ht (Ha _ eq_refl)) as (s3 & -> & Hok3).
      cbn. split; [by exists ap'|done].
    + cbn. split; [by exists ap'|done].
  - destruct (on_move l1 s2 (orgOf id) (ap_TransactionID ap') TxnAborting Hok2 Ho Ht) as (s3 & E & Hok3); [done|exact (lo_txns _ Hl1 _)|].
    destruct (ap_ActionID ap'); cbn [run]; rewrite run_pbind, E; cbn; (split; [by exists ap'|done]).
Qed.

End OnAnyStore.
