(* ===== verification/SafetyOps.v ===== *)
(** * SafetyOps: every operation of the gateway meets its obligation *)

From S2P Require Export SafetyRules2.

Open Scope Z_scope.

(** The obligation of an operation: it ends owning nothing. *)
Abbreviation safe p w := (wps p None w (fun _ O _ => O = None)).

(** Moves the facts about the world before a step to the world after it. *)
Ltac carry Hm :=
  lazymatch type of Hm with
  | mono ?w ?w' =>
      repeat match goal with
      | H : settled w _ |- _ => apply (settled_mono _ _ _ Hm) in H
      | H : authorised w _ |- _ => apply (authorised_mono _ _ _ Hm) in H
      | H : approved_by w _ |- _ => apply (approved_by_mono _ _ _ Hm) in H
      | H : called w _ |- _ => apply (called_mono _ _ _ Hm) in H
      | H : gated w _ _ _ |- _ => apply (gated_mono _ _ _ _ _ Hm) in H
      | H : cell_ok w _ |- _ => apply (cell_ok_mono _ _ _ Hm) in H
      | H : receipt_ok w _ |- _ => apply (receipt_ok_mono _ _ _ Hm) in H
      end
  end.

(** One quiet critical section. *)
Ltac quiet_next :=
  apply wp_quiet; [solve [auto with benign]|];
  let x := fresh "x" in let w := fresh "w" in
  let Hm := fresh "Hm" in let Hi := fresh "Hi" in let Ho := fresh "Ho" in
  intros x w Hm Hi Ho; carry Hm.

Section Ops.
Context `{RL : RuntimeLaws} `{JE : JevEnv} `{SE : Secrets} `{UP : UuidParse} `{NT : Net}.

(** ** Copies of a cell *)

Lemma settled_core w a a' :
  core_of a' = core_of a -> a_Decision a' = a_Decision a -> settled w a -> settled w a'.
Proof.
  intros Hc Hd (c & Hin & Hcore & Hdec & Hp & Hn).
  pose proof (core_of_fields _ _ Hc) as (Hid & _). exists c.
  rewrite Hid, Hc, Hd. done.
Qed.

(** The statuses of an action whose tool was called. *)
Definition ran (st : ActionStatus) : bool :=
  match st with
  | StExecuted | StUnknown | StFailed | StCompensated | StCompensationFailed => true
  | _ => false
  end.

(** What a copy read from the store tells, by its status. *)
Lemma cell_settled w a :
  st_actions (w_store w) !! a_ID a = Some a -> past (a_Status a) -> settled w a.
Proof. intros Ha [? ?]. by exists a. Qed.

Lemma cell_authorised w a :
  cell_ok w a ->
  (a_Status a = StApproved \/
   a_Status a = StAllowed /\ (exists d, a_Decision a = Some d /\ is_allow (d_Effect d) = true) \/
   ran (a_Status a) = true) ->
  authorised w a.
Proof.
  unfold cell_ok. intros Hok [Hs|[[Hs (d & Hd & He)]|Hs]].
  - rewrite Hs in Hok. destruct Hok as [(d & Hd & He) Hap]. exists d. auto.
  - exists d. auto.
  - destruct (a_Status a); try discriminate Hs; by destruct Hok.
Qed.

Lemma executable_authorised w a :
  cell_ok w a -> (exists d, a_Decision a = Some d /\ is_allow (d_Effect d) = true) ->
  authorised w a.
Proof. intros _ (d & Hd & He). exists d. auto. Qed.

Lemma receipt_for_ok w orgID a res comp t1 t2 r :
  receipt_for orgID a res comp t1 t2 = Some r -> a_OrgID a = orgID ->
  settled w a -> authorised w a -> called w (a_ID a) -> receipt_ok w r.
Proof.
  unfold receipt_for. destruct (a_Decision a) as [d|] eqn:Ed; [|done]. cbn.
  intros Heq Ho (c & Hc & Hcore & Hd & Hp & Hn) Hau Hca. injection Heq as <-.
  pose proof (core_of_fields _ _ Hcore) as (? & ? & ? & ? & ? & ? & ? & _).
  exists c, d. cbn. repeat (split; [congruence|]). split; [|done].
  eapply authorised_core; [symmetry; exact Hcore|congruence|done].
Qed.

(** ** Execution *)

Lemma wp_signReceipt ptr w :
  wps (signReceipt ptr) None w (fun _ O _ => O = None).
Proof.
  unfold signReceipt. quiet_next. destruct x as [p|]; [|done].
  apply wp_benign; [apply _|by apply benign_write_receipt|].
  intros w1 x w2 _ _ _ Hi2 Hm2 _. quiet_next.
  apply wp_benign; [apply _|by apply benign_write_receipt|]. done.
Qed.

Lemma benign_update_receipt_cell ptr : benign inv mono (update_receipt_cell ptr).
Proof. intros w Hi. unfold update_receipt_cell. by apply benign_UpdateReceipt. Qed.

Lemma wp_issue_receipt {A} r (k : string -> prog A) w Q :
  receipt_ok w r -> (forall rid w2, wps (k rid) None w2 Q) ->
  wps (let! rid := issue_receipt r in k rid) None w Q.
Proof.
  intros Hok Hk. apply wp_pbind. unfold issue_receipt.
  apply wp_AppendReceipt; [done|]. intros ptr w2 _ _ _.
  apply wp_pbind. eapply wp_mono_post; [|apply wp_signReceipt].
  cbn beta. intros _ O' w' ->.
  apply wp_benign; [apply _|apply benign_update_receipt_cell|].
  intros w1 x w3 _ _ _ _ _ _. quiet_next. apply Hk.
Qed.

Lemma safe_run_action orgID a w :
  a_OrgID a = orgID -> settled w a -> authorised w a -> safe (run_action orgID a) w.
Proof.
  intros Ho Hse Hau. unfold run_action. quiet_next.
  assert (Hstart : forall (f : prog (goresult TxnAction)),
    (forall w2, settled w2 a -> authorised w2 a -> safe f w2) ->
    safe (let! _ := match x with
            | Some t => if moves_to_executing (t_Status t)
                        then let@ _ := SetTxnStatus orgID (t_ID t) TxnExecuting in Ret tt
                        else Ret tt
            | None => Ret tt
            end in f) w0).
  { intros f Hf. apply wp_pbind. destruct x as [t|]; [|by apply Hf].
    destruct (moves_to_executing _); [quiet_next|]; by apply Hf. }
  apply Hstart. clear dependent w w0 x. intros w Hse Hau.
  do 3 quiet_next.
  apply (wp_call _ (CallExecute a)); [done|by repeat split|].
  intros res w3 Hm3 Hi3 _ Hcall. carry Hm3.
  assert (Hca : called w3 (a_ID a)) by (by exists a).
  quiet_next. rename x2 into stop.
  set (a1 := a <| a_LatencyMS := Z.quot (stop - x) 1000000 |>).
  assert (Hse1 : settled w4 a1) by (by eapply settled_core).
  assert (Hau1 : authorised w4 a1) by (by eapply authorised_core).
  destruct res as [res|err].
  - set (a2 := a1 <| a_Status := StExecuted |> <| a_Result := res |>).
    assert (Hse2 : settled w4 a2) by (by eapply settled_core).
    assert (Hau2 : authorised w4 a2) by (by eapply authorised_core).
    apply wp_UpdateAction; [done|by split|by split|]. intros w5 Hm5 Hi5. carry Hm5.
    quiet_next. destruct (receipt_for _ _ _ _ _ _) as [r|] eqn:Er; [|done].
    apply wp_issue_receipt; [by eapply receipt_for_ok|]. intros rid w7. by quiet_next.
  - destruct (as_uncertain err) as [ue|].
    + apply wp_UpdateAction; [by eapply settled_core|by split|by split|].
      intros w5 Hm5 Hi5. by quiet_next.
    + apply wp_UpdateAction; [by eapply settled_core|by split|by split|].
      intros w5 Hm5 Hi5. by quiet_next.
Qed.

Lemma safe_ExecuteAllowed orgID id w : safe (ExecuteAllowed orgID id) w.
Proof.
  unfold ExecuteAllowed. apply wp_GetAction. intros [a|] w2 Hm Hi _ Ha; [|done].
  destruct Ha as (Ha & Ho & Hid & Hok). subst id.
  destruct (bool_decide (a_Status a = StExecuted)); [done|].
  destruct (bool_decide (a_Status a = StUnknown)); [done|].
  destruct (a_Decision a) as [d|] eqn:Ed; [|done].
  destruct (is_allow (d_Effect d)) eqn:Ee; cbn [negb]; [|done].
  destruct (_ && _) eqn:Es; [done|].
  apply safe_run_action; [done| |by exists d; auto].
  apply cell_settled; [done|]. apply andb_false_iff in Es as [Es|Es]; bool_guards;
    rewrite Es; by split.
Qed.

Lemma safe_RunApproved orgID id w : safe (RunApproved orgID id) w.
Proof.
  unfold RunApproved. apply wp_GetAction. intros [a|] w2 Hm Hi _ Ha; [|done].
  destruct Ha as (Ha & Ho & Hid & Hok). subst id.
  destruct (bool_decide (a_Status a = StExecuted)); [done|].
  destruct (bool_decide (a_Status a = StApproved)) eqn:Es; cbn [negb]; [|done]. bool_guards.
  apply safe_run_action; [done| |].
  - apply cell_settled; [done|]. rewrite Es. by split.
  - apply cell_authorised; auto.
Qed.

(** ** Reconcile, Commit, Simulate *)

Lemma safe_Reconcile orgID id w : safe (Reconcile orgID id) w.
Proof.
  unfold Reconcile. apply wp_GetAction. intros [a|] w2 Hm Hi _ Ha; [|done].
  destruct Ha as (Ha & Ho & Hid & Hok). subst id.
  destruct (bool_decide (a_Status a = StUnknown)) eqn:Es; cbn [negb]; [|done]. bool_guards.
  assert (Hse : settled w2 a) by (apply cell_settled; [done|]; rewrite Es; by split).
  assert (Hau : authorised w2 a) by (apply cell_authorised; [done|]; rewrite Es; auto).
  assert (Hca : called w2 (a_ID a)) by (unfold cell_ok in Hok; rewrite Es in Hok; by destruct Hok).
  clear Hok. quiet_next. destruct (ReconcilerFor _ _ _) as [rec|]; [|by quiet_next].
  apply (wp_call _ (CallReconcile a)); [done|by repeat split|].
  intros res w3 Hm3 Hi3 _ _. carry Hm3.
  destruct res as [[found result]|err]; [|by quiet_next].
  quiet_next. destruct found; cbn [negb].
  - quiet_next.
    match goal with |- wps (Atomic (UpdateAction ?b) _) _ _ _ => set (a2 := b) end.
    assert (Hse2 : settled w4 a2) by (by eapply settled_core).
    assert (Hau2 : authorised w4 a2) by (by eapply authorised_core).
    apply wp_UpdateAction; [done|by split|by split|]. intros w5 Hm5 Hi5. carry Hm5.
    destruct (receipt_for _ _ _ _ _ _) as [r|] eqn:Er; [|done].
    apply wp_issue_receipt; [by eapply receipt_for_ok|]. intros rid w7. by quiet_next.
  - apply wp_UpdateAction; [by eapply settled_core|by split|by split|].
    intros w5 Hm5 Hi5. by quiet_next.
Qed.

Lemma safe_Commit orgID id w : safe (Commit orgID id) w.
Proof.
  unfold Commit. quiet_next. destruct x as [t|]; [|done].
  destruct (is_terminal _); [done|]. quiet_next. destruct (commit_blocker _); [done|].
  destruct (MustTransition _ _); [|done]. quiet_next.
  destruct x0; cbn [negb]; [|done]. by do 3 quiet_next.
Qed.

Lemma safe_current_rules {A} orgID (k : list PolicyRule * Z -> prog A) O w Q :
  (forall rv w2, mono w w2 -> inv w2 -> holds O w2 -> wps (k rv) O w2 Q) ->
  wps (let! rv := current_rules orgID in k rv) O w Q.
Proof.
  intros Hk. apply wp_pbind. unfold current_rules. do 2 quiet_next. cbn [wp].
  apply Hk; [by etrans|done|done].
Qed.

Lemma safe_Simulate orgID agentID tool action args w :
  safe (Simulate orgID agentID tool action args) w.
Proof.
  unfold Simulate. quiet_next. destruct x as [ag|]; [|done]. do 3 quiet_next.
  destruct (CheckAuthority _ _ _ _ _ _) as [[covered has] why].
  destruct (has && negb covered); [done|].
  apply safe_current_rules. intros rv w4 _ _ _. by quiet_next.
Qed.

End Ops.
