(* ===== verification/SafetyApi.v ===== *)
(** * SafetyApi: proposals, compensation and the HTTP handlers meet their
    obligations *)

From S2P Require Export SafetyOps.

Open Scope Z_scope.

Section Propose.
Context `{RL : RuntimeLaws} `{JE : JevEnv} `{SE : Secrets} `{UP : UuidParse} `{NT : Net}.

(** ** ProposeAction *)

Lemma safe_return_cell id w : safe (return_cell id) w.
Proof. unfold return_cell. by quiet_next. Qed.

Lemma wp_jevScreenRisk {A} orgID txnID ag a (k : bool * string -> prog A) O w Q :
  (forall v w2, mono w w2 -> inv w2 -> holds O w2 -> wps (k v) O w2 Q) ->
  holds O w -> inv w -> wps (let! v := jevScreenRisk orgID txnID ag a in k v) O w Q.
Proof.
  intros Hk Ho Hi. apply wp_pbind. unfold jevScreenRisk. destruct Enabled; cbn [negb].
  - quiet_next. destruct (siblings _ _ _ _) as [n total]. quiet_next. cbn [wp].
    apply Hk; [by etrans|done|done].
  - cbn [wp]. by apply Hk.
Qed.

(** The cell as its owner sees it: the decision it carries and what it is
    about. *)
Definition cell_of (c c' : TxnAction) : Prop :=
  a_ID c' = a_ID c /\ a_OrgID c' = a_OrgID c /\ a_TransactionID c' = a_TransactionID c.

Lemma wp_screen {A} orgID txnID ag c d (k : PolicyDecision -> prog A) w Q :
  a_Decision c = Some d ->
  (forall d' c' w2, a_Decision c' = Some d' -> cell_of c c' -> wps (k d') (Some c') w2 Q) ->
  wps (let! d' := screen orgID txnID ag (a_ID c) d in k d') (Some c) w Q.
Proof.
  intros Hd Hk. apply wp_pbind. unfold screen.
  destruct (is_allow (d_Effect d)); [|cbn [wp]; by apply Hk].
  quiet_next. apply wp_jevScreenRisk; [|done|done].
  intros [esc why] w2 _ _ _. cbn [fst snd]. destruct esc; [|cbn [wp]; by apply Hk].
  apply wp_set_decision. intros w3 _ _ _.
  match goal with |- wps _ (Some ?b) _ _ => set (c1 := b) end.
  change (a_ID c) with (a_ID c1). apply wp_set_decision. intros w4 _ _ _.
  match goal with |- wps _ (Some ?b) _ _ => set (c2 := b) end.
  change (a_ID c1) with (a_ID c2). apply wp_set_decision. intros w5 _ _ _.
  cbn [wp]. by apply Hk.
Qed.

Lemma safe_conclude orgID txnID agentID t amt c d w :
  a_Decision c = Some d -> a_OrgID c = orgID -> a_TransactionID c = txnID ->
  wps (conclude orgID txnID agentID t amt (a_ID c) d) (Some c) w (fun _ O _ => O = None).
Proof.
  intros Hd Ho Ht. unfold conclude.
  assert (Hallowed : d_Effect d <> EffectDeny -> d_Effect d <> EffectRequireApproval ->
    wps (let@ _ := set_status (a_ID c) StAllowed in
         let@ _ := update_cell (a_ID c) in
         let@ _ := Emit (policy_event orgID txnID d) in
         return_cell (a_ID c)) (Some c) w (fun _ O _ => O = None)).
  { intros H1 H2. apply wp_set_status; [done|by exists d|].
    intros w2 _ _ Hc. eapply wp_update_cell; [exact Hc|]. intros w3 _ _ _.
    quiet_next. apply safe_return_cell. }
  destruct (d_Effect d) eqn:Ee; try (by apply Hallowed).
  - apply wp_set_status; [done|by exists d|].
    intros w2 _ _ Hc. eapply wp_update_cell; [exact Hc|]. intros w3 _ _ _.
    do 2 quiet_next. apply safe_return_cell.
  - apply wp_set_status; [done|by exists d|].
    intros w2 _ _ Hc.
    assert (Hg : gated w2 orgID txnID (a_ID c)).
    { eexists. split; [exact Hc|]. repeat (split; [done|]). by exists d. }
    eapply wp_update_cell; [exact Hc|]. intros w3 Hm3 _ _. carry Hm3. quiet_next.
    eapply wp_CreateApproval; [done|exact Hg|]. intros ap w5 _ _.
    do 2 quiet_next. apply safe_return_cell.
Qed.

Lemma safe_deny_authority orgID txnID agentID c why w :
  wps (deny_authority orgID txnID agentID (a_ID c) why) (Some c) w (fun _ O _ => O = None).
Proof.
  unfold deny_authority. apply wp_set_decision. intros w2 _ _ _.
  match goal with |- wps _ (Some ?b) _ _ => set (c1 := b) end.
  change (a_ID c) with (a_ID c1).
  apply wp_set_status; [done|intros w'; by eexists|].
  intros w3 _ _ Hc. eapply wp_update_cell; [exact Hc|]. intros w4 _ _ _.
  quiet_next. apply safe_return_cell.
Qed.

Lemma safe_decide_fresh orgID txnID agentID tool action t ag amt c w :
  a_OrgID c = orgID -> a_TransactionID c = txnID ->
  wps (decide_fresh orgID txnID agentID tool action t ag amt (a_ID c)) (Some c) w
    (fun _ O _ => O = None).
Proof.
  intros Ho Ht. unfold decide_fresh. do 2 quiet_next.
  destruct (CheckAuthority _ _ _ _ _ _) as [[covered has] why].
  assert (Hstart : forall (f : prog (goresult TxnAction)),
    (forall w2, wps f (Some c) w2 (fun _ O _ => O = None)) ->
    wps (let! _ := (if has : bool then
               let@ trace := TraceID in
               let@ _ := Emit (event orgID txnID "authority" agentID "authority.evaluated"
                 [("action_id", VString (a_ID c)); ("covered", VBool covered);
                  ("why", VString why); ("trace_id", VString trace)]) in
               Ret tt
             else Ret tt) in f) (Some c) w1 (fun _ O _ => O = None)).
  { intros f Hf. apply wp_pbind. destruct has; [do 2 quiet_next|]; by apply Hf. }
  apply Hstart. clear Hstart. intros w2.
  destruct (has && negb covered); [apply safe_deny_authority|].
  apply safe_current_rules. intros rv w3 _ _ _. do 2 quiet_next.
  apply wp_set_decision. intros w6 _ _ _.
  match goal with |- wps _ (Some ?b) _ _ => set (c1 := b) end.
  change (a_ID c) with (a_ID c1). apply wp_screen; [done|].
  intros d' c' w7 Hd' (Hid & Ho' & Ht'). rewrite <- Hid.
  apply safe_conclude; [done| |].
  - rewrite Ho'. exact Ho.
  - rewrite Ht'. exact Ht.
Qed.

Lemma safe_ProposeAction orgID txnID agentID tool action args idem w :
  safe (ProposeAction orgID txnID agentID tool action args idem) w.
Proof.
  unfold ProposeAction. quiet_next. destruct x as [t|]; [|done].
  destruct (is_terminal _); [done|]. quiet_next. destruct x as [ag|]; [|done]. quiet_next.
  apply wp_AddAction; [done| |].
  - intros prev w3 _ _. by quiet_next.
  - intros c w3 _ _ _ Ho' Ht'. by apply safe_decide_fresh.
Qed.

(** ** CompensateTransaction *)

(** The copies the loop works on: those whose tool ran stay settled. *)
Definition snapshot (w : World) (orgID : string) (a : TxnAction) : Prop :=
  a_OrgID a = orgID /\
  (a_Status a = StExecuted -> settled w a /\ authorised w a /\ called w (a_ID a)).

Lemma snapshot_mono w w' orgID a : mono w w' -> snapshot w orgID a -> snapshot w' orgID a.
Proof.
  intros Hm [Ho Ha]. split; [done|]. intros Hs. destruct (Ha Hs) as (? & ? & ?).
  repeat split; eauto using settled_mono, authorised_mono, called_mono.
Qed.

Lemma snapshots w orgID txnID entries :
  inv w -> (forall id a, (id, a) ∈ entries -> st_actions (w_store w) !! id = Some a) ->
  Forall (snapshot w orgID) (base.filter (in_txn orgID txnID) entries.*2).
Proof.
  intros Hi He. rewrite Forall_forall. intros a Ha.
  apply list_elem_of_filter in Ha as [[Ho Ht] Ha].
  apply list_elem_of_fmap in Ha as ([id b] & -> & Hin). cbn in *.
  apply He in Hin. destruct (inv_cells _ Hi _ _ Hin) as (<- & _ & Hok).
  split; [done|]. intros Hs. unfold cell_ok in Hok. rewrite Hs in Hok.
  destruct Hok as [Hau Hca]. split; [|done].
  apply cell_settled; [done|]. rewrite Hs. by split.
Qed.

Lemma wp_ActionsForTxn {A} orgID txnID (k : list TxnAction -> prog A) w Q :
  (forall l w2, mono w w2 -> inv w2 -> Forall (snapshot w2 orgID) l -> wps (k l) None w2 Q) ->
  wps (Atomic (ActionsForTxn orgID txnID) k) None w Q.
Proof.
  intros Hk. apply wp_benign; [apply _|by auto with benign|].
  intros w1 l w2 Em Hm Hi1 Hi2 Hm2 _. apply Hk; [done|done|].
  assert (Hl : l = base.filter (in_txn orgID txnID) (range_map (w_tick w1) (st_actions (w_store w1))).*2
    /\ w_store w2 = w_store w1).
  { unfold ActionsForTxn in Em. cbn in Em. by injection Em as <- <-. }
  destruct Hl as [-> Hs]. apply snapshots; [done|].
  intros id a. rewrite Hs. apply range_map_elem.
Qed.

(** Nothing owned, and the copies still known. *)
Definition keeps {A} (P : World -> Prop) (_ : A) (O : own) (w : World) : Prop :=
  O = None /\ P w.

Lemma safe_settle orgID txnID a st type payload failed w (P : World -> Prop) :
  (forall w w', mono w w' -> P w -> P w') -> P w ->
  st = StCompensated \/ st = StCompensationFailed ->
  settled w a -> authorised w a -> called w (a_ID a) ->
  wps (settle orgID txnID (a_ID a) st type payload failed) None w (keeps P).
Proof.
  intros HP Hp Hst Hse Hau Hca. unfold settle. apply wp_GetAction.
  intros [ac|] w2 Hm Hi _ Hac; [|split; [done|by eapply HP]].
  destruct Hac as (Hin & Ho & Hid & _). carry Hm. apply (HP _ _ Hm) in Hp.
  assert (Hse0 := Hse). destruct Hse0 as (c & Hc & Hcore & Hd & Hpr & Hde).
  rewrite Hc in Hin. injection Hin as ->.
  assert (Hse' : settled w2 ac) by (apply cell_settled; [by rewrite Hid|done]).
  assert (Hau' : authorised w2 ac) by (eapply authorised_core; [symmetry; exact Hcore|done|done]).
  apply wp_UpdateAction.
  - by eapply settled_core.
  - rewrite <- Hid in Hca. destruct Hst as [-> | ->]; by split.
  - destruct Hst as [-> | ->]; by split.
  - intros w3 Hm3 Hi3. apply (HP _ _ Hm3) in Hp. quiet_next. split; [done|]. by eapply HP.
Qed.

Lemma safe_compensate_one orgID txnID a failed w (P : World -> Prop) :
  (forall w w', mono w w' -> P w -> P w') -> P w -> snapshot w orgID a ->
  wps (compensate_one orgID txnID a failed) None w (keeps P).
Proof.
  intros HP Hp [Ho Ha]. unfold compensate_one. destruct failed as [failed|]; [|by split].
  destruct (bool_decide (a_Status a = StExecuted)) eqn:Es; cbn [negb]; [|by split]. bool_guards.
  destruct (Ha Es) as (Hse & Hau & Hca).
  destruct (IsIrreversible a && negb (IsCompensable a)) eqn:Ei.
  { quiet_next. split; [done|]. by eapply HP. }
  apply (wp_call _ (CallCompensate a)); [done|by repeat split|].
  intros err w2 Hm2 Hi2 _ _. carry Hm2. apply (HP _ _ Hm2) in Hp.
  destruct err as [err|]; apply safe_settle; auto.
Qed.

Lemma safe_CompensateTransaction orgID txnID w : safe (CompensateTransaction orgID txnID) w.
Proof.
  unfold CompensateTransaction. quiet_next. destruct x as [t|]; [|done].
  apply wp_ActionsForTxn. intros acts w2 _ _ Hacts.
  set (P := fun w => Forall (snapshot w orgID) acts).
  assert (HP : forall w w', mono w w' -> P w -> P w').
  { intros v v' Hvv Hv. eapply Forall_impl; [exact Hv|]. intros a. by apply snapshot_mono. }
  change (P w2) in Hacts.
  apply wp_quiet; [auto with benign|]. intros x w3 Hm3 _ _. apply (HP _ _ Hm3) in Hacts.
  apply wp_quiet; [auto with benign|]. intros x2 w4 Hm4 _ _. apply (HP _ _ Hm4) in Hacts.
  apply wp_pbind. apply (wp_for_each _ _ _ _ P); [|exact Hacts|].
  - intros a failed w5 Ha Hp. apply (safe_compensate_one _ _ _ _ _ P); [exact HP|done|].
    rewrite elem_of_reverse in Ha. revert a Ha. by apply Forall_forall.
  - intros [failed|] w5 _; [|done]. by quiet_next.
Qed.

End Propose.
