(* ===== verification/SafetyServer.v ===== *)
(** * SafetyServer: the server as a whole keeps the invariant

    The clients of the concurrent semantics are the HTTP requests, through
    the whole handler or behind the authentication middleware, and the
    operations of the gateway called directly; configuration steps replace the tools, the signer and the key
    provider at any moment. *)

From S2P Require Export SafetyApi Handler.

Open Scope Z_scope.

Section Server.
Context `{RL : RuntimeLaws} `{JE : JevEnv} `{SE : Secrets} `{UP : UuidParse} `{NT : Net}.

(** A call of an operation that is safe. *)
Lemma wp_then {A B} (p : prog A) (f : A -> prog B) w :
  (forall w, safe p w) -> (forall a w, safe (f a) w) -> safe (let! a := p in f a) w.
Proof.
  intros Hp Hf. apply wp_pbind. eapply wp_mono_post; [|apply Hp].
  cbn beta. intros a O w' ->. apply Hf.
Qed.

Lemma safe_quiet_prog {A} (p : prog A) : quiet_prog p -> forall w, safe p w.
Proof.
  induction p as [a|X m k IH]; intros Hp w; [done|]. destruct Hp as [Hm Hk].
  apply wp_quiet; [done|]. intros x w2 _ _ _. by apply IH.
Qed.

Lemma quiet_prog_register_tools name url token classes tools :
  quiet_prog (register_tools name url token classes tools).
Proof. apply quiet_prog_for_each. intros t u. split; [apply quiet_tools_Register|done]. Qed.

Lemma safe_register_tools name url token classes tools w :
  safe (register_tools name url token classes tools) w.
Proof. apply safe_quiet_prog, quiet_prog_register_tools. Qed.

Lemma safe_answer code r w : safe (answer_execution code r) w.
Proof. by destruct r. Qed.

Lemma wp_DecideApproval_safe {A} orgID i by_ approve (k : option Approval -> prog A) w :
  (forall w, safe (k None) w) ->
  (forall ap w, (forall id, ap_ActionID ap = Some id ->
     gated w orgID (ap_TransactionID ap) id /\
     (approve = true -> forall a, a_OrgID a = orgID -> a_ID a = id -> approved_by w a)) ->
     safe (k (Some ap)) w) ->
  safe (Atomic (DecideApproval orgID i by_ approve) k) w.
Proof.
  intros Hn Hs. apply wp_DecideApproval. intros [ap|] w2 _ _ H; [by apply Hs|by apply Hn].
Qed.

Lemma safe_approve_action orgID ap id w :
  gated w orgID (ap_TransactionID ap) id ->
  (forall a, a_OrgID a = orgID -> a_ID a = id -> approved_by w a) ->
  safe (approve_action orgID ap id) w.
Proof.
  intros Hg Hap. unfold approve_action. apply wp_GetAction.
  intros [a|] w2 Hm Hi _ Ha; [|done]. destruct Ha as (Hin & Ho & Hid & Hok).
  pose proof (Hap a Ho Hid) as Hapa. carry Hm.
  destruct Hg as (c & Hc & _ & _ & Hp & d & Hd & He).
  rewrite Hin in Hc. injection Hc as <-. subst id.
  apply wp_UpdateAction.
  - eapply settled_core; [| |apply cell_settled; [exact Hin|split; [done|]]]; [done|done|].
    intros Hs. unfold cell_ok in Hok. rewrite Hs in Hok. destruct Hok as (d' & Hd' & He').
    congruence.
  - split; [by exists d|done].
  - by split.
  - intros w3 Hm3 Hi3. quiet_next. destruct x as [t|]; [|done]. by quiet_next.
Qed.

Lemma safe_abort_txn orgID ap w : safe (abort_txn orgID ap) w.
Proof. unfold abort_txn. quiet_next. destruct x as [t|]; [|done]. by quiet_next. Qed.

Lemma safe_handleDecideApproval id post path b w : safe (handleDecideApproval id post path b) w.
Proof.
  unfold handleDecideApproval. destruct (callerIsOperator id); cbn [negb]; [|done].
  destruct (Split _ _) as [|approvalID [|verb [|]]]; try done.
  destruct (_ || _); [done|]. apply wp_DecideApproval_safe; [done|]. intros ap w2 Hap.
  apply wp_quiet; [auto with benign|]. intros [] w3 Hm3 _ _.
  apply wp_pbind. eapply wp_mono_post; [|].
  2: { instantiate (1 := fun _ O _ => O = None).
       destruct (ap_ActionID ap) as [aid|] eqn:Eid; [|done].
       destruct (db_Approve _) eqn:Eb; [|done].
       destruct (Hap aid eq_refl) as [Hg Hby].
       apply safe_approve_action; [by eapply gated_mono|].
       intros a Ho Hid. eapply approved_by_mono; [exact Hm3|]. by apply Hby. }
  cbn beta. intros _ O w4 ->. apply wp_then; [|done].
  intros w5. destruct (negb _); [apply safe_abort_txn|done].
Qed.

(** Follows the code of a handler that only reads, calls safe operations and
    makes quiet steps. *)
Ltac handler_step :=
  first
  [ done
  | apply safe_answer
  | apply wp_then; [intros ?; first [apply safe_ProposeAction|apply safe_RunApproved
      |apply safe_ExecuteAllowed|apply safe_Simulate|apply safe_Commit|apply safe_Reconcile
      |apply safe_register_tools]|intros ? ?]
  | quiet_next
  | match goal with
    | |- wps (match ?x with _ => _ end) _ _ _ => destruct x
    | |- wps (if ?x then _ else _) _ _ _ => destruct x
    | |- wps (let '(_, _) := ?x in _) _ _ _ => destruct x
    end ].
Ltac handler := cbv zeta; repeat (handler_step; cbv zeta).

Lemma safe_route rt id w : safe (route rt id) w.
Proof.
  destruct rt; cbn [route]; try apply safe_handleDecideApproval;
    unfold handleRegisterAgent, handleCreateTxn, handleListTxns, handleGetTxn,
      handleProposeAction, handleActionSub, handleListApprovals, handleListReceipts, handleAudit,
      handleListPolicies, handleCreateGrant, handleListGrants, handleRevokeGrant,
      handleRotateCredential, handleRevokeCredential, handleReconcile, handleVerifyReceipts,
      handleVerifyReceipt, handleSimulatePolicy, handleCreatePolicySet, handleListPolicySets,
      handleActivatePolicySet, handleCommitTxn, handleRegisterMCPServer, handleListMCPServers,
      handleListMCPTools, handleMCPCall, handleListIntegrations, handleSetIntegrationCredential,
      handleSetHTTPDomains; handler.
Qed.

Lemma safe_Authenticate secret org w : safe (Authenticate secret org) w.
Proof. unfold Authenticate. handler. Qed.

Lemma safe_Middleware {A} (next : option Identity -> prog A) r w :
  (forall id w, safe (next id) w) -> safe (Middleware next r) w.
Proof.
  intros Hn. unfold Middleware. cbv zeta.
  destruct (open_path _); [by apply wp_then|].
  destruct (_ || _); [done|]. quiet_next. destruct x; cbn [negb]; [|done].
  apply wp_then; [intros; apply safe_Authenticate|]. intros [id|] w2; [|done].
  by apply wp_then.
Qed.

Lemma safe_Handler r w : safe (Handler r) w.
Proof.
  unfold Handler, corsMiddleware. destruct (String.eqb (hq_Method r) "OPTIONS"); [done|].
  unfold observe_Middleware, auth_handler.
  destruct (String.eqb (hq_RequestID r) ""); do 2 quiet_next;
    (apply wp_then; [|done]; intros w2; apply safe_Middleware; intros id w3; unfold ServeHTTP;
     destruct (findHandler r); [|done..]; by apply wp_then; [intros; apply safe_route|]).
Qed.

Lemma safe_SetPolicies orgID rules w : safe (SetPolicies orgID rules) w.
Proof. unfold SetPolicies. by do 3 quiet_next. Qed.

(** ** Clients and configuration *)

Inductive client : prog unit -> Prop :=
  | client_http r : client (finish (Handler r))
  | client_request rt rq : client (finish (Middleware (route rt) rq))
  | client_propose org txn ag tool action args idem :
      client (finish (ProposeAction org txn ag tool action args idem))
  | client_execute org id : client (finish (ExecuteAllowed org id))
  | client_run_approved org id : client (finish (RunApproved org id))
  | client_reconcile org id : client (finish (Reconcile org id))
  | client_commit org txn : client (finish (Commit org txn))
  | client_compensate org txn : client (finish (CompensateTransaction org txn))
  | client_simulate org ag tool action args : client (finish (Simulate org ag tool action args))
  | client_policies org rules : client (SetPolicies org rules).

Inductive reconfigure : World -> World -> Prop :=
  | reconfigure_tools w tools : reconfigure w (w <| w_tools := tools |>)
  | reconfigure_signer w p : reconfigure w (w <| w_signer := p |>)
  | reconfigure_keys w p : reconfigure w (SetKeyProvider p w).2
  | reconfigure_seed w name : reconfigure w (SeedOrg name w).2
  | reconfigure_operator w org name kid hash :
      reconfigure w (CreateOperatorToken org name kid hash w).2
  | reconfigure_secret w : reconfigure w (NewOperatorSecret w).2
  | reconfigure_draw w : reconfigure w (tick w).2.

Lemma safe_finish {A} (p : prog A) w :
  safe p w -> wps (finish p) None w (fun _ _ _ => True).
Proof. intros Hp. apply wp_pbind. by eapply wp_mono_post; [|exact Hp]. Qed.

Lemma client_safe p w : client p -> wps p None w (fun _ _ _ => True).
Proof.
  intros Hp. destruct Hp; try apply safe_finish.
  - apply safe_Handler.
  - apply safe_Middleware. intros. apply safe_route.
  - apply safe_ProposeAction.
  - apply safe_ExecuteAllowed.
  - apply safe_RunApproved.
  - apply safe_Reconcile.
  - apply safe_Commit.
  - apply safe_CompensateTransaction.
  - apply safe_Simulate.
  - eapply wp_mono_post; [|apply safe_SetPolicies]. done.
Qed.

Lemma quiet_SeedOrg name : quiet (SeedOrg name).
Proof. unfold SeedOrg. quiet. Qed.

Lemma quiet_CreateOperatorToken org name kid hash : quiet (CreateOperatorToken org name kid hash).
Proof. unfold CreateOperatorToken. quiet. Qed.

Lemma quiet_NewOperatorSecret : quiet NewOperatorSecret.
Proof. unfold NewOperatorSecret, new_secret. quiet. Qed.

Lemma quiet_SetKeyProvider p : quiet (SetKeyProvider p).
Proof. unfold SetKeyProvider. quiet. Qed.

Lemma reconfigure_untouched w w' : reconfigure w w' -> untouched w w'.
Proof.
  destruct 1; [by split|by split|apply quiet_SetKeyProvider|apply quiet_SeedOrg|
               apply quiet_CreateOperatorToken|apply quiet_NewOperatorSecret|apply quiet_tick].
Qed.

(** ** Reachable states *)

Lemma inv_new tools : inv (new_world tools).
Proof.
  split; cbn; try done.
  - intros k id. split; [done|]. by intros (a & Ha & _).
  - intros c Hc. by apply elem_of_nil in Hc.
  - intros r Hr. by apply elem_of_nil in Hr.
  - apply policies_ok_New.
Qed.

(** A configuration some interleaving of clients and reconfigurations leads
    to from an empty server with the given tools. *)
Definition reachable_config (c : pool * World) : Prop :=
  exists tools, rtc (pool_step client reconfigure) ([], new_world tools) c.

Definition reachable (w : World) : Prop := exists ps, reachable_config (ps, w).

Lemma client_pool_safe p : client p -> forall w, wp inv mono p None w (fun _ _ _ => True).
Proof. intros Hp w. by apply client_safe. Qed.

Lemma reconfigure_ok w w' : reconfigure w w' -> inv w ->
  inv w' /\ mono w w' /\ st_actions (w_store w') = st_actions (w_store w).
Proof.
  intros Hc Hi. apply reconfigure_untouched in Hc.
  split; [by eapply untouched_inv|]. split; [by apply untouched_mono|by apply unt_actions].
Qed.

Lemma reachable_config_ok c : reachable_config c -> pool_ok inv mono c.
Proof.
  intros (tools & Hr).
  destruct (pool_reachable_ok inv mono client reconfigure _ _ client_pool_safe reconfigure_ok Hr);
    [|done]. apply pool_ok_empty, inv_new.
Qed.

Lemma reachable_inv w : reachable w -> inv w.
Proof. intros (ps & Hr). by destruct (reachable_config_ok _ Hr). Qed.

Lemma later_mono c c' :
  reachable_config c -> rtc (pool_step client reconfigure) c c' -> mono c.2 c'.2.
Proof.
  intros Hr Hs. apply reachable_config_ok in Hr.
  by destruct (pool_reachable_ok inv mono client reconfigure _ _ client_pool_safe reconfigure_ok
                 Hs Hr).
Qed.

(** Running a client alone, or a reconfiguration, leads to a reachable world. *)
Lemma reachable_new tools : reachable (new_world tools).
Proof. exists [], tools. constructor. Qed.

Lemma reachable_run p w : reachable w -> client p -> reachable (run p w).2.
Proof.
  intros (ps & tools & Hr) Hp. exists (Ret tt :: ps), tools.
  etrans; [exact Hr|]. eapply rtc_l; [by apply step_spawn|]. apply (run_steps _ _ []).
Qed.

Lemma reachable_reconfigure w w' : reachable w -> reconfigure w w' -> reachable w'.
Proof.
  intros (ps & tools & Hr) Hc. exists ps, tools. etrans; [exact Hr|].
  apply rtc_once. by apply step_config.
Qed.

End Server.
