(* ===== verification/References.v ===== *)
(** * References: the store's references resolve

    The foreign keys the schema of the Postgres store declares are nobody's
    duty in the memory store: this file shows which of them the service and
    the handlers keep in every state concurrent requests can reach.  The
    logic is rely-guarantee without ownership: a program keeps an invariant
    while others only move the state along a preorder. *)

From S2P Require Export SafetyServer.

Open Scope Z_scope.

(** ** The logic *)

Section Rely.
Context (I : World -> Prop) (R : World -> World -> Prop) `{!PreOrder R}.

Fixpoint rely {A} (p : prog A) (w : World) (Q : A -> World -> Prop) : Prop :=
  match p with
  | Ret a => Q a w
  | Atomic m k => forall w1, R w w1 -> I w1 ->
      I (m w1).2 /\ R w1 (m w1).2 /\ rely (k (m w1).1) (m w1).2 Q
  end.

Lemma rely_pbind {A B} (p : prog A) (f : A -> prog B) w Q :
  rely p w (fun a w' => rely (f a) w' Q) -> rely (pbind p f) w Q.
Proof.
  revert w. induction p as [a|X m k IH]; intros w H; cbn [rely pbind] in *; [done|].
  intros w1 Hr Hi. destruct (H w1 Hr Hi) as (? & ? & ?). auto.
Qed.

Lemma rely_post {A} (p : prog A) w (Q Q' : A -> World -> Prop) :
  (forall a w', Q a w' -> Q' a w') -> rely p w Q -> rely p w Q'.
Proof.
  intros HQ. revert w. induction p as [a|X m k IH]; intros w H; cbn [rely] in *; [auto|].
  intros w1 Hr Hi. destruct (H w1 Hr Hi) as (? & ? & ?). auto.
Qed.

(** A loop whose every round keeps what is stable. *)
Lemma rely_for_each {A S} (body : A -> S -> prog S) l s w :
  (forall x s w, x ∈ l -> rely (body x s) w (fun _ _ => True)) -> rely (for_each body l s) w (fun _ _ => True).
Proof.
  revert s w. induction l as [|x l IH]; intros s w Hb; cbn [for_each]; [done|].
  apply rely_pbind. eapply rely_post; [|apply Hb; by left]. intros s' w' _. apply IH. intros y s2 w2 Hy. apply Hb. by right.
Qed.

(** Threads met their obligation at an earlier world. *)
Definition resumes (w : World) (p : prog unit) : Prop := exists w0, R w0 w /\ rely p w0 (fun _ _ => True).

Lemma resumes_later w w' p : R w w' -> resumes w p -> resumes w' p.
Proof. intros Hr (w0 & H0 & Hp). exists w0. split; [by transitivity w|done]. Qed.

Context (client : prog unit -> Prop) (config : World -> World -> Prop).
Hypothesis client_relies : forall p, client p -> forall w, rely p w (fun _ _ => True).
Hypothesis config_keeps : forall w w', config w w' -> I w -> I w' /\ R w w'.

Lemma rely_step c c' : pool_step client config c c' ->
  I c.2 -> Forall (resumes c.2) c.1 -> I c'.2 /\ Forall (resumes c'.2) c'.1.
Proof.
  intros Hs Hi Hp. destruct Hs as [p ps w Hc|ps1 X m k ps2 w x w' Em|ps w w' Hc]; cbn in *.
  - split; [done|]. constructor; [|done]. exists w. split; [reflexivity|by apply client_relies].
  - apply Forall_app in Hp as [H1 H2]. apply Forall_cons in H2 as [(w0 & H0 & Hk) H2].
    destruct (Hk w H0 Hi) as (Hi' & Hr & Hk'). rewrite Em in *. cbn in *. split; [done|].
    apply Forall_app. split; [by eapply Forall_impl; [exact H1|]; intros p; apply resumes_later|].
    constructor; [by exists w'|]. by eapply Forall_impl; [exact H2|]; intros p; apply resumes_later.
  - destruct (config_keeps w w' Hc Hi) as [Hi' Hr]. split; [done|].
    by eapply Forall_impl; [exact Hp|]; intros p; apply resumes_later.
Qed.

Lemma rely_reachable c c' : rtc (pool_step client config) c c' ->
  I c.2 -> Forall (resumes c.2) c.1 -> I c'.2.
Proof.
  induction 1 as [c|c1 c2 c3 Hs _ IH]; intros Hi Hp; [done|].
  destruct (rely_step _ _ Hs Hi Hp) as [Hi2 Hp2]. by apply IH.
Qed.

End Rely.

(** ** The references *)

Section Linked.
Context `{RT : Runtime}.

Definition owns_agent (w : World) (org id : string) : Prop :=
  exists a, st_agents (w_store w) !! id = Some a /\ ag_OrgID a = org.

Definition has_txn (w : World) (org id : string) : Prop :=
  exists t, st_txns (w_store w) !! id = Some t /\ t_OrgID t = org.

Record linked (w : World) : Prop := {
  ln_agents : forall id a, st_agents (w_store w) !! id = Some a -> ag_ID a = id /\ known w id;
  ln_txns : forall id t, st_txns (w_store w) !! id = Some t ->
    t_ID t = id /\ known w id /\ owns_agent w (t_OrgID t) (t_AgentID t);
  ln_actions : forall id a, st_actions (w_store w) !! id = Some a -> has_txn w (a_OrgID a) (a_TransactionID a);
  ln_approvals : forall id ap, st_approvals (w_store w) !! id = Some ap -> has_txn w (ap_OrgID ap) (ap_TransactionID ap);
  ln_receipts : forall r, r ∈ st_receiptsList (w_store w) -> has_txn w (r_OrgID r) (r_TransactionID r);
  ln_grants : forall id g, st_grants (w_store w) !! id = Some g -> owns_agent w (g_OrgID g) (g_AgentID g);
  ln_creds : forall k c, st_credByKey (w_store w) !! k = Some c -> owns_agent w (cr_orgID c) (cr_agentID c) }.

(** Agents and transactions stay where they are, and so do the cells of
    actions. *)
Record grows (w w' : World) : Prop := {
  gr_uid : (w_uid w <= w_uid w')%nat;
  gr_agents : forall org id, owns_agent w org id -> owns_agent w' org id;
  gr_txns : forall org id, has_txn w org id -> has_txn w' org id;
  gr_actions : forall id, is_Some (st_actions (w_store w) !! id) -> is_Some (st_actions (w_store w') !! id) }.

#[export] Instance grows_preorder : PreOrder grows.
Proof. split; [by intros w|]. intros w1 w2 w3 [] []. split; [lia|auto..]. Qed.

(** A critical section that keeps the references, whatever it is given. *)
Definition steady {X} (m : M X) : Prop := forall w, linked w -> linked (m w).2 /\ grows w (m w).2.

(** The tables with references, and those they refer to. *)
Definition tables (w : World) :=
  let s := w_store w in
  (st_agents s, st_txns s, st_actions s, st_approvals s, st_receiptsList s, st_grants s, st_credByKey s).

Definition still (w w' : World) : Prop := tables w' = tables w /\ (w_uid w <= w_uid w')%nat.

Lemma known_later w w' id : (w_uid w <= w_uid w')%nat -> known w id -> known w' id.
Proof. intros Hu (k & Hk & ->). exists k. split; [lia|done]. Qed.

(** The worlds after [w] with the references of what is new. *)
Lemma linked_intro w w' : grows w w' -> linked w ->
  (forall id a, st_agents (w_store w') !! id = Some a -> st_agents (w_store w) !! id = Some a \/ ag_ID a = id /\ known w' id) ->
  (forall id t, st_txns (w_store w') !! id = Some t ->
     (exists t0, st_txns (w_store w) !! id = Some t0 /\ t_ID t = t_ID t0 /\ t_OrgID t = t_OrgID t0 /\ t_AgentID t = t_AgentID t0) \/
     t_ID t = id /\ known w' id /\ owns_agent w' (t_OrgID t) (t_AgentID t)) ->
  (forall id a, st_actions (w_store w') !! id = Some a ->
     st_actions (w_store w) !! id = Some a \/ has_txn w (a_OrgID a) (a_TransactionID a)) ->
  (forall id ap, st_approvals (w_store w') !! id = Some ap ->
     st_approvals (w_store w) !! id = Some ap \/ has_txn w (ap_OrgID ap) (ap_TransactionID ap)) ->
  (forall r, r ∈ st_receiptsList (w_store w') ->
     r ∈ st_receiptsList (w_store w) \/ has_txn w (r_OrgID r) (r_TransactionID r)) ->
  (forall id g, st_grants (w_store w') !! id = Some g ->
     st_grants (w_store w) !! id = Some g \/ owns_agent w (g_OrgID g) (g_AgentID g)) ->
  (forall k c, st_credByKey (w_store w') !! k = Some c ->
     st_credByKey (w_store w) !! k = Some c \/ owns_agent w (cr_orgID c) (cr_agentID c)) ->
  linked w'.
Proof.
  intros [Hu Ha Ht _] [] HA HT HC HP HR HG HK. split.
  - intros id a H. destruct (HA id a H) as [H0|H0]; [|done]. destruct (ln_agents0 _ _ H0). eauto using known_later.
  - intros id t H. destruct (HT id t H) as [(t0 & H0 & -> & -> & ->)|H0]; [|done].
    destruct (ln_txns0 _ _ H0) as (? & ? & ?). eauto using known_later.
  - intros id a H. destruct (HC id a H); eauto.
  - intros id a H. destruct (HP id a H); eauto.
  - intros r H. destruct (HR r H); eauto.
  - intros id a H. destruct (HG id a H); eauto.
  - intros k c H. destruct (HK k c H); eauto.
Qed.

Lemma still_linked w w' : still w w' -> linked w -> linked w' /\ grows w w'.
Proof.
  intros [[= A T C P Rc G K] Hu] Hl.
  assert (Hg : grows w w') by (split; [done|..]; unfold owns_agent, has_txn; rewrite ?A, ?T, ?C; done).
  split; [|done]. apply (linked_intro w); [done|done|rewrite ?A, ?T, ?C, ?P, ?Rc, ?G, ?K; eauto..].
  intros id t Ht. left. by exists t.
Qed.

Lemma still_refl w : still w w.
Proof. by split. Qed.

Lemma still_trans w1 w2 w3 : still w1 w2 -> still w2 w3 -> still w1 w3.
Proof. intros [] []. split; [congruence|lia]. Qed.

End Linked.

(** ** Steps that leave the tables alone *)

Definition stills {X} (m : M X) : Prop := forall w, still w (m w).2.

Section Still.
Context `{RT : Runtime}.

Lemma stills_bind {X Y} (m : M X) (k : X -> M Y) : stills m -> (forall x, stills (k x)) -> stills (m_bind m k).
Proof.
  intros Hm Hk w. unfold m_bind. specialize (Hm w). destruct (m w) as [x w1]. eapply still_trans; [exact Hm|apply Hk].
Qed.

Lemma stills_modify f : (forall w, tables (w <| w_store ::= f |>) = tables w) -> stills (modify_store f).
Proof. intros Hf w. split; [apply Hf|done]. Qed.

Lemma stills_read {X} (m : M X) : (forall w, tables (m w).2 = tables w /\ (w_uid w <= w_uid (m w).2)%nat) -> stills m.
Proof. done. Qed.

Lemma stills_steady {X} (m : M X) : stills m -> steady m.
Proof. intros Hm w Hl. by apply still_linked. Qed.

End Still.

Ltac stills_all :=
  unfold Emit, emitLocked, Policies, PolicySets, ActivePolicySet, CreatePolicySet, ActivatePolicySet, latestVersionLocked,
    Audit, ListTxns, ActionsForTxn, PendingApprovals, load_action, load_receipt, ReceiptsForTxn, VerifyChain,
    GetCredential, AgentCredentialHashes, CreateOperatorToken, GetOperatorToken, TouchOperatorToken, GrantsForAgent,
    UpsertMCPServer, GetMCPServer, ListMCPServers, SetIntegrationCredential, ListIntegrationCredentials,
    SetIntegrationConfig, sealLocked, openLocked, NewAgentSecret, NewOperatorSecret, new_secret, randHex, SeedOrg,
    SetKeyProvider, GetTxn, GetAgent, GetAction;
  repeat first
    [ apply stills_bind; [|intros ?] | apply stills_modify; reflexivity
    | match goal with
      | |- stills (match ?x with _ => _ end) => destruct x
      | |- stills (if ?x then _ else _) => destruct x
      end
    | apply stills_read; intros ?; cbn; by (split; [|lia]) ].

(** ** Steps on the tables *)

Section Steps.
Context `{RL : RuntimeLaws}.

Lemma stills_Allow k : stills (Allow k).
Proof.
  unfold Allow. apply stills_bind; [stills_all|]. intros t w.
  destruct (allow_at t k (w_limiter w)) as [ok l]. by split.
Qed.

(** No agent and no transaction has the next identifier. *)
Lemma next_unknown w : ~ known w (uuid (w_uid w)).
Proof. intros (k & Hk & He). apply (inj uuid) in He. lia. Qed.

Lemma known_next w w' : w_uid w' = S (w_uid w) \/ w_uid w' = S (S (w_uid w)) -> known w' (uuid (w_uid w)).
Proof. intros Hu. exists (w_uid w). split; [lia|done]. Qed.

Lemma no_agent_next w : linked w -> st_agents (w_store w) !! uuid (w_uid w) = None.
Proof.
  intros Hl. destruct (st_agents (w_store w) !! _) as [a|] eqn:E; [|done].
  destruct (ln_agents _ Hl _ _ E) as [_ Hk]. by apply next_unknown in Hk.
Qed.

Lemma no_txn_next w : linked w -> st_txns (w_store w) !! uuid (w_uid w) = None.
Proof.
  intros Hl. destruct (st_txns (w_store w) !! _) as [a|] eqn:E; [|done].
  destruct (ln_txns _ Hl _ _ E) as (_ & Hk & _). by apply next_unknown in Hk.
Qed.

Lemma steady_CreateAgent o p n e g h : steady (CreateAgent o p n e g h).
Proof.
  intros w Hl. pose proof (no_agent_next w Hl) as Hn.
  assert (Hg : grows w (CreateAgent o p n e g h w).2).
  { split; [cbn; lia| |done|done]. intros org id (a & Ha & Ho). exists a. cbn. rewrite lookup_insert_ne; [done|congruence]. }
  split; [|done]. apply (linked_intro w); [done|done|..]; cbn; eauto.
  - intros id a Ha. apply lookup_insert_Some in Ha as [[<- <-]|[_ Ha]]; [right|by left].
    split; [done|]. apply known_next. by left.
  - intros id t Ht. left. by exists t.
Qed.

Lemma steady_SetTxnStatus o i st : steady (SetTxnStatus o i st).
Proof.
  intros w Hl. unfold SetTxnStatus, GetTxn, m_bind, get_store, m_ret.
  destruct (st_txns (w_store w) !! i) as [t|] eqn:Et; cbn; [|done].
  destruct (String.eqb (t_OrgID t) o); cbn; [|done].
  set (w' := _ : World).
  assert (Hg : grows w w').
  { split; [done|done| |done]. intros org id (t' & Ht & Ho). destruct (decide (i = id)) as [<-|Hne].
    - rewrite Et in Ht. injection Ht as <-. eexists. cbn. by rewrite lookup_insert_eq.
    - exists t'. cbn. by rewrite lookup_insert_ne. }
  split; [|done]. apply (linked_intro w); [done|done|..]; cbn; eauto.
  intros id t' Ht. left. apply lookup_insert_Some in Ht as [[<- <-]|[_ Ht]]; [by exists t|by exists t'].
Qed.

Lemma DecideApproval_shape o i b v w : still w (DecideApproval o i b v w).2 \/
  exists ap ap' w', st_approvals (w_store w) !! i = Some ap /\ (DecideApproval o i b v w).2 = w' /\
    ap_OrgID ap' = ap_OrgID ap /\ ap_TransactionID ap' = ap_TransactionID ap /\
    still (w <| w_store ::= fun s => s <| st_approvals ::= <[ i := ap' ]> |> |>) w'.
Proof.
  unfold DecideApproval, m_bind, get_store, m_ret. destruct (st_approvals (w_store w) !! i) as [ap|]; [|by left].
  destruct (_ || _); [by left|]. right. exists ap, (ap <| ap_Status := if v : bool then ApApproved else ApDenied |>
    <| ap_DecidedBy := b |> <| ap_DecidedAt := Some (clock (w_tick w)) |>). eexists. split; [done|]. split; [reflexivity|].
  by repeat split.
Qed.

(** A table of references is written. *)
Lemma linked_approvals w i ap : linked w -> has_txn w (ap_OrgID ap) (ap_TransactionID ap) ->
  let w' := w <| w_store ::= fun s => s <| st_approvals ::= <[ i := ap ]> |> |> in linked w' /\ grows w w'.
Proof.
  intros Hl Ht w'. assert (Hg : grows w w') by done. split; [|done].
  apply (linked_intro w); [done|done|..]; cbn; eauto.
  - intros id t H. left. by exists t.
  - intros id x Hx. apply lookup_insert_Some in Hx as [[_ <-]|[_ Hx]]; [by right|by left].
Qed.

Lemma still_then w w1 w2 : linked w1 /\ grows w w1 -> still w1 w2 -> linked w2 /\ grows w w2.
Proof. intros [Hl Hg] Hs. destruct (still_linked _ _ Hs Hl). split; [done|by etrans]. Qed.

Lemma steady_DecideApproval o i b v : steady (DecideApproval o i b v).
Proof.
  intros w Hl. destruct (DecideApproval_shape o i b v w) as [Hs|(ap & ap' & w' & Hap & -> & Ho & Ht & Hs)].
  - by apply still_linked.
  - eapply still_then; [|exact Hs]. apply linked_approvals; [done|]. rewrite Ho, Ht. by eapply ln_approvals.
Qed.

Lemma linked_grants w i g : linked w -> owns_agent w (g_OrgID g) (g_AgentID g) ->
  let w' := w <| w_store ::= fun s => s <| st_grants ::= <[ i := g ]> |> |> in linked w' /\ grows w w'.
Proof.
  intros Hl Ht w'. assert (Hg : grows w w') by done. split; [|done].
  apply (linked_intro w); [done|done|..]; cbn; eauto.
  - intros id t H. left. by exists t.
  - intros id x Hx. apply lookup_insert_Some in Hx as [[_ <-]|[_ Hx]]; [by right|by left].
Qed.

Lemma linked_creds w k c : linked w -> owns_agent w (cr_orgID c) (cr_agentID c) ->
  let w' := w <| w_store ::= fun s => s <| st_credByKey ::= <[ k := c ]> |> |> in linked w' /\ grows w w'.
Proof.
  intros Hl Ht w'. assert (Hg : grows w w') by done. split; [|done].
  apply (linked_intro w); [done|done|..]; cbn; eauto.
  - intros id t H. left. by exists t.
  - intros id x Hx. apply lookup_insert_Some in Hx as [[_ <-]|[_ Hx]]; [by right|by left].
Qed.

Lemma steady_RevokeGrant o i : steady (RevokeGrant o i).
Proof.
  intros w Hl. unfold RevokeGrant, m_bind, get_store, m_ret. destruct (st_grants (w_store w) !! i) as [g|] eqn:E; [|done].
  destruct (_ || _); [done|]. eapply still_then; [|by apply still_refl].
  eapply still_then; [apply (linked_grants w i (g <| g_RevokedAt := Some (clock (w_tick w)) |>)); [done|]|by split].
  exact (ln_grants _ Hl _ _ E).
Qed.

Lemma steady_RevokeCredential k : steady (RevokeCredential k).
Proof.
  intros w Hl. unfold RevokeCredential, m_bind, get_store, m_ret. destruct (st_credByKey (w_store w) !! k) as [c|] eqn:E; [|done].
  destruct (cr_revoked c); [done|]. apply (linked_creds w k (c <| cr_revoked := true |>)); [done|]. exact (ln_creds _ Hl _ _ E).
Qed.

Lemma steady_TouchCredential k : steady (TouchCredential k).
Proof.
  intros w Hl. unfold TouchCredential, m_bind, get_store, m_ret. destruct (st_credByKey (w_store w) !! k) as [c|] eqn:E; [|done].
  eapply still_then; [apply (linked_creds w k (c <| cr_lastUsed := clock (w_tick w) |>)); [done|]|by split].
  exact (ln_creds _ Hl _ _ E).
Qed.

(** A table of actions in which every action is in a transaction that is there. *)
Lemma linked_actions w m : linked w ->
  (forall id a, m !! id = Some a -> has_txn w (a_OrgID a) (a_TransactionID a)) ->
  (forall id, is_Some (st_actions (w_store w) !! id) -> is_Some (m !! id)) ->
  let w' := w <| w_store ::= fun s => s <| st_actions := m |> |> in linked w' /\ grows w w'.
Proof.
  intros Hl Hm Hk w'. assert (Hg : grows w w') by done. split; [|done].
  apply (linked_intro w); [done|done|..]; cbn; eauto. intros id t H. left. by exists t.
Qed.

Lemma steady_write_action id f :
  (forall a, a_OrgID (f a) = a_OrgID a /\ a_TransactionID (f a) = a_TransactionID a) -> steady (write_action id f).
Proof.
  intros Hf w Hl. apply (linked_actions w (alter f id (st_actions (w_store w)))); [done|..].
  - intros i a Ha. apply lookup_alter_Some in Ha as [(_ & b & Hb & ->)|[_ Ha]]; [|by eapply ln_actions].
    destruct (Hf b) as [-> ->]. by eapply ln_actions.
  - intros i. by rewrite lookup_alter_is_Some.
Qed.

Lemma steady_set_decision id d : steady (set_decision id d).
Proof. by apply steady_write_action. Qed.

Lemma steady_set_status id st : steady (set_status id st).
Proof. by apply steady_write_action. Qed.

Lemma UpdateAction_linked w a : linked w -> has_txn w (a_OrgID a) (a_TransactionID a) ->
  linked (UpdateAction a w).2 /\ grows w (UpdateAction a w).2.
Proof.
  intros Hl Ht. unfold UpdateAction, m_bind, get_store. destruct (st_actions (w_store w) !! a_ID a) as [c|] eqn:E; [|done].
  eapply still_then; [apply (linked_actions w (<[ a_ID a := a ]> (st_actions (w_store w)))); [done|..]|by split].
  - intros i b Hb. apply lookup_insert_Some in Hb as [[_ <-]|[_ Hb]]; [done|by eapply ln_actions].
  - intros i Hi. destruct (decide (a_ID a = i)) as [<-|]; [rewrite lookup_insert_eq|rewrite lookup_insert_ne]; done.
Qed.

Lemma update_cell_linked w id : linked w -> is_Some (st_actions (w_store w) !! id) ->
  linked (update_cell id w).2 /\ grows w (update_cell id w).2.
Proof.
  intros Hl [a Ha]. unfold update_cell, load_action, m_bind, get_store, m_ret. rewrite Ha. cbn.
  apply UpdateAction_linked; [done|]. by eapply ln_actions.
Qed.

Lemma AddAction_linked w a : linked w -> has_txn w (a_OrgID a) (a_TransactionID a) ->
  (linked (AddAction a w).2 /\ grows w (AddAction a w).2) /\
  ((AddAction a w).1.2 = false -> is_Some (st_actions (w_store (AddAction a w).2) !! a_ID (AddAction a w).1.1)).
Proof.
  intros Hl Ht. unfold AddAction, m_bind, get_store, m_ret. destruct (prev_action _ _) as [prev|]; [by split_and!|]. cbn.
  set (c := _ <| a_ArgumentsHash := _ |>).
  assert (Hc : a_OrgID c = a_OrgID a /\ a_TransactionID c = a_TransactionID a /\ a_ID c = uuid (w_uid w)).
  { unfold c. by destruct (bool_decide _). }
  destruct Hc as (Ho & Htx & Hid).
  assert (H : linked (w <| w_store ::= fun s => s <| st_actions := <[ uuid (w_uid w) := c ]> (st_actions (w_store w)) |> |>) /\
    grows w (w <| w_store ::= fun s => s <| st_actions := <[ uuid (w_uid w) := c ]> (st_actions (w_store w)) |> |>)).
  { apply linked_actions; [done|..].
    - intros i b Hb. apply lookup_insert_Some in Hb as [[_ <-]|[_ Hb]]; [by rewrite Ho, Htx|by eapply ln_actions].
    - intros i Hi. destruct (decide (uuid (w_uid w) = i)) as [<-|]; [rewrite lookup_insert_eq|rewrite lookup_insert_ne]; done. }
  split.
  - eapply still_then; [exact H|]. split; [done|]. cbn. lia.
  - intros _. change (is_Some (<[ uuid (w_uid w) := c ]> (st_actions (w_store w)) !! a_ID c)). rewrite Hid, lookup_insert_eq. done.
Qed.

Lemma CreateTxn_linked w t : linked w -> owns_agent w (t_OrgID t) (t_AgentID t) ->
  linked (CreateTxn t w).2 /\ grows w (CreateTxn t w).2.
Proof.
  intros Hl Ha. pose proof (no_txn_next w Hl) as Hn.
  set (b := t <| t_ID := uuid (w_uid w) |> <| t_CreatedAt := clock (w_tick w) |> <| t_UpdatedAt := clock (w_tick w) |>).
  set (c := if bool_decide (t_Status t = TxnZero) then b <| t_Status := TxnCreated |> else b).
  assert (Hc : t_ID c = uuid (w_uid w) /\ t_OrgID c = t_OrgID t /\ t_AgentID c = t_AgentID t).
  { unfold c. by destruct (bool_decide _). }
  destruct Hc as (Hid & Ho & Hag).
  assert (Hs : st_txns (w_store (CreateTxn t w).2) = <[ uuid (w_uid w) := c ]> (st_txns (w_store w))) by done.
  assert (Hg : grows w (CreateTxn t w).2).
  { split; [cbn; lia|done| |done]. intros org id (x & Hx & Hox). exists x. rewrite Hs, lookup_insert_ne; [done|congruence]. }
  split; [|done]. apply (linked_intro w); [done|done|..]; try (cbn; by eauto).
  rewrite Hs. intros id x Hx. apply lookup_insert_Some in Hx as [[<- <-]|[_ Hx]]; [right|left; by exists x].
  split; [done|]. split; [apply known_next; by right|]. rewrite Ho, Hag. by apply (gr_agents _ _ Hg).
Qed.

Lemma CreateApproval_linked w ap : linked w -> has_txn w (ap_OrgID ap) (ap_TransactionID ap) ->
  linked (CreateApproval ap w).2 /\ grows w (CreateApproval ap w).2.
Proof.
  intros Hl Ht. eapply still_then; [apply (linked_approvals w (uuid (w_uid w))
    (ap <| ap_ID := uuid (w_uid w) |> <| ap_CreatedAt := clock (w_tick w) |> <| ap_Status := ApPending |>)); done|].
  split; [done|]. cbn. lia.
Qed.

Lemma CreateGrant_linked w g : linked w -> owns_agent w (g_OrgID g) (g_AgentID g) ->
  linked (CreateGrant g w).2 /\ grows w (CreateGrant g w).2.
Proof.
  intros Hl Ht. unfold CreateGrant, m_bind.
  set (id := if String.eqb (g_ID g) "" then uuid (w_uid w) else g_ID g).
  eapply still_then; [apply (linked_grants w id (g <| g_ID := id |> <| g_IssuedAt := clock (w_tick w) |>)); done|].
  unfold id. destruct (String.eqb (g_ID g) ""); (split; [done|]; cbn; lia).
Qed.

Lemma StoreCredential_linked w o a k h : linked w -> owns_agent w o a ->
  linked (StoreCredential o a k h w).2 /\ grows w (StoreCredential o a k h w).2.
Proof.
  intros Hl Ht. eapply still_then; [apply (linked_creds w k (MkCredRef o a h false zero_time)); done|]. by split.
Qed.

(** A list of receipts of transactions that are there. *)
Lemma linked_receipts w l : linked w -> (forall r, r ∈ l -> has_txn w (r_OrgID r) (r_TransactionID r)) ->
  let w' := w <| w_store ::= fun s => s <| st_receiptsList := l |> |> in linked w' /\ grows w w'.
Proof.
  intros Hl Hm w'. assert (Hg : grows w w') by done. split; [|done].
  apply (linked_intro w); [done|done|..]; cbn; eauto. intros id t H. left. by exists t.
Qed.

Lemma AppendReceipt_linked w r : linked w -> has_txn w (r_OrgID r) (r_TransactionID r) ->
  linked (AppendReceipt r w).2 /\ grows w (AppendReceipt r w).2.
Proof.
  intros Hl Ht. set (c := chained (uuid (w_uid w)) (default "" (st_lastHash (w_store w) !! r_OrgID r)) r).
  eapply still_then; [apply (linked_receipts w (st_receiptsList (w_store w) ++ [c])); [done|]|].
  - intros x Hx. apply elem_of_app in Hx as [Hx|Hx]; [by apply ln_receipts|].
    apply list_elem_of_singleton in Hx as ->. exact Ht.
  - split; [done|]. cbn. lia.
Qed.

Lemma steady_write_receipt ptr f :
  (forall r, r_OrgID (f r) = r_OrgID r /\ r_TransactionID (f r) = r_TransactionID r) -> steady (write_receipt ptr f).
Proof.
  intros Hf w Hl. apply (linked_receipts w (alter f ptr (st_receiptsList (w_store w)))); [done|].
  intros r Hr. apply list_elem_of_lookup in Hr as [i Hi].
  destruct (decide (ptr = i)) as [<-|Hne].
  - rewrite list_lookup_alter_eq in Hi. destruct (st_receiptsList (w_store w) !! ptr) as [c|] eqn:E; [|done].
    injection Hi as <-. destruct (Hf c) as [-> ->]. eapply ln_receipts; [done|]. by eapply list_elem_of_lookup_2.
  - rewrite list_lookup_alter_ne in Hi by done. eapply ln_receipts; [done|]. by eapply list_elem_of_lookup_2.
Qed.

Lemma steady_update_receipt_cell ptr : steady (update_receipt_cell ptr).
Proof.
  intros w Hl. unfold update_receipt_cell, load_receipt, m_bind, get_store, m_ret.
  set (r := default zero_receipt _). apply (linked_receipts w (update_receipt_in r <$> st_receiptsList (w_store w))); [done|].
  intros x Hx. apply list_elem_of_fmap in Hx as (c & -> & Hc). pose proof (ln_receipts _ Hl _ Hc) as Ht.
  unfold update_receipt_in. by destruct (_ && _).
Qed.

End Steps.

Create HintDb linked.
#[export] Hint Resolve steady_CreateAgent steady_SetTxnStatus steady_DecideApproval steady_RevokeGrant
  steady_RevokeCredential steady_TouchCredential steady_set_decision steady_set_status steady_update_receipt_cell : linked.

(** ** Programs *)

Abbreviation links p w := (rely linked grows p w (fun _ _ => True)).

Section Rules.
Context `{RL : RuntimeLaws}.

Lemma rely_grows {A} (p : prog A) w Q :
  rely linked grows p w Q -> rely linked grows p w (fun a w' => Q a w' /\ grows w w').
Proof.
  assert (H : forall w0, grows w0 w -> rely linked grows p w Q -> rely linked grows p w (fun a w' => Q a w' /\ grows w0 w')).
  2: { by apply H. }
  revert w. induction p as [a|X m k IH]; intros w w0 Hg Hp; cbn [rely] in *; [done|].
  intros w1 H1 Hi. destruct (Hp w1 H1 Hi) as (? & Hr & ?). split; [done|]. split; [done|].
  apply IH; [|done]. etrans; [exact Hg|]. by etrans.
Qed.

Lemma links_call {A B} (p : prog A) (f : A -> prog B) w :
  links p w -> (forall a w', grows w w' -> links (f a) w') -> links (let! a := p in f a) w.
Proof.
  intros Hp Hf. apply rely_pbind. eapply rely_post; [|apply rely_grows, Hp]. intros a w' [_ Hg]. by apply Hf.
Qed.

Lemma links_step {X A} (m : M X) (k : X -> prog A) (P : X -> World -> Prop) w :
  (forall w1, grows w w1 -> linked w1 -> (linked (m w1).2 /\ grows w1 (m w1).2) /\ P (m w1).1 (m w1).2) ->
  (forall x w2, grows w w2 -> P x w2 -> links (k x) w2) -> links (Atomic m k) w.
Proof.
  intros Hm Hk w1 Hg Hl. destruct (Hm w1 Hg Hl) as [[Hl2 Hg2] HP]. split; [done|]. split; [done|].
  apply Hk; [by etrans|done].
Qed.

Lemma links_steady {X A} (m : M X) (k : X -> prog A) w :
  steady m -> (forall x w2, grows w w2 -> links (k x) w2) -> links (Atomic m k) w.
Proof. intros Hm Hk. apply (links_step m k (fun _ _ => True)); [intros w1 _ Hl; split; [by apply Hm|done]|auto]. Qed.

Lemma links_change {X A} (m : M X) (k : X -> prog A) w :
  (forall w1, grows w w1 -> linked w1 -> linked (m w1).2 /\ grows w1 (m w1).2) ->
  (forall x w2, grows w w2 -> links (k x) w2) -> links (Atomic m k) w.
Proof. intros Hm Hk. apply (links_step m k (fun _ _ => True)); auto. Qed.

Lemma links_GetAgent {A} o i (k : option Agent -> prog A) w :
  (forall w2, grows w w2 -> links (k None) w2) ->
  (forall a w2, grows w w2 -> ag_ID a = i -> owns_agent w2 o i -> links (k (Some a)) w2) ->
  links (Atomic (GetAgent o i) k) w.
Proof.
  intros Hn Hs. apply (links_step _ _ (fun x w2 => match x with Some a => ag_ID a = i /\ owns_agent w2 o i | None => True end)).
  - intros w1 _ Hl. split; [done|]. unfold GetAgent, m_bind, get_store, m_ret. cbn.
    destruct (st_agents (w_store w1) !! i) as [a|] eqn:Ea; [|done]. cbn. destruct (String.eqb_spec (ag_OrgID a) o); [|done].
    destruct (ln_agents _ Hl _ _ Ea). split; [done|]. by exists a.
  - intros [a|] w2 Hg; [intros []|intros _]; auto.
Qed.

Lemma links_GetTxn {A} o i (k : option Transaction -> prog A) w :
  (forall w2, grows w w2 -> links (k None) w2) ->
  (forall t w2, grows w w2 -> has_txn w2 o i -> links (k (Some t)) w2) ->
  links (Atomic (GetTxn o i) k) w.
Proof.
  intros Hn Hs. apply (links_step _ _ (fun x w2 => match x with Some a => has_txn w2 o i | None => True end)).
  - intros w1 _ Hl. split; [done|]. unfold GetTxn, m_bind, get_store, m_ret. cbn.
    destruct (st_txns (w_store w1) !! i) as [a|] eqn:Ea; [|done]. cbn. destruct (String.eqb_spec (t_OrgID a) o); [|done].
    by exists a.
  - intros [a|] w2 Hg; auto.
Qed.

Lemma links_GetAction {A} o i (k : option TxnAction -> prog A) w :
  (forall w2, grows w w2 -> links (k None) w2) ->
  (forall a w2, grows w w2 -> a_OrgID a = o -> has_txn w2 o (a_TransactionID a) -> links (k (Some a)) w2) ->
  links (Atomic (GetAction o i) k) w.
Proof.
  intros Hn Hs. apply (links_step _ _ (fun x w2 => match x with Some a => a_OrgID a = o /\ has_txn w2 o (a_TransactionID a) | None => True end)).
  - intros w1 _ Hl. split; [done|]. unfold GetAction, m_bind, get_store, m_ret. cbn.
    destruct (st_actions (w_store w1) !! i) as [a|] eqn:Ea; [|done]. cbn. destruct (String.eqb_spec (a_OrgID a) o) as [<-|]; [|done].
    split; [done|]. by eapply ln_actions.
  - intros [a|] w2 Hg; [intros []|intros _]; auto.
Qed.

End Rules.

(** Moves what is known to the world after a step. *)
Ltac carry_links Hg :=
  lazymatch type of Hg with
  | grows ?w ?w' =>
      repeat match goal with
      | H : has_txn w _ _ |- _ => apply (gr_txns _ _ Hg) in H
      | H : owns_agent w _ _ |- _ => apply (gr_agents _ _ Hg) in H
      | H : is_Some (st_actions (w_store w) !! _) |- _ => apply (gr_actions _ _ Hg) in H
      end
  end.

Ltac after_step :=
  let x := fresh "x" in let w := fresh "w" in let Hg := fresh "Hg" in intros x w Hg; carry_links Hg.

Ltac links_case :=
  match goal with
  | |- rely _ _ (match ?x with _ => _ end) _ _ => destruct x
  | |- rely _ _ (if ?x then _ else _) _ _ => destruct x
  | |- rely _ _ (let '(_, _) := ?x in _) _ _ => destruct x
  end.

(** Follows a program: what is steady, what returns, and cases. *)
Ltac links_next :=
  first
  [ exact I
  | apply links_steady; [solve [auto with linked | apply stills_steady; auto with linked; stills_all]|]; after_step
  | links_case ].
Ltac links_all := cbv zeta; repeat (links_next; cbv zeta).

Section Operations.
Context `{RL : RuntimeLaws} `{JE : JevEnv}.

Lemma links_signReceipt ptr w : links (signReceipt ptr) w.
Proof.
  unfold signReceipt. links_next. destruct x as [p|]; [|done].
  apply links_steady; [by apply steady_write_receipt|]. intros _ w1 _. links_next.
  apply links_steady; [by apply steady_write_receipt|]. done.
Qed.

Lemma links_issue_receipt r w : has_txn w (r_OrgID r) (r_TransactionID r) -> links (issue_receipt r) w.
Proof.
  intros Ht. unfold issue_receipt. apply links_change.
  { intros w1 Hg Hl. apply AppendReceipt_linked; [done|]. by apply (gr_txns _ _ Hg). }
  intros ptr w1 _. apply links_call; [apply links_signReceipt|]. intros _ w2 _. links_all.
Qed.

Lemma links_UpdateAction {A} a (k : unit -> prog A) w : has_txn w (a_OrgID a) (a_TransactionID a) ->
  (forall w2, grows w w2 -> links (k tt) w2) -> links (Atomic (UpdateAction a) k) w.
Proof.
  intros Ht Hk. apply links_change; [|intros []; apply Hk].
  intros w1 Hg Hl. apply UpdateAction_linked; [done|]. by apply (gr_txns _ _ Hg).
Qed.

Lemma stills_call_tool a : stills (tools_Execute a).
Proof. intros w. by split. Qed.

Lemma stills_compensate_tool a : stills (tools_Compensate a).
Proof. intros w. by split. Qed.

Lemma stills_reconcile_tool rec a : stills (call_reconciler rec a).
Proof. intros w. by split. Qed.

End Operations.

#[export] Hint Resolve stills_call_tool stills_compensate_tool stills_reconcile_tool stills_Allow : linked.

Section Service.
Context `{RL : RuntimeLaws} `{JE : JevEnv}.

Lemma links_run_action orgID a w : a_OrgID a = orgID -> has_txn w orgID (a_TransactionID a) -> links (run_action orgID a) w.
Proof.
  intros <- Ht. unfold run_action. links_next. apply links_call.
  { links_all. }
  intros _ w1 Hg1. carry_links Hg1. do 5 links_next.
  match goal with |- rely _ _ (match ?r with inl _ => _ | inr _ => _ end) _ _ => destruct r as [res|err] end.
  - apply links_UpdateAction; [done|]. intros wu Hu. carry_links Hu. links_next.
    unfold receipt_for. destruct (a_Decision _); [|done]. cbn [mbind option_bind].
    apply links_call; [by apply links_issue_receipt|]. intros rid wi _. links_all.
  - destruct (as_uncertain err); (apply links_UpdateAction; [done|]; intros wu _; links_all).
Qed.

Lemma links_ExecuteAllowed orgID id w : links (ExecuteAllowed orgID id) w.
Proof.
  unfold ExecuteAllowed. apply links_GetAction; [done|]. intros a w1 _ Ho Ht.
  repeat links_case; try exact I; by apply links_run_action.
Qed.

Lemma links_RunApproved orgID id w : links (RunApproved orgID id) w.
Proof.
  unfold RunApproved. apply links_GetAction; [done|]. intros a w1 _ Ho Ht.
  repeat links_case; try exact I; by apply links_run_action.
Qed.

Lemma links_Reconcile orgID id w : links (Reconcile orgID id) w.
Proof.
  unfold Reconcile. apply links_GetAction; [done|]. intros a w1 _ <- Ht.
  destruct (negb _); [done|]. links_next. destruct (ReconcilerFor _ _ _) as [rec|]; [|links_all].
  links_next. destruct x0 as [[found result]|err]; [|links_all]. links_next. destruct (negb found).
  - apply links_UpdateAction; [done|]. intros wu _. links_all.
  - links_next. apply links_UpdateAction; [done|]. intros wu Hu. carry_links Hu.
    unfold receipt_for. destruct (a_Decision _); [|done]. cbn [mbind option_bind].
    apply links_call; [by apply links_issue_receipt|]. intros rid wi _. links_all.
Qed.

Lemma links_Commit orgID id w : links (Commit orgID id) w.
Proof. unfold Commit. links_all. Qed.

Lemma links_Simulate orgID agentID tool action args w : links (Simulate orgID agentID tool action args) w.
Proof.
  unfold Simulate. links_next. destruct x; [|done]. do 3 links_next.
  destruct (CheckAuthority _ _ _ _ _ _) as [[covered has] why]. destruct (_ && _); [done|].
  apply links_call; [unfold current_rules; links_all|]. intros rv w4 _. links_all.
Qed.

Lemma links_settle orgID txnID id st type payload failed w : links (settle orgID txnID id st type payload failed) w.
Proof.
  unfold settle. apply links_GetAction; [done|]. intros a w1 _ <- Ht.
  apply links_UpdateAction; [done|]. intros w2 _. links_all.
Qed.

Lemma links_CompensateTransaction orgID txnID w : links (CompensateTransaction orgID txnID) w.
Proof.
  unfold CompensateTransaction. links_next. destruct x; [|done]. do 3 links_next. apply links_call; [|intros; links_all].
  apply rely_for_each. intros a failed w4 _. unfold compensate_one. destruct failed as [failed|]; [|done].
  destruct (negb _); [done|]. destruct (_ && _); [links_all|]. links_next. links_case; apply links_settle.
Qed.

(** ** Proposals *)

Lemma links_update_cell {A} id (k : unit -> prog A) w : is_Some (st_actions (w_store w) !! id) ->
  (forall w2, grows w w2 -> links (k tt) w2) -> links (Atomic (update_cell id) k) w.
Proof.
  intros Hc Hk. apply links_change; [|intros []; apply Hk].
  intros w1 Hg Hl. apply update_cell_linked; [done|]. by apply (gr_actions _ _ Hg).
Qed.

Lemma links_screen orgID txnID ag id d w : links (screen orgID txnID ag id d) w.
Proof.
  unfold screen, jevScreenRisk. destruct (is_allow _); [|done]. links_next.
  apply links_call; [links_all|]. intros v w1 _. links_all.
Qed.

Lemma links_conclude orgID txnID agentID t amt id d w :
  has_txn w orgID txnID -> is_Some (st_actions (w_store w) !! id) -> links (conclude orgID txnID agentID t amt id d) w.
Proof.
  intros Ht Hc. unfold conclude, return_cell.
  destruct (d_Effect d); links_next; (apply links_update_cell; [done|]); intros wu Hu; carry_links Hu;
    try solve [links_all].
  links_next. apply links_change; [|intros; links_all].
  intros wa Ha Hl. apply CreateApproval_linked; [done|]. by apply (gr_txns _ _ Ha).
Qed.

Lemma links_deny_authority orgID txnID agentID id why w :
  is_Some (st_actions (w_store w) !! id) -> links (deny_authority orgID txnID agentID id why) w.
Proof.
  intros Hc. unfold deny_authority, return_cell. do 2 links_next.
  apply links_update_cell; [done|]. intros wu _. links_all.
Qed.

Lemma links_decide_fresh orgID txnID agentID tool action t ag amt id w :
  has_txn w orgID txnID -> is_Some (st_actions (w_store w) !! id) ->
  links (decide_fresh orgID txnID agentID tool action t ag amt id) w.
Proof.
  intros Ht Hc. unfold decide_fresh. do 2 links_next. destruct (CheckAuthority _ _ _ _ _ _) as [[covered has] why].
  apply links_call; [links_all|]. intros _ wa Ha. carry_links Ha.
  destruct (has && negb covered); [by apply links_deny_authority|].
  apply links_call; [unfold current_rules; links_all|]. intros rv wb Hb. carry_links Hb. do 3 links_next.
  apply links_call; [apply links_screen|]. intros d wc Hc'. carry_links Hc'. by apply links_conclude.
Qed.

Lemma links_ProposeAction orgID txnID agentID tool action args idem w :
  links (ProposeAction orgID txnID agentID tool action args idem) w.
Proof.
  unfold ProposeAction. apply links_GetTxn; [done|]. intros t w1 _ Ht. destruct (is_terminal _); [done|].
  links_next. destruct x as [ag|]; [|done]. links_next.
  match goal with |- rely _ _ (Atomic (AddAction ?a) _) ?w0 _ =>
    apply (links_step _ _ (fun r wa => has_txn wa orgID txnID /\ (r.2 = false -> is_Some (st_actions (w_store wa) !! a_ID r.1))))
  end.
  - intros wa Ha Hl. carry_links Ha. match goal with |- context [AddAction ?a wa] =>
      destruct (AddAction_linked wa a Hl Ht) as [[H1 H2] H3] end.
    split; [by split|]. split; [by apply (gr_txns _ _ H2)|done].
  - intros [stored dup] wb _ [Hb Hc]. destruct dup; [links_all|]. by apply links_decide_fresh; [|apply Hc].
Qed.

End Service.

(** ** Requests *)

Section Requests.
Context `{RL : RuntimeLaws} `{JE : JevEnv} `{SE : Secrets} `{UP : UuidParse} `{NT : Net}.

Lemma links_StoreCredential {A} o a kid h (k : unit -> prog A) w : owns_agent w o a ->
  (forall w2, grows w w2 -> links (k tt) w2) -> links (Atomic (StoreCredential o a kid h) k) w.
Proof.
  intros Ha Hk. apply links_change; [|intros []; apply Hk].
  intros w1 Hg Hl. apply StoreCredential_linked; [done|]. by apply (gr_agents _ _ Hg).
Qed.

Lemma links_handleRegisterAgent id b w : links (handleRegisterAgent id b) w.
Proof.
  unfold handleRegisterAgent. cbv zeta. repeat links_case; try exact I. links_next.
  destruct x as [[[kid secret] hash]|]; [|done].
  apply (links_step _ _ (fun a w2 => owns_agent w2 (orgOf id) (ag_ID a))).
  - intros w1 _ Hl. split; [by apply steady_CreateAgent|]. eexists. cbn. rewrite lookup_insert_eq. done.
  - intros a w1 _ Ha. apply links_StoreCredential; [done|]. intros w2 _. links_all.
Qed.

Lemma links_handleRotateCredential id a w : links (handleRotateCredential id a) w.
Proof.
  unfold handleRotateCredential. cbv zeta. destruct (negb _); [done|]. apply links_GetAgent; [done|].
  intros ag w1 _ <- Ha. links_next. destruct x as [[[kid secret] hash]|]; [|done].
  apply links_StoreCredential; [done|]. intros w2 _. links_all.
Qed.

Lemma links_handleCreateTxn id b w : links (handleCreateTxn id b) w.
Proof.
  unfold handleCreateTxn. cbv zeta. destruct b as [b|]; [|done]. destruct (String.eqb _ _); [done|].
  apply links_GetAgent; [done|]. intros ag w1 _ _ Ha. destruct (agent_mismatch _ _); [done|].
  apply links_change; [|intros; links_all]. intros wa Hg Hl. apply CreateTxn_linked; [done|]. by apply (gr_agents _ _ Hg).
Qed.

Lemma links_handleCreateGrant id b w : links (handleCreateGrant id b) w.
Proof.
  unfold handleCreateGrant. cbv zeta. destruct (negb _); [done|]. destruct b as [b|]; [|done]. destruct (String.eqb _ _); [done|].
  apply links_GetAgent; [done|]. intros ag w1 _ _ Ha. destruct (negb _); [done|].
  apply links_change; [|intros; links_all]. intros wa Hg Hl. apply CreateGrant_linked; [done|]. by apply (gr_agents _ _ Hg).
Qed.

Lemma links_approve_action orgID ap id w : links (approve_action orgID ap id) w.
Proof.
  unfold approve_action. apply links_GetAction; [done|]. intros a w1 _ <- Ht.
  apply links_UpdateAction; [done|]. intros w2 _. links_all.
Qed.

Lemma links_handleDecideApproval id post path b w : links (handleDecideApproval id post path b) w.
Proof.
  unfold handleDecideApproval. destruct (callerIsOperator id); cbn [negb]; [|done].
  destruct (Split _ _) as [|i [|verb [|]]]; try done. destruct (_ || _); [done|]. cbv zeta.
  links_next. destruct x as [ap|]; [|done]. links_next.
  apply links_call; [repeat links_case; try exact I; apply links_approve_action|]. intros _ wa _.
  apply links_call; [unfold abort_txn; links_all|]. intros _ wb _. links_all.
Qed.

Lemma stills_tools_Register t a c h : stills (tools_Register t a c h).
Proof. intros w. by split. Qed.

Lemma stills_fetch_tools u t : stills (fetch_tools u t).
Proof. intros w. by split. Qed.

Hint Resolve stills_tools_Register stills_fetch_tools : linked.

Lemma links_register_tools name url token classes tools w : links (register_tools name url token classes tools) w.
Proof. apply rely_for_each. intros t u w1 _. links_all. Qed.

Lemma links_answer code r w : links (answer_execution code r) w.
Proof. by destruct r. Qed.

Ltac links_handler :=
  cbv zeta;
  repeat (first
    [ apply links_answer
    | apply links_call; [first [apply links_ProposeAction|apply links_RunApproved|apply links_ExecuteAllowed
        |apply links_Simulate|apply links_Commit|apply links_Reconcile|apply links_register_tools
        |apply links_handleDecideApproval]|intros ? ? ?]
    | links_next ]; cbv zeta).

Lemma links_route rt id w : links (route rt id) w.
Proof.
  destruct rt; cbn [route]; try first [apply links_handleRegisterAgent|apply links_handleRotateCredential
    |apply links_handleCreateTxn|apply links_handleCreateGrant|apply links_handleDecideApproval];
    unfold handleListTxns, handleGetTxn,
      handleProposeAction, handleActionSub, handleListApprovals, handleListReceipts, handleAudit,
      handleListPolicies, handleListGrants, handleRevokeGrant,
      handleRevokeCredential, handleReconcile, handleVerifyReceipts,
      handleVerifyReceipt, handleSimulatePolicy, handleCreatePolicySet, handleListPolicySets,
      handleActivatePolicySet, handleCommitTxn, handleRegisterMCPServer, handleListMCPServers,
      handleListMCPTools, handleMCPCall, handleListIntegrations, handleSetIntegrationCredential,
      handleSetHTTPDomains; links_handler.
Qed.

Lemma links_Authenticate secret org w : links (Authenticate secret org) w.
Proof. unfold Authenticate. links_all. Qed.

Lemma links_Middleware {A} (next : option Identity -> prog A) r w :
  (forall id w, links (next id) w) -> links (Middleware next r) w.
Proof.
  intros Hn. unfold Middleware. cbv zeta. destruct (open_path _).
  { by apply links_call; [apply Hn|]. }
  destruct (_ || _); [done|]. links_next. destruct x; cbn [negb]; [|done].
  apply links_call; [apply links_Authenticate|]. intros [id|] w2 _; [|done]. by apply links_call; [apply Hn|].
Qed.

Lemma links_Handler r w : links (Handler r) w.
Proof.
  unfold Handler, corsMiddleware. destruct (String.eqb (hq_Method r) "OPTIONS"); [done|].
  unfold observe_Middleware, auth_handler.
  destruct (String.eqb (hq_RequestID r) ""); do 2 links_next;
    (apply links_call; [|done]; apply links_Middleware; intros id w3; unfold ServeHTTP;
     destruct (findHandler r); [|done..]; by apply links_call; [apply links_route|]).
Qed.

Lemma client_links p : client p -> forall w, links p w.
Proof.
  intros Hp w. destruct Hp; try (apply links_call; [|done]).
  - apply links_Handler.
  - apply links_Middleware. intros. apply links_route.
  - apply links_ProposeAction.
  - apply links_ExecuteAllowed.
  - apply links_RunApproved.
  - apply links_Reconcile.
  - apply links_Commit.
  - apply links_CompensateTransaction.
  - apply links_Simulate.
  - unfold SetPolicies. links_all.
Qed.

Lemma reconfigure_links w w' : reconfigure w w' -> linked w -> linked w' /\ grows w w'.
Proof.
  intros Hc. apply still_linked. revert w w' Hc.
  assert (H : forall X (m : M X), stills m -> forall w, still w (m w).2) by done.
  intros w w' [| | | | | |]; try (by split); apply H; stills_all.
Qed.

Lemma linked_new tools : linked (new_world tools).
Proof. split; cbn; try done. intros r Hr. by apply elem_of_nil in Hr. Qed.

Lemma reachable_linked w : reachable w -> linked w.
Proof.
  intros (ps & tools & Hr).
  apply (rely_reachable linked grows client reconfigure client_links reconfigure_links _ _ Hr (linked_new tools)).
  constructor.
Qed.

(** C8: the references of the store resolve.  In every state concurrent
    requests can reach, an object stored under an identifier carries it; the
    agent of a transaction, of a grant and of a credential is an agent of the
    same organization; the transaction of an action, an approval and a
    receipt is a transaction of the same organization; and the action an
    approval or a receipt names is in its transaction. *)
Theorem references_resolve w : reachable w ->
  (forall id a, st_agents (w_store w) !! id = Some a -> ag_ID a = id) /\
  (forall id t, st_txns (w_store w) !! id = Some t ->
     t_ID t = id /\ exists a, st_agents (w_store w) !! t_AgentID t = Some a /\ ag_OrgID a = t_OrgID t) /\
  (forall id a, st_actions (w_store w) !! id = Some a ->
     a_ID a = id /\ exists t, st_txns (w_store w) !! a_TransactionID a = Some t /\ t_OrgID t = a_OrgID a) /\
  (forall id ap, st_approvals (w_store w) !! id = Some ap ->
     ap_ID ap = id /\ exists act a t, ap_ActionID ap = Some act /\ st_actions (w_store w) !! act = Some a /\
       st_txns (w_store w) !! ap_TransactionID ap = Some t /\ a_TransactionID a = ap_TransactionID ap /\
       a_OrgID a = ap_OrgID ap /\ t_OrgID t = ap_OrgID ap) /\
  (forall r, r ∈ st_receiptsList (w_store w) -> exists a t, st_actions (w_store w) !! r_ActionID r = Some a /\
     st_txns (w_store w) !! r_TransactionID r = Some t /\ a_TransactionID a = r_TransactionID r /\
     a_OrgID a = r_OrgID r /\ t_OrgID t = r_OrgID r) /\
  (forall id g, st_grants (w_store w) !! id = Some g ->
     exists a, st_agents (w_store w) !! g_AgentID g = Some a /\ ag_OrgID a = g_OrgID g) /\
  (forall k c, st_credByKey (w_store w) !! k = Some c ->
     exists a, st_agents (w_store w) !! cr_agentID c = Some a /\ ag_OrgID a = cr_orgID c).
Proof.
  intros Hr. pose proof (reachable_inv w Hr) as Hi. pose proof (reachable_linked w Hr) as [].
  split; [intros id a Ha; by apply ln_agents0|].
  split; [intros id t Ht; destruct (ln_txns0 _ _ Ht) as (? & _ & ?); done|].
  split; [intros id a Ha; destruct (inv_cells _ Hi _ _ Ha) as (? & _); split; [done|by apply (ln_actions0 id)]|].
  split.
  { intros id ap Hap. destruct (inv_approvals _ Hi _ _ Hap) as (? & _ & act & a & ? & ? & ? & ? & _).
    destruct (ln_approvals0 _ _ Hap) as (t & ? & ?). split; [done|]. by exists act, a, t. }
  split; [|split; [done|done]].
  intros r Hin. destruct (inv_receipts _ Hi _ Hin) as (a & d & ? & ? & ? & _). destruct (ln_receipts0 _ Hin) as (t & ? & ?).
  by exists a, t.
Qed.

End Requests.
