(* ===== verification/McpSpec.v ===== *)
(** * McpSpec: what the MCP handlers do, run alone *)

From Stdlib Require Import Ascii.
From S2P Require Export ApiSpec ApprovalSpec SafetyServer.

Open Scope Z_scope.

Section McpSpec.
Context `{RL : RuntimeLaws} `{JE : JevEnv} `{SE : Secrets} `{UP : UuidParse} `{NT : Net}.

(** ** Registration of tools *)

(** Calls of [tool], one of the tools of server [name], go to [url] with
    [token], whichever organization the action belongs to. *)
Definition routed (r : Registry) (name tool url token : string) (classes : list ActionClass) : Prop :=
  Classes r (ToolName name) tool = match classes with [] => [ClassUnknown] | _ => classes end /\
  forall st n a, a_Tool a = ToolName name -> a_Action a = tool ->
    Execute r st n a = HandlerFor url token tool st n a.

Lemma routed_Register name tool url token classes r :
  routed (Register (ToolName name) tool classes (Some (HandlerFor url token tool)) None r)
    name tool url token classes.
Proof.
  unfold routed, Register, Classes, Execute. destruct classes; cbn.
  - rewrite lookup_insert_eq. split; [done|]. intros st n a -> ->. by rewrite lookup_insert_eq.
  - rewrite lookup_insert_eq. split; [done|]. intros st n a -> ->. by rewrite lookup_insert_eq.
Qed.

(** The separator of [key] never occurs in the name of a server. *)
Lemma key_ToolName_inj name tool tool' : key (ToolName name) tool = key (ToolName name) tool' -> tool = tool'.
Proof. unfold key. intros H. apply string_app_inj_l in H. by apply string_app_inj_l in H. Qed.

Lemma routed_other name tool tool' url token url' token' classes classes' r :
  tool <> tool' -> routed r name tool url token classes ->
  routed (Register (ToolName name) tool' classes' (Some (HandlerFor url' token' tool')) None r)
    name tool url token classes.
Proof.
  intros Hne [Hc Hx]. unfold routed, Register, Classes, Execute in *. cbn.
  assert (Hk : key (ToolName name) tool' <> key (ToolName name) tool).
  { intros H. by apply key_ToolName_inj in H. }
  split; [destruct classes'; by rewrite lookup_insert_ne|].
  intros st n a Ht Ha. rewrite Ht, Ha, lookup_insert_ne by done. rewrite <- Hx by done. by rewrite Ht, Ha.
Qed.

(** The loop over the fetched tools. *)
Lemma run_register_tools name url token classes tools w :
  exists r, run (register_tools name url token classes tools) w = (tt, w <| w_tools := r |>) /\
    (forall t, t ∈ tools ->
       routed r name (mt_Name t) url token (default [] (classes !! mt_Name t))) /\
    (forall tool, routed (w_tools w) name tool url token (default [] (classes !! tool)) ->
       routed r name tool url token (default [] (classes !! tool))).
Proof.
  unfold register_tools. revert w. induction tools as [|t tools IH]; intros w; cbn [for_each].
  - exists (w_tools w). split; [by destruct w|]. split; [|done]. intros t Ht. by apply elem_of_nil in Ht.
  - cbn [pbind]. set (r1 := Register (ToolName name) (mt_Name t) (default [] (classes !! mt_Name t))
      (Some (HandlerFor url token (mt_Name t))) None (w_tools w)).
    rewrite (run_atomic _ _ w tt (w <| w_tools := r1 |>)) by (by destruct w).
    destruct (IH (w <| w_tools := r1 |>)) as (r & Hr & Hin & Hkeep). exists r.
    split; [rewrite Hr; by destruct w|].
    assert (Hnew : routed r1 name (mt_Name t) url token (default [] (classes !! mt_Name t)))
      by apply routed_Register. split.
    + intros t' Ht'. apply elem_of_cons in Ht' as [-> |Ht']; [by apply Hkeep|by apply Hin].
    + intros tool Htool. apply Hkeep.
      destruct (decide (tool = mt_Name t)) as [-> |Hne]; [exact Hnew|by apply routed_other].
Qed.

(** ** Register a server *)

Lemma validClasses_known entries out classes :
  validClasses entries out = inl classes ->
  map_Forall (fun _ l => Forall (fun c => known_class c = true) l) out ->
  map_Forall (fun _ l => Forall (fun c => known_class c = true) l) classes.
Proof.
  revert out. induction entries as [|[tool l] entries IH]; intros out H Hout; cbn in H.
  - by injection H as <-.
  - destruct (List.find _ l) as [c|] eqn:Ef; [done|]. apply (IH _ H).
    apply map_Forall_insert_2; [|done]. apply Forall_forall. intros c Hc.
    apply list_elem_of_In in Hc. by apply (find_none _ _ Ef) in Hc; apply negb_false_iff in Hc.
Qed.

(** Registering an MCP server.  A registration that is not answered 201
    leaves the store's servers and the tools as they are.  One that is was made
    by an operator, with a name and URL of the required form and classes the
    engine knows; the upstream listed its tools in that very request; the
    server is stored for the caller's organization with that catalog, and
    each tool listed is routed to the given URL and token under the classes
    given for it, or UNKNOWN. *)
Theorem mcp_registration id rbody w :
  let '(resp, w') := run (handleRegisterMCPServer id rbody) w in
  (rs_Code resp <> 201 -> w_tools w' = w_tools w /\ w_store w' = w_store w) /\
  (rs_Code resp = 201 -> exists b srv sealed n, rbody = Some b /\ callerIsOperator id = true /\
     mcpName (mb_Name b) = true /\ ValidateURL (mb_URL b) = None /\
     ListTools n (mb_URL b) (mb_AuthToken b) = inl (ms_Tools srv) /\
     rs_Body resp = BMCPServer srv /\ ms_OrgID srv = orgOf id /\ ms_Name srv = mb_Name b /\
     ms_URL srv = mb_URL b /\
     st_mcpServers (w_store w') =
       <[ mcpKey (orgOf id) (mb_Name b) := MkMcpEntry srv sealed ]> (st_mcpServers (w_store w)) /\
     map_Forall (fun _ l => Forall (fun c => known_class c = true) l) (ms_Classes srv) /\
     forall t, t ∈ ms_Tools srv ->
       routed (w_tools w') (mb_Name b) (mt_Name t) (mb_URL b) (mb_AuthToken b)
         (default [] (ms_Classes srv !! mt_Name t))).
Proof.
  unfold handleRegisterMCPServer. destruct (callerIsOperator id); cbn [negb]; [|by split].
  destruct rbody as [b|]; [|by split]. destruct (_ || _); [by split|].
  destruct (mcpName (mb_Name b)) eqn:En; cbn [negb]; [|by split].
  destruct (ValidateURL (mb_URL b)) as [err|] eqn:Ev; [by split|].
  set (w1 := w <| w_tick ::= S |>).
  rewrite (run_atomic (ranging (mb_Classes b)) _ w (range_map (w_tick w) (mb_Classes b)) w1 eq_refl).
  destruct (validClasses (range_map (w_tick w) (mb_Classes b)) ∅) as [classes|err] eqn:Ec; [|by split].
  set (w2 := w1 <| w_tick ::= S |>).
  rewrite (run_atomic (fetch_tools _ _) _ w1 (ListTools (w_tick w1) (mb_URL b) (mb_AuthToken b)) w2 eq_refl).
  destruct (ListTools (w_tick w1) (mb_URL b) (mb_AuthToken b)) as [tools|err] eqn:El; [|by split].
  set (srv0 := MkMCPServer _ _ _ _ _ _ _ _).
  destruct (UpsertMCPServer srv0 (mb_AuthToken b) w2) as [srv w3] eqn:Eu.
  assert (Hu : exists sealed, w_tools w3 = w_tools w /\ ms_OrgID srv = orgOf id /\ ms_Name srv = mb_Name b /\
    ms_URL srv = mb_URL b /\ ms_Tools srv = tools /\ ms_Classes srv = classes /\
    st_mcpServers (w_store w3) =
      <[ mcpKey (orgOf id) (mb_Name b) := MkMcpEntry srv sealed ]> (st_mcpServers (w_store w))).
  { unfold UpsertMCPServer in Eu. cbn in Eu. injection Eu as <- <-. by eexists. }
  destruct Hu as (sealed & Ht3 & Ho & Hn & Hurl & Htools & Hcls & Hst).
  rewrite (run_atomic _ _ _ _ _ Eu), run_pbind.
  destruct (run_register_tools (mb_Name b) (mb_URL b) (mb_AuthToken b) classes tools w3) as (r & Hr & Hin & _).
  rewrite Hr, run_emitted. cbn [run]. split; [done|]. intros _.
  exists b, srv, sealed, (w_tick w1). rewrite Htools, Hcls. repeat (split; [done|]).
  split; [|exact Hin].
  eapply validClasses_known; [exact Ec|]. apply map_Forall_empty.
Qed.

End McpSpec.
