(* ===== verification/MuteSpec.v ===== *)
(** * MuteSpec: which requests can reach the outside world

    A step is mute when it leaves the trace of tool calls alone.  The proxied
    MCP call is a proposal like any other. *)

From S2P Require Export McpSpec.

Open Scope Z_scope.

Definition mute {X} (m : M X) : Prop := forall w, w_calls (m w).2 = w_calls w.

Fixpoint mute_prog {A} (p : prog A) : Prop :=
  match p with
  | Ret _ => True
  | Atomic m k => mute m /\ forall x, mute_prog (k x)
  end.

Section Mute.
Context `{RT : Runtime} `{JE : JevEnv} `{SE : Secrets} `{UP : UuidParse} `{NT : Net}.

Lemma mute_quiet {X} (m : M X) : quiet m -> mute m.
Proof. intros Hm w. apply (unt_calls _ _ (Hm w)). Qed.

Lemma mute_ret {X} (x : X) : mute (m_ret x).
Proof. done. Qed.

Lemma mute_bind {X Y} (m : M X) (k : X -> M Y) : mute m -> (forall x, mute (k x)) -> mute (m_bind m k).
Proof.
  intros Hm Hk w. unfold m_bind. specialize (Hm w). destruct (m w) as [x w1]. cbn in Hm.
  by rewrite Hk.
Qed.

Lemma mute_modify f : mute (modify_store f).
Proof. done. Qed.

Lemma mute_write_action id f : mute (write_action id f).
Proof. done. Qed.

Lemma mute_run {A} (p : prog A) w : mute_prog p -> w_calls (run p w).2 = w_calls w.
Proof.
  revert w. induction p as [a|X m k IH]; intros w Hp; cbn [run]; [done|].
  destruct Hp as [Hm Hk]. specialize (Hm w). destruct (m w) as [x w1]. cbn in Hm.
  by rewrite IH, Hm.
Qed.

Lemma mute_pbind {A B} (p : prog A) (f : A -> prog B) :
  mute_prog p -> (forall a, mute_prog (f a)) -> mute_prog (pbind p f).
Proof. induction p as [a|X m k IH]; intros Hp Hf; cbn in *; [done|]. destruct Hp. auto. Qed.

Lemma mute_quiet_prog {A} (p : prog A) : quiet_prog p -> mute_prog p.
Proof.
  induction p as [a|X m k IH]; intros Hp; cbn in *; [done|]. destruct Hp as [Hm Hk].
  split; [by apply mute_quiet|]. auto.
Qed.

End Mute.

Create HintDb mute.
#[export] Hint Resolve mute_ret mute_modify mute_write_action : mute.
#[export] Hint Extern 5 (mute _) => apply mute_quiet; solve [auto with benign] : mute.

Ltac mute_step :=
  first
  [ solve [auto with mute]
  | apply mute_bind; [|intros ?]
  | match goal with
    | |- mute (match ?x with _ => _ end) => destruct x
    | |- mute (if ?x then _ else _) => destruct x
    end ].
Ltac mute := repeat mute_step.

(** Follows a program all of whose steps are mute. *)
Ltac mute_prog_step :=
  first
  [ done
  | apply mute_pbind; [|intros ?]
  | split; [solve [mute]|intros ?]
  | match goal with
    | |- mute_prog (match ?x with _ => _ end) => destruct x
    | |- mute_prog (if ?x then _ else _) => destruct x
    | |- mute_prog (let '(_, _) := ?x in _) => destruct x
    end ].
Ltac mute_prog_all := cbv zeta; repeat (mute_prog_step; cbv zeta).

Section MuteSpec.
Context `{RT : Runtime} `{JE : JevEnv} `{SE : Secrets} `{UP : UuidParse} `{NT : Net}.

Lemma mute_AddAction a : mute (AddAction a).
Proof. unfold AddAction. mute. Qed.
Lemma mute_UpdateAction a : mute (UpdateAction a).
Proof. unfold UpdateAction. mute. Qed.
Lemma mute_CreateApproval a : mute (CreateApproval a).
Proof. unfold CreateApproval. mute. Qed.
Lemma mute_DecideApproval o i b a : mute (DecideApproval o i b a).
Proof. unfold DecideApproval. mute. Qed.
Hint Resolve mute_AddAction mute_UpdateAction mute_CreateApproval mute_DecideApproval : mute.
Lemma mute_set_status i s : mute (set_status i s).
Proof. unfold set_status. mute. Qed.
Lemma mute_set_decision i s : mute (set_decision i s).
Proof. unfold set_decision. mute. Qed.
Lemma mute_update_cell i : mute (update_cell i).
Proof. unfold update_cell. mute. Qed.
Hint Resolve mute_set_status mute_set_decision mute_update_cell : mute.

Lemma mute_screen orgID txnID ag id d : mute_prog (screen orgID txnID ag id d).
Proof. unfold screen, jevScreenRisk, siblings. mute_prog_all. Qed.

Lemma mute_conclude orgID txnID agentID t amt id d : mute_prog (conclude orgID txnID agentID t amt id d).
Proof. unfold conclude. mute_prog_all. Qed.

Lemma mute_ProposeAction orgID txnID agentID tool action args idem :
  mute_prog (ProposeAction orgID txnID agentID tool action args idem).
Proof.
  unfold ProposeAction, decide_fresh, deny_authority, current_rules.
  mute_prog_all; first [apply mute_screen|apply mute_conclude].
Qed.

Lemma mute_Commit orgID txnID : mute_prog (Commit orgID txnID).
Proof. unfold Commit. mute_prog_all. Qed.

Lemma mute_Simulate orgID agentID tool action args : mute_prog (Simulate orgID agentID tool action args).
Proof. unfold Simulate, current_rules. mute_prog_all. Qed.

Lemma mute_Authenticate secret org : mute_prog (Authenticate secret org).
Proof. unfold Authenticate. mute_prog_all. Qed.

Lemma mute_Middleware {A} (next : option Identity -> prog A) r :
  (forall id, mute_prog (next id)) -> mute_prog (Middleware next r).
Proof.
  intros Hn. unfold Middleware. cbv zeta. destruct (open_path _); [by apply mute_pbind|].
  destruct (_ || _); [done|]. split; [mute|]. intros ok. destruct (negb ok); [done|].
  apply mute_pbind; [apply mute_Authenticate|]. intros [id|]; [by apply mute_pbind|done].
Qed.

Lemma served {A} (p : prog A) w : exists a, fst (run (let! a := p in Ret (Served a)) w) = Served a.
Proof. rewrite run_pbind. destruct (run p w) as [a w1]. by exists a. Qed.

Lemma rejected_mute {A} (next : option Identity -> prog A) r w code why :
  fst (run (Middleware next r) w) = Rejected code why ->
  w_calls (snd (run (Middleware next r) w)) = w_calls w.
Proof.
  unfold Middleware. cbv zeta. destruct (open_path _).
  { intros Hr. destruct (served (next None) w) as [a Ha]. congruence. }
  destruct (_ || _); [done|].
  match goal with |- context [Allow ?k] => set (limitKey := k) end.
  pose proof (unt_calls _ _ (quiet_Allow limitKey w)) as Hq.
  destruct (Allow limitKey w) as [ok w1] eqn:Ea. cbn [snd] in Hq. rewrite (run_atomic _ _ _ _ _ Ea).
  destruct (negb ok); [intros _; exact Hq|]. rewrite run_pbind.
  pose proof (mute_run (Authenticate (TrimPrefix (rq_Authorization r) "Bearer ") (rq_OrgHeader r)) w1
    (mute_Authenticate _ _)) as Hm.
  destruct (run (Authenticate _ _) w1) as [[id|] w2]; cbn [snd] in Hm; [|intros _; cbn; congruence].
  intros Hr. destruct (served (next (Some id)) w2) as [a Ha]. congruence.
Qed.

(** The two routes that call tools. *)
Definition calls_tools (rt : Route) : bool :=
  match rt with RActionSub _ | RReconcile _ => true | _ => false end.

(** C30: Only execution reaches the outside world.  A request to any route
    but "execute action" and "reconcile action" - proposing, also through the
    MCP proxy, deciding approvals, simulating, committing, registering
    servers, credentials or policies - makes no tool, compensator or
    reconciler call, whoever sends it and whatever it contains; nor does a
    request the middleware rejects. *)
Theorem only_execution_reaches_tools rt rq w :
  calls_tools rt = false \/
  (exists code why, fst (run (Middleware (route rt) rq) w) = Rejected code why) ->
  w_calls (snd (run (Middleware (route rt) rq) w)) = w_calls w.
Proof.
  intros [Hr|Hr].
  - apply mute_run, mute_Middleware. intros id. destruct rt; cbn [route]; try discriminate Hr;
      unfold handleRegisterAgent, handleCreateTxn, handleListTxns, handleGetTxn, handleProposeAction,
        handleListApprovals, handleDecideApproval, approve_action, abort_txn, handleListReceipts, handleAudit,
        handleListPolicies, handleCreateGrant, handleListGrants, handleRevokeGrant,
        handleRotateCredential, handleRevokeCredential, handleVerifyReceipts,
        handleVerifyReceipt, handleSimulatePolicy, handleCreatePolicySet, handleListPolicySets,
        handleActivatePolicySet, handleCommitTxn, handleRegisterMCPServer, handleListMCPServers,
        handleListMCPTools, handleMCPCall, handleListIntegrations, handleSetIntegrationCredential,
        handleSetHTTPDomains; mute_prog_all;
      first [apply mute_screen|apply mute_conclude|apply mute_Simulate|apply mute_Commit
            |apply mute_quiet_prog, quiet_prog_register_tools].
  - destruct Hr as (code & why & Hr). by eapply rejected_mute.
Qed.

(** ** The proxied call *)

(** The caller may propose this call, and the server offers the tool. *)
Definition call_admitted (id : option Identity) (b : MCPCallBody) (srv : MCPServer) : Prop :=
  (callerIsOperator id = true \/ cb_AgentID b = callerAgentID id) /\
  cb_TransactionID b <> "" /\ cb_IdempotencyKey b <> "" /\
  exists t, t ∈ ms_Tools srv /\ mt_Name t = cb_Tool b.

Lemma mute_handleMCPCall id b : mute_prog (handleMCPCall id b).
Proof. unfold handleMCPCall. mute_prog_all; first [apply mute_screen|apply mute_conclude]. Qed.

(** The call was proposed, or refused without effect. *)
Definition proxied (id : option Identity) (b : MCPCallBody) (w : World) (out : Response * World) : Prop :=
  (exists srv token r, fst (GetMCPServer (orgOf id) (cb_Server b) w) = Some (srv, token) /\
     call_admitted id b srv /\
     routed r (cb_Server b) (cb_Tool b) (ms_URL srv) token (default [] (ms_Classes srv !! cb_Tool b)) /\
     exists res, run (ProposeAction (orgOf id) (cb_TransactionID b) (cb_AgentID b) (ToolName (cb_Server b))
                   (cb_Tool b) (cb_Arguments b) (cb_IdempotencyKey b)) (w <| w_tools := r |>) = (res, snd out) /\
     match res with
     | Ok a => fst out = MkResponse 201 (BAction a)
     | Err _ err => fst out = MkResponse 400 (BError "propose_failed" (err_Error err))
     end) \/
  (snd out = w /\ 400 <= rs_Code (fst out) < 500).

(** C29: A proxied MCP call is a proposal like any other.  handleMCPCall calls
    no tool; it answers 201 only for a caller that acts as itself or an
    operator, with an idempotency key, for a tool in the catalog of a server
    of the caller's own organization, and then its answer and effect are
    those of ProposeAction for tool "mcp:<server>" in the same world with
    that tool routed to the server's URL and token under the operator's
    classes; when admission fails the world is as before. *)
Theorem mcp_call_governed id b w :
  let out := run (handleMCPCall id (Some b)) w in
  w_calls (snd out) = w_calls w /\ proxied id b w out.
Proof.
  pose proof (mute_run _ w (mute_handleMCPCall id (Some b))) as Hm.
  cbv zeta. split; [exact Hm|]. clear Hm. unfold handleMCPCall. cbv zeta.
  destruct (_ || _) eqn:E1; [right; cbn; split; [done|lia]|].
  destruct (String.eqb (cb_IdempotencyKey b) "") eqn:E2; [right; cbn; split; [done|lia]|].
  destruct (agent_mismatch id (cb_AgentID b)) eqn:E3; [right; cbn; split; [done|lia]|].
  destruct (GetMCPServer (orgOf id) (cb_Server b) w) as [e w0] eqn:Eg.
  assert (w0 = w) as ->.
  { unfold GetMCPServer, m_bind, get_store in Eg. destruct (st_mcpServers (w_store w) !! _); cbn in Eg; by injection Eg. }
  rewrite (run_atomic _ _ _ _ _ Eg).
  destruct e as [[srv token]|]; [|right; cbn; split; [done|lia]].
  destruct (any (fun t => String.eqb (mt_Name t) (cb_Tool b)) (ms_Tools srv)) eqn:E4; cbn [negb];
    [|right; cbn; split; [done|lia]].
  set (r := Register (ToolName (cb_Server b)) (cb_Tool b) (default [] (ms_Classes srv !! cb_Tool b))
    (Some (HandlerFor (ms_URL srv) token (cb_Tool b))) None (w_tools w)).
  rewrite (run_atomic _ _ w tt (w <| w_tools := r |>)) by (by destruct w).
  rewrite run_pbind.
  destruct (run (ProposeAction _ _ _ _ _ _ _) _) as [out w'] eqn:Er.
  left. exists srv, token, r. rewrite Eg. split; [done|]. split; [|split; [apply routed_Register|]].
  - apply orb_false_iff in E1 as [E1 _]. apply orb_false_iff in E1 as [E1 _].
    unfold call_admitted, agent_mismatch in *. apply String.eqb_neq in E1, E2.
    split; [|split; [done|split; [done|]]].
    + apply andb_false_iff in E3 as [E3|E3]; apply negb_false_iff in E3; [by left|right; by apply String.eqb_eq].
    + apply any_true in E4 as (t & Ht & E). exists t. split; [done|]. by apply String.eqb_eq.
  - exists out. rewrite Er. split; by destruct out.
Qed.

End MuteSpec.
