(* ===== verification/IntegrationFlow.v ===== *)
(** * IntegrationFlow: from the operator's configuration to the live handler

    The handlers of api/integrations.go, the store, the key provider and the
    tool handlers composed. *)

From Stdlib Require Import Ascii.
From S2P Require Export MuteSpec IntegrationSpec LocalKeys.

Open Scope Z_scope.

Section Flow.
Context `{RL : RuntimeLaws} `{JE : JevEnv} `{SE : Secrets} `{UP : UuidParse} `{NT : Net}.

(** ** The HTTP allowlist *)

Lemma secrets_config s1 s2 orgID name :
  secrets_of s1 = secrets_of s2 -> config_in s1 orgID name = config_in s2 orgID name.
Proof. unfold secrets_of, config_in. intros H. injection H as _ H _. by rewrite H. Qed.

Lemma secrets_credential s1 s2 orgID name :
  secrets_of s1 = secrets_of s2 -> credential_in s1 orgID name = credential_in s2 orgID name.
Proof.
  unfold secrets_of, credential_in, open_in. intros H. injection H as H1 _ H3. by rewrite H1, H3.
Qed.

Lemma run_set_domains id b w :
  rs_Code (fst (run (handleSetHTTPDomains id (Some b)) w)) = 201 ->
  exists clean methods, rs_Body (fst (run (handleSetHTTPDomains id (Some b)) w)) = BAllowlist clean methods /\
    callerIsOperator id = true /\ clean <> [] /\
    config_in (w_store (snd (run (handleSetHTTPDomains id (Some b)) w))) (orgOf id) "http" =
      Some {[ "domains" := VStrings clean; "methods" := VStrings methods ]}.
Proof.
  unfold handleSetHTTPDomains. destruct (callerIsOperator id); cbn [negb]; [|done].
  destruct (hb_Domains b) as [|d ds]; [done|].
  destruct (clean_domains (d :: ds)) as [clean|] eqn:Ec; [|done]. cbv zeta.
  set (methods := match hb_Methods b with [] => _ | l => l end).
  destruct (List.find _ methods); [done|]. intros _. exists clean, methods.
  split; [done|]. split; [done|]. split.
  - intros ->. cbn in Ec. destruct (negb _); [done|]. by destruct (clean_domains ds).
  - cbn. unfold config_in. cbn. by rewrite lookup_insert_eq.
Qed.

(** With no domain allowed, a call is refused. *)
Lemma no_domains_refused (N : Net) st n a methods :
  http_lists (config_in st (a_OrgID a) "http") = ([], methods) ->
  exists msg, httpRequestHandler (NT := N) st n a = inr (ErrPlain msg).
Proof.
  intros Hl. unfold httpRequestHandler. rewrite Hl.
  destruct (negb _); [by eexists|]. destruct (strArg _ ["url"]) as [raw|]; [|by eexists].
  destruct (url_Parse raw) as [u|]; [|by eexists].
  destruct (negb _ && negb _ || _); [by eexists|].
  change (domainAllowed _ []) with false. by eexists.
Qed.

Lemma no_domains_silent (N : Net) st n a methods :
  http_lists (config_in st (a_OrgID a) "http") = ([], methods) ->
  forall f, httpRequestHandler (NT := with_http N f) st n a = httpRequestHandler (NT := N) st n a.
Proof.
  intros Hl f. unfold httpRequestHandler. rewrite Hl. cbn [with_http ToUpper url_Parse].
  destruct (negb _); [done|]. destruct (strArg _ ["url"]) as [raw|]; [|done].
  destruct (url_Parse raw) as [u|]; [|done]. by destruct (negb _ && negb _ || _).
Qed.

(** On the memory store the HTTP allowlist never takes effect.  After
    the handler accepted an allowlist with 201, every http.request of that
    organization is still refused, for every URL and method and without a
    request being sent, as if no domain had been allowed: the list is stored
    with a type the tool's reader does not accept. *)
Theorem http_allowlist_ignored id b w st n a :
  rs_Code (fst (run (handleSetHTTPDomains id (Some b)) w)) = 201 ->
  secrets_of st = secrets_of (w_store (snd (run (handleSetHTTPDomains id (Some b)) w))) ->
  a_OrgID a = orgOf id ->
  exists msg, forall f, httpRequestHandler (NT := with_http NT f) st n a = inr (ErrPlain msg).
Proof.
  intros Hcode Hst Ho. apply run_set_domains in Hcode as (clean & methods & _ & _ & _ & Hcfg).
  assert (Hl : http_lists (config_in st (a_OrgID a) "http") = ([], ["GET"; "HEAD"])).
  { rewrite Ho, (secrets_config _ _ _ _ Hst), Hcfg. unfold http_lists. by simplify_map_eq. }
  destruct (no_domains_refused NT st n a _ Hl) as [msg Hmsg]. exists msg. intros f.
  by rewrite <- Hmsg, (no_domains_silent NT st n a _ Hl f).
Qed.

(** ** Credentials *)

Context `{CL : CryptoLaws}.

(** What the store writes for a secret, and when it reads it back. *)
Lemma kept_sealed m p persistent k secret : Load m = Some (p, persistent) ->
  Seal p k secret = Some (default secret (Seal p k secret)) \/
  rand_nonce k = None /\ default secret (Seal p k secret) = secret.
Proof.
  intros Hload. destruct (Seal p k secret) as [sealed|] eqn:Es; [by left|right].
  split; [exact (Seal_fails _ _ _ _ _ Hload Es)|done].
Qed.

Lemma kept_opens p k secret : secret <> "" -> Seal p k secret <> None \/ HasPrefix secret "v1:" = false ->
  default secret (Seal p k secret) <> "" /\ Open_ p (default secret (Seal p k secret)) = Some secret.
Proof.
  intros Hne Hk. destruct (Seal p k secret) as [sealed|] eqn:Es; cbn.
  - split; [|by eapply Open_Seal]. intros ->. by apply Seal_marked in Es.
  - split; [done|]. destruct Hk as [[]|Hv]; [done|]. unfold Open_. by rewrite Hv.
Qed.

(** Only GitHub secrets are free to begin with the mark of sealed text. *)
Lemma accepted_unmarked name secret : CredentialNames name = true -> secret_refused name secret = None ->
  name = "github" \/ HasPrefix secret "v1:" = false.
Proof.
  unfold CredentialNames, secret_refused. intros Hn Hr.
  destruct (HasPrefix secret "v1:") eqn:Hv; [left|by right]. apply HasPrefix_inv in Hv as [rest ->].
  destruct (String.eqb name "stripe") eqn:Es; [discriminate Hr|]. destruct (String.eqb name "postgres") eqn:Ep; [discriminate Hr|].
  apply String.eqb_eq. by destruct (String.eqb name "github").
Qed.

(** C34: A credential an operator stores reaches the handlers that need it.
    With the key provider the server loads, a secret accepted with 201 is
    from an operator; what is stored for it, and nothing else of the
    credentials changes, is what the provider sealed it to, or the secret
    itself where the draw of a nonce failed; the live handlers of that
    organization read back exactly the secret, with one exception: a GitHub
    secret that begins with the mark of sealed text, "v1:", and was stored
    unsealed because the draw failed; and a Stripe secret is never a live key
    and is one the Stripe handlers accept.  A request that is not answered 201
    changes nothing. *)
Theorem stored_credential_reaches_handler m p persistent id name secret w :
  Load m = Some (p, persistent) -> st_keyProvider (w_store w) = Some (provider_of p) ->
  let '(resp, w') := run (handleSetIntegrationCredential id name (Some secret)) w in
  if rs_Code resp =? 201 then
    callerIsOperator id = true /\
    (exists sealed,
       st_integCreds (w_store w') = <[ orgOf id +:+ "|" +:+ name := sealed ]> (st_integCreds (w_store w)) /\
       (Seal p (w_tick w) secret = Some sealed \/ rand_nonce (w_tick w) = None /\ sealed = secret)) /\
    ((forall st, secrets_of st = secrets_of (w_store w') -> cred name st (orgOf id) = Some secret) \/
     rand_nonce (w_tick w) = None /\ name = "github" /\ HasPrefix secret "v1:" = true) /\
    (name = "stripe" -> HasPrefix secret "sk_live" = false /\ stripeKey secret = inl secret)
  else w' = w.
Proof.
  intros Hload Hp. unfold handleSetIntegrationCredential.
  destruct (callerIsOperator id); cbn [negb]; [|done].
  destruct (CredentialNames name) eqn:Ename; cbn [negb]; [|done]. cbv zeta. cbn [default]. change (Datatypes.id secret) with secret.
  destruct (String.eqb_spec secret "") as [_|Hne]; [done|].
  destruct (secret_refused name secret) as [[msg why]|] eqn:Er; [done|].
  pose proof (kept_sealed m p persistent (w_tick w) secret Hload) as Hkept.
  pose proof (kept_opens p (w_tick w) secret Hne) as Hopen.
  assert (Eset : SetIntegrationCredential (orgOf id) name secret w =
    (true, w <| w_tick ::= S |> <| w_store ::= fun s => s <| st_integCreds ::=
       <[ orgOf id +:+ "|" +:+ name := default secret (Seal p (w_tick w) secret) ]> |> |>)).
  { unfold SetIntegrationCredential, sealLocked. rewrite (proj2 (String.eqb_neq _ _) Hne).
    cbn. rewrite Hp. by destruct w. }
  rewrite (run_atomic _ _ _ _ _ Eset). cbn [negb]. rewrite run_emitted. cbn [run fst rs_Code Z.eqb Pos.eqb].
  clear Eset. revert Hkept Hopen. generalize (default secret (Seal p (w_tick w) secret)) as sealed. intros sealed Hkept Hopen.
  split; [done|]. split; [exists sealed; by split|]. split.
  - assert (Hread : Seal p (w_tick w) secret <> None \/ HasPrefix secret "v1:" = false ->
      forall st, secrets_of st = secrets_of ((w_store w) <| st_integCreds ::= <[ orgOf id +:+ "|" +:+ name := sealed ]> |>) ->
        cred name st (orgOf id) = Some secret).
    { intros Hk st Hst. destruct (Hopen Hk) as [Hn Ho]. unfold cred. rewrite (secrets_credential _ _ _ _ Hst).
      unfold credential_in, open_in. cbn. rewrite lookup_insert_eq. cbn. rewrite Hp. cbn [kp_Open provider_of].
      by rewrite (proj2 (String.eqb_neq _ _) Hn). }
    destruct Hkept as [Hs|[Hr _]]; [left; apply Hread; left; by rewrite Hs|].
    destruct (HasPrefix secret "v1:") eqn:Ev; [|left; apply Hread; by right].
    right. split; [done|]. split; [|done]. destruct (accepted_unmarked name secret Ename Er); congruence.
  - intros ->. unfold secret_refused in Er. cbn in Er. unfold stripeKey.
    destruct (HasPrefix secret "sk_live"); [done|]. by destruct (negb _).
Qed.

End Flow.
