(* ===== verification/Serial.v ===== *)
(** * Serial: requests served one after another execute at most once

    [once] is the invariant of worlds in which no two programs overlap: an
    action whose tool was called is past execution, was called once, and no
    pending approval refers to it. *)

From S2P Require Export ApprovalSpec SafetyServer.

Open Scope Z_scope.

(** The actions tools were called for, in order. *)
Definition executed_ids (w : World) : list string :=
  omap (fun c => match c with CallExecute a => Some (a_ID a) | _ => None end) (w_calls w).

(** Statuses after a call. *)
Definition final (st : ActionStatus) : bool :=
  match st with
  | StExecuted | StUnknown | StFailed | StCompensated | StCompensationFailed => true
  | _ => false
  end.

Record once (w : World) : Prop := {
  once_final : forall id, id ∈ executed_ids w ->
    exists a, st_actions (w_store w) !! id = Some a /\ final (a_Status a) = true;
  once_nodup : NoDup (executed_ids w);
  once_pending : forall i ap, st_approvals (w_store w) !! i = Some ap -> ap_Status ap = ApPending ->
    exists id a, ap_ActionID ap = Some id /\ st_actions (w_store w) !! id = Some a /\
      a_Status a = StAwaitingApproval;
  once_unique : forall i j ap ap', st_approvals (w_store w) !! i = Some ap ->
    st_approvals (w_store w) !! j = Some ap' -> ap_Status ap = ApPending ->
    ap_Status ap' = ApPending -> ap_ActionID ap = ap_ActionID ap' -> i = j }.

Section Serial.
Context `{RL : RuntimeLaws} `{JE : JevEnv} `{SE : Secrets} `{UP : UuidParse} `{NT : Net}.

(** [once] depends on actions, approvals and calls only. *)
Lemma once_ext w w' :
  st_actions (w_store w') = st_actions (w_store w) ->
  st_approvals (w_store w') = st_approvals (w_store w) ->
  executed_ids w' = executed_ids w -> once w -> once w'.
Proof. intros Ha Hp Hc [F N P U]. split; rewrite ?Ha, ?Hp, ?Hc; done. Qed.

Lemma once_untouched w w' : untouched w w' -> once w -> once w'.
Proof.
  intros [Ha _ Hp _ _ Hc _ _ _]. apply once_ext; [done|done|]. unfold executed_ids. by rewrite Hc.
Qed.

(** ** Programs that keep the invariant *)

Definition stays_once {A} (p : prog A) : Prop := forall w, inv w -> once w -> once (run p w).2.

Lemma keeps_ret {A} (x : A) : stays_once (Ret x).
Proof. by intros w _ Ho. Qed.

Lemma keeps_quiet {X A} (m : M X) (k : X -> prog A) :
  quiet m -> (forall x, stays_once (k x)) -> stays_once (Atomic m k).
Proof.
  intros Hm Hk w Hi Ho. specialize (Hm w). cbn [run]. destruct (m w) as [x w1]. cbn in Hm.
  apply Hk; [by eapply untouched_inv|by eapply once_untouched].
Qed.


Lemma quiet_keeps {A} (p : prog A) : quiet_prog p -> stays_once p.
Proof. intros Hp w _ Ho. eapply once_untouched; [by apply quiet_run|done]. Qed.

Lemma keeps_pbind {A B} (p : prog A) (f : A -> prog B) :
  quiet_prog p -> (forall a, stays_once (f a)) -> stays_once (pbind p f).
Proof.
  intros Hp Hf w Hi Ho. rewrite run_pbind. pose proof (quiet_run p w Hp) as Hu.
  destruct (run p w) as [a w1]. cbn in Hu.
  apply Hf; [by eapply untouched_inv|by eapply once_untouched].
Qed.

Lemma keeps_then {A B} (p : prog A) (f : A -> prog B) :
  stays_once p -> (forall a, quiet_prog (f a)) -> stays_once (pbind p f).
Proof.
  intros Hp Hf w Hi Ho. rewrite run_pbind. specialize (Hp w Hi Ho).
  destruct (run p w) as [a w1]. cbn in Hp |- *.
  eapply once_untouched; [by apply quiet_run|done].
Qed.


(** ** Execution *)

Lemma executed_ids_app w w' cs :
  w_calls w' = w_calls w ++ cs -> executed_ids w' = executed_ids w ++
    omap (fun c => match c with CallExecute a => Some (a_ID a) | _ => None end) cs.
Proof. intros Hc. unfold executed_ids. by rewrite Hc, omap_app. Qed.

(** A call for an action that is not final and waits for no approval. *)
Lemma once_executes orgID a w out :
  st_actions (w_store w) !! a_ID a = Some a -> final (a_Status a) = false ->
  a_Status a <> StAwaitingApproval -> executes orgID a w out -> once w -> once out.2.
Proof.
  intros Ha Hf Hw (st & n & ms & _ & _ & Hc & Hact & Hap & _) [F N P U].
  set (a' := outcome_cell _ _ _) in *.
  assert (Hf' : final (a_Status a') = true).
  { unfold a', outcome_cell. destruct (Execute _ _ _ _) as [res|err]; [done|].
    by destruct (as_uncertain err). }
  assert (Hnot : a_ID a ∉ executed_ids w).
  { intros Hin. destruct (F _ Hin) as (c & Hcell & Hfin). rewrite Ha in Hcell.
    injection Hcell as <-. congruence. }
  pose proof (executed_ids_app w out.2 _ Hc) as Hids. cbn in Hids. split.
  - intros id Hin. rewrite Hids in Hin. rewrite Hact.
    destruct (decide (a_ID a = id)) as [<-|Hne]; [exists a'; by rewrite lookup_insert_eq|].
    rewrite lookup_insert_ne by done. apply F. apply elem_of_app in Hin as [Hin|Hin]; [done|].
    by apply list_elem_of_singleton in Hin as ->.
  - rewrite Hids. apply NoDup_app. split; [done|]. split; [|apply NoDup_singleton].
    intros x Hx Hx'. apply list_elem_of_singleton in Hx' as ->. done.
  - rewrite Hap, Hact. intros i ap Hi Hpend. destruct (P i ap Hi Hpend) as (id & c & Hid & Hcell & Hs).
    exists id, c. rewrite lookup_insert_ne; [done|]. intros <-. rewrite Ha in Hcell.
    injection Hcell as <-. done.
  - rewrite Hap. exact U.
Qed.

Lemma GetAction_cases orgID id w :
  inv w ->
  GetAction orgID id w = (None, w) \/
  exists a, GetAction orgID id w = (Some a, w) /\
    st_actions (w_store w) !! a_ID a = Some a /\ a_OrgID a = orgID /\ a_ID a = id.
Proof.
  intros Hi. unfold GetAction, m_bind, get_store, m_ret.
  destruct (st_actions (w_store w) !! id) as [a|] eqn:Ea; cbn; [|by left].
  destruct (String.eqb (a_OrgID a) orgID) eqn:Eo; [|by left]. bool_guards.
  destruct (inv_cells _ Hi _ _ Ea) as (Hid & _). right. exists a. by rewrite Hid.
Qed.

Lemma keeps_ExecuteAllowed orgID id : stays_once (ExecuteAllowed orgID id).
Proof.
  intros w Hi Ho. unfold ExecuteAllowed.
  destruct (GetAction_cases orgID id w Hi) as [Eg|(a & Eg & Ha & Horg & _)];
    rewrite (run_atomic _ _ _ _ _ Eg); [done|]. destruct (bool_decide (a_Status a = StExecuted)); [done|].
  destruct (bool_decide (a_Status a = StUnknown)); [done|].
  destruct (negb (match a_Decision a with Some d => is_allow (d_Effect d) | None => false end)) eqn:Ed; [done|].
  destruct (_ && _) eqn:Es; [done|]. apply negb_false_iff in Ed.
  assert (Hst : a_Status a = StAllowed \/ a_Status a = StApproved).
  { apply andb_false_iff in Es as [Es|Es]; apply negb_false_iff, bool_decide_eq_true in Es; auto. }
  eapply (once_executes orgID a); [exact Ha|by destruct Hst as [->| ->]|by destruct Hst as [->| ->]| |done].
  apply run_run_action; [done|]. by destruct (a_Decision a).
Qed.

Lemma keeps_RunApproved orgID id : stays_once (RunApproved orgID id).
Proof.
  intros w Hi Ho. unfold RunApproved.
  destruct (GetAction_cases orgID id w Hi) as [Eg|(a & Eg & Ha & Horg & _)];
    rewrite (run_atomic _ _ _ _ _ Eg); [done|]. destruct (bool_decide (a_Status a = StExecuted)); [done|].
  destruct (bool_decide (a_Status a = StApproved)) eqn:Es; cbn [negb]; [|done]. bool_guards.
  eapply (once_executes orgID a); [exact Ha|by rewrite Es|by rewrite Es| |done].
  apply run_run_action; [done|].
  destruct (inv_cells _ Hi _ _ Ha) as (_ & _ & Hok). unfold cell_ok in Hok. rewrite Es in Hok.
  destruct Hok as [(d & -> & _) _]. done.
Qed.

(** ** Writes of cells past their call *)

Lemma once_write id c a' w w' :
  st_actions (w_store w) !! id = Some c -> final (a_Status c) = true -> final (a_Status a') = true ->
  st_actions (w_store w') = <[ id := a' ]> (st_actions (w_store w)) ->
  st_approvals (w_store w') = st_approvals (w_store w) ->
  executed_ids w' = executed_ids w -> once w -> once w'.
Proof.
  intros Hc Hf Hf' Ha Hp Hx [F N P U]. split; rewrite ?Hx, ?Hp, ?Ha; [|exact N| |exact U].
  1: { intros i Hin. destruct (decide (id = i)) as [<-|Hne];
         [exists a'; by rewrite lookup_insert_eq|rewrite lookup_insert_ne by done; auto]. }
  intros i ap Hi Hpend. destruct (P i ap Hi Hpend) as (j & b & Hj & Hb & Hs).
  exists j, b. rewrite lookup_insert_ne; [done|]. intros <-. rewrite Hc in Hb. injection Hb as <-.
  by rewrite Hs in Hf.
Qed.

Lemma keeps_Reconcile orgID id : stays_once (Reconcile orgID id).
Proof.
  intros w Hi Ho.
  destruct (GetAction_cases orgID id w Hi) as [Eg|(a & Eg & Ha & Horg & Hid)].
  { unfold Reconcile. by rewrite (run_atomic _ _ _ _ _ Eg). }
  subst id. destruct (bool_decide (a_Status a = StUnknown)) eqn:Es.
  2: { unfold Reconcile. rewrite (run_atomic _ _ _ _ _ Eg), Es. done. }
  assert (Hd : a_Decision a <> None).
  { destruct (inv_cells _ Hi _ _ Ha) as (_ & _ & Hok). bool_guards. unfold cell_ok in Hok.
    rewrite Es in Hok. destruct Hok as [(d & -> & _) _]. done. }
  pose proof (run_Reconcile orgID w a Ha Horg Hd) as H. cbv zeta in H. rewrite Es in H.
  revert H. unfold reconciles. destruct (ReconcilerFor _ _ _) as [rec|].
  2: { intros [_ Hv]. apply xview_eq in Hv as (Hact & _ & _ & Hc & _ & _ & Hp).
       apply (once_ext w); [done|done| |done]. unfold executed_ids. by rewrite Hc. }
  intros (Hc & Hp & n & Hout).
  assert (Hx : executed_ids (run (Reconcile orgID (a_ID a)) w).2 = executed_ids w).
  { rewrite (executed_ids_app w _ _ Hc). apply app_nil_r. }
  destruct (rec (w_store w) n a) as [[found result]|err].
  - destruct Hout as (_ & Hact & _). bool_guards.
    apply (once_write (a_ID a) a (reconciled_cell a found result) w); [exact Ha|by rewrite Es| |done..].
    by destruct found.
  - destruct Hout as (_ & Hact & _). by apply (once_ext w).
Qed.

(** ** Proposals *)

Lemma once_new orgID txnID agentID t a d w w' :
  st_actions (w_store w) !! a_ID a = None -> proposed orgID txnID agentID t a d w w' -> once w -> once w'.
Proof.
  intros Hnew (Hd & Hs & Hc & Hact & Hap) [F N P U].
  assert (Hx : executed_ids w' = executed_ids w) by (unfold executed_ids; by rewrite Hc).
  assert (Hold : forall i ap, st_approvals (w_store w) !! i = Some ap -> ap_Status ap = ApPending ->
    exists id b, ap_ActionID ap = Some id /\ st_actions (w_store w') !! id = Some b /\
      a_Status b = StAwaitingApproval /\ id <> a_ID a).
  { intros i ap Hi Hpend. destruct (P i ap Hi Hpend) as (id & b & Hid & Hb & Hst).
    assert (id <> a_ID a) by congruence. exists id, b. rewrite Hact, lookup_insert_ne by done. done. }
  assert (Hfin : forall id, id ∈ executed_ids w' ->
    exists b, st_actions (w_store w') !! id = Some b /\ final (a_Status b) = true).
  { rewrite Hx. intros id Hin. destruct (F id Hin) as (b & Hb & Hf). exists b.
    rewrite Hact, lookup_insert_ne by congruence. done. }
  destruct (bool_decide (d_Effect d = EffectRequireApproval)) eqn:Ee.
  2: { destruct Hap as [Hap _]. split; [exact Hfin|by rewrite Hx| |by rewrite Hap].
       rewrite Hap. intros i ap Hi Hpend. destruct (Hold i ap Hi Hpend) as (id & b & ? & ? & ? & _).
       by exists id, b. }
  destruct Hap as (i0 & at1 & at2 & Hap & _). bool_guards. split; [exact Hfin|by rewrite Hx| |].
  - rewrite Hap. intros i ap Hi Hpend. apply lookup_insert_Some in Hi as [[<- <-]|[Hne Hi]].
    + exists (a_ID a), a. rewrite Hact, lookup_insert_eq. split; [done|]. split; [done|].
      by rewrite Hs, Ee.
    + destruct (Hold i ap Hi Hpend) as (id & b & ? & ? & ? & _). by exists id, b.
  - rewrite Hap. intros i j ap ap' Hi Hj Hpi Hpj Heq.
    apply lookup_insert_Some in Hi as [[<- <-]|[Hne Hi]];
      apply lookup_insert_Some in Hj as [[<- <-]|[Hne' Hj]]; [done| | |exact (U i j ap ap' Hi Hj Hpi Hpj Heq)].
    + destruct (Hold j ap' Hj Hpj) as (id & b & Hid & _ & _ & Hnid). cbn in Heq. congruence.
    + destruct (Hold i ap Hi Hpi) as (id & b & Hid & _ & _ & Hnid). cbn in Heq. congruence.
Qed.

Lemma keeps_ProposeAction orgID txnID agentID tool action args key :
  stays_once (ProposeAction orgID txnID agentID tool action args key).
Proof.
  intros w Hi Ho. unfold ProposeAction. rewrite (run_atomic _ _ w _ w (run_GetTxn _ _ _)).
  destruct (st_txns (w_store w) !! txnID) as [t|] eqn:Et; [|done]. cbn [mbind option_bind].
  destruct (String.eqb (t_OrgID t) orgID) eqn:Eto; [|done]. bool_guards.
  destruct (is_terminal (t_Status t)); [done|].
  rewrite (run_atomic (GetAgent orgID agentID) _ w (fst (GetAgent orgID agentID w)) w eq_refl).
  destruct (fst (GetAgent orgID agentID w)) as [ag|]; [|done].
  rewrite (run_atomic get_tools _ w (w_tools w) w eq_refl).
  fold (request orgID txnID tool action args key (w_tools w)).
  set (rq := request orgID txnID tool action args key (w_tools w)).
  destruct (prev_action (w_store w) (idemKey rq)) as [prev|] eqn:Ep.
  - rewrite (run_atomic _ _ _ _ _ (run_AddAction_dup rq w prev Ep)), run_emitted.
    by apply (once_ext w).
  - rewrite (run_atomic _ _ _ _ _ (run_AddAction_fresh rq w Ep eq_refl)).
    set (c := new_cell rq w).
    pose proof (fresh_action w Hi) as Hf.
    edestruct (run_decide_fresh orgID txnID agentID tool action t ag (a_ID c) (with_cell c w) c)
      as (d & w' & Hrun & Hprop & _); [cbn; by rewrite lookup_insert_eq|done|done|done|].
    change (a_AmountCents c) with (extractCents args) in Hrun. rewrite Hrun.
    refine (once_new _ _ _ _ _ _ _ _ _ (proposed_with_cell _ _ _ _ _ _ c _ _ _ Hprop) Ho);
      [exact Hf|reflexivity].
Qed.

(** ** Human decisions *)

Lemma DecideApproval_cases orgID i by_ approve w :
  DecideApproval orgID i by_ approve w = (None, w) \/
  exists ap w', let ap' := ap <| ap_Status := if approve : bool then ApApproved else ApDenied |>
    <| ap_DecidedBy := by_ |> <| ap_DecidedAt := Some (clock (w_tick w)) |> in
    st_approvals (w_store w) !! i = Some ap /\ ap_Status ap = ApPending /\
    DecideApproval orgID i by_ approve w = (Some ap', w') /\
    st_actions (w_store w') = st_actions (w_store w) /\ w_calls w' = w_calls w /\
    st_approvals (w_store w') = <[ i := ap' ]> (st_approvals (w_store w)).
Proof.
  destruct (st_approvals (w_store w) !! i) as [ap|] eqn:Ei.
  2: { left. unfold DecideApproval, m_bind, get_store. by rewrite Ei. }
  destruct (decide (ap_OrgID ap = orgID /\ ap_Status ap = ApPending)) as [[Ho Hs]|Hn].
  - right. exists ap. eexists. split; [done|]. split; [done|].
    split; [by apply run_DecideApproval|done].
  - left. unfold DecideApproval, m_bind, get_store. rewrite Ei.
    destruct (String.eqb_spec (ap_OrgID ap) orgID) as [Ho|]; cbn [negb orb]; [|done].
    destruct (bool_decide (ap_Status ap = ApPending)) eqn:Es; [|done]. bool_guards. by destruct Hn.
Qed.

(** A decided approval leaves the pending ones. *)
Lemma once_decided i ap ap' w w' :
  st_approvals (w_store w) !! i = Some ap -> ap_Status ap = ApPending -> ap_Status ap' <> ApPending ->
  st_actions (w_store w') = st_actions (w_store w) -> w_calls w' = w_calls w ->
  st_approvals (w_store w') = <[ i := ap' ]> (st_approvals (w_store w)) ->
  once w -> once w' /\ (forall j b, st_approvals (w_store w') !! j = Some b -> ap_Status b = ApPending ->
    ap_ActionID b <> ap_ActionID ap).
Proof.
  intros Hi Hs Hs' Ha Hc Hp [F N P U].
  assert (Hx : executed_ids w' = executed_ids w) by (unfold executed_ids; by rewrite Hc).
  assert (Hold : forall j b, st_approvals (w_store w') !! j = Some b -> ap_Status b = ApPending ->
    i <> j /\ st_approvals (w_store w) !! j = Some b).
  { rewrite Hp. intros j b Hj Hb. by apply lookup_insert_Some in Hj as [[_ <-]|]. }
  split.
  - split; rewrite ?Hx, ?Ha; [exact F|exact N| |].
    + intros j b Hj Hb. destruct (Hold j b Hj Hb) as [_ Hj0]. by apply (P j).
    + intros j k b b' Hj Hk Hb Hb'. destruct (Hold j b Hj Hb) as [_ Hj0].
      destruct (Hold k b' Hk Hb') as [_ Hk0]. by apply U.
  - intros j b Hj Hb Heq. destruct (Hold j b Hj Hb) as [Hne Hj0]. apply Hne. by apply (U i j ap b).
Qed.

Lemma GetAction_shape orgID id w :
  GetAction orgID id w = (None, w) \/
  exists a, GetAction orgID id w = (Some a, w) /\ st_actions (w_store w) !! id = Some a.
Proof.
  unfold GetAction, m_bind, get_store, m_ret.
  destruct (st_actions (w_store w) !! id) as [a|] eqn:Ea; cbn; [|by left].
  destruct (String.eqb (a_OrgID a) orgID); [right; by exists a|by left].
Qed.

(** An action that waits and that no pending approval refers to may be
    approved. *)
Lemma once_approved id c a' w w' :
  st_actions (w_store w) !! id = Some c -> final (a_Status c) = false ->
  (forall j b, st_approvals (w_store w) !! j = Some b -> ap_Status b = ApPending ->
     ap_ActionID b <> Some id) ->
  st_actions (w_store w') = <[ id := a' ]> (st_actions (w_store w)) ->
  st_approvals (w_store w') = st_approvals (w_store w) -> w_calls w' = w_calls w -> once w -> once w'.
Proof.
  intros Hc Hf Hno Ha Hp Hcl [F N P U].
  assert (Hx : executed_ids w' = executed_ids w) by (unfold executed_ids; by rewrite Hcl).
  split; rewrite ?Hx, ?Hp, ?Ha; [|exact N| |exact U].
  - intros i Hin. destruct (F i Hin) as (b & Hb & Hfb). exists b.
    rewrite lookup_insert_ne; [done|]. intros <-. rewrite Hc in Hb. injection Hb as <-. congruence.
  - intros i ap Hi Hpend. destruct (P i ap Hi Hpend) as (j & b & Hj & Hb & Hs). exists j, b.
    rewrite lookup_insert_ne; [done|]. intros <-. by destruct (Hno i ap Hi Hpend).
Qed.

Lemma quiet_prog_move orgID tid f :
  quiet_prog (let@ t := GetTxn orgID tid in
    match t with
    | None => Ret tt
    | Some t => let@ _ := SetTxnStatus orgID (t_ID (f t)) (t_Status (f t)) in Ret tt
    end).
Proof.
  split; [auto with benign|]. intros [t|]; [|done]. split; [auto with benign|done].
Qed.

Lemma once_approve_action orgID ap id c w :
  st_actions (w_store w) !! id = Some c -> a_ID c = id -> final (a_Status c) = false ->
  (forall j b, st_approvals (w_store w) !! j = Some b -> ap_Status b = ApPending ->
     ap_ActionID b <> Some id) ->
  once w -> once (run (approve_action orgID ap id) w).2.
Proof.
  intros Hc Hid Hf Hno Ho. unfold approve_action.
  destruct (GetAction_shape orgID id w) as [Eg|(a & Eg & Ha)]; rewrite (run_atomic _ _ _ _ _ Eg); [done|].
  rewrite Hc in Ha. injection Ha as <-.
  destruct (run_update_copy (c <| a_Status := StApproved |>) w c) as (w1 & Hu & _ & Hv); [by rewrite <- Hid in Hc|].
  rewrite (run_atomic _ _ _ _ _ Hu). apply view_eq in Hv as (Ha1 & Hp1 & _ & _ & _ & _ & Hc1).
  eapply once_untouched; [apply quiet_run, quiet_prog_move|].
  eapply (once_approved id c); [done|done|exact Hno| |done|done|done].
  rewrite Ha1. cbn. by rewrite Hid.
Qed.

Lemma keeps_handleDecideApproval id post path b : stays_once (handleDecideApproval id post path b).
Proof.
  unfold handleDecideApproval. destruct (callerIsOperator id); cbn [negb]; [|by apply keeps_ret].
  destruct (Split _ _) as [|i [|verb [|]]]; try by apply keeps_ret.
  destruct (_ || _); [by apply keeps_ret|]. cbv zeta. set (bb := default _ b). set (by_ := if _ : bool then _ else _).
  intros w Hi Ho.
  destruct (DecideApproval_cases (orgOf id) i by_ (db_Approve bb) w)
    as [Ed|(ap & w1 & Hap & Hs & Ed & Ha1 & Hc1 & Hp1)]; rewrite (run_atomic _ _ _ _ _ Ed); [done|].
  set (ap' := ap <| ap_Status := _ |> <| ap_DecidedBy := _ |> <| ap_DecidedAt := _ |>) in *.
  rewrite run_emitted. set (w2 := snd (Emit _ w1)).
  change (ap_ActionID ap') with (ap_ActionID ap).
  destruct (once_pending _ Ho _ _ Hap Hs) as (aid & c & Haid & Hc & Hst).
  destruct (once_decided i ap ap' w w2) as [Ho2 Hno]; [done|done| |done|done|done|done|].
  { cbn. by destruct (db_Approve bb). }
  rewrite Haid in *. destruct (db_Approve bb); cbn [negb].
  - rewrite run_pbind.
    pose proof (once_approve_action (orgOf id) ap' aid c w2) as H.
    destruct (run (approve_action _ _ _) w2) as [[] w3]. apply H; try done.
    + by rewrite <- Ha1 in Hc.
    + by destruct (inv_cells _ Hi _ _ Hc).
    + by rewrite Hst.
  - eapply once_untouched; [|exact Ho2]. apply quiet_run. apply quiet_prog_pbind; [done|]. intros _.
    apply quiet_prog_pbind; [|done]. apply (quiet_prog_move _ _ (fun t => TryTransition t TxnAborting)).
Qed.

(** ** Compensation *)

(** The listed actions that were executed stay past their call. *)
Definition listed (acts : list TxnAction) (w : World) : Prop :=
  forall a, a ∈ acts -> a_Status a = StExecuted ->
    exists c, st_actions (w_store w) !! a_ID a = Some c /\ a_ID c = a_ID a /\ final (a_Status c) = true.

Lemma listed_ext acts w w' :
  st_actions (w_store w') = st_actions (w_store w) -> listed acts w -> listed acts w'.
Proof. unfold listed. by intros ->. Qed.

Lemma listed_write acts id a' w w' :
  a_ID a' = id -> final (a_Status a') = true ->
  st_actions (w_store w') = <[ id := a' ]> (st_actions (w_store w)) -> listed acts w -> listed acts w'.
Proof.
  intros Hid Hf Ha Hl a Hin Hs. destruct (Hl a Hin Hs) as (c & Hc & Hcid & Hcf). rewrite Ha.
  destruct (decide (id = a_ID a)) as [Heq|Hne].
  - exists a'. rewrite Heq, lookup_insert_eq. split; [done|]. split; congruence.
  - exists c. by rewrite lookup_insert_ne.
Qed.

Lemma once_settle orgID txnID a st type payload failed acts w :
  final st = true -> a ∈ acts -> a_Status a = StExecuted -> once w -> listed acts w ->
  let w' := (run (settle orgID txnID (a_ID a) st type payload failed) w).2 in once w' /\ listed acts w'.
Proof.
  intros Hst Hin Hs Ho Hl. destruct (Hl a Hin Hs) as (c & Hc & Hid & Hf). unfold settle.
  destruct (GetAction_shape orgID (a_ID a) w) as [Eg|(c' & Eg & Hc')];
    rewrite (run_atomic _ _ _ _ _ Eg); [done|].
  rewrite Hc in Hc'. injection Hc' as <-.
  destruct (run_update_copy (c <| a_Status := st |>) w c) as (w1 & Hu & _ & Hv); [cbn; by rewrite Hid|].
  rewrite (run_atomic _ _ _ _ _ Hu), run_emitted.
  apply view_eq in Hv as (Ha1 & Hp1 & _ & _ & _ & _ & Hc1). cbn in Ha1. rewrite Hid in Ha1. cbv zeta. split.
  - apply (once_write (a_ID a) c (c <| a_Status := st |>) w); try done.
    cbn. unfold executed_ids. cbn. by rewrite Hc1.
  - by apply (listed_write acts (a_ID a) (c <| a_Status := st |>) w).
Qed.

Lemma once_compensate_one orgID txnID acts a failed w :
  a ∈ acts -> once w -> listed acts w ->
  let w' := (run (compensate_one orgID txnID a failed) w).2 in once w' /\ listed acts w'.
Proof.
  intros Hin Ho Hl. unfold compensate_one. destruct failed as [failed|]; [|done].
  destruct (bool_decide (a_Status a = StExecuted)) eqn:Es; cbn [negb]; [|done]. bool_guards.
  destruct (_ && _).
  { rewrite run_emitted. split; [by apply (once_ext w)|by apply (listed_ext acts w)]. }
  set (w1 := snd (tools_Compensate a w)).
  rewrite (run_atomic (tools_Compensate a) _ w (Compensate (w_tools w) (w_tick w) a) w1 eq_refl).
  assert (once w1 /\ listed acts w1) as [Ho1 Hl1].
  { split; [|by apply (listed_ext acts w)]. apply (once_ext w); try done.
    rewrite (executed_ids_app w w1 _ eq_refl). apply app_nil_r. }
  by destruct (Compensate _ _ _); apply once_settle.
Qed.

Lemma once_compensate_loop orgID txnID acts l failed w :
  l ⊆ acts -> once w -> listed acts w ->
  once (run (for_each (compensate_one orgID txnID) l failed) w).2.
Proof.
  revert failed w. induction l as [|a l IH]; intros failed w Hl Ho Hli; cbn [for_each]; [done|].
  rewrite run_pbind. pose proof (once_compensate_one orgID txnID acts a failed w) as H.
  destruct (run (compensate_one _ _ _ _) w) as [f w1]. cbn in H.
  destruct H as [Ho1 Hl1]; [set_solver|done|done|]. apply IH; [set_solver|done|done].
Qed.

Lemma keeps_CompensateTransaction orgID txnID : stays_once (CompensateTransaction orgID txnID).
Proof.
  intros w Hi Ho. unfold CompensateTransaction. rewrite (run_atomic _ _ w _ w (run_GetTxn _ _ _)).
  destruct (_ ≫= _) as [t|]; [|done].
  destruct (ActionsForTxn orgID txnID w) as [acts w1] eqn:Ea. rewrite (run_atomic _ _ _ _ _ Ea).
  assert (Hl : listed acts w1).
  { intros a Hin Hs. pose proof (ActionsForTxn_elem orgID txnID w a) as H. rewrite Ea in H.
    apply H in Hin as (id & Hin & _). unfold ActionsForTxn in Ea. cbn in Ea. injection Ea as _ <-.
    destruct (inv_cells _ Hi _ _ Hin) as (<- & _). exists a. by rewrite Hs. }
  pose proof (quiet_ActionsForTxn orgID txnID w) as H1. rewrite Ea in H1. cbn in H1.
  apply (once_untouched _ _ H1) in Ho.
  pose proof (quiet_SetTxnStatus orgID txnID TxnCompensating w1) as H2.
  destruct (SetTxnStatus orgID txnID TxnCompensating w1) as [ok w2] eqn:E2.
  rewrite (run_atomic _ _ _ _ _ E2), run_emitted, run_pbind. cbn in H2.
  apply (once_untouched _ _ H2) in Ho. apply (listed_ext acts w1 w2 (unt_actions _ _ H2)) in Hl.
  set (w3 := snd (Emit _ w2)).
  pose proof (once_compensate_loop orgID txnID acts (reverse acts) (Some false) w3) as Hloop.
  destruct (run (for_each _ _ _) w3) as [failed w4]. cbn [snd] in Hloop.
  eapply once_untouched; [apply quiet_run|apply Hloop; [|by apply (once_ext w2)|by apply (listed_ext acts w2)]].
  - destruct failed as [failed|]; [|done]. split; [auto with benign|done].
  - intros x. by rewrite elem_of_reverse.
Qed.

(** ** Requests *)

Lemma quiet_prog_answer code r : quiet_prog (answer_execution code r).
Proof. by destruct r. Qed.

Lemma quiet_prog_current_rules orgID : quiet_prog (current_rules orgID).
Proof. unfold current_rules. quiet_prog_all. Qed.

Lemma quiet_prog_Simulate orgID agentID tool action args :
  quiet_prog (Simulate orgID agentID tool action args).
Proof. unfold Simulate, current_rules. quiet_prog_all. Qed.

Lemma quiet_prog_Commit orgID txnID : quiet_prog (Commit orgID txnID).
Proof. unfold Commit. quiet_prog_all. Qed.

Lemma quiet_prog_SetPolicies orgID rules : quiet_prog (SetPolicies orgID rules).
Proof. unfold SetPolicies. quiet_prog_all. Qed.

Lemma quiet_prog_Authenticate secret org : quiet_prog (Authenticate secret org).
Proof. unfold Authenticate. quiet_prog_all. Qed.

Lemma keeps_handleProposeAction id b : stays_once (handleProposeAction id b).
Proof.
  unfold handleProposeAction. cbv zeta. destruct b as [b|]; [|by apply keeps_ret].
  destruct (_ || _); [by apply keeps_ret|]. destruct (String.eqb _ _); [by apply keeps_ret|].
  destruct (agent_mismatch _ _); [by apply keeps_ret|].
  apply keeps_then; [apply keeps_ProposeAction|]. by intros [].
Qed.

Lemma keeps_handleMCPCall id b : stays_once (handleMCPCall id b).
Proof.
  unfold handleMCPCall. cbv zeta. destruct b as [b|]; [|by apply keeps_ret].
  destruct (_ || _); [by apply keeps_ret|]. destruct (String.eqb _ _); [by apply keeps_ret|].
  destruct (agent_mismatch _ _); [by apply keeps_ret|].
  apply keeps_quiet; [auto with benign|]. intros [[srv token]|]; [|by apply keeps_ret].
  destruct (negb _); [by apply keeps_ret|]. apply keeps_quiet; [auto with benign|]. intros _.
  apply keeps_then; [apply keeps_ProposeAction|]. by intros [].
Qed.

Lemma keeps_handleActionSub id post path : stays_once (handleActionSub id post path).
Proof.
  unfold handleActionSub. cbv zeta. destruct (Split _ _) as [|a [|verb [|]]]; try by apply keeps_ret.
  destruct (_ || _); [by apply keeps_ret|]. apply keeps_quiet; [auto with benign|]. intros x.
  destruct (match x with Some _ => _ | None => _ end); apply keeps_then;
    auto using keeps_RunApproved, keeps_ExecuteAllowed, quiet_prog_answer.
Qed.

Lemma keeps_handleReconcile id a : stays_once (handleReconcile id a).
Proof.
  unfold handleReconcile. destruct (negb _); [by apply keeps_ret|].
  apply keeps_then; auto using keeps_Reconcile, quiet_prog_answer.
Qed.

Lemma keeps_route rt id : stays_once (route rt id).
Proof.
  destruct rt; cbn [route]; auto using keeps_handleProposeAction, keeps_handleMCPCall, keeps_handleActionSub,
    keeps_handleDecideApproval, keeps_handleReconcile;
    apply quiet_keeps;
    unfold handleRegisterAgent, handleCreateTxn, handleListTxns, handleGetTxn,
      handleListApprovals, handleListReceipts, handleAudit,
      handleListPolicies, handleCreateGrant, handleListGrants, handleRevokeGrant,
      handleRotateCredential, handleRevokeCredential, handleVerifyReceipts,
      handleVerifyReceipt, handleSimulatePolicy, handleCreatePolicySet, handleListPolicySets,
      handleActivatePolicySet, handleCommitTxn, handleRegisterMCPServer, handleListMCPServers,
      handleListMCPTools, handleListIntegrations, handleSetIntegrationCredential,
      handleSetHTTPDomains; quiet_prog_all;
    first [apply quiet_prog_Simulate|apply quiet_prog_Commit|apply quiet_prog_register_tools].
Qed.

Lemma keeps_Middleware {A} (next : option Identity -> prog A) r :
  (forall id, stays_once (next id)) -> stays_once (Middleware next r).
Proof.
  intros Hn. unfold Middleware. cbv zeta. destruct (open_path _); [by apply keeps_then|].
  destruct (_ || _); [by apply keeps_ret|]. apply keeps_quiet; [auto with benign|]. intros ok.
  destruct (negb ok); [by apply keeps_ret|].
  apply keeps_pbind; [apply quiet_prog_Authenticate|]. intros [id|]; [by apply keeps_then|].
  by apply keeps_ret.
Qed.

Lemma keeps_Handler r : stays_once (Handler r).
Proof.
  unfold Handler, corsMiddleware. destruct (String.eqb (hq_Method r) "OPTIONS"); [by apply keeps_ret|].
  unfold observe_Middleware, auth_handler.
  destruct (String.eqb (hq_RequestID r) "");
    (apply keeps_quiet; [auto with benign|]; intros id; apply keeps_quiet; [auto with benign|]; intros tid;
     apply keeps_then; [|done]; apply keeps_Middleware; intros who; unfold ServeHTTP;
     destruct (findHandler r); [|by apply keeps_ret..]; apply keeps_then; [apply keeps_route|done]).
Qed.

Lemma client_keeps p : client p -> stays_once p.
Proof.
  destruct 1; try (apply keeps_then; [|done]).
  - apply keeps_Handler.
  - apply keeps_Middleware. intros. apply keeps_route.
  - apply keeps_ProposeAction.
  - apply keeps_ExecuteAllowed.
  - apply keeps_RunApproved.
  - apply keeps_Reconcile.
  - apply quiet_keeps, quiet_prog_Commit.
  - apply keeps_CompensateTransaction.
  - apply quiet_keeps, quiet_prog_Simulate.
  - apply quiet_keeps, quiet_prog_SetPolicies.
Qed.

(** ** Serial histories *)

(** The worlds of a server that serves its clients one after another. *)
Inductive serial : World -> Prop :=
  | serial_new tools : serial (new_world tools)
  | serial_client p w : serial w -> client p -> serial (run p w).2
  | serial_config w w' : serial w -> reconfigure w w' -> serial w'.

Lemma serial_reachable w : serial w -> reachable w.
Proof.
  induction 1; [apply reachable_new|by apply reachable_run|by eapply reachable_reconfigure].
Qed.

Lemma once_empty tools : once (new_world tools).
Proof.
  split; cbn.
  - intros id Hin. by apply elem_of_nil in Hin.
  - constructor.
  - intros i ap Hi. by rewrite lookup_empty in Hi.
  - intros i j ap ap' Hi. by rewrite lookup_empty in Hi.
Qed.

Lemma serial_once w : serial w -> once w.
Proof.
  induction 1 as [|p w Hs IH Hp|w w' Hs IH Hc]; [apply once_empty| |].
  - apply client_keeps; [done|by apply reachable_inv, serial_reachable|done].
  - by eapply once_untouched; [apply reconfigure_untouched|].
Qed.

(** Positions of equal identifiers are equal. *)
Lemma executions_nodup cs :
  NoDup (omap (fun c => match c with CallExecute a => Some (a_ID a) | _ => None end) cs) ->
  forall i j a b, cs !! i = Some (CallExecute a) -> cs !! j = Some (CallExecute b) ->
    a_ID a = a_ID b -> i = j.
Proof.
  induction cs as [|c cs IH]; intros Hn i j a b Hi Hj Hid; [done|].
  assert (Hin : forall i a, cs !! i = Some (CallExecute a) ->
    a_ID a ∈ omap (fun c => match c with CallExecute a => Some (a_ID a) | _ => None end) cs).
  { intros k x Hk. apply list_elem_of_omap. exists (CallExecute x). split; [|done].
    by eapply list_elem_of_lookup_2. }
  destruct i as [|i], j as [|j]; cbn in Hi, Hj; [done| | |].
  - injection Hi as ->. cbn in Hn. apply NoDup_cons in Hn as [Hn _]. destruct Hn. rewrite Hid. by eapply Hin.
  - injection Hj as ->. cbn in Hn. apply NoDup_cons in Hn as [Hn _]. destruct Hn. rewrite <- Hid. by eapply Hin.
  - f_equal. eapply IH; [|exact Hi|exact Hj|done]. cbn in Hn.
    destruct c; cbn in Hn; [apply NoDup_cons in Hn as [_ Hn]| |]; exact Hn.
Qed.

(** C6: at most once.  On a server that serves its requests one after
    another - any mix of HTTP requests, direct gateway operations and
    reconfigurations - the tool calls of two executions with the same
    organization, transaction and idempotency key are the same call, and the
    action of every call made is stored in a status past execution. *)
Theorem serial_at_most_once w : serial w ->
  (forall i j a b, w_calls w !! i = Some (CallExecute a) -> w_calls w !! j = Some (CallExecute b) ->
     idemKey a = idemKey b -> i = j) /\
  (forall a, CallExecute a ∈ w_calls w ->
     exists c, st_actions (w_store w) !! a_ID a = Some c /\ final (a_Status c) = true).
Proof.
  intros Hs. pose proof (serial_once w Hs) as Ho. pose proof (reachable_inv w (serial_reachable w Hs)) as Hi.
  assert (Hcell : forall i a, w_calls w !! i = Some (CallExecute a) ->
    st_byIdem (w_store w) !! idemKey a = Some (a_ID a)).
  { intros i a Hc. destruct (inv_calls _ Hi (CallExecute a)) as [(c & Hc1 & Hcore & _) _];
      [by eapply list_elem_of_lookup_2|].
    apply (inv_idem _ Hi). exists c. split; [done|]. apply core_of_fields in Hcore.
    unfold call_action in Hcore. apply Hcore. }
  split.
  - intros i j a b Ha Hb Hk. eapply executions_nodup; [exact (once_nodup _ Ho)|exact Ha|exact Hb|].
    apply Hcell in Ha. apply Hcell in Hb. congruence.
  - intros a Ha. apply (once_final _ Ho). apply list_elem_of_omap. by exists (CallExecute a).
Qed.

End Serial.
