(* ===== verification/Boot.v ===== *)
(** * Boot: the start of the process (apps/api/main.go)

    The branch without DATABASE_URL: the memory store is seeded with one
    organization and the support policies, an operator token is minted, the
    keys are loaded and the live integrations registered.  [None] is
    log.Fatalf. *)

From Stdlib Require Import Ascii.
From S2P Require Export Serial LocalKeys AuthSpec.

Open Scope Z_scope.

Section Boot.
Context `{RL : RuntimeLaws} `{JE : JevEnv} `{SE : Secrets} `{UP : UuidParse} `{NT : Net} `{CR : Crypto}.

(** The operator token: key identifier and secret. *)
Definition mustOperatorToken (orgID : string) (w : World) : option (string * World) :=
  let '(s, w) := NewOperatorSecret w in
  match s with
  | None => None
  | Some (kid, secret, hash) =>
      let '(_, w) := CreateOperatorToken orgID "boot-operator" kid hash w in Some (secret, w)
  end.

(** [apiSrv.SetSigner(signer); backend.SetKeyProvider(signer)]. *)
Definition install_keys (w : World) : option World :=
  let '(n, w) := tick w in
  match Load n with
  | None => None
  | Some (p, persistent) =>
      let w := w <| w_signer := Some (provider_of p) |> in
      Some (snd (SetKeyProvider (Some (provider_of p)) w))
  end.

Definition EnableRealIntegrations (w : World) : World := w <| w_tools := RegisterReal (w_tools w) |>.

(** The server as it starts to listen, and the operator's secret. *)
Definition boot : option (World * string) :=
  let '((org, principal), w) := SeedOrg "Acme Corp" (new_world DefaultRegistry) in
  let '(_, w) := run (SetPolicies (o_ID org) (DefaultSupportPolicies (o_ID org))) w in
  match mustOperatorToken (o_ID org) w with
  | None => None
  | Some (secret, w) =>
      match install_keys w with
      | None => None
      | Some w => Some (EnableRealIntegrations w, secret)
      end
  end.

Definition listen_addr : string :=
  if negb (String.eqb (getenv "ADDR") "") then getenv "ADDR"
  else if negb (String.eqb (getenv "PORT") "") then ":" +:+ getenv "PORT" else ":8080".

(** ** Properties *)

(** What the boot relies on of randomness and bcrypt: identifiers are
    hexadecimal and a hash accepts the secret it was made of. *)
Class SecretsLaws := {
  rand_hex_plain : forall t n s, rand_hex t n = Some s -> free_of underscore s = true;
  bcrypt_correct : forall t secret hash, bcrypt_hash t secret = Some hash -> bcrypt_ok hash secret = true }.

Context `{SL : SecretsLaws}.

Lemma NewOperatorSecret_inv w kid secret hash w' :
  NewOperatorSecret w = (Some (kid, secret, hash), w') ->
  w_store w' = w_store w /\ w_tools w' = w_tools w /\ free_of underscore kid = true /\ check secret hash = true /\
  exists r, secret = "sto_" +:+ kid +:+ String underscore r.
Proof.
  unfold NewOperatorSecret, new_secret, randHex, m_bind, tick, m_ret.
  destruct (rand_hex (w_tick w) 6) as [k|] eqn:Ek; [|done]. cbn.
  destruct (rand_hex _ 24) as [r|]; [|done]. cbn.
  destruct (bcrypt_hash _ _) as [h|] eqn:Eh; cbn; [|done]. intros [= <- <- <- <-].
  split; [done|]. split; [done|]. split; [by eapply rand_hex_plain|]. split; [by eapply bcrypt_correct|]. by exists r.
Qed.

Lemma mustOperatorToken_serial org w secret w' :
  serial w -> mustOperatorToken org w = Some (secret, w') -> serial w'.
Proof.
  intros Hs. unfold mustOperatorToken.
  destruct (NewOperatorSecret w) as [[[[kid sec] hash]|] w1] eqn:En; [|done]. intros [= <- <-].
  eapply (serial_config w1); [|exact (reconfigure_operator w1 org "boot-operator" kid hash)].
  pose proof (serial_config w _ Hs (reconfigure_secret w)) as H. by rewrite En in H.
Qed.

Lemma install_keys_serial w w' : serial w -> install_keys w = Some w' -> serial w'.
Proof.
  intros Hs. unfold install_keys, tick. destruct (Load (w_tick w)) as [[p persistent]|]; [|done].
  intros [= <-]. eapply serial_config; [|apply reconfigure_keys].
  eapply serial_config; [|apply reconfigure_signer].
  exact (serial_config w _ Hs (reconfigure_draw w)).
Qed.

(** What each step leaves as it was. *)
Lemma SetPolicies_frame org rules w :
  let w' := (run (SetPolicies org rules) w).2 in
  w_store w' = (w_store w) <| st_policySets := st_policySets (w_store w') |> /\ w_tools w' = w_tools w.
Proof.
  cbn zeta. unfold SetPolicies, CreatePolicySet, ActivatePolicySet, latestVersionLocked. cbn.
  destruct (any _ _); cbn; (split; [|done]); destruct w as [st ? ? ? ? ? ?]; destruct st; done.
Qed.

Lemma mustOperatorToken_inv org w secret w' :
  mustOperatorToken org w = Some (secret, w') ->
  exists kid hash r, secret = "sto_" +:+ kid +:+ String underscore r /\ free_of underscore kid = true /\
    check secret hash = true /\ w_tools w' = w_tools w /\
    w_store w' = (w_store w)
      <| st_opTokens ::= <[ kid := MkOpToken org "boot-operator" hash false zero_time ]> |>.
Proof.
  unfold mustOperatorToken. destruct (NewOperatorSecret w) as [[[[kid sec] hash]|] w1] eqn:En; [|done].
  intros [= <- <-]. apply NewOperatorSecret_inv in En as (Hs & Ht & Hf & Hc & r & Hr).
  exists kid, hash, r. cbn. rewrite Hs. done.
Qed.

Lemma install_keys_inv w w' : install_keys w = Some w' ->
  exists m p persistent, Load m = Some (p, persistent) /\ w_signer w' = Some (provider_of p) /\
    w_tools w' = w_tools w /\ w_store w' = (w_store w) <| st_keyProvider := Some (provider_of p) |>.
Proof.
  unfold install_keys, tick. destruct (Load (w_tick w)) as [[p persistent]|] eqn:El; [|done].
  intros [= <-]. by exists (w_tick w), p, persistent.
Qed.

Lemma serial_boot w secret : boot = Some (w, secret) -> serial w.
Proof.
  unfold boot. pose proof (serial_config _ _ (serial_new DefaultRegistry) (reconfigure_seed _ "Acme Corp")) as H0.
  destruct (SeedOrg _ _) as [[org principal] w0]. cbn [snd] in H0.
  pose proof (serial_client _ _ H0 (client_policies (o_ID org) (DefaultSupportPolicies (o_ID org)))) as H1.
  destruct (run _ w0) as [u w1]. cbn [snd] in H1.
  destruct (mustOperatorToken _ w1) as [[sec w2]|] eqn:Et; [|done].
  pose proof (mustOperatorToken_serial _ _ _ _ H1 Et) as H2.
  destruct (install_keys w2) as [w3|] eqn:Ek; [|done]. pose proof (install_keys_serial _ _ H2 Ek) as H3.
  intros [= <- _]. exact (serial_config w3 _ H3 (reconfigure_tools w3 _)).
Qed.

(** The seeded store. *)
Lemma SeedOrg_new name tools :
  let '((o, _), w) := SeedOrg name (new_world tools) in
  policies_ok (w_store w) /\ w_tools w = tools /\ st_orgs (w_store w) = {[ o_ID o := o ]} /\
  st_agents (w_store w) = ∅ /\ st_txns (w_store w) = ∅ /\ st_actions (w_store w) = ∅ /\
  st_approvals (w_store w) = ∅.
Proof. split; [exact policies_ok_New|done]. Qed.

(** C35: The process starts in a good state.  Whenever boot succeeds, the
    state is one every invariant of the server holds in; there is one
    organization, whose active policies are the seeded support policies;
    there are no agents, transactions, actions or approvals; the secret
    printed authenticates, whatever organization header is sent, as an operator of that organization;
    receipts are signed and credentials sealed with the same loaded keys;
    and the tools are the default ones with the live integrations. *)
Theorem boot_ready w secret header :
  boot = Some (w, secret) ->
  serial w /\
  exists org kid m p persistent,
    fst (Policies org w) = DefaultSupportPolicies org /\
    dom (st_orgs (w_store w)) = {[ org ]} /\
    st_agents (w_store w) = ∅ /\ st_txns (w_store w) = ∅ /\ st_actions (w_store w) = ∅ /\
    st_approvals (w_store w) = ∅ /\
    fst (run (Authenticate secret header) w) = Some (MkIdentity org "" true "boot-operator" kid) /\
    Load m = Some (p, persistent) /\ w_signer w = Some (provider_of p) /\
    st_keyProvider (w_store w) = Some (provider_of p) /\
    w_tools w = RegisterReal DefaultRegistry.
Proof.
  intros Hb. split; [by eapply serial_boot|]. revert Hb. unfold boot.
  pose proof (SeedOrg_new "Acme Corp" DefaultRegistry) as H0. revert H0.
  generalize DefaultRegistry. intros tools.
  destruct (SeedOrg _ _) as [[o principal] w0]. intros (Hok & T0 & O0 & A0 & X0 & C0 & P0).
  pose proof (run_SetPolicies (o_ID o) (DefaultSupportPolicies (o_ID o)) w0 Hok) as [Hpol _].
  pose proof (SetPolicies_frame (o_ID o) (DefaultSupportPolicies (o_ID o)) w0) as [S1 T1]. cbn zeta in *.
  destruct (run _ w0) as [u w1]. cbn [snd] in *.
  destruct (mustOperatorToken _ w1) as [[sec w2]|] eqn:Et; [|done].
  apply mustOperatorToken_inv in Et as (kid & hash & r & -> & Hf & Hc & T2 & S2).
  destruct (install_keys w2) as [w3|] eqn:Ek; [|done].
  apply install_keys_inv in Ek as (m & p & persistent & Hl & Hsig & T3 & S3).
  intros [= <- <-]. exists (o_ID o), kid, m, p, persistent.
  assert (S : w_store (EnableRealIntegrations w3) = ((w_store w1)
      <| st_opTokens ::= <[ kid := MkOpToken (o_ID o) "boot-operator" hash false zero_time ]> |>)
      <| st_keyProvider := Some (provider_of p) |>).
  { cbn. by rewrite S3, S2. }
  split; [rewrite <- Hpol; unfold Policies, m_bind, get_store, sets_of; by rewrite S|].
  rewrite S. cbn. rewrite S1. cbn.
  split; [by rewrite O0, dom_singleton_L|].
  repeat (split; [assumption|]). split.
  - apply keyed_admitted. eapply keyed_operator; [done|done| |exact Hc].
    rewrite S. apply lookup_insert_eq.
  - split; [exact Hl|]. split; [exact Hsig|]. split; [done|]. unfold EnableRealIntegrations. cbn. congruence.
Qed.

End Boot.
