(* ===== verification/PgBoot.v ===== *)
(** * PgBoot: the start of the process on a database (apps/api/main.go)

    The branch with DATABASE_URL: the pool is opened, the migrations run, the
    unfinished transactions are recovered, and a database without
    organizations is seeded as the memory store is.  The migrations have a
    database of their own here ([Migrate]); the statements of the two are
    counted by the same ticks. *)

From S2P Require Export Boot Migrate PgVault.

Open Scope Z_scope.

Section PgBoot.
Context `{RT : Runtime} `{JE : JevEnv} `{SE : Secrets} `{NT : Net} `{CR : Crypto} `{PE : PgEnv}.
Context {Sc : Type} `{MI : !Migrations Sc}.

(** Code that only draws identifiers, times and random bytes. *)
Definition drawing {A} (m : M A) : step Pg A := fun s =>
  let w := (new_world (MkRegistry ∅ ∅ ∅ ∅)) <| w_uid := pg_uid s |> <| w_tick := pg_tick s |> in
  let '(x, w) := m w in (x, s <| pg_uid := w_uid w |> <| pg_tick := w_tick w |>).

(** [None] is log.Fatalf. *)
Definition mustOperatorToken (orgID : string) : program Pg (option string) :=
  let@ s := drawing NewOperatorSecret in
  match s with
  | None => Ret None
  | Some (kid, secret, hash) =>
      let! _ := PgSecrets.CreateOperatorToken orgID "boot-operator" kid hash in Ret (Some secret)
  end.

(** The secret printed, when there is one; [None] is log.Fatalf. *)
Definition seed : program Pg (option (option string)) :=
  let! ids := OrgIDs in
  match ids with
  | [] =>
      let! op := PgStore.SeedOrg "Acme Corp" in
      let org := o_ID (fst op) in
      let! _ := PgStore.SetPolicies org (DefaultSupportPolicies org) in
      let! secret := mustOperatorToken org in
      Ret (Some <$> secret)
  | _ => let! _ := OrgIDs in Ret (Some None)
  end.

(** Open, Migrate, Recover, the seed, and the keys of the server. *)
Definition boot_database (mdb : MigDb Sc) (s : Pg) : option (Pg * MigDb Sc * localProvider * option string) :=
  let '(ping, s) := exec (q_ret tt) s in
  match ping with
  | inr _ => None
  | inl _ =>
      let '(err, mdb) := Migrate (MkMigDb (md_schema mdb) (md_versions mdb) (pg_tick s)) in
      match err with
      | Some _ => None
      | None =>
          let '(counts, s) := run Recover (s <| pg_tick := md_tick mdb |>) in
          let '(seeded, s) := run seed s in
          match seeded with
          | None => None
          | Some secret =>
              match Load (pg_tick s) with
              | None => None
              | Some (p, persistent) =>
                  let '(_, s) := run (PgSecrets.SetKeyProvider (Some (provider_of p))) (s <| pg_tick ::= S |>) in
                  Some (s, mdb, p, secret)
              end
          end
      end
  end.

End PgBoot.

(** ** Frames *)

Definition audit_only (d d' : Db) : Prop := d' = d <| db_audit_events := db_audit_events d' |>.

#[export] Instance audit_only_preorder : PreOrder audit_only.
Proof.
  split; [by intros []|]. intros d1 d2 d3 H1 H2. unfold audit_only in *. rewrite H2, H1. by destruct d1.
Qed.

Definition same_tokens (d d' : Db) : Prop := db_operator_tokens d' = db_operator_tokens d.

#[export] Instance same_tokens_preorder : PreOrder same_tokens.
Proof. split; [done|]. intros d1 d2 d3 H1 H2. unfold same_tokens in *. congruence. Qed.

Section Frames.
Context `{RT : Runtime} `{PE : PgEnv}.

Lemma Emit_audit_only e : prog_within audit_only (PgStore.Emit e).
Proof.
  unfold PgStore.Emit, insert_event. apply within_atomic; [destruct (e_CreatedAt e =? zero_time)|intros t]; within_all.
Qed.

Lemma Recover_audit_only : prog_within audit_only Recover.
Proof.
  unfold Recover. apply within_atomic; [apply query_within; within_all|]. intros l.
  apply for_each_within. intros t counts. apply pbind_within; [apply Emit_audit_only|]. intros []. apply within_ret.
Qed.

Lemma SetPolicies_tokens org rules : prog_within same_tokens (PgStore.SetPolicies org rules).
Proof.
  unfold PgStore.SetPolicies, PgStore.CreatePolicySet, PgStore.ActivatePolicySet, insert_policy_set, disable_active,
    activate_version.
  apply pbind_within; [apply within_atomic; [apply assign_rules_within, _|intros l]; within_all|].
  intros set. apply pbind_within; [|intros ?; apply within_ret]. apply within_atomic; [|intros ?; apply within_ret].
  apply transaction_within, bind_within; [within_all|]. intros [[]|]; [|apply ret_within].
  apply bind_within; [within_all|]. intros [[]|e]; [|apply ret_within].
  apply bind_within; [within_all|]. intros [[]|e]; apply ret_within.
Qed.

Lemma SeedOrg_tokens name : prog_within same_tokens (PgStore.SeedOrg name).
Proof. unfold PgStore.SeedOrg, insert_organization, insert_principal. within_all. Qed.

End Frames.

Section Booted.
Context `{RL : RuntimeLaws} `{JE : JevEnv} `{SE : Secrets} `{NT : Net} `{CR : Crypto} `{PE : PgEnv}.
Context `{PL : !PgLaws} `{UD : !Undisturbed} `{SL : !SecretsLaws} `{CL : !CryptoLaws} {Sc : Type} `{MI : !Migrations Sc}.

(** ** Recovery *)

(** How many transactions a restart finds in a state. *)
Definition unfinished (st : string) (ts : list Transaction) : nat :=
  length (List.filter (fun t => negb (ended (t_Status t)) && String.eqb (TxnStatus_str (t_Status t)) st) ts).

Lemma unfinished_perm st ts ts' : ts ≡ₚ ts' -> unfinished st ts = unfinished st ts'.
Proof. intros H. unfold unfinished. apply Permutation_length, filter_bool_perm, H. Qed.

Definition counted (c : gmap string Z) (n : string -> nat) : Prop :=
  forall st, default 0 (c !! st) = Z.of_nat (n st).

Lemma counted_add c n t : counted c n -> negb (ended (t_Status t)) = true ->
  counted (<[ TxnStatus_str (t_Status t) := default 0 (c !! TxnStatus_str (t_Status t)) + 1 ]> c)
    (fun st => n st + unfinished st [t])%nat.
Proof.
  intros Hc Ht st. unfold unfinished. cbn. rewrite Ht. cbn.
  destruct (String.eqb_spec (TxnStatus_str (t_Status t)) st) as [<-|Hne].
  - rewrite lookup_insert_eq, Hc. cbn. lia.
  - rewrite lookup_insert_ne, Hc by done. cbn. lia.
Qed.

(** The audit event and the count of one transaction. *)
Definition recover_one (t : Transaction) (counts : gmap string Z) : program Pg (gmap string Z) :=
  let state := TxnStatus_str (t_Status t) in
  let! _ := PgStore.Emit (zero_event <| e_OrgID := t_OrgID t |> <| e_TransactionID := t_ID t |>
                    <| e_ActorType := "system" |> <| e_ActorID := "gateway" |>
                    <| e_Type := "transaction.recovered" |>
                    <| e_Payload := [("state", VString state)] |>) in
  Ret (<[ state := default 0 (counts !! state) + 1 ]> counts).

Lemma run_recover_each l ts c n s : pg_ok l s -> counted c n -> Forall (fun t => negb (ended (t_Status t)) = true) ts ->
  counted (run (for_each recover_one ts c) s).1 (fun st => n st + unfinished st ts)%nat /\
  pg_ok l (run (for_each recover_one ts c) s).2.
Proof.
  intros Hok Hc Hts. revert c n s Hok Hc. induction Hts as [|t ts Ht _ IH]; intros c n s Hok Hc; cbn [for_each].
  { split; [|done]. intros st. cbn. by rewrite Nat.add_0_r. }
  rewrite run_pbind. unfold recover_one at 1 3. rewrite run_pbind.
  match goal with |- context [run (PgStore.Emit ?e) s] => destruct (run_pg_Emit e l s Hok) as (s2 & -> & Hok2) end.
  cbn [run]. destruct (IH _ _ s2 Hok2 (counted_add c n t Hc Ht)) as [H1 H2]. split; [|done].
  intros st. rewrite H1. f_equal. unfold unfinished. cbn. rewrite Ht. cbn. destruct (String.eqb _ _); cbn; lia.
Qed.

(** Recover counts, by state, the transactions that have not ended. *)
Lemma run_Recover l s : pg_ok l s ->
  counted (run Recover s).1 (fun st => unfinished st (rows (db_transactions (pg_db s)))) /\
  pg_ok l (run Recover s).2 /\ audit_only (pg_db s) (pg_db (run Recover s).2).
Proof.
  intros Hok. enough (counted (run Recover s).1 (fun st => unfinished st (rows (db_transactions (pg_db s)))) /\
    pg_ok l (run Recover s).2) as [H1 H2] by (split_and!; [done|done|apply (run_within Recover s Recover_audit_only)]).
  unfold Recover. erewrite run_atomic'; [|apply query_ok; stmt; reflexivity].
  cbn [default Datatypes.id from_option]. change (for_each _ ?ts ?c) with (for_each recover_one ts c).
  set (live := List.filter _ (rows _)). set (ts := order_rows _ _ live).
  assert (Hp : ts ≡ₚ live) by apply order_perm.
  destruct (run_recover_each l ts ∅ (fun _ => 0%nat) (s <| pg_tick ::= S |> <| pg_db := pg_db s |>)) as [H1 H2].
  - apply (pg_ok_core l s); cbn; [reflexivity|lia|lia|done].
  - done.
  - apply Forall_forall. intros t Ht. rewrite Hp in Ht. by apply list_elem_of_In, filter_In in Ht as [_ Ht].
  - split; [|done]. intros st. rewrite H1. f_equal. cbn. rewrite (unfinished_perm _ _ _ Hp). unfold unfinished, live.
    f_equal. generalize (rows (db_transactions (pg_db s))) as l'. clear.
    induction l' as [|t l' IH]; [done|]. cbn. destruct (negb _) eqn:E; cbn; [|done].
    rewrite E. cbn. destruct (String.eqb _ _); [by rewrite IH|done].
Qed.

(** ** The seed *)

Lemma run_OrgIDs l s : pg_ok l s ->
  exists ids s', run OrgIDs s = (ids, s') /\ (ids = [] <-> l_orgs l = ∅) /\ pg_ok l s' /\ pg_db s' = pg_db s.
Proof.
  intros Hok. unfold OrgIDs. erewrite run_atomic'; [|apply query_ok; stmt; reflexivity].
  cbn [default Datatypes.id from_option run]. do 2 eexists. split; [reflexivity|]. split_and!.
  - rewrite (po_orgs _ _ Hok). rewrite dom_empty_iff_L. split.
    + intros H%fmap_nil_inv. apply map_empty. intros i. destruct (_ !! i) as [o|] eqn:E; [exfalso|done].
      assert (Hin : o ∈ rows (db_organizations (pg_db s))) by (apply rows_spec; by exists i).
      rewrite <- (order_perm _ (pg_tick s) (fun o o' => o_CreatedAt o <=? o_CreatedAt o')), H in Hin.
      by apply elem_of_nil in Hin.
    + intros ->. unfold rows. rewrite map_to_list_empty. cbn.
      match goal with |- context [order_rows ?n ?le ?l] => pose proof (order_perm _ n le l) as H end.
      symmetry in H. apply Permutation_nil in H. by rewrite H.
  - apply (pg_ok_core l s); cbn; [reflexivity|lia|lia|done].
  - done.
Qed.

(** The calls the seed makes are those of the contract. *)
Lemma run_SeedOrg name l s : pg_ok l s ->
  let '((o, pr), s') := run (PgStore.SeedOrg name) s in
  exists l', spec_step l (OSeedOrg name) (RSeed (o_ID o) (p_ID pr)) l' /\ pg_ok l' s'.
Proof.
  intros Hok. destruct (pg_refines (OSeedOrg name) l s Hok I) as (l' & H1 & H2). revert H1 H2. cbn [pg_exec].
  rewrite run_pbind. destruct (run (PgStore.SeedOrg name) s) as [[o pr] s']. cbn [run fst snd]. by exists l'.
Qed.

Lemma run_pg_SetPolicies org rules l s : pg_ok l s -> org ∈ l_orgs l -> Forall (fun r => plain_rule r = true) rules ->
  let s' := (run (PgStore.SetPolicies org rules) s).2 in
  exists l', pg_ok l' s' /\ l_orgs l' = l_orgs l /\ in_force org rules l'.
Proof.
  intros Hok Hin Hplain. cbn zeta. assert (Hc : canonical org).
  { pose proof Hok as []. rewrite po_orgs in Hin. by apply (canonical_dom (db_organizations (pg_db s))). }
  destruct (pg_refines (OSetPolicies org rules) l s Hok (conj (conj Hin Hplain) Hc)) as (l' & Hs & Hok').
  cbn [pg_exec] in Hs, Hok'. rewrite run_pbind in Hs, Hok'. destruct (run (PgStore.SetPolicies org rules) s) as [[] s'].
  exists l'. split; [done|]. by eapply spec_set_policies_inv.
Qed.

Lemma default_policies_plain org : plain_text org = true ->
  Forall (fun r => plain_rule r = true) (DefaultSupportPolicies org).
Proof. intros Ho. repeat constructor; unfold plain_rule; cbn [pr_ID pr_OrgID]; by rewrite Ho. Qed.

Lemma run_pg_Policies org l s v p : pg_ok l s -> canonical org ->
  l_sets l !! (org, v) = Some p -> is_active p = true -> rule_view <$> (run (PgStore.Policies org) s).1 = ps_Rules p.
Proof.
  intros Hok Hc Hp Ha. pose proof (pg_refines (OPolicies org) l s Hok Hc) as (l' & H1 & _). revert H1.
  cbn [pg_exec]. rewrite run_pbind. destruct (run (PgStore.Policies org) s) as [rules s1]. cbn [run fst].
  pose proof Hok as []. rewrite po_sets, lookup_fmap in Hp.
  destruct (db_policy_sets (pg_db s) !! (org, v)) as [q|] eqn:Eq; [|done]. injection Hp as <-.
  intros [(v' & p' & Hp' & Ha' & E)|[Hnone E]]%spec_policies_inv.
  - rewrite po_sets, lookup_fmap in Hp'. destruct (db_policy_sets (pg_db s) !! (org, v')) as [q'|] eqn:Eq'; [|done].
    injection Hp' as <-. assert (v = v') as <- by (eapply po_one_active; [exact Eq|exact Eq'|exact Ha|exact Ha']).
    congruence.
  - rewrite (Hnone v (set_view q)) in Ha; [done|]. by rewrite po_sets, lookup_fmap, Eq.
Qed.

(** ** The operator token *)

Lemma drawing_secret s r s' : drawing NewOperatorSecret s = (r, s') ->
  pg_db s' = pg_db s /\ (pg_uid s <= pg_uid s')%nat /\ (pg_tick s <= pg_tick s')%nat /\
  forall kid secret hash, r = Some (kid, secret, hash) ->
    check secret hash = true /\ exists x, secret = "sto_" +:+ kid +:+ String underscore x.
Proof.
  unfold drawing. cbn zeta. set (w := _ <| w_uid := _ |> <| w_tick := _ |>).
  destruct (NewOperatorSecret w) as [x w'] eqn:E. intros [= <- <-]. cbn.
  assert (w_uid w' = pg_uid s /\ (pg_tick s <= w_tick w')%nat) as [-> Ht].
  { revert E. unfold NewOperatorSecret, new_secret, randHex, m_bind, tick, m_ret, w. cbn.
    repeat (case_match; cbn); intros [= <- <-]; cbn; lia. }
  split; [done|]. split; [done|]. split; [done|]. intros kid secret hash ->.
  apply NewOperatorSecret_inv in E as (_ & _ & _ & Hc & Hx). done.
Qed.

Lemma run_mustOperatorToken org l s secret s' : pg_ok l s -> org ∈ l_orgs l -> db_operator_tokens (pg_db s) = ∅ ->
  run (mustOperatorToken org) s = (Some secret, s') ->
  pg_ok l s' /\ exists kid hash x, secret = "sto_" +:+ kid +:+ String underscore x /\ check secret hash = true /\
    (forall s2, db_operator_tokens (pg_db s2) = db_operator_tokens (pg_db s') ->
      (run (PgSecrets.GetOperatorToken kid) s2).1 = Some (org, "boot-operator", hash)).
Proof.
  intros Hok Hin Hnone. unfold mustOperatorToken. cbn [pbind].
  destruct (drawing NewOperatorSecret s) as [r s1] eqn:E. rewrite (run_atomic' _ _ _ _ _ E).
  apply drawing_secret in E as (Hd & Hu & Ht & Hr). destruct r as [[[kid sec] hash]|]; [|done].
  destruct (Hr _ _ _ eq_refl) as [Hc Hx]. clear Hr. unfold PgSecrets.CreateOperatorToken. cbn [pbind].
  assert (Hcan : canonical org).
  { pose proof Hok as []. rewrite po_orgs in Hin. by apply (canonical_dom (db_organizations (pg_db s))). }
  erewrite run_atomic'.
  2: { apply exec_ok. stmt; [reflexivity|]. rewrite Hd, Hnone. rewrite (po_orgs _ _ Hok) in Hin.
       by rewrite (proj2 (has_true _ _) Hin). }
  cbn [run]. intros [= <- <-]. split.
  - apply (pg_ok_core l s); cbn; [rewrite Hd; by split|lia|lia|done].
  - destruct Hx as [x Hx]. exists kid, hash, x. split; [done|]. split; [done|]. intros s2 H2.
    unfold PgSecrets.GetOperatorToken. erewrite run_atomic'; [|apply query_row_ok; stmt; reflexivity].
    rewrite H2. cbn. by rewrite lookup_insert_eq.
Qed.

(** ** The boot *)

Lemma run_seed_existing l s : pg_ok l s -> l_orgs l <> ∅ ->
  exists s', run seed s = (Some None, s') /\ pg_ok l s' /\ pg_db s' = pg_db s.
Proof.
  intros Hok Hne. destruct (run_OrgIDs l s Hok) as (ids & s1 & E & Hids & Hok1 & Hd1).
  unfold seed. rewrite run_pbind, E. destruct ids as [|id ids]; [by destruct Hne; apply Hids|].
  rewrite run_pbind. destruct (run_OrgIDs l s1 Hok1) as (ids' & s2 & -> & _ & Hok2 & Hd2).
  exists s2. split; [done|]. split; [done|]. congruence.
Qed.

(** The database after the first boot. *)
Record seeded (l : Ledger) (s : Pg) (org secret : string) : Prop := {
  sd_orgs : l_orgs l = {[ org ]};
  sd_policies : rule_view <$> (run (PgStore.Policies org) s).1 = rule_view <$> DefaultSupportPolicies org;
  sd_token : exists kid hash x, secret = "sto_" +:+ kid +:+ String underscore x /\ check secret hash = true /\
    (run (PgSecrets.GetOperatorToken kid) s).1 = Some (org, "boot-operator", hash) }.

Lemma run_seed_new l s r s' : pg_ok l s -> l_orgs l = ∅ -> db_operator_tokens (pg_db s) = ∅ ->
  run seed s = (Some r, s') ->
  exists l' org secret, r = Some secret /\ pg_ok l' s' /\
    (forall s2, pg_ok l' s2 -> pg_db s2 = pg_db s' -> seeded l' s2 org secret).
Proof.
  intros Hok He Ht. destruct (run_OrgIDs l s Hok) as (ids & s1 & E & Hids & Hok1 & Hd1).
  unfold seed. rewrite run_pbind, E. rewrite (proj2 Hids He). rewrite run_pbind.
  pose proof (run_within (PgStore.SeedOrg "Acme Corp") s1 (SeedOrg_tokens _)) as [F2 _].
  pose proof (run_SeedOrg "Acme Corp" l s1 Hok1) as H2. destruct (run (PgStore.SeedOrg _) s1) as [[o pr] s2].
  destruct H2 as (l2 & H2 & Hok2). assert (Ho2 : l_orgs l2 = {[ o_ID o ]}).
  { inversion H2; subst. cbn. by rewrite He, union_empty_r_L. }
  clear H2. cbn [fst snd] in *. rewrite run_pbind.
  pose proof (run_within _ s2 (SetPolicies_tokens (o_ID o) (DefaultSupportPolicies (o_ID o)))) as [F3 _].
  assert (Hin2 : o_ID o ∈ l_orgs l2) by (rewrite Ho2; set_solver).
  assert (Hp2 : plain_text (o_ID o) = true).
  { rewrite (po_orgs _ _ Hok2) in Hin2. exact (canonical_plain _ (canonical_dom _ _ (po_canon_orgs _ _ Hok2) Hin2)). }
  destruct (run_pg_SetPolicies (o_ID o) (DefaultSupportPolicies (o_ID o)) l2 s2 Hok2 Hin2 (default_policies_plain _ Hp2)) as (l3 & Hok3 & Ho3 & v & p & Hp & _ & Ha & Hr).
  destruct (run (PgStore.SetPolicies _ _) s2) as [u s3]. cbn [snd] in *. rewrite run_pbind.
  assert (T3 : db_operator_tokens (pg_db s3) = ∅) by (rewrite F3, F2, Hd1; exact Ht).
  rewrite <- Ho3 in Hin2.
  destruct (run (mustOperatorToken (o_ID o)) s3) as [[secret|] s4] eqn:E4; [|done].
  destruct (run_mustOperatorToken _ l3 s3 secret s4 Hok3 Hin2 T3 E4) as (Hok4 & kid & hash & x & Hs & Hc & Hg).
  cbn [run fmap option_fmap option_map]. intros [= <- <-]. exists l3, (o_ID o), secret. split; [done|]. split; [done|].
  intros s5 Hok5 Hd5. split.
  - by rewrite Ho3.
  - rewrite <- Hr. eapply run_pg_Policies; [done| |done|done].
    pose proof Hok5 as []. rewrite po_orgs in Hin2. by apply (canonical_dom (db_organizations (pg_db s5))).
  - exists kid, hash, x. split; [done|]. split; [done|]. apply Hg. by rewrite Hd5.
Qed.

(** A provider Load returns opens what it sealed, while there are nonces. *)
Lemma Load_honest n p persistent : Load n = Some (p, persistent) -> (forall k, rand_nonce k <> None) ->
  honest (Some (provider_of p)).
Proof.
  intros Hl Hr k secret Hs. unfold sealed_text. rewrite (proj2 (String.eqb_neq secret "") Hs).
  destruct (Seal p k secret) as [sealed|] eqn:Es; [|by destruct (Hr k (Seal_fails n p persistent k secret Hl Es))].
  assert (Hne : sealed <> "") by (intros ->; by apply Seal_marked in Es).
  cbn [kp_Seal provider_of]. rewrite Es. cbn. split; [done|]. unfold opened.
  rewrite (proj2 (String.eqb_neq sealed "") Hne). by apply (Open_Seal p k).
Qed.

Lemma run_boot_database mdb s s' mdb' p secret :
  boot_database mdb s = Some (s', mdb', p, secret) ->
  let s1 := s <| pg_tick := md_tick mdb' |> in
  (forall n, (n, false) ∈ migration_dir -> n ∈ md_versions mdb') /\
  (pg_tick s <= pg_tick s1)%nat /\
  exists s3 persistent, run seed (run Recover s1).2 = (Some secret, s3) /\ Load (pg_tick s3) = Some (p, persistent) /\
    s' = s3 <| pg_tick ::= S |> <| pg_keys := Some (provider_of p) |>.
Proof.
  unfold boot_database. destruct (exec _ s) as [[[]|e] s0] eqn:E0; [|done].
  assert (s0 = s <| pg_tick ::= S |>) as ->.
  { revert E0. unfold exec, q_ret. destruct (stmt_err _); [done|]. cbn. intros [= <-]. by destruct s. }
  set (m0 := MkMigDb _ _ _). pose proof (Migrate_tick m0) as Hm. pose proof (Migrate_complete m0) as Hc.
  destruct (Migrate m0) as [[e|] m1]; [done|]. specialize (Hc _ eq_refl). cbn in Hm.
  change (s <| pg_tick ::= S |> <| pg_tick := md_tick m1 |>) with (s <| pg_tick := md_tick m1 |>).
  destruct (run Recover _) as [counts s2] eqn:E2. destruct (run seed s2) as [[r|] s3] eqn:E3; [|done].
  destruct (Load (pg_tick s3)) as [[q persistent]|] eqn:El; [|done]. cbn [run PgSecrets.SetKeyProvider].
  intros [= <- <- <- <-]. cbn zeta. split; [intros n Hn; by apply Hc, migration_names_complete|]. split; [cbn; lia|].
  rewrite E2. exists s3, persistent. done.
Qed.

End Booted.

(** C23: the process starts in a good state on a database.  When the boot
    succeeds, every migration is applied and the store seals with the loaded
    keys, which open what they seal while there is randomness.  If moreover
    the database is undisturbed during the boot (it refuses no statement from
    outside its constraints and cuts off no result), then on a database with
    organizations nothing is added but audit events of the transactions left
    unfinished, and no secret is printed; and on a database without, there is
    one organization afterwards, its active policies are the support policies,
    and the secret printed is that of its stored operator token.  A
    disturbance can make a successful boot do otherwise: an error of the query
    for organizations reads as no organization, and a second one is seeded. *)
Theorem boot_database_ready `{RL : RuntimeLaws} `{JE : JevEnv} `{SE : Secrets} `{NT : Net} `{CR : Crypto} `{PE : PgEnv}
    `{PL : !PgLaws} `{SL : !SecretsLaws} `{CL : !CryptoLaws} {Sc : Type} `{MI : !Migrations Sc} l s mdb s' mdb' p secret :
  pg_ok l s -> (l_orgs l = ∅ -> db_operator_tokens (pg_db s) = ∅) ->
  boot_database mdb s = Some (s', mdb', p, secret) ->
  (forall n, (n, false) ∈ migration_dir -> n ∈ md_versions mdb') /\
  pg_keys s' = Some (provider_of p) /\
  ((forall k, rand_nonce k <> None) -> honest (pg_keys s')) /\
  (Undisturbed -> l_orgs l <> ∅ -> pg_ok l s' /\ audit_only (pg_db s) (pg_db s') /\ secret = None) /\
  (Undisturbed -> l_orgs l = ∅ -> exists l' org sec, pg_ok l' s' /\ seeded l' s' org sec /\ secret = Some sec).
Proof.
  intros Hok Htok Hb. destruct (run_boot_database mdb s s' mdb' p secret Hb) as (Hmig & Ht & s3 & persistent & E3 & El & ->).
  set (s1 := s <| pg_tick := md_tick mdb' |>) in *. set (s5 := s3 <| pg_tick ::= S |> <| pg_keys := _ |>).
  assert (Hok1 : pg_ok l s1) by (apply (pg_ok_core l s); cbn; [reflexivity|lia|exact Ht|done]).
  assert (Hkeep : forall l', pg_ok l' s3 -> pg_ok l' s5) by (intros l' H; apply (pg_ok_core l' s3); cbn; [reflexivity|lia|lia|done]).
  split; [done|]. split; [done|]. split; [intros Hr; by apply (Load_honest (pg_tick s3) p persistent)|].
  split; intros UD Ho; destruct (run_Recover l s1 Hok1) as (_ & Hok2 & Ha2).
  - destruct (run_seed_existing l _ Hok2 Ho) as (s6 & E6 & Hok6 & D6). rewrite E3 in E6. injection E6 as -> ->.
    split; [by apply Hkeep|]. split; [|done]. change (pg_db s5) with (pg_db s6). by rewrite D6.
  - destruct (run_seed_new l _ secret s3 Hok2 Ho) as (l' & org & sec & -> & Hok6 & Hsd); [|done|].
    { rewrite Ha2. exact (Htok Ho). }
    exists l', org, sec. split; [by apply Hkeep|]. split; [|done]. apply Hsd; [by apply Hkeep|done].
Qed.
