(* ===== verification/Scenario.v ===== *)
(** * Scenario: one concrete history of a server

    An organization, an operator, a support agent under the seeded policies,
    and a transaction with four actions: a small refund (allowed and
    executed), a large one (approved and executed), one that waits for an
    approval, and a denied IAM change.  The witnesses of the theorems about
    reachable states use it. *)

From S2P Require Export Serial.

Open Scope Z_scope.

#[export] Instance scenario_net : Net := demo_net.

#[export] Instance demo_secrets : Secrets := {|
  bcrypt_ok := fun hash secret => String.eqb hash secret;
  bcrypt_hash := fun _ secret => Some secret;
  rand_hex := fun t _ => Some (pretty t) |}.

#[export] Instance demo_uuid_parse : UuidParse := fun _ => true.

#[export] Existing Instance demo.
#[export] Existing Instance jev_off.

Definition operator_request : Request := MkRequest "/v1" "Bearer sto_k_s" "".

(** A request served alone. *)
Definition serve (rt : Route) (w : World) : World :=
  (run (finish (Middleware (route rt) operator_request)) w).2.

Definition propose (tool action idem : string) (args : list (string * value)) : Route :=
  RProposeAction (Some (MkActionBody "u5" "u2" tool action (Some (list_to_map args)) idem)).

Definition demo_seeded : World :=
  (CreateOperatorToken "u0" "op" "k" "sto_k_s" (SeedOrg "acme" (new_world DefaultRegistry)).2).2.

Definition demo_setup : World :=
  (run (SetPolicies "u0" (DefaultSupportPolicies "u0"))
     (serve (RRegisterAgent (Some (MkRegisterBody "u1" "bot" "staging" ["support"]))) demo_seeded)).2.

Definition demo_txn : World :=
  serve (RCreateTxn (Some (MkTxnBody "u2" "u1" "s" "refund"))) demo_setup.

(** The small refund is allowed and executed, the large one waits. *)
Definition demo_proposed : World :=
  serve (propose "iam" "grant" "k4" [])
    (serve (propose "stripe" "refund" "k3" [("amount_cents", VInt 30000)])
       (serve (propose "stripe" "refund" "k2" [("amount_cents", VInt 20000)])
          (serve (propose "stripe" "refund" "k1" [("amount_cents", VInt 500)]) demo_txn))).

Definition execute (id : string) : Route := RActionSub ("/v1/actions/" +:+ id +:+ "/execute").

Definition approve (id : string) : Route :=
  RDecideApproval ("/v1/approvals/" +:+ id +:+ "/decide") (Some (MkDecideBody true "ann")).

Definition demo_executed : World := serve (execute "u7") demo_proposed.

Definition demo_granted : World := serve (approve "u11") demo_executed.

Definition demo_history : World := serve (execute "u9") demo_granted.

(** ** The history is serial, hence reachable *)

#[export] Instance demo_runtime_laws : RuntimeLaws := demo_laws.

Lemma serial_serve rt w : serial w -> serial (serve rt w).
Proof. intros Hr. apply serial_client; [done|constructor]. Qed.

Lemma serial_demo_txn : serial demo_txn.
Proof.
  apply serial_serve, serial_client; [|constructor]. apply serial_serve.
  eapply serial_config; [|apply reconfigure_operator].
  eapply serial_config; [|apply reconfigure_seed]. apply serial_new.
Qed.

Lemma serial_demo_proposed : serial demo_proposed.
Proof. do 4 apply serial_serve. apply serial_demo_txn. Qed.

Lemma serial_demo_granted : serial demo_granted.
Proof. do 2 apply serial_serve. apply serial_demo_proposed. Qed.

Lemma serial_demo_history : serial demo_history.
Proof. apply serial_serve, serial_demo_granted. Qed.

Lemma reachable_demo_proposed : reachable demo_proposed.
Proof. apply serial_reachable, serial_demo_proposed. Qed.

Lemma reachable_demo_history : reachable demo_history.
Proof. apply serial_reachable, serial_demo_history. Qed.

Lemma reachable_demo_granted : reachable demo_granted.
Proof. apply serial_reachable, serial_demo_granted. Qed.

(** A request that is served alone is a sequence of steps of the server. *)
Lemma serve_steps rt ps w : rtc (pool_step client reconfigure) (ps, w) (Ret tt :: ps, serve rt w).
Proof.
  eapply (rtc_l _ _ (finish (Middleware (route rt) operator_request) :: ps, w)); [apply step_spawn, client_request|].
  apply (run_steps client reconfigure [] ps).
Qed.

Lemma demo_last_steps ps : rtc (pool_step client reconfigure) (ps, demo_granted) (Ret tt :: ps, demo_history).
Proof. exact (serve_steps (execute "u9") ps demo_granted). Qed.

Lemma demo_grant_steps ps : rtc (pool_step client reconfigure) (ps, demo_executed) (Ret tt :: ps, demo_granted).
Proof. exact (serve_steps (approve "u11") ps demo_executed). Qed.

Lemma demo_first_steps ps : rtc (pool_step client reconfigure) (ps, demo_proposed) (Ret tt :: ps, demo_executed).
Proof. exact (serve_steps (execute "u7") ps demo_proposed). Qed.

Lemma demo_steps ps : rtc (pool_step client reconfigure) (ps, demo_proposed) (Ret tt :: Ret tt :: Ret tt :: ps, demo_history).
Proof.
  eapply (transitivity (R := rtc (pool_step client reconfigure))); [apply demo_first_steps|].
  eapply (transitivity (R := rtc (pool_step client reconfigure))); [apply demo_grant_steps|apply demo_last_steps].
Qed.

(** The cell of an action, for concrete statements. *)
Definition cell (w : World) (id : string) : TxnAction :=
  default zero_action (st_actions (w_store w) !! id).

#[global] Opaque demo_seeded demo_setup demo_txn demo_proposed demo_executed demo_granted demo_history.
