(* ===== verification/Authorization.v ===== *)
(** * Authorization: what holds in every reachable state of the server

    [reachable w]: some interleaving of requests, gateway operations and
    reconfigurations leads from an empty server to [w].  Every theorem holds
    for all interleavings of critical sections. *)

From S2P Require Export Scenario.

Open Scope Z_scope.

Section Authorization.
Context `{RL : RuntimeLaws} `{JE : JevEnv} `{SE : Secrets} `{UP : UuidParse} `{NT : Net}.

(** C1: no tool is ever executed for an action unless its recorded decision
    is ALLOW or ALLOW_WITH_CONSTRAINTS, or is REQUIRE_APPROVAL and the store
    holds a granted approval of exactly this action in its organization. *)
Theorem no_unauthorised_execution w a :
  reachable w -> CallExecute a ∈ w_calls w ->
  exists d, a_Decision a = Some d /\
    (d_Effect d = EffectAllow \/ d_Effect d = EffectAllowWithConstraints \/
     (d_Effect d = EffectRequireApproval /\
      exists i ap, st_approvals (w_store w) !! i = Some ap /\ ap_OrgID ap = a_OrgID a /\
        ap_ActionID ap = Some (a_ID a) /\ ap_Status ap = ApApproved)).
Proof.
  intros Hr Hc. apply reachable_inv in Hr.
  destruct (inv_calls _ Hr _ Hc) as (_ & (d & Hd & Hau) & _). exists d. split; [done|].
  cbn in *. destruct Hau as [He|[He Hap]]; [|by right; right].
  destruct (d_Effect d); try discriminate He; auto.
Qed.

(** C4: denial is final.  Once an action is denied it stays denied, with the
    same decision and the same request, whatever runs afterwards, and no call
    of a tool, compensator or reconciler is ever made for it. *)
Theorem denied_never_executes c c' id a :
  reachable_config c -> rtc (pool_step client reconfigure) c c' ->
  st_actions (w_store c.2) !! id = Some a -> a_Status a = StDenied ->
  (exists a', st_actions (w_store c'.2) !! id = Some a' /\ a_Status a' = StDenied /\
     a_Decision a' = a_Decision a /\ core_of a' = core_of a) /\
  (forall call, call ∈ w_calls c'.2 -> a_ID (call_action call) <> id).
Proof.
  intros Hr Hs Ha Hd. pose proof (later_mono _ _ Hr Hs) as Hm.
  assert (Hr' : reachable c'.2).
  { destruct Hr as (tools & Hr). exists c'.1, tools. destruct c'. by etrans. }
  apply reachable_inv in Hr'.
  destruct (mono_cells _ _ Hm _ _ Ha) as (a' & Ha' & Hcore & Hev).
  destruct Hev as (Hdec & _ & Hden); [congruence|]. split.
  - exists a'. split; [done|]. split; [by apply Hden|]. done.
  - intros call Hc Hid. destruct (inv_calls _ Hr' _ Hc) as ((b & Hb & _ & _ & _ & Hn) & _).
    rewrite Hid, Ha' in Hb. injection Hb as <-. by apply Hn, Hden.
Qed.

(** C5: statuses tell the truth.  An action is "denied" only under a DENY
    decision, "allowed" never under DENY or REQUIRE_APPROVAL, "approved" only
    with a granted approval, and executed, unknown, failed or compensated
    only if it was authorised and its tool was really called. *)
Theorem status_truthful w id a :
  reachable w -> st_actions (w_store w) !! id = Some a ->
  a_ID a = id /\
  match a_Status a with
  | StZero => False
  | StProposed => True
  | StDenied => decided a EffectDeny
  | StAllowed => exists d, a_Decision a = Some d /\ d_Effect d <> EffectDeny /\
                           d_Effect d <> EffectRequireApproval
  | StAwaitingApproval => decided a EffectRequireApproval
  | StApproved => decided a EffectRequireApproval /\ approved_by w a
  | _ => authorised w a /\ exists b, CallExecute b ∈ w_calls w /\ a_ID b = id
  end.
Proof.
  intros Hr Ha. apply reachable_inv in Hr.
  destruct (inv_cells _ Hr _ _ Ha) as (Hid & _ & Hok). split; [done|].
  unfold cell_ok, called in Hok. rewrite Hid in Hok. by destruct (a_Status a).
Qed.

(** C7: a receipt is evidence.  Every receipt names a stored action of the
    same organization, transaction, tool, action and argument hash, records
    the decision that action was taken under with its policy version, and the
    action was authorised and its tool called. *)
Theorem receipts_are_evidence w r :
  reachable w -> r ∈ st_receiptsList (w_store w) ->
  exists a d, st_actions (w_store w) !! r_ActionID r = Some a /\
    a_OrgID a = r_OrgID r /\ a_TransactionID a = r_TransactionID r /\
    a_Tool a = r_Tool r /\ a_Action a = r_Action r /\ a_ArgumentsHash a = r_ArgumentsHash r /\
    a_AmountCents a = r_FinancialCents r /\
    a_Decision a = Some d /\ d_Effect d = r_Decision r /\ d_PolicyVersion d = r_PolicyVersion r /\
    r_Decision r <> EffectDeny /\ authorised w a /\
    exists b, CallExecute b ∈ w_calls w /\ a_ID b = r_ActionID r.
Proof.
  intros Hr Hin. apply reachable_inv in Hr.
  destruct (inv_receipts _ Hr _ Hin) as (a & d & ? & ? & ? & ? & ? & ? & ? & ? & Hd & He & ? & Hau & ?).
  exists a, d. repeat (split; [done|]). split; [|done]. rewrite <- He.
  destruct Hau as (d' & Hd' & Hau). rewrite Hd in Hd'. injection Hd' as <-.
  destruct Hau as [Hau|[Hau _]]; [|congruence]. by destruct (d_Effect d).
Qed.

(** C19: the receipt chain of every organization verifies in every reachable
    state: VerifyChain always reports -1 on a store only the program wrote. *)
Theorem receipt_chain_always_verifies w orgID :
  reachable w -> fst (VerifyChain orgID w) = -1.
Proof. intros Hr. apply reachable_inv in Hr. apply (inv_chain _ Hr orgID). Qed.

(** C9: idempotency.  Under any concurrency two stored actions never share
    organization, transaction and idempotency key, and a repeated proposal
    returns the stored action and leaves the world as it is. *)
Theorem one_action_per_idempotency_key w :
  reachable w ->
  (forall i j a b, st_actions (w_store w) !! i = Some a -> st_actions (w_store w) !! j = Some b ->
     a_OrgID a = a_OrgID b -> a_TransactionID a = a_TransactionID b ->
     a_IdempotencyKey a = a_IdempotencyKey b -> i = j) /\
  (forall i a b, st_actions (w_store w) !! i = Some a ->
     a_OrgID b = a_OrgID a -> a_TransactionID b = a_TransactionID a ->
     a_IdempotencyKey b = a_IdempotencyKey a -> AddAction b w = ((a, true), w)).
Proof.
  intros Hr. apply reachable_inv in Hr.
  assert (Hkey : forall i a, st_actions (w_store w) !! i = Some a ->
    st_byIdem (w_store w) !! idemKey a = Some i) by (intros i a Ha; apply (inv_idem _ Hr); eauto).
  split.
  - intros i j a b Ha Hb Ho Ht Hk. apply Hkey in Ha, Hb.
    assert (idemKey a = idemKey b) as Hab by (unfold idemKey; congruence).
    rewrite Hab in Ha. congruence.
  - intros i a b Ha Ho Ht Hk. apply run_AddAction_dup.
    assert (idemKey b = idemKey a) as -> by (unfold idemKey; congruence).
    unfold prev_action. by rewrite (Hkey _ _ Ha).
Qed.

(** C38: history is append-only.  Whatever runs later, the trace of calls and
    the audit log only grow, no action disappears or changes what it asks
    for, a decision never changes once the action has left "proposed", and a
    decided approval is never decided again. *)
Theorem history_append_only c c' :
  reachable_config c -> rtc (pool_step client reconfigure) c c' ->
  w_calls c.2 `prefix_of` w_calls c'.2 /\
  st_audit (w_store c.2) `prefix_of` st_audit (w_store c'.2) /\
  (forall id a, st_actions (w_store c.2) !! id = Some a ->
     exists a', st_actions (w_store c'.2) !! id = Some a' /\ core_of a' = core_of a /\
       (a_Status a <> StProposed -> a_Decision a' = a_Decision a /\ a_Status a' <> StProposed)) /\
  (forall i ap, st_approvals (w_store c.2) !! i = Some ap ->
     exists ap', st_approvals (w_store c'.2) !! i = Some ap' /\
       ap_ActionID ap' = ap_ActionID ap /\ (ap_Status ap <> ApPending -> ap' = ap)).
Proof.
  intros Hr Hs. destruct (later_mono _ _ Hr Hs) as [_ C A K E].
  split; [done|]. split; [done|]. split.
  - intros id a Ha. destruct (C _ _ Ha) as (a' & ? & ? & Hev). exists a'.
    split; [done|]. split; [done|]. intros Hp. by destruct (Hev Hp) as (? & ? & _).
  - intros i ap Hap. destruct (A _ _ Hap) as (ap' & ? & _ & _ & ? & ?). by exists ap'.
Qed.

End Authorization.

(** ** The theorems at the concrete history *)

(** The copy of action u9 its tool was called with. *)
Definition demo_call : TxnAction := call_action (nth 1 (w_calls demo_history) (CallExecute zero_action)).

Lemma demo_call_in : CallExecute demo_call ∈ w_calls demo_history.
Proof.
  apply (list_elem_of_lookup_2 _ 1%nat). vm_compute. reflexivity.
Qed.

Lemma no_unauthorised_execution_witness :
  exists d, a_Decision demo_call = Some d /\
    (d_Effect d = EffectAllow \/ d_Effect d = EffectAllowWithConstraints \/
     (d_Effect d = EffectRequireApproval /\
      exists i ap, st_approvals (w_store demo_history) !! i = Some ap /\
        ap_OrgID ap = a_OrgID demo_call /\
        ap_ActionID ap = Some (a_ID demo_call) /\ ap_Status ap = ApApproved)).
Proof.
  exact (no_unauthorised_execution demo_history demo_call reachable_demo_history demo_call_in).
Defined.

Lemma serial_at_most_once_witness :
  exists c, st_actions (w_store demo_history) !! a_ID demo_call = Some c /\ final (a_Status c) = true.
Proof. exact (proj2 (serial_at_most_once demo_history serial_demo_history) demo_call demo_call_in). Defined.

(** Action u17, the IAM change, was denied. *)
Definition demo_denied : TxnAction := cell demo_proposed "u17".

Lemma demo_denied_cell : st_actions (w_store demo_proposed) !! "u17" = Some demo_denied.
Proof. vm_compute. reflexivity. Qed.

Lemma demo_denied_status : a_Status demo_denied = StDenied.
Proof. vm_compute. reflexivity. Qed.

(** A configuration whose world is [demo_proposed]. *)
Lemma demo_config : exists ps, reachable_config (ps, demo_proposed).
Proof. exact reachable_demo_proposed. Qed.

(** The denied action while two others are executed and one is approved. *)
Lemma denied_never_executes_witness :
  (exists a', st_actions (w_store demo_history) !! "u17" = Some a' /\
     a_Status a' = StDenied /\ a_Decision a' = a_Decision demo_denied /\
     core_of a' = core_of demo_denied) /\
  (forall call, call ∈ w_calls demo_history -> a_ID (call_action call) <> "u17").
Proof.
  destruct demo_config as [ps Hps].
  exact (denied_never_executes (ps, demo_proposed) (Ret tt :: Ret tt :: Ret tt :: ps, demo_history) "u17" demo_denied Hps
           (demo_steps ps) demo_denied_cell demo_denied_status).
Defined.

Lemma status_truthful_witness :
  a_ID demo_denied = "u17" /\
  match a_Status demo_denied with
  | StZero => False
  | StProposed => True
  | StDenied => decided demo_denied EffectDeny
  | StAllowed => exists d, a_Decision demo_denied = Some d /\ d_Effect d <> EffectDeny /\
                           d_Effect d <> EffectRequireApproval
  | StAwaitingApproval => decided demo_denied EffectRequireApproval
  | StApproved => decided demo_denied EffectRequireApproval /\ approved_by demo_proposed demo_denied
  | _ => authorised demo_proposed demo_denied /\
         exists b, CallExecute b ∈ w_calls demo_proposed /\ a_ID b = "u17"
  end.
Proof. exact (status_truthful demo_proposed "u17" demo_denied reachable_demo_proposed demo_denied_cell). Defined.

(** The receipt of action u7. *)
Definition demo_receipt : Receipt := nth 0 (st_receiptsList (w_store demo_history)) zero_receipt.

Lemma demo_receipt_in : demo_receipt ∈ st_receiptsList (w_store demo_history).
Proof. apply (list_elem_of_lookup_2 _ 0%nat). vm_compute. reflexivity. Qed.

Lemma receipts_are_evidence_witness :
  exists a d, st_actions (w_store demo_history) !! r_ActionID demo_receipt = Some a /\
    a_Decision a = Some d /\ d_Effect d = r_Decision demo_receipt.
Proof.
  destruct (receipts_are_evidence demo_history demo_receipt reachable_demo_history demo_receipt_in)
    as (a & d & Ha & _ & _ & _ & _ & _ & _ & Hd & He & _).
  exists a, d. exact (conj Ha (conj Hd He)).
Defined.

Lemma receipt_chain_always_verifies_witness : fst (VerifyChain "u0" demo_history) = -1.
Proof. exact (receipt_chain_always_verifies demo_history "u0" reachable_demo_history). Defined.

Lemma demo_executed_cell : st_actions (w_store demo_history) !! "u7" = Some (cell demo_history "u7").
Proof. vm_compute. reflexivity. Qed.

Lemma one_action_per_idempotency_key_witness :
  AddAction (cell demo_history "u7") demo_history = ((cell demo_history "u7", true), demo_history).
Proof.
  exact (proj2 (one_action_per_idempotency_key demo_history reachable_demo_history) "u7"
           (cell demo_history "u7") (cell demo_history "u7") demo_executed_cell eq_refl eq_refl eq_refl).
Defined.

(** The grant of the large refund: what there was, and what executing it adds. *)
Definition granted_approval : Approval :=
  default (MkApproval "" "" "" None "" "" None ApZero "" None 0) (st_approvals (w_store demo_granted) !! "u11").

Lemma granted_before :
  length (w_calls demo_granted) = 1%nat /\ st_actions (w_store demo_granted) !! "u9" = Some (cell demo_granted "u9") /\
  a_Status (cell demo_granted "u9") = StApproved /\
  st_approvals (w_store demo_granted) !! "u11" = Some granted_approval /\ ap_Status granted_approval = ApApproved.
Proof. split_and!; vm_compute; reflexivity. Qed.

Lemma granted_after :
  length (w_calls demo_history) = 2%nat /\ st_actions (w_store demo_history) !! "u9" = Some (cell demo_history "u9") /\
  a_Status (cell demo_history "u9") = StExecuted /\
  (length (st_audit (w_store demo_granted)) < length (st_audit (w_store demo_history)))%nat.
Proof. split_and!; first [vm_compute; reflexivity | apply Nat.ltb_lt; vm_compute; reflexivity]. Qed.

Lemma history_append_only_witness :
  (length (w_calls demo_granted) = 1%nat /\ length (w_calls demo_history) = 2%nat /\
   w_calls demo_granted `prefix_of` w_calls demo_history) /\
  ((length (st_audit (w_store demo_granted)) < length (st_audit (w_store demo_history)))%nat /\
   st_audit (w_store demo_granted) `prefix_of` st_audit (w_store demo_history)) /\
  (a_Status (cell demo_granted "u9") = StApproved /\ a_Status (cell demo_history "u9") = StExecuted /\
   core_of (cell demo_history "u9") = core_of (cell demo_granted "u9") /\
   a_Decision (cell demo_history "u9") = a_Decision (cell demo_granted "u9")) /\
  (ap_Status granted_approval = ApApproved /\ st_approvals (w_store demo_history) !! "u11" = Some granted_approval).
Proof.
  destruct granted_before as (C1 & A1 & S1 & P1 & Q1), granted_after as (C2 & A2 & S2 & L2).
  destruct reachable_demo_granted as [ps Hps].
  destruct (history_append_only (ps, demo_granted) (Ret tt :: ps, demo_history) Hps (demo_last_steps ps)) as (Hc & He & Ha & Hp).
  split; [exact (conj C1 (conj C2 Hc))|]. split; [exact (conj L2 He)|]. split.
  - destruct (Ha "u9" _ A1) as (a' & Ha' & Hcore & Hd).
    assert (a' = cell demo_history "u9") as -> by exact (inj Some _ _ (eq_trans (eq_sym Ha') A2)).
    split; [exact S1|]. split; [exact S2|]. split; [exact Hcore|]. apply Hd. rewrite S1. discriminate.
  - destruct (Hp "u11" _ P1) as (ap' & Hap & _ & Hsame). split; [exact Q1|].
    rewrite <- Hsame; [exact Hap|]. rewrite Q1. discriminate.
Defined.
