(* ===== verification/Witnesses.v ===== *)
(** * Witnesses: the theorems of the components at concrete inputs *)

From Stdlib Require Import Ascii.
From S2P Require Export Authorization ApprovalSpec AuthSpec ApiSpec ReceiptTamper StoreSpec.

Open Scope Z_scope.

(** ** Authentication *)

(** The operator token of the scenario. *)
Definition demo_token : opToken := default (MkOpToken "" "" "" true 0) (st_opTokens (w_store demo_history) !! "k").

Lemma demo_token_in :
  st_opTokens (w_store demo_history) !! "k" =
    Some (MkOpToken "u0" "op" "sto_k_s" false (ot_lastUsed demo_token)).
Proof. vm_compute. reflexivity. Qed.

Lemma demo_operator_keyed :
  keyed (w_store demo_history) "sto_k_s" (MkIdentity "u0" "" true "op" "k").
Proof. exact (keyed_operator _ "sto_k_s" "k" "s" _ _ _ _ eq_refl eq_refl demo_token_in eq_refl). Qed.

Lemma Authenticate_exact_witness :
  fst (run (Authenticate "sto_k_s" "elsewhere") demo_history) = Some (MkIdentity "u0" "" true "op" "k").
Proof.
  pose proof (Authenticate_exact "sto_k_s" "elsewhere" demo_history) as H. revert H.
  destruct (run (Authenticate "sto_k_s" "elsewhere") demo_history) as [r w'].
  intros (_ & Hk & _). exact (Hk _ demo_operator_keyed).
Defined.

Lemma Middleware_gate_witness :
  let '(ans, w') := run (Middleware (fun id => Ret id) operator_request) demo_history in
  match ans with
  | Served a => exists secret id w1, rq_Authorization operator_request = "Bearer " +:+ secret /\
      (keyed (w_store demo_history) secret id \/
       legacy (w_store demo_history) secret (rq_OrgHeader operator_request) id) /\
      only_stamps demo_history w1 /\ run (Ret (Some id)) w1 = (a, w')
  | Rejected status code => only_stamps demo_history w' /\
      (status = 401 /\ (code = "missing_credentials" \/ code = "invalid_credentials") \/
       status = 429 /\ code = "rate_limited")
  end.
Proof.
  pose proof (Middleware_gate (fun id => Ret id) operator_request demo_history eq_refl) as H.
  cbv beta in H. exact H.
Defined.

(** Three requests in a second against a limit of two a minute. *)
Definition demo_requests : list (string * time) := [("k", 0); ("k", 1); ("j", 1); ("k", 2)].

Lemma demo_requests_sorted : StronglySorted (fun p q : string * time => p.2 <= q.2) demo_requests.
Proof. repeat constructor; cbn; lia. Qed.

Lemma limiter_bound_witness :
  passed "k" 0 demo_requests (NewLimiter 2 60) = 2 /\
  passed "k" 0 demo_requests (NewLimiter 2 60) <= 2 * 2.
Proof.
  split; [vm_compute; reflexivity|].
  refine (limiter_bound 2 60 "k" 0 demo_requests _ _ demo_requests_sorted); lia.
Defined.

(** ** The API *)

(** The agent of the scenario. *)
Definition demo_agent_identity : option Identity := Some (MkIdentity "u0" "u2" false "" "").

Lemma agents_cannot_overreach_witness :
  exists code why msg,
    run (route (RRevokeGrant "g") demo_agent_identity) demo_history =
      (MkResponse code (BError why msg), demo_history) /\
    (operator_only (RRevokeGrant "g") = true -> code = 401 \/ code = 403) /\ 400 <= code < 500.
Proof.
  exact (agents_cannot_overreach (RRevokeGrant "g") demo_agent_identity demo_history eq_refl
           (or_introl eq_refl)).
Defined.

(** ** The gateway *)

Definition demo_transaction : Transaction :=
  default (MkTransaction "" "" "" "" "" "" TxnZero None 0 0) (st_txns (w_store demo_txn) !! "u5").

Lemma demo_transaction_in : st_txns (w_store demo_txn) !! "u5" = Some demo_transaction.
Proof. vm_compute. reflexivity. Qed.

Lemma demo_transaction_org : t_OrgID demo_transaction = "u0".
Proof. vm_compute. reflexivity. Qed.

Lemma demo_transaction_open : is_terminal (t_Status demo_transaction) = false.
Proof. vm_compute. reflexivity. Qed.

Definition demo_agent : Agent :=
  default (MkAgent "" "" "" "" [] "" "" 0) (st_agents (w_store demo_txn) !! "u2").

Lemma demo_agent_in : st_agents (w_store demo_txn) !! "u2" = Some demo_agent.
Proof. vm_compute. reflexivity. Qed.

Lemma demo_agent_org : ag_OrgID demo_agent = "u0".
Proof. vm_compute. reflexivity. Qed.

Lemma demo_key_new : prev_action (w_store demo_txn) ("u0" +:+ "|" +:+ "u5" +:+ "|" +:+ "k9") = None.
Proof. vm_compute. reflexivity. Qed.

Definition demo_args : gomap := Some (<[ "amount_cents" := VInt 700 ]> ∅).

Lemma ProposeAction_decides_witness :
  exists d w' a, run (ProposeAction "u0" "u5" "u2" "stripe" "refund" demo_args "k9") demo_txn = (Ok a, w') /\
    a_Decision a = Some d /\ a_Status a = outcome (d_Effect d) /\ w_calls w' = w_calls demo_txn.
Proof.
  destruct (ProposeAction_decides "u0" "u5" "u2" "stripe" "refund" demo_args "k9" demo_txn
    demo_transaction demo_agent demo_transaction_in demo_transaction_org demo_transaction_open
    demo_agent_in demo_agent_org demo_key_new) as (d & w' & Hrun & (Hd & Hs & Hc & _) & _).
  exists d, w'. eexists. exact (conj Hrun (conj Hd (conj Hs Hc))).
Defined.

Lemma Simulate_verdict_witness :
  exists si, fst (run (Simulate "u0" "u2" "stripe" "refund" demo_args) demo_txn) = Ok si.
Proof.
  destruct (Simulate_verdict "u0" "u2" "stripe" "refund" demo_args demo_txn demo_agent demo_agent_in
    demo_agent_org) as (si & n & m & act & _ & Hok & _).
  exists si. exact Hok.
Defined.

(** Action u7, allowed and not yet executed. *)
Definition demo_allowed : TxnAction := cell demo_proposed "u7".

Lemma demo_allowed_in : st_actions (w_store demo_proposed) !! a_ID demo_allowed = Some demo_allowed.
Proof. vm_compute. reflexivity. Qed.

Lemma demo_allowed_org : a_OrgID demo_allowed = "u0".
Proof. vm_compute. reflexivity. Qed.

Lemma demo_allowed_decided : a_Decision demo_allowed <> None.
Proof. vm_compute. discriminate. Qed.

Lemma demo_allowed_executable :
  bool_decide (a_Status demo_allowed = StExecuted) = false /\ executable demo_allowed = true.
Proof. split; vm_compute; reflexivity. Qed.

Lemma execution_outcome_witness :
  executes "u0" demo_allowed demo_proposed (run (ExecuteAllowed "u0" (a_ID demo_allowed)) demo_proposed).
Proof.
  pose proof (proj1 (execution_outcome "u0" demo_proposed demo_allowed demo_allowed_in demo_allowed_org
    demo_allowed_decided)) as H.
  destruct demo_allowed_executable as [H1 H2]. cbv zeta in H. rewrite H1, H2 in H. exact H.
Defined.

Lemma demo_allowed_known : bool_decide (a_Status demo_allowed = StUnknown) = false.
Proof. vm_compute. reflexivity. Qed.

(** The action after a call whose outcome is not known, at a tool whose
    reconciler finds the effect. *)
Definition demo_unknown : TxnAction := demo_allowed <| a_Status := StUnknown |>.

Definition demo_finder : Reconciler := fun _ _ _ => inl (true, Some {[ "refund_id" := VString "re_1" ]}).

Definition demo_in_doubt : World :=
  demo_proposed <| w_store ::= fun s => s <| st_actions ::= <[ "u7" := demo_unknown ]> |> |>
    <| w_tools ::= RegisterReconciler "stripe" "refund" demo_finder |>.

Lemma demo_in_doubt_cell : st_actions (w_store demo_in_doubt) !! a_ID demo_unknown = Some demo_unknown /\
  a_OrgID demo_unknown = "u0" /\ bool_decide (a_Status demo_unknown = StUnknown) = true /\
  ReconcilerFor (w_tools demo_in_doubt) (a_Tool demo_unknown) (a_Action demo_unknown) = Some demo_finder /\
  w_calls demo_in_doubt = [].
Proof. split_and!; vm_compute; reflexivity. Qed.

Lemma demo_unknown_decided : a_Decision demo_unknown <> None.
Proof. vm_compute. discriminate. Qed.

(** Refused where the outcome is known; otherwise the reconciler is asked
    once and settles the action. *)
Lemma Reconcile_settles_witness :
  refused demo_proposed (run (Reconcile "u0" (a_ID demo_allowed)) demo_proposed) /\
  (let out := run (Reconcile "u0" (a_ID demo_unknown)) demo_in_doubt in
   w_calls (snd out) = [CallReconcile demo_unknown] /\
   fst out = Ok (reconciled_cell demo_unknown true (Some {[ "refund_id" := VString "re_1" ]}))).
Proof.
  split.
  - pose proof (Reconcile_settles "u0" demo_proposed demo_allowed demo_allowed_in demo_allowed_org
      demo_allowed_decided) as H.
    cbv zeta in H. rewrite demo_allowed_known in H. exact H.
  - destruct demo_in_doubt_cell as (Hc & Ho & Hu & Hr & Hn).
    pose proof (Reconcile_settles "u0" demo_in_doubt demo_unknown Hc Ho demo_unknown_decided) as H.
    cbv zeta in H |- *. rewrite Hu in H. unfold reconciles in H. rewrite Hr, Hn in H.
    destruct H as (H1 & _ & n & H2 & _). exact (conj H1 H2).
Defined.

(** The approval of action u13, still pending. *)
Definition demo_approval : Approval :=
  default (MkApproval "" "" "" None "" "" None ApZero "" None 0) (st_approvals (w_store demo_proposed) !! "u15").

Definition demo_awaiting : TxnAction := cell demo_proposed "u13".

Definition demo_awaiting_txn : Transaction :=
  default demo_transaction (st_txns (w_store demo_proposed) !! "u5").

Lemma demo_approval_in : st_approvals (w_store demo_proposed) !! "u15" = Some demo_approval.
Proof. vm_compute. reflexivity. Qed.

Lemma demo_approval_facts :
  ap_OrgID demo_approval = "u0" /\ ap_Status demo_approval = ApPending /\
  ap_ActionID demo_approval = Some "u13" /\ ap_TransactionID demo_approval = "u5".
Proof. vm_compute. auto. Qed.

Lemma demo_awaiting_in : st_actions (w_store demo_proposed) !! "u13" = Some demo_awaiting.
Proof. vm_compute. reflexivity. Qed.

Lemma demo_awaiting_facts : a_ID demo_awaiting = "u13" /\ a_OrgID demo_awaiting = "u0".
Proof. vm_compute. auto. Qed.

Lemma demo_awaiting_txn_in :
  st_txns (w_store demo_proposed) !! ap_TransactionID demo_approval = Some demo_awaiting_txn.
Proof. vm_compute. reflexivity. Qed.

Lemma demo_awaiting_txn_facts :
  t_OrgID demo_awaiting_txn = "u0" /\ t_ID demo_awaiting_txn = ap_TransactionID demo_approval.
Proof. vm_compute. auto. Qed.

Definition demo_operator_identity : option Identity := Some (MkIdentity "u0" "" true "op" "k").

Lemma decision_takes_effect_witness :
  exists at1 w', run (handleDecideApproval demo_operator_identity true "/v1/approvals/u15/decide"
      (Some (MkDecideBody true "ann"))) demo_proposed =
    (MkResponse 200 (BApproval (decided_approval demo_approval (MkDecideBody true "ann") at1)), w') /\
    st_actions (w_store w') = <[ "u13" := demo_awaiting <| a_Status := StApproved |> ]>
      (st_actions (w_store demo_proposed)).
Proof.
  destruct demo_approval_facts as (H1 & H2 & H3 & _).
  destruct demo_awaiting_facts as (H4 & H5). destruct demo_awaiting_txn_facts as (H6 & H7).
  destruct (decision_takes_effect demo_operator_identity "/v1/approvals/u15/decide" "u15"
    (MkDecideBody true "ann") demo_proposed demo_approval "u13" demo_awaiting demo_awaiting_txn
    eq_refl eq_refl demo_approval_in H1 H2 H3 demo_awaiting_in H4 H5 demo_awaiting_txn_in H6 H7)
    as (at1 & at2 & w' & Hrun & _ & Ha & _).
  exists at1, w'. exact (conj Hrun Ha).
Defined.

(** A provider that signs by prefixing its key. *)
Definition demo_provider : Provider := {|
  kp_KeyID := "key-1";
  kp_Sign := fun h => "s" +:+ h;
  kp_Verify := fun h sig => String.eqb sig ("s" +:+ h);
  kp_Seal := fun _ s => Some ("x" +:+ s);
  kp_Open := fun s => Some (TrimPrefix s "x") |}.

Lemma demo_provider_sound h : kp_Verify demo_provider h (kp_Sign demo_provider h) = true.
Proof. apply string_eqb_refl. Qed.

Lemma issued_receipt_verifies_witness :
  fst (sigOK (Some demo_provider) (issued (Some demo_provider) "r1" "" zero_receipt)) = true.
Proof.
  exact (proj1 (issued_receipt_verifies demo_provider "r1" "" zero_receipt
    ltac:(discriminate) ltac:(discriminate) demo_provider_sound)).
Defined.

(** The transaction of the scenario has a pending approval. *)
Lemma demo_not_committable : ~ committable "u0" "u5" (w_store demo_history).
Proof.
  intros [_ Hall].
  assert (H : st_actions (w_store demo_history) !! "u13" = Some (cell demo_history "u13"))
    by (vm_compute; reflexivity).
  assert (Ht : in_txn "u0" "u5" (cell demo_history "u13")) by (vm_compute; auto).
  specialize (Hall _ _ H Ht). revert Hall. vm_compute. discriminate.
Qed.

Lemma Commit_exact_witness :
  exists e, fst (run (Commit "u0" "u5") demo_history) = Err None e.
Proof.
  pose proof (Commit_exact "u0" "u5" demo_history) as H. revert H.
  destruct (run (Commit "u0" "u5") demo_history) as [r w'].
  intros [_ H]. exact (proj1 (H demo_not_committable)).
Defined.

Lemma demo_rolled_back : fst (run (CompensateTransaction "u0" "u5") demo_history) = Ok TxnRolledBack.
Proof. vm_compute. reflexivity. Qed.

Lemma demo_executed_facts :
  in_txn "u0" "u5" (cell demo_history "u7") /\ a_Status (cell demo_history "u7") = StExecuted.
Proof. vm_compute. auto. Qed.

Lemma rolled_back_is_honest_witness :
  exists w', run (CompensateTransaction "u0" "u5") demo_history = (Ok TxnRolledBack, w') /\
    CallCompensate (cell demo_history "u7") ∈ w_calls w'.
Proof.
  pose proof (rolled_back_is_honest "u0" "u5" demo_history) as H. pose proof demo_rolled_back as Hr.
  destruct demo_executed_facts as [Ht Hs]. revert H Hr.
  destruct (run (CompensateTransaction "u0" "u5") demo_history) as [r w'].
  intros [_ H] Hr. exists w'. cbn [fst] in Hr.
  destruct (H Hr "u7" (cell demo_history "u7") demo_executed_cell Ht Hs) as (_ & Hc & _).
  split; [|exact Hc]. f_equal. exact Hr.
Defined.

(** ** Policies *)

Definition demo_input : EvalInput :=
  MkEvalInput (MkAgent "a" "o" "p" "bot" ["support"] "staging" "active" 0)
    (zero_action <| a_Tool := "stripe" |> <| a_Action := "refund" |> <| a_AmountCents := Some 20000 |>).

Definition demo_rules : list PolicyRule := DefaultSupportPolicies "o".

Lemma Evaluate_lowest_priority_wins_witness :
  (exists r, r ∈ demo_rules /\ ruleMatches 0 r demo_input = true /\
     (forall r', r' ∈ demo_rules -> pr_Priority r' < pr_Priority r -> ruleMatches 0 r' demo_input = false) /\
     Evaluate (fun _ => 0) demo_rules 1 demo_input =
       MkPolicyDecision (pr_Effect r) (pr_ID r) (pr_Explanation r) "" 1) \/
  (forall r, r ∈ demo_rules -> ruleMatches 0 r demo_input = false) /\
  Evaluate (fun _ => 0) demo_rules 1 demo_input = default_decision demo_input.
Proof. exact (Evaluate_lowest_priority_wins 0 demo_rules 1 demo_input). Defined.

Lemma demo_priorities : NoDup (pr_Priority <$> demo_rules).
Proof. apply (bool_decide_unpack _). vm_compute. exact I. Qed.

Lemma Evaluate_order_independent_witness :
  Evaluate (fun _ => 0) demo_rules 1 demo_input = Evaluate (fun _ => 0) (reverse demo_rules) 1 demo_input.
Proof.
  exact (Evaluate_order_independent 0 demo_rules (reverse demo_rules) 1 demo_input
    (Permutation_sym (reverse_Permutation demo_rules)) demo_priorities).
Defined.

Definition demo_small : EvalInput :=
  MkEvalInput (in_Agent demo_input) ((in_Action demo_input) <| a_AmountCents := Some 500 |>).

Lemma demo_small_allowed : d_Effect (Evaluate (fun _ => 0) demo_rules 1 demo_small) = EffectAllow.
Proof. vm_compute. reflexivity. Qed.

Lemma Evaluate_allow_justified_witness :
  (exists r n, r ∈ demo_rules /\ ruleMatches ((fun _ : nat => 0) n) r demo_small = true /\
     pr_Effect r = EffectAllow) \/
  (forall c, c ∈ a_Classes (in_Action demo_small) -> c = ClassReadOnly).
Proof. exact (Evaluate_allow_justified (fun _ => 0) demo_rules 1 demo_small demo_small_allowed). Defined.

Lemma demo_support : "support" ∈ ag_Groups (in_Agent demo_input).
Proof. by left. Qed.

Lemma default_refund_tiers_witness :
  d_Effect (Evaluate (fun _ => 0) demo_rules 1 demo_input) = EffectRequireApproval.
Proof. exact (default_refund_tiers (fun _ => 0) "o" 1 demo_input demo_support eq_refl eq_refl). Defined.

Definition demo_iam : EvalInput :=
  MkEvalInput (in_Agent demo_input) (zero_action <| a_Tool := "iam" |> <| a_Action := "grant" |>).

Lemma default_iam_denied_witness :
  d_Effect (Evaluate (fun _ => 0) demo_rules 1 demo_iam) = EffectDeny.
Proof. exact (default_iam_denied (fun _ => 0) "o" 1 demo_iam eq_refl). Defined.

(** ** The store *)

Lemma demo_policies_ok : policies_ok (w_store demo_history).
Proof. exact (inv_policies _ (reachable_inv _ reachable_demo_history)). Qed.

Lemma ActivatePolicySet_exclusive_witness :
  fst (ActivatePolicySet "u0" 1 demo_history) = true <->
  exists q, q ∈ sets_of (w_store demo_history) "u0" /\ ps_Version q = 1.
Proof.
  pose proof (ActivatePolicySet_exclusive "u0" 1 demo_history
    (MkPolicySet "" "" 0 [] PsDraft "" 0) demo_policies_ok) as H. revert H.
  destruct (ActivatePolicySet "u0" 1 demo_history) as [ok w']. intros [H _]. exact H.
Defined.

Lemma SetPolicies_effective_witness :
  fst (Policies "u0" (run (SetPolicies "u0" demo_rules) demo_history).2) = demo_rules.
Proof. exact (proj1 (SetPolicies_effective "u0" demo_rules demo_history demo_policies_ok)). Defined.

Lemma reads_are_tenant_scoped_witness :
  fst (GetAction "u0" "u7" demo_history) = Some (cell demo_history "u7").
Proof.
  exact (proj2 (proj1 (proj2 (reads_are_tenant_scoped "u0" demo_history)) "u7" (cell demo_history "u7"))
    (conj demo_executed_cell (proj1 (proj1 demo_executed_facts)))).
Defined.

(** ** The receipt chain *)

Definition demo_receipts : list Receipt := st_receiptsList (w_store demo_history).

Lemma demo_receipts_verify : verify_loop "u0" demo_receipts 0 "" = -1.
Proof. vm_compute. reflexivity. Qed.

Definition plainb (r : Receipt) : bool :=
  is_ascii (r_ActionID r) && is_ascii (r_ArgumentsHash r) &&
  is_ascii (PolicyEffect_str (r_Decision r)) && is_ascii (r_ResultHash r) &&
  is_ascii (r_Tool r) && is_ascii (r_TransactionID r) &&
  bool_decide (is_Some (format_time (r_CompletedAt r))) &&
  bool_decide (is_Some (format_time (r_StartedAt r))).

Lemma plainb_sound l : forallb plainb l = true -> Forall plain l.
Proof.
  intros H. apply Forall_forall. intros r Hr. apply list_elem_of_In in Hr.
  pose proof (proj1 (forallb_forall _ _) H r Hr) as Hp. unfold plainb in Hp. bool_guards.
  unfold plain. do 6 (split; [done|]). split.
  - intros He. match goal with H : is_Some (format_time (r_CompletedAt r)) |- _ =>
      rewrite He in H; by destruct H end.
  - intros He. match goal with H : is_Some (format_time (r_StartedAt r)) |- _ =>
      rewrite He in H; by destruct H end.
Qed.

Lemma demo_receipts_plainb : forallb plainb (chain_of "u0" demo_receipts) = true.
Proof. vm_compute. reflexivity. Qed.

Lemma demo_receipts_plain : Forall plain (chain_of "u0" demo_receipts).
Proof. exact (plainb_sound _ demo_receipts_plainb). Qed.

(** A chain of one receipt; the same with another amount, which the payload
    does not carry; and a forgery for another action, which the digest of the
    example runtime does not tell apart. *)
Definition demo_one : list Receipt := take 1 demo_receipts.

Definition demo_rewritten : list Receipt := (fun r => unbound_change r (Some 1) "none" "other" "agent") <$> demo_one.

Definition demo_forged : list Receipt := (fun r => r <| r_ActionID := "u8" |>) <$> demo_one.

Lemma demo_chains_plain : Forall plain (chain_of "u0" demo_one) /\ Forall plain (chain_of "u0" demo_rewritten) /\
  Forall plain (chain_of "u0" demo_forged).
Proof. split_and!; apply plainb_sound; vm_compute; reflexivity. Qed.

Lemma demo_chains_verify : verify_loop "u0" demo_one 0 "" = -1 /\ verify_loop "u0" demo_rewritten 0 "" = -1 /\
  verify_loop "u0" demo_forged 0 "" = -1.
Proof. split_and!; vm_compute; reflexivity. Qed.

Definition hash_input (r : Receipt) : string := r_PrevHash r +:+ nul +:+ marshal (receipt_payload r).

Lemma demo_inputs_agree :
  forallb (fun r => forallb (fun r' => String.eqb (hash_input r) (hash_input r')) demo_rewritten) demo_one = true.
Proof. vm_compute. reflexivity. Qed.

Lemma demo_no_collision r r' : r ∈ demo_one -> r' ∈ demo_rewritten -> ~ sha256_collision (hash_input r) (hash_input r').
Proof.
  intros Hr Hr' [Hne _]. apply Hne, String.eqb_eq.
  exact (proj1 (forallb_forall _ _) (proj1 (forallb_forall _ _) demo_inputs_agree r (proj1 (list_elem_of_In _ _) Hr)) r' (proj1 (list_elem_of_In _ _) Hr')).
Qed.

Lemma same_evidence_actions l l' : Forall2 same_evidence l l' -> r_ActionID <$> l = r_ActionID <$> l'.
Proof. induction 1 as [|r r' l l' (_ & E & _) _ IH]; [done|]. by rewrite !fmap_cons, E, IH. Qed.

Lemma demo_actions_differ : r_ActionID <$> chain_of "u0" demo_one <> r_ActionID <$> chain_of "u0" demo_forged.
Proof. vm_compute. discriminate. Qed.

(** The rewritten chain carries the same evidence; the forged one exhibits a
    collision. *)
Lemma chain_commits_to_history_witness :
  (r_FinancialCents <$> demo_one = [Some 500] /\ r_FinancialCents <$> demo_rewritten = [Some 1] /\
   Forall2 same_evidence (chain_of "u0" demo_one) (chain_of "u0" demo_rewritten)) /\
  (r_ActionID <$> demo_one = ["u7"] /\ r_ActionID <$> demo_forged = ["u8"] /\
   exists r r', r ∈ demo_one /\ r' ∈ demo_forged /\ sha256_collision (hash_input r) (hash_input r')).
Proof.
  destruct demo_chains_plain as (P1 & P2 & P3), demo_chains_verify as (V1 & V2 & V3). split.
  - split; [vm_compute; reflexivity|]. split; [vm_compute; reflexivity|].
    destruct (chain_commits_to_history "u0" demo_one demo_rewritten P1 P2 V1 V2) as [H|(r & r' & Hr & Hr' & Hc)];
      [vm_compute; reflexivity|exact H|destruct (demo_no_collision r r' Hr Hr' Hc)].
  - split; [vm_compute; reflexivity|]. split; [vm_compute; reflexivity|].
    destruct (chain_commits_to_history "u0" demo_one demo_forged P1 P3 V1 V3) as [H|H];
      [vm_compute; reflexivity|destruct (demo_actions_differ (same_evidence_actions _ _ H))|exact H].
Defined.

Lemma chain_blind_spots_witness :
  verify_loop "u0" ((fun r => unbound_change r (Some 1) "none" "other" "agent") <$> take 1 demo_receipts) 0 "" = -1.
Proof.
  exact (chain_blind_spots "u0" demo_receipts 1 (fun _ => (Some 1, "none", "other", "agent"))
    demo_receipts_verify).
Defined.
