(* ===== verification/LiveWitnesses.v ===== *)
(** * LiveWitnesses: the theorems about keys, integrations and the boot at
    concrete inputs *)

From Stdlib Require Import Ascii.
From S2P Require Export Boot IntegrationFlow References Scenario.

Open Scope Z_scope.

(** A key pair is its seed twice, a signature names key and message, and the
    cipher is the identity. *)
#[export] Instance demo_crypto : Crypto := {|
  GenerateKey := fun _ => Some (demo_pad +:+ demo_pad);
  NewKeyFromSeed := fun seed => seed +:+ seed;
  ed25519_Sign := fun key m => "sig:" +:+ drop_string 32 key +:+ m;
  ed25519_Verify := fun pub m s => String.eqb s ("sig:" +:+ pub +:+ m);
  gcm_Seal := fun _ _ pt _ => pt;
  gcm_Open := fun _ _ ct _ => Some ct;
  rand_nonce := fun _ => Some "nonce-nonce-" |}.

#[export] Instance demo_crypto_laws : CryptoLaws.
Proof.
  split.
  - by intros _ key [= <-].
  - intros seed Hl. change (take_string 32 (seed +:+ seed) = seed). rewrite <- Hl. apply take_app_string.
  - done.
  - intros key m _. cbn. apply String.eqb_refl.
  - done.
  - by intros _ nonce [= <-].
Qed.

(** Digits only. *)
Lemma pretty_N_go_all f x s :
  (forall d, all_chars f (String (pretty_N_char d) "") = true) ->
  all_chars f s = true -> all_chars f (pretty_N_go x s) = true.
Proof.
  intros Hf. revert s. induction (N.lt_wf_0 x) as [x _ IH]; intros s Hs.
  destruct (decide (x = 0)%N) as [->|Hx]; [by rewrite pretty_N_go_0|].
  rewrite pretty_N_go_step by lia. apply IH; [apply N.div_lt; lia|].
  specialize (Hf (x `mod` 10)%N). cbn [all_chars] in *. by rewrite andb_true_r in Hf; rewrite Hf.
Qed.

Lemma pretty_all f (n : nat) :
  (forall d, all_chars f (String (pretty_N_char d) "") = true) -> all_chars f (pretty n) = true.
Proof.
  intros Hf. change (all_chars f (pretty (N.of_nat n)) = true). unfold pretty, pretty_N.
  destruct (decide _); [exact (Hf 0%N)|]. by apply pretty_N_go_all.
Qed.

Lemma pretty_plain (t : nat) : free_of underscore (pretty t) = true.
Proof. apply pretty_all. intros d. unfold pretty_N_char. by repeat case_match. Qed.

#[export] Instance demo_secrets_laws : SecretsLaws.
Proof.
  split; cbn.
  - intros t n s [= <-]. apply pretty_plain.
  - intros t secret hash [= <-]. apply String.eqb_refl.
Qed.

(** ** Keys *)

Definition demo_local : localProvider := default (MkLocalProvider "" "" "") (fst <$> Load 0).

Lemma demo_load : Load 0 = Some (demo_local, false).
Proof. vm_compute. reflexivity. Qed.

Lemma Load_provider_witness :
  Seal demo_local 3 "sk_test_1" = Some "v1:bm9uY2Utbm9uY2Utc2tfdGVzdF8x" /\
  Open_ demo_local "v1:bm9uY2Utbm9uY2Utc2tfdGVzdF8x" = Some "sk_test_1".
Proof.
  assert (Hs : Seal demo_local 3 "sk_test_1" = Some "v1:bm9uY2Utbm9uY2Utc2tfdGVzdF8x")
    by (vm_compute; reflexivity).
  split; [exact Hs|]. exact (proj2 (proj1 (Load_provider 0 demo_local false demo_load) 3%nat _ _ Hs)).
Defined.

(** ** Live handlers *)

Lemma github_path_exact_witness :
  github_path "/repos/{owner}/{repo}/issues" "a/b" "c d" None = "/repos/a%2Fb/c%20d/issues".
Proof. exact (proj1 (github_path_exact "a/b" "c d" None "/issues" eq_refl)). Defined.

Lemma no_demo_mocks : getenv "AG_DEMO_MOCKS" <> "1".
Proof. discriminate. Qed.

Lemma credentials_stay_home_witness :
  reg_handlers (RegisterReal DefaultRegistry) !! "stripe.refund" =
    Some (stripeRefundHandler (cred "stripe")) /\
  contacts 0 (under "https://api.stripe.com/v1/")
    (fun NT => stripeRefundHandler (NT := NT) (cred "stripe") New 0%nat zero_action) scenario_net.
Proof.
  destruct (credentials_stay_home scenario_net DefaultRegistry "stripe" "refund" _ _ New 0%nat zero_action
    no_demo_mocks kh_refund) as (Hh & Hc & _).
  exact (conj Hh Hc).
Defined.

(** A provider that lists one refund of 700 cents. *)
Definition listing : gomap :=
  Some {[ "data" := VList [VMap [("amount", VFloat (float_of_Z 700))]] ]}.

Definition stripe_net : Net := {|
  new_request_err := fun _ _ => None; http_trip := fun _ _ _ => inl (MkHttpResponse 200 "" "");
  url_resolve := fun _ loc => inl loc; redirect_header := fun _ _ => ∅;
  url_error := fun _ _ err => err; url_Parse := demo_url; LookupIPAddr := fun _ _ => None;
  pg_session := fun _ _ => inr ""; unmarshal_map := fun _ => inl listing;
  unmarshal_rpc := fun _ => inr ""; unmarshal_tools := fun _ => inr "";
  ToUpper := fun s => s; ToLower := fun s => s; TrimSpace := fun s => s; sprint_20s := fun s => s |}.

Definition refund_action : TxnAction := zero_action
  <| a_Arguments := Some {[ "charge" := VString "ch_1"; "amount_cents" := VInt 700 ]} |>.

Lemma reconciler_evidence_witness :
  exists result, stripeRefundReconciler (NT := stripe_net) (fun _ _ => Some "sk_test_1") New 0%nat refund_action =
    inl (true, result) /\
  exists data m, index listing "data" = Some (VList data) /\ VMap m ∈ data /\ result = Some (list_to_map m).
Proof.
  exists (Some {[ "amount" := VFloat (float_of_Z 700) ]}).
  assert (Hr : stripeRefundReconciler (NT := stripe_net) (fun _ _ => Some "sk_test_1") New 0%nat refund_action =
    inl (true, Some {[ "amount" := VFloat (float_of_Z 700) ]})) by (vm_compute; reflexivity).
  split; [exact Hr|].
  destruct (reconciler_evidence stripe_net (fun _ _ => Some "sk_test_1") New 0%nat refund_action _ _ Hr)
    as (secret & charge & out & code & _ & _ & Hd & data & m & amt & Ho & Hin & Hres & _).
  exists data, m. injection Hd as <- _. exact (conj Ho (conj Hin Hres)).
Defined.

Definition operator_identity : option Identity := Some (MkIdentity "u0" "" true "op" "k").

Definition domains_body : DomainsBody := MkDomainsBody ["api.example.com"] [].

Definition fetch_action : TxnAction := zero_action
  <| a_OrgID := "u0" |> <| a_Arguments := Some {[ "url" := VString "https://api.example.com/" ]} |>.

Lemma http_allowlist_ignored_witness :
  let out := run (handleSetHTTPDomains operator_identity (Some domains_body)) demo_seeded in
  rs_Code (fst out) = 201 /\
  exists msg, forall f, httpRequestHandler (NT := with_http scenario_net f) (w_store (snd out)) 0%nat fetch_action =
    inr (ErrPlain msg).
Proof.
  assert (Hc : rs_Code (fst (run (handleSetHTTPDomains operator_identity (Some domains_body)) demo_seeded)) = 201)
    by (vm_compute; reflexivity).
  split; [exact Hc|].
  exact (http_allowlist_ignored operator_identity domains_body demo_seeded _ 0%nat fetch_action Hc eq_refl eq_refl).
Defined.

(** The allowed host redirects every call to the link-local metadata address,
    which answers: an action that names that address is refused, one that
    names the allowed host returns what it said. *)
Definition metadata_url : string := "http://169.254.169.254/role".

Definition redirecting : Trip := fun _ _ r =>
  inl (if String.eqb (hr_URL r) metadata_url then MkHttpResponse 200 "" "role keys"
       else MkHttpResponse 302 metadata_url "").

Definition metadata_net : Net := {|
  new_request_err := fun _ _ => None; http_trip := redirecting;
  url_resolve := fun _ loc => inl loc; redirect_header := fun _ _ => ∅;
  url_error := fun _ _ err => err; url_Parse := demo_url;
  LookupIPAddr := fun _ host =>
    Some [if String.eqb host "169.254.169.254" then [169; 254; 169; 254] else [93; 184; 215; 14]];
  pg_session := fun _ _ => inr ""; unmarshal_map := fun _ => inl None;
  unmarshal_rpc := fun _ => inr ""; unmarshal_tools := fun _ => inr "";
  ToUpper := map_string upper_ascii; ToLower := map_string lower_ascii; TrimSpace := fun s => s;
  sprint_20s := fun s => s |}.

Definition allowing_store : MemoryStore := New <| st_integConfig :=
  {[ "u0|http" := {[ "domains" := VList [VString "api.example.com"; VString "169.254.169.254"] ]} ]} |>.

Lemma http_request_gate_witness :
  (exists err, httpRequestHandler (NT := metadata_net) allowing_store 0%nat
     (fetch_action <| a_Arguments := Some {[ "url" := VString metadata_url ]} |>) = inr err) /\
  httpRequestHandler (NT := metadata_net) allowing_store 0%nat fetch_action =
    inl (Some {[ "status" := VInt 200; "body" := VString "role keys" ]}) /\
  exists method raw, http_admitted metadata_net allowing_store 0%nat fetch_action method raw /\
    exists later, (client_do (NT := metadata_net) redirecting 0%nat (MkHttpRequest method raw ∅ None)).1 =
      MkHttpRequest method raw ∅ None :: later.
Proof.
  assert (Hr : httpRequestHandler (NT := with_http metadata_net redirecting) allowing_store 0%nat fetch_action =
    inl (Some {[ "status" := VInt 200; "body" := VString "role keys" ]})) by (vm_compute; reflexivity).
  split; [eexists; vm_compute; reflexivity|]. split; [exact Hr|].
  destruct (http_request_gate metadata_net allowing_store 0%nat fetch_action)
    as [Hn|(method & raw & Had & Hdo)].
  - specialize (Hn (fun _ _ _ => inr "")). exfalso. revert Hn. vm_compute. discriminate.
  - exists method, raw. split; [exact Had|]. specialize (Hdo redirecting).
    destruct (client_do redirecting 0%nat _) as [sent ans]. destruct Hdo as ((later & Hs & _) & _).
    exists later. exact Hs.
Defined.

Definition keyed_world : World := snd (SetKeyProvider (Some (provider_of demo_local)) demo_seeded).

(** Accepted from the operator and read back; refused from an agent without
    effect. *)
Definition agent_identity : option Identity := Some (MkIdentity "u0" "u2" false "bot" "k").

Lemma stored_credential_reaches_handler_witness :
  (let '(resp, w') :=
     run (handleSetIntegrationCredential operator_identity "stripe" (Some "sk_test_1")) keyed_world in
   rs_Code resp = 201 /\ (exists sealed, st_integCreds (w_store w') = {[ "u0|stripe" := sealed ]}) /\
   forall st, secrets_of st = secrets_of (w_store w') -> cred "stripe" st "u0" = Some "sk_test_1") /\
  (let '(resp, w') :=
     run (handleSetIntegrationCredential agent_identity "stripe" (Some "sk_test_1")) keyed_world in
   rs_Code resp = 403 /\ w' = keyed_world).
Proof.
  split.
  - pose proof (stored_credential_reaches_handler 0 demo_local false operator_identity "stripe" "sk_test_1"
      keyed_world demo_load eq_refl) as H. revert H.
    assert (Hc : rs_Code (fst (run (handleSetIntegrationCredential operator_identity "stripe" (Some "sk_test_1"))
      keyed_world)) = 201) by (vm_compute; reflexivity).
    assert (He : st_integCreds (w_store keyed_world) = ∅) by (vm_compute; reflexivity).
    destruct (run _ keyed_world) as [resp w']. cbn [fst] in Hc. rewrite Hc. cbn [Z.eqb Pos.eqb].
    intros (_ & (sealed & Hs & _) & [Hr|(_ & Hg & _)] & _); [|discriminate Hg].
    split; [reflexivity|]. split; [|exact Hr]. exists sealed. rewrite Hs, He. reflexivity.
  - pose proof (stored_credential_reaches_handler 0 demo_local false agent_identity "stripe" "sk_test_1"
      keyed_world demo_load eq_refl) as H. revert H.
    assert (Hc : rs_Code (fst (run (handleSetIntegrationCredential agent_identity "stripe" (Some "sk_test_1"))
      keyed_world)) = 403) by (vm_compute; reflexivity).
    destruct (run _ keyed_world) as [resp w']. cbn [fst] in Hc. rewrite Hc. cbn [Z.eqb Pos.eqb].
    intros H. exact (conj eq_refl H).
Defined.

Lemma only_execution_reaches_tools_witness :
  w_calls (snd (run (Middleware (route (propose "stripe" "refund" "k1" [("amount_cents", VInt 500)]))
    operator_request) demo_txn)) = w_calls demo_txn.
Proof. exact (only_execution_reaches_tools (propose "stripe" "refund" "k1" [("amount_cents", VInt 500)])
  operator_request demo_txn (or_introl eq_refl)). Defined.

(** ** The boot *)

Definition booted : World * string := default (new_world DefaultRegistry, "") boot.

Lemma boot_succeeds : boot = Some (fst booted, snd booted).
Proof.
  assert (H : (match boot with Some _ => true | None => false end) = true) by (vm_compute; reflexivity).
  unfold booted. destruct boot as [[w secret]|]; [reflexivity|discriminate H].
Qed.

Lemma boot_ready_witness :
  exists org kid, st_actions (w_store (fst booted)) = ∅ /\
    fst (run (Authenticate (snd booted) "elsewhere") (fst booted)) =
      Some (MkIdentity org "" true "boot-operator" kid).
Proof.
  destruct (boot_ready (fst booted) (snd booted) "elsewhere" boot_succeeds)
    as (_ & org & kid & m & p & persistent & _ & _ & _ & _ & Ha & _ & Hk & _).
  exists org, kid. exact (conj Ha Hk).
Defined.

(** ** References *)

(** The approved refund of the history: its approval leads to the action, the
    transaction and the agent, all of one organization. *)
Lemma references_resolve_witness :
  exists ap a t ag, st_approvals (w_store demo_history) !! "u11" = Some ap /\ ap_ActionID ap = Some (a_ID a) /\
    st_actions (w_store demo_history) !! "u9" = Some a /\ st_txns (w_store demo_history) !! a_TransactionID a = Some t /\
    st_agents (w_store demo_history) !! t_AgentID t = Some ag /\ ag_OrgID ag = a_OrgID a.
Proof.
  destruct (references_resolve demo_history reachable_demo_history) as (_ & Htx & Hact & Hap & _).
  assert (H : is_Some (st_approvals (w_store demo_history) !! "u11")) by (vm_compute; by eexists).
  destruct H as [ap E]. assert (H9 : ap_ActionID ap = Some "u9").
  { assert (H : (ap_ActionID <$> st_approvals (w_store demo_history) !! "u11") = Some (Some "u9")) by (vm_compute; reflexivity).
    rewrite E in H. by injection H. }
  destruct (Hap _ _ E) as (_ & i & a & t & Ei & Ea & Et & Hta & Hoa & Hot). rewrite H9 in Ei. injection Ei as <-.
  destruct (Hact _ _ Ea) as [Hid _]. destruct (Htx _ _ Et) as (_ & ag & Eag & Ho).
  exists ap, a, t, ag. rewrite Hid, Hta. repeat (split; [done|]). congruence.
Defined.
