(* ===== verification/PgWitnesses.v ===== *)
(** * PgWitnesses: the contract of the stores at concrete inputs

    A database server that meets the laws of [PgSim] and, undisturbed, the
    conditions of the runs: identifiers u0, g0, ..., one statement per
    millisecond, results sorted by insertion, JSON that comes back with its
    integers as floats and its lists untyped. *)

From Stdlib Require Import Ascii.
From S2P Require Export LiveWitnesses PgBoot PgArchive PgLog.

Open Scope Z_scope.

(** ** The memory store *)

#[export] Instance demo_plain : PlainIds.
Proof.
  intros n. change (free_of "|"%char (pretty n) = true). apply pretty_all. intros d. unfold pretty_N_char. by repeat case_match.
Qed.

Definition demo_empty : World := new_world (MkRegistry ∅ ∅ ∅ ∅).

Definition demo_request : TxnAction :=
  zero_action <| a_OrgID := "u0" |> <| a_TransactionID := "u3" |> <| a_IdempotencyKey := "k1" |>.

(** An organization, an agent, a transaction, and a request made twice. *)
Definition demo_calls : list Op :=
  [OSeedOrg "acme"; OCreateAgent "u0" "u1" "bot" "live" (Some []) "h";
   OCreateTxn (MkTransaction "" "u0" "u2" "u1" "" "refund" TxnZero None 0 0);
   OAddAction demo_request; OAddAction demo_request].

Ltac in_dom := apply (bool_decide_eq_true_1 _); vm_compute; reflexivity.

Lemma demo_callable : callable (ST := memory_store) demo_calls demo_empty.
Proof.
  cbn [callable demo_calls]. repeat (split; [intros l Hl; cbn [admissible]|]); [done|..|done].
  - rewrite (mo_orgs _ _ Hl), (mo_principals _ _ Hl). split; in_dom.
  - rewrite (mo_orgs _ _ Hl), (mo_principals _ _ Hl), (mo_agents _ _ Hl).
    split; [in_dom|]. split; [in_dom|]. right. in_dom.
  - rewrite (mo_orgs _ _ Hl), (mo_txns _ _ Hl). split; [in_dom|]. split; [in_dom|done].
  - rewrite (mo_orgs _ _ Hl), (mo_txns _ _ Hl). split; [in_dom|]. split; [in_dom|done].
Qed.

Lemma memory_store_refines_witness :
  exists l', spec_step empty_ledger (OSeedOrg "acme") (RSeed "u0" "u1") l'.
Proof.
  destruct memory_store_refines as [H0 H].
  destruct (H empty_ledger demo_empty (OSeedOrg "acme") (H0 _) I) as (l' & Hs & _). exists l'. exact Hs.
Defined.

(** ** The Postgres store *)

(** Identifiers are plain and start with u or g. *)
Definition demo_is_id (s : string) : bool :=
  match s with
  | String c _ => (Ascii.eqb c "u"%char || Ascii.eqb c "g"%char) && plain_text s
  | EmptyString => false
  end.

Lemma pretty_is_plain (n : nat) : plain_text (pretty n) = true.
Proof. apply pretty_all. intros d. unfold pretty_N_char. by repeat case_match. Qed.

#[export] Instance demo_pg : PgEnv := {|
  uuid_param := fun s => if demo_is_id s then Some s else None;
  uuid_Parse := fun s => if demo_is_id s then Some s else None;
  gen_random_uuid := fun n => "g" +:+ pretty n;
  db_now := demo_clock;
  stmt_err := fun _ => None;
  violation := fun _ => "violates a constraint";
  rows_cut := fun _ => None;
  order_rows := fun A _ le => insertion_sort (fun x y => le x y && negb (le y x));
  collate := fun s t => negb (String.ltb t s);
  trip_map := fmap config_view;
  trip_payload := fmap (prod_map id json_view);
  trip_decision := fun d => Some d;
  trip_rules := fun l => l;
  trip_match := fun m => m;
  trip_constraints := fun c => c;
  trip_tools := fun l => l;
  trip_classes := fun m => m;
  parse_text_time := fun _ => None |}.

#[export] Instance demo_pg_json : PgJsonLaws.
Proof. by split. Qed.

Lemma json_view_idem v : json_view (json_view v) = json_view v.
Proof. by destruct v. Qed.

Lemma config_view_idem m : config_view (config_view m) = config_view m.
Proof.
  unfold config_view. rewrite <- map_fmap_compose. apply map_fmap_ext. intros k v _. apply json_view_idem.
Qed.

#[export] Instance demo_pg_config : PgConfigLaws.
Proof. intros [m|] _; [apply config_view_idem|done]. Qed.

#[export] Instance demo_pg_audit : PgAuditLaws.
Proof.
  intros p _. unfold payload_map. cbn [trip_payload demo_pg]. rewrite list_to_map_fmap. apply config_view_idem.
Qed.

#[export] Instance demo_undisturbed : Undisturbed.
Proof. by split. Qed.

Lemma demo_micro : MicroClock.
Proof.
  intros n m H. unfold micro. cbn. unfold demo_clock.
  replace (1789300800000000000 + Z.of_nat n * 1000000) with ((1789300800000000 + Z.of_nat n * 1000) * 1000) by lia.
  replace (1789300800000000000 + Z.of_nat m * 1000000) with ((1789300800000000 + Z.of_nat m * 1000) * 1000) by lia.
  rewrite !Z.div_mul by done. lia.
Qed.

Lemma insert_by_key {A} less (key : A -> Z) x l :
  (forall x y, key x < key y -> less x y = true /\ less y x = false) ->
  NoDup (key <$> x :: l) -> StronglySorted (fun x y => key x < key y) l ->
  StronglySorted (fun x y => key x < key y) (insert_by less x l).
Proof.
  intros Hless. induction l as [|y l IH]; intros Hn Hs; cbn [insert_by]; [repeat constructor|].
  apply StronglySorted_inv in Hs as [Hs Hall].
  rewrite !fmap_cons, !NoDup_cons in Hn. destruct Hn as (Hx & Hy & Hn).
  assert (Hne : key x <> key y) by (intros E; apply Hx; rewrite E; by left).
  destruct (Z.lt_ge_cases (key x) (key y)) as [Hlt|Hge].
  - destruct (Hless _ _ Hlt) as [_ ->]. constructor; [by constructor|]. constructor; [done|].
    eapply Forall_impl; [exact Hall|]. intros z Hz. cbn in *. lia.
  - destruct (Hless y x ltac:(lia)) as [-> _]. constructor.
    + apply IH; [|done]. rewrite fmap_cons, NoDup_cons. split; [|done]. intros Hin. apply Hx. by right.
    + rewrite insert_by_perm. constructor; [lia|done].
Qed.

#[export] Instance demo_apart : StatementsApart.
Proof. intros n m H. cbn. unfold demo_clock. lia. Qed.

Lemma insertion_sorted {A} (le : A -> A -> bool) (key : A -> Z) l :
  (forall x y, key x < key y -> le x y = true /\ le y x = false) -> NoDup (key <$> l) ->
  StronglySorted (fun x y => key x < key y) (insertion_sort (fun x y => le x y && negb (le y x)) l).
Proof.
  intros Hle Hn. unfold insertion_sort. induction l as [|x l IH]; cbn [foldr]; [constructor|].
  apply insert_by_key.
  - intros a b Hab. destruct (Hle _ _ Hab) as [-> ->]. done.
  - pose proof (insertion_sort_perm (fun x y => le x y && negb (le y x)) l) as Hp.
    unfold insertion_sort in Hp. by rewrite fmap_cons, Hp.
  - apply IH. rewrite fmap_cons, NoDup_cons in Hn. tauto.
Qed.

Lemma demo_canonical s : demo_is_id s = true -> canonical s.
Proof. intros H. unfold canonical. cbn [uuid_param uuid_Parse demo_pg]. rewrite H. split_and!; [done..|]. by intros ->. Qed.

Lemma demo_is_id_pretty c (n : nat) : demo_is_id (String c "") = true -> demo_is_id (String c (pretty n)) = true.
Proof.
  pose proof (pretty_is_plain n) as Hn. unfold demo_is_id, plain_text in *. cbn [all_chars] in *.
  rewrite andb_true_r, Hn. by rewrite andb_true_r.
Qed.

#[export] Instance demo_pg_laws : PgLaws.
Proof.
  split; try done.
  - intros n m H. apply string_app_inj_l in H. by apply (inj pretty) in H.
  - intros n. by apply demo_canonical, demo_is_id_pretty.
  - intros n. by apply demo_canonical, demo_is_id_pretty.
  - intros [|c s] [H _]; cbn [uuid_param demo_pg] in H; [done|]. destruct (demo_is_id (String c s)) eqn:E; [|done].
    by apply andb_true_iff in E as [_ E].
  - intros. apply insertion_sort_perm.
  - intros A n le key l. apply insertion_sorted.
Qed.

Lemma postgres_store_refines_witness :
  exists l', spec_step empty_ledger (OSeedOrg "acme") (RSeed "g0" "g1") l'.
Proof.
  destruct postgres_store_refines as [H0 H].
  destruct (H empty_ledger (new_pg None) (OSeedOrg "acme") (H0 _) I) as (l' & Hs & _). exists l'. exact Hs.
Defined.

(** An organization, an agent and a transaction in the database. *)
Definition demo_pg_start : Pg :=
  let s := (run (PgStore.SeedOrg "acme") (new_pg None)).2 in
  let s := (run (PgStore.CreateAgent "g0" "g1" "bot" "live" (Some []) "h") s).2 in
  (run (PgStore.CreateTxn (MkTransaction "" "g0" "u0" "g1" "" "refund" TxnZero None 0 0)) s).2.

Definition demo_pg_receipt (tool : string) : Receipt :=
  zero_receipt <| r_OrgID := "g0" |> <| r_TransactionID := "u1" |> <| r_Tool := tool |>.

Lemma demo_spelled tool : stored_as_spelled (demo_pg_receipt tool).
Proof. split; [by intros t [= <-]|done]. Qed.

Definition demo_chain_calls : list ChainCall :=
  [Append (demo_pg_receipt "stripe"); Sign ((demo_pg_receipt "x") <| r_ID := "u2" |> <| r_Signature := "sig" |>);
   Append (demo_pg_receipt "github")].

(** The two receipts are stored and the chain verifies. *)
Lemma appended_chain_verifies_witness :
  length (org_receipts (pg_db (foldl (fun s c => chain_call c s) demo_pg_start demo_chain_calls)) "g0") = 2%nat /\
  (run (PgStore.VerifyChain "g0") (foldl (fun s c => chain_call c s) demo_pg_start demo_chain_calls)).1 = -1.
Proof.
  split; [vm_compute; reflexivity|].
  apply (appended_chain_verifies demo_pg_start demo_chain_calls "g0").
  - vm_compute. reflexivity.
  - repeat constructor; apply demo_spelled.
  - done.
Defined.

Lemma demo_storable tool : storable (pg_db demo_pg_start) (demo_pg_receipt tool).
Proof. split; [done..|]. vm_compute. reflexivity. Qed.

Lemma overlapping_appends_break_chain_witness :
  exists s', rtc (pool_step (fun _ => False) (fun _ _ => False))
      ([finish (PgStore.AppendReceipt (demo_pg_receipt "stripe")); finish (PgStore.AppendReceipt (demo_pg_receipt "github"))],
        demo_pg_start) ([Ret tt; Ret tt], s') /\ (run (PgStore.VerifyChain "g0") s').1 = 1.
Proof.
  destruct (overlapping_appends_break_chain demo_pg_start (demo_pg_receipt "stripe") (demo_pg_receipt "github") "g0")
    as (s' & Hrun & _ & _ & Hv).
  - apply demo_undisturbed.
  - apply demo_apart.
  - vm_compute. reflexivity.
  - apply demo_storable.
  - apply demo_storable.
  - reflexivity.
  - reflexivity.
  - by exists s'.
Defined.

(** A server that refuses every statement. *)
Definition demo_down : PgEnv := {|
  uuid_param := uuid_param; uuid_Parse := uuid_Parse; gen_random_uuid := gen_random_uuid; db_now := db_now;
  stmt_err := fun _ => Some "connection refused"; violation := violation; rows_cut := rows_cut;
  order_rows := @order_rows demo_pg; collate := collate; trip_map := trip_map; trip_payload := trip_payload;
  trip_decision := trip_decision; trip_rules := trip_rules; trip_match := trip_match;
  trip_constraints := trip_constraints; trip_tools := trip_tools; trip_classes := trip_classes;
  parse_text_time := parse_text_time |}.

Lemma VerifyChain_fails_open_witness :
  (run (PgStore.VerifyChain (PE := demo_down) "g0") demo_pg_start).1 = -1.
Proof. apply (proj1 (VerifyChain_fails_open (PE := demo_down) "g0" demo_pg_start)). by eexists. Defined.

Lemma stores_refine_contract_witness :
  (exists l', spec_step empty_ledger (OSeedOrg "acme") (RSeed "u0" "u1") l') /\
  (exists l', spec_step empty_ledger (OSeedOrg "acme") (RSeed "g0" "g1") l').
Proof.
  destruct stores_refine_contract as (H0 & H & G0 & G). split.
  - destruct (H empty_ledger demo_empty (OSeedOrg "acme") (H0 _) I) as (l' & Hs & _). exists l'. exact Hs.
  - destruct (G demo_undisturbed empty_ledger (new_pg None) (OSeedOrg "acme") (G0 _) I) as (l' & Hs & _). exists l'. exact Hs.
Defined.

(** The same calls on both stores, with the identifiers each draws. *)
Definition demo_pg_request : TxnAction := demo_request <| a_OrgID := "g0" |> <| a_TransactionID := "u1" |>.

Definition demo_pg_calls : list Op :=
  [OSeedOrg "acme"; OCreateAgent "g0" "g1" "bot" "live" (Some []) "h";
   OCreateTxn (MkTransaction "" "g0" "u0" "g1" "" "refund" TxnZero None 0 0);
   OAddAction demo_pg_request; OAddAction demo_pg_request].

Lemma demo_pg_callable : callable (ST := postgres_store) demo_pg_calls (new_pg None).
Proof.
  cbn [callable demo_pg_calls]. repeat (split; [intros l Hl; cbn [admissible]|]); [done|..|done].
  - rewrite (po_orgs _ _ Hl), (po_principals _ _ Hl). split; in_dom.
  - rewrite (po_orgs _ _ Hl), (po_principals _ _ Hl), (po_agents _ _ Hl).
    split; [in_dom|]. split; [in_dom|]. right. in_dom.
  - rewrite (po_orgs _ _ Hl), (po_txns _ _ Hl). split; [in_dom|]. split; [in_dom|done].
  - rewrite (po_orgs _ _ Hl), (po_txns _ _ Hl). split; [in_dom|]. split; [in_dom|done].
Qed.

(** On each store the second request returns the action of the first. *)
Lemma stores_honour_contract_witness :
  (exists x y d d',
    (exec_all (ST := memory_store) demo_calls demo_empty).1 !! 3%nat = Some (OAddAction demo_request, RAction (Some x) d) /\
    (exec_all (ST := memory_store) demo_calls demo_empty).1 !! 4%nat = Some (OAddAction demo_request, RAction (Some y) d') /\
    a_ID x = "u5" /\ a_ID y = a_ID x /\ d' = true) /\
  (exists x y d d',
    (exec_all (ST := postgres_store) demo_pg_calls (new_pg None)).1 !! 3%nat =
      Some (OAddAction demo_pg_request, RAction (Some x) d) /\
    (exec_all (ST := postgres_store) demo_pg_calls (new_pg None)).1 !! 4%nat =
      Some (OAddAction demo_pg_request, RAction (Some y) d') /\
    a_ID x = "u2" /\ a_ID y = a_ID x /\ d' = true).
Proof.
  split.
  - destruct (proj1 (stores_honour_contract demo_calls) _ demo_callable) as [H _].
    do 4 eexists. split; [vm_compute; reflexivity|]. split; [vm_compute; reflexivity|]. split; [reflexivity|].
    eapply (hn_repeat _ H 3%nat 4%nat demo_request demo_request); [lia|vm_compute; reflexivity..|done].
  - destruct (proj2 (stores_honour_contract demo_pg_calls) demo_undisturbed _ demo_pg_callable) as [H _].
    do 4 eexists. split; [vm_compute; reflexivity|]. split; [vm_compute; reflexivity|]. split; [reflexivity|].
    eapply (hn_repeat _ H 3%nat 4%nat demo_pg_request demo_pg_request); [lia|vm_compute; reflexivity..|done].
Defined.

(** ** The vault *)

Lemma demo_honest : honest (Some StoreSecrets.demo_provider).
Proof. intros n secret Hs. unfold sealed_text. rewrite (proj2 (String.eqb_neq secret "") Hs). split; [done|].
  unfold opened. cbn [default from_option kp_Seal kp_Open StoreSecrets.demo_provider]. unfold Datatypes.id.
  change (String.eqb ("v1:" +:+ secret) "") with false. by rewrite HasPrefix_app, (drop_string_app "v1:").
Qed.

(** An organization, a secret, an agent, and a key issued and revoked. *)
Definition vault_calls (org principal agent : string) : list (Op + VOp) :=
  [inl (OSeedOrg "acme"); inr (VSetIntegrationCredential org "stripe" "sk");
   inl (OCreateAgent org principal "bot" "live" (Some []) "h");
   inr (VStoreCredential org agent "k" "h1"); inr (VGetCredential "k"); inr (VRevokeCredential "k");
   inr (VGetCredential "k"); inr (VGetIntegrationCredential org "stripe")].

Definition demo_keyed : World := keyed_new (Some StoreSecrets.demo_provider) (MkRegistry ∅ ∅ ∅ ∅).

Lemma demo_vcallable : vcallable (VS := memory_vault) (vault_calls "u0" "u1" "u2") demo_keyed.
Proof.
  cbn [vcallable vault_calls]. repeat (split; [first [intros l v Hl Hv|intros l Hl]; cbn [admissible vadmissible]|]); try done.
  - rewrite (mo_orgs _ _ Hl). in_dom.
  - rewrite (mo_orgs _ _ Hl), (mo_principals _ _ Hl). split; in_dom.
  - rewrite (mo_orgs _ _ Hl), (mo_agents _ _ Hl), (mv_creds _ _ Hv). split; [in_dom|]. split; [in_dom|done].
Qed.

(** No row of the table has a key. *)
Lemma no_key v s k : pg_vault v s -> Forall (fun r => cd_key_id r = None) (rows (db_agent_credentials (pg_db s))) ->
  va_creds v !! k = None.
Proof.
  intros Hv Hnone. destruct (va_creds v !! k) as [c|] eqn:Ec; [|done].
  destruct (cd_to _ _ (pw_creds _ _ Hv) _ _ Ec) as (id & row & Hin & Hk & _).
  rewrite Forall_forall in Hnone. rewrite (Hnone row) in Hk; [done|]. apply rows_spec. by exists id.
Qed.

Lemma demo_pg_vcallable :
  vcallable (VS := postgres_vault) (vault_calls "g0" "g1" "u0") (new_pg (Some StoreSecrets.demo_provider)).
Proof.
  cbn [vcallable vault_calls]. repeat (split; [first [intros l v Hl Hv|intros l Hl]; cbn [admissible vadmissible]|]); try done.
  - rewrite (po_orgs _ _ Hl). in_dom.
  - rewrite (po_orgs _ _ Hl), (po_principals _ _ Hl). split; in_dom.
  - rewrite (po_orgs _ _ Hl), (po_agents _ _ Hl). split; [in_dom|]. split; [in_dom|].
    apply (no_key v _ "k" Hv). vm_compute. by repeat constructor.
Qed.

Definition demo_keyed_pg : Pg := new_pg (Some StoreSecrets.demo_provider).

(** The key is not read after its revocation; the secret still is. *)
Lemma stores_keep_secrets_witness :
  (exists r r', (exec_calls (VS := memory_vault) (vault_calls "u0" "u1" "u2") demo_keyed).1 !! 4%nat =
       Some (VGetCredential "k", r) /\ (r = VCred None) /\
     (exec_calls (VS := memory_vault) (vault_calls "u0" "u1" "u2") demo_keyed).1 !! 5%nat =
       Some (VGetIntegrationCredential "u0" "stripe", r') /\ (r' = VSecret (Some "sk"))) /\
  (exists r r', (exec_calls (VS := postgres_vault) (vault_calls "g0" "g1" "u0") demo_keyed_pg).1 !! 4%nat =
       Some (VGetCredential "k", r) /\ (r = VCred None) /\
     (exec_calls (VS := postgres_vault) (vault_calls "g0" "g1" "u0") demo_keyed_pg).1 !! 5%nat =
       Some (VGetIntegrationCredential "g0" "stripe", r') /\ (r' = VSecret (Some "sk"))).
Proof.
  split.
  - destruct (proj1 (stores_keep_secrets _ _ demo_honest) _ demo_vcallable) as (v & _ & _ & H).
    do 2 eexists. split; [vm_compute; reflexivity|]. split; [eapply (vh_revoked _ H 3 4); [lia|vm_compute; reflexivity..]|].
    split; [vm_compute; reflexivity|].
    eapply (vh_secret _ H 0 5 "u0" "stripe"); [lia|vm_compute; reflexivity| |vm_compute; reflexivity].
    intros [|[|[|[|[|m]]]]] s' r' Hm; [lia|vm_compute; done..|lia].
  - destruct (proj2 (stores_keep_secrets _ _ demo_honest) demo_undisturbed demo_pg_vcallable) as (v & _ & _ & H).
    do 2 eexists. split; [vm_compute; reflexivity|]. split; [eapply (vh_revoked _ H 3 4); [lia|vm_compute; reflexivity..]|].
    split; [vm_compute; reflexivity|].
    eapply (vh_secret _ H 0 5 "g0" "stripe"); [lia|vm_compute; reflexivity| |vm_compute; reflexivity].
    intros [|[|[|[|[|m]]]]] s' r' Hm; [lia|vm_compute; done..|lia].
Defined.

(** ** The archive *)

Definition demo_domains : gmap string value := {[ "domains" := VStrings ["api.example.com"] ]}.

(** A receipt appended and signed, an issued key, a second receipt, and reads. *)
Definition archive_calls (org principal agent txn receipt : string) : list Call :=
  let r tool := zero_receipt <| r_OrgID := org |> <| r_TransactionID := txn |> <| r_Tool := tool |> in
  [Books (OSeedOrg "acme"); Books (OCreateAgent org principal "bot" "live" (Some []) "h");
   Books (OCreateTxn (MkTransaction "" org agent principal "" "refund" TxnZero None 0 0));
   Evidence (AAppendReceipt (r "stripe"));
   Evidence (AUpdateReceipt ((r "x") <| r_ID := receipt |> <| r_Signature := "sig" |>));
   Keys (VStoreCredential org agent "k" "h1"); Evidence (AAppendReceipt (r "github"));
   Evidence (ASetIntegrationConfig org "http" (Some demo_domains));
   Evidence (AReceiptsForTxn org txn); Evidence (AVerifyChain org); Evidence (AGetIntegrationConfig org "http")].

Lemma demo_plain_config : plain_config demo_domains.
Proof. apply (bool_decide_eq_true_1 _). vm_compute. reflexivity. Qed.

Lemma demo_archive_callable : interface_callable (AS := memory_archive) (archive_calls "u0" "u1" "u2" "u3" "u5") demo_keyed.
Proof.
  cbn [interface_callable archive_calls].
  repeat (split; [first [intros l v Hl Hv|intros l Hl]; cbn [admissible vadmissible aadmissible]|]); try done;
    rewrite ?(mo_orgs _ _ Hl), ?(mo_principals _ _ Hl), ?(mo_agents _ _ Hl), ?(mo_txns _ _ Hl), ?(mv_creds _ _ Hv);
    split_and?; first [in_dom | by left | right; in_dom | apply demo_plain_config | done | idtac].
Qed.

Lemma demo_pg_archive_callable :
  interface_callable (AS := postgres_archive) (archive_calls "g0" "g1" "u0" "u1" "u2") demo_keyed_pg.
Proof.
  cbn [interface_callable archive_calls].
  repeat (split; [first [intros l v Hl Hv|intros l Hl]; cbn [admissible vadmissible aadmissible]|]); try done;
    rewrite ?(po_orgs _ _ Hl), ?(po_principals _ _ Hl), ?(po_agents _ _ Hl), ?(po_txns _ _ Hl);
    split_and?; first [in_dom | by left | right; in_dom | apply demo_plain_config | done | idtac].
  apply (no_key v _ "k" Hv). vm_compute. by repeat constructor.
Qed.

(** Both receipts are listed, the first signed, and the chain verifies. *)
Lemma stores_keep_evidence_witness :
  (exists rs i c,
    (exec_interface (AS := memory_archive) (archive_calls "u0" "u1" "u2" "u3" "u5") demo_keyed).1 !! 4%nat =
      Some (AReceiptsForTxn "u0" "u3", AReceipts rs) /\ r_Signature <$> rs = ["sig"; ""] /\
    (exec_interface (AS := memory_archive) (archive_calls "u0" "u1" "u2" "u3" "u5") demo_keyed).1 !! 5%nat =
      Some (AVerifyChain "u0", i) /\ i = AIndex (-1) /\
    (exec_interface (AS := memory_archive) (archive_calls "u0" "u1" "u2" "u3" "u5") demo_keyed).1 !! 6%nat =
      Some (AGetIntegrationConfig "u0" "http", c) /\ (c = AConfig (Some (config_view demo_domains)))) /\
  (exists rs i c,
    (exec_interface (AS := postgres_archive) (archive_calls "g0" "g1" "u0" "u1" "u2") demo_keyed_pg).1 !! 4%nat =
      Some (AReceiptsForTxn "g0" "u1", AReceipts rs) /\ r_Signature <$> rs = ["sig"; ""] /\
    (exec_interface (AS := postgres_archive) (archive_calls "g0" "g1" "u0" "u1" "u2") demo_keyed_pg).1 !! 5%nat =
      Some (AVerifyChain "g0", i) /\ i = AIndex (-1) /\
    (exec_interface (AS := postgres_archive) (archive_calls "g0" "g1" "u0" "u1" "u2") demo_keyed_pg).1 !! 6%nat =
      Some (AGetIntegrationConfig "g0" "http", c) /\ (c = AConfig (Some (config_view demo_domains)))).
Proof.
  split.
  - destruct (proj1 (stores_keep_evidence _ _ demo_honest) _ demo_archive_callable) as (a & _ & _ & H).
    do 3 eexists. split; [vm_compute; reflexivity|]. split; [reflexivity|].
    split; [vm_compute; reflexivity|]. split; [eapply (ah_verified _ H 5 "u0"); vm_compute; reflexivity|].
    split; [vm_compute; reflexivity|].
    eapply (ah_config _ H 3 6 "u0" "http" (Some demo_domains)); [lia|vm_compute; reflexivity| |vm_compute; reflexivity].
    intros [|[|[|[|[|[|m]]]]]] c' r' Hm; [lia..|vm_compute; done|vm_compute; done|lia].
  - destruct (proj2 (stores_keep_evidence _ _ demo_honest) demo_undisturbed demo_apart demo_pg_archive_callable) as (a & _ & _ & H).
    do 3 eexists. split; [vm_compute; reflexivity|]. split; [reflexivity|].
    split; [vm_compute; reflexivity|]. split; [eapply (ah_verified _ H 5 "g0"); vm_compute; reflexivity|].
    split; [vm_compute; reflexivity|].
    eapply (ah_config _ H 3 6 "g0" "http" (Some demo_domains)); [lia|vm_compute; reflexivity| |vm_compute; reflexivity].
    intros [|[|[|[|[|[|m]]]]]] c' r' Hm; [lia..|vm_compute; done|vm_compute; done|lia].
Defined.

(** ** The audit trail *)

Definition demo_event (org txn type : string) (payload : list (string * value)) : AuditEvent :=
  zero_event <| e_OrgID := org |> <| e_TransactionID := txn |> <| e_ActorType := "human" |> <| e_ActorID := "alice" |>
    <| e_Type := type |> <| e_Payload := payload |>.

(** A transaction, two events, one with numbers, a receipt between them, and
    two reads. *)
Definition trail_calls (org principal agent txn : string) : list AnyCall :=
  [Other (Books (OSeedOrg "acme")); Other (Books (OCreateAgent org principal "bot" "live" (Some []) "h"));
   Other (Books (OCreateTxn (MkTransaction "" org agent principal "" "refund" TxnZero None 0 0)));
   Trail (LEmit (demo_event org txn "approval.granted" [("approval_id", VString "a1")]));
   Other (Evidence (AAppendReceipt (zero_receipt <| r_OrgID := org |> <| r_TransactionID := txn |>)));
   Trail (LEmit (demo_event org "" "policy.set_created" [("version", VInt 2); ("rules", VInt 3)]));
   Trail (LAudit org txn 10); Trail (LAudit org "" 1)].

Ltac plain_payload := apply (bool_decide_eq_true_1 _); vm_compute; reflexivity.

Ltac trail_is_callable :=
  cbn [trail_callable trail_calls any_admissible];
  repeat (split; [intros l Hl; cbn [admissible aadmissible ladmissible]|]); try done.

Lemma demo_trail_callable : trail_callable (LS := memory_log) (trail_calls "u0" "u1" "u2" "u3") demo_keyed.
Proof.
  trail_is_callable; unfold emittable;
    rewrite ?(mo_orgs _ _ Hl), ?(mo_principals _ _ Hl), ?(mo_agents _ _ Hl), ?(mo_txns _ _ Hl);
    split_and?; first [in_dom | plain_payload | by left | right; in_dom | reflexivity | by right].
Qed.

Lemma demo_pg_trail_callable : trail_callable (LS := postgres_log) (trail_calls "g0" "g1" "u0" "u1") demo_keyed_pg.
Proof.
  trail_is_callable; unfold emittable;
    rewrite ?(po_orgs _ _ Hl), ?(po_principals _ _ Hl), ?(po_agents _ _ Hl), ?(po_txns _ _ Hl);
    split_and?; first [in_dom | plain_payload | by left | right; in_dom | reflexivity | by right].
Qed.

(** The newest entries of what a reader sees, as an answer in order. *)
Lemma answer_in_order apart org txn limit g es : apart -> audit_answer apart org txn limit g es ->
  es = take (Z.to_nat limit) (reverse (visible org txn g)).
Proof. intros Ha (vis & _ & H & ->). by rewrite (H Ha). Qed.

(** The transaction's events, newest first, and the newest of the
    organization with its numbers. *)
Lemma stores_keep_trail_witness :
  (exists es, let tr := (exec_trail (LS := memory_log) (trail_calls "u0" "u1" "u2" "u3") demo_keyed).1 in
     tr !! 6%nat = Some (ShownTrail (LAudit "u0" "u3" 10) (LEntries es)) /\
     es = take 10 (reverse (visible "u0" "u3" (log_of (take 6 tr)))) /\
     en_Type <$> es = ["approval.granted"; "transaction.created"]) /\
  (exists es, let tr := (exec_trail (LS := postgres_log) (trail_calls "g0" "g1" "u0" "u1") demo_keyed_pg).1 in
     tr !! 7%nat = Some (ShownTrail (LAudit "g0" "" 1) (LEntries es)) /\
     es = take 1 (reverse (visible "g0" "" (log_of (take 7 tr)))) /\
     (fun e => (en_Type e, en_Payload e !! "version")) <$> es = [("policy.set_created", Some (VFloat (float_of_Z 2)))]).
Proof.
  split.
  - pose proof (proj1 (stores_keep_trail _ _ demo_honest) _ demo_trail_callable) as H. cbv zeta.
    assert (E : exists es, (exec_trail (LS := memory_log) (trail_calls "u0" "u1" "u2" "u3") demo_keyed).1 !! 6%nat =
      Some (ShownTrail (LAudit "u0" "u3" 10) (LEntries es)) /\ en_Type <$> es = ["approval.granted"; "transaction.created"])
      by (eexists; split; [vm_compute; reflexivity|reflexivity]).
    destruct E as (es & E & Ht). destruct (H _ _ _ _ _ E) as (es' & Hes & Ha). apply LEntries_inj in Hes as <-.
    exists es. split; [exact E|]. split; [exact (answer_in_order _ _ _ _ _ _ I Ha)|exact Ht].
  - pose proof (proj2 (stores_keep_trail _ _ demo_honest) demo_undisturbed demo_pg_trail_callable) as H. cbv zeta.
    assert (E : exists es, (exec_trail (LS := postgres_log) (trail_calls "g0" "g1" "u0" "u1") demo_keyed_pg).1 !! 7%nat =
      Some (ShownTrail (LAudit "g0" "" 1) (LEntries es)) /\
      (fun e => (en_Type e, en_Payload e !! "version")) <$> es = [("policy.set_created", Some (VFloat (float_of_Z 2)))])
      by (eexists; split; [vm_compute; reflexivity|vm_compute; reflexivity]).
    destruct E as (es & E & Ht). destruct (H _ _ _ _ _ E) as (es' & Hes & Ha). apply LEntries_inj in Hes as <-.
    exists es. split; [exact E|]. split; [exact (answer_in_order _ _ _ _ _ _ demo_micro Ha)|exact Ht].
Defined.

(** ** Migrations and the boot *)

(** Two files and a directory; a migration appends its name to the schema. *)
#[export] Instance demo_migrations : Migrations (list string) := {|
  migration_dir := [("002_domain.sql", false); ("old", true); ("001_init.sql", false)];
  migration_file := inl;
  run_sql := fun sql sc => Some (sc ++ [sql]) |}.

Lemma demo_names : migration_names = ["001_init.sql"; "002_domain.sql"].
Proof. vm_compute. reflexivity. Qed.

Lemma Migrate_applies_once_witness :
  exists vs t, Migrate (MkMigDb ["001_init.sql"] {[ "001_init.sql" ]} 0) =
    (None, MkMigDb ["001_init.sql"; "002_domain.sql"] vs t).
Proof.
  destruct (Migrate_applies_once (MkMigDb ["001_init.sql"] {[ "001_init.sql" ]} 0)) as (_ & _ & H).
  destruct (H ["001_init.sql"; "002_domain.sql"]) as (vs & t & E & _).
  - done.
  - rewrite demo_names. apply (bool_decide_eq_true_1 _). vm_compute. reflexivity.
  - vm_compute. reflexivity.
  - by exists vs, t.
Defined.

Definition demo_boot : option (Pg * MigDb (list string) * localProvider * option string) :=
  boot_database (MkMigDb [] ∅ 0) (new_pg None).

Lemma boot_database_ready_witness :
  match demo_boot with
  | Some (s, mdb, p, secret) => "002_domain.sql" ∈ md_versions mdb /\
      exists l org sec, pg_ok l s /\ seeded l s org sec /\ secret = Some sec
  | None => False
  end.
Proof.
  destruct demo_boot as [[[[s mdb] p] secret]|] eqn:E.
  - destruct (boot_database_ready empty_ledger (new_pg None) _ s mdb p secret (pg_ok_new None) (fun _ => eq_refl) E)
      as (Hm & _ & _ & _ & Hnew).
    split; [apply Hm; by left|]. exact (Hnew demo_undisturbed eq_refl).
  - assert (H : (match demo_boot with Some _ => true | None => false end) = true) by (vm_compute; reflexivity).
    rewrite E in H. discriminate H.
Defined.

(** ** The handler *)

Definition demo_no_bodies : Bodies := MkBodies None None None None None None None None None None None None.

Definition demo_http (method path origin : string) : ServerRequest :=
  MkServerRequest method path (fun _ => "") origin "r1" "" "" demo_no_bodies.

(** The table at work. *)
Example demo_routes :
  findHandler (demo_http "POST" "/v1/actions/a%201/reconcile" "") =
    Handle [Lit "v1"; Lit "actions"; Wild "id"; Lit "reconcile"] (RReconcile "a 1") /\
  findHandler (demo_http "POST" "/v1/actions/a1/execute" "") =
    Handle [Lit "v1"; Lit "actions"; Multi] (RActionSub "/v1/actions/a1/execute") /\
  findHandler (demo_http "HEAD" "/v1/agents/../receipts" "") = Redirect /\
  findHandler (demo_http "POST" "/v1/approvals" "") = Redirect /\
  findHandler (demo_http "DELETE" "/v1/grants/g1/revoke" "") = MethodNotAllowed /\
  findHandler (demo_http "GET" "/v2" "") = NotFound.
Proof. repeat split; vm_compute; reflexivity. Qed.

(** A request without credentials, from a page of an unlisted origin. *)
Lemma Handler_gate_witness :
  let rep := (run (Handler (demo_http "POST" "/v1/%61ctions" "https://evil.example")) demo_empty).1 in
  rp_Headers rep !! "Access-Control-Allow-Origin" = None /\
  exists a, rp_Answer rep = Answered a /\ public_answer a.
Proof.
  pose proof (Handler_gate (demo_http "POST" "/v1/%61ctions" "https://evil.example") demo_empty) as H.
  cbv zeta. destruct (run _ demo_empty) as [rep w']. destruct H as (Hc & _ & H). split; [exact Hc|].
  destruct H as (a & w1 & Ha & _ & _ & _ & Hp); [discriminate|]. exists a. split; [exact Ha|].
  exact (proj2 (Hp eq_refl)).
Defined.
