(* ===== verification/AnyStoreWitnesses.v ===== *)
(** * AnyStoreWitnesses: the service on both stores at concrete inputs *)

From Stdlib Require Import Ascii.
From S2P Require Import PgWitnesses AnyStore.

Open Scope Z_scope.

(** An organization, an agent, and a transaction that executes. *)
Definition executing_calls (org principal agent txn : string) : list Op :=
  [OSeedOrg "acme"; OCreateAgent org principal "bot" "live" (Some []) "h";
   OCreateTxn (MkTransaction "" org agent principal "" "refund" TxnZero None 0 0); OSetTxnStatus org txn TxnExecuting].

Definition mem_executing : World := (exec_all (ST := memory_store) (executing_calls "u0" "u1" "u2" "u3") demo_empty).2.
Definition pg_executing : Pg := (exec_all (ST := postgres_store) (executing_calls "g0" "g1" "u0" "u1") (new_pg None)).2.

Lemma mem_executing_ok : exists l, ledger_ok l /\ store_ok (Store := memory_store) l mem_executing.
Proof.
  destruct (exec_all_refines (ST := memory_store) (executing_calls "u0" "u1" "u2" "u3") _ _ (mem_ok_New (MkRegistry ∅ ∅ ∅ ∅)))
    as (l & Hr & Hok); [|exists l; split; [exact (proj1 (spec_run_ok _ _ _ _ ledger_ok_empty Hr))|exact Hok]].
  cbn [callable executing_calls]. repeat (split; [intros l Hl; cbn [admissible]|]); try done;
    rewrite ?(mo_orgs _ _ Hl), ?(mo_principals _ _ Hl), ?(mo_agents _ _ Hl); split_and?; first [in_dom|right; in_dom|done].
Qed.

Lemma pg_executing_ok : exists l, ledger_ok l /\ store_ok (Store := postgres_store) l pg_executing.
Proof.
  destruct (exec_all_refines (ST := postgres_store) (executing_calls "g0" "g1" "u0" "u1") _ _ (pg_ok_new None))
    as (l & Hr & Hok); [|exists l; split; [exact (proj1 (spec_run_ok _ _ _ _ ledger_ok_empty Hr))|exact Hok]].
  cbn [callable executing_calls]. repeat (split; [intros l Hl; cbn [admissible]|]); try done;
    rewrite ?(po_orgs _ _ Hl), ?(po_principals _ _ Hl), ?(po_agents _ _ Hl); split_and?; first [in_dom|right; in_dom|done].
Qed.

Lemma mem_executing_ready l : store_ok (Store := memory_store) l mem_executing -> commit_ready l "u0" "u3".
Proof. intros Hok. eapply (commit_ready_read (St := World)); [exact Hok|vm_compute; reflexivity..]. Qed.

Lemma pg_executing_ready l : store_ok (Store := postgres_store) l pg_executing -> commit_ready l "g0" "u1".
Proof. intros Hok. eapply (commit_ready_read (St := Pg)); [exact Hok|by vm_compute|by vm_compute|vm_compute; reflexivity..]. Qed.

(** On each store the transaction has no action and is committed. *)
Lemma commit_on_any_store_witness :
  (exists l t', store_ok (Store := memory_store) l mem_executing /\
     (run (Commit (St := World) "u0" "u3") mem_executing).1 = Ok (Some t') /\ t_Status (txn_view t') = TxnCommitted) /\
  (exists l t', store_ok (Store := postgres_store) l pg_executing /\
     (run (Commit (St := Pg) "g0" "u1") pg_executing).1 = Ok (Some t') /\ t_Status (txn_view t') = TxnCommitted).
Proof.
  split.
  - destruct mem_executing_ok as (l & _ & Hok). exists l.
    pose proof (mem_executing_ready l Hok) as Hr.
    pose proof (commit_on_any_store l mem_executing "u0" "u3" Hok eq_refl eq_refl) as H.
    destruct (run _ mem_executing) as [r s']. destruct (proj1 H Hr) as (t & t' & _ & -> & E & _). exists t'. by rewrite E.
  - destruct pg_executing_ok as (l & _ & Hok). exists l.
    pose proof (pg_executing_ready l Hok) as Hr.
    pose proof (commit_on_any_store l pg_executing "g0" "u1" Hok ltac:(done) ltac:(done)) as H.
    destruct (run _ pg_executing) as [r s']. destruct (proj1 H Hr) as (t & t' & _ & -> & E & _). exists t'. by rewrite E.
Defined.

(** A request of the agent and the approval it waits for. *)
Definition demo_approval (org txn action agent : string) : Approval :=
  MkApproval "" org txn (Some action) agent "large" None ApPending "" None 0.

Definition waiting_calls (org principal agent txn action : string) : list Op :=
  [OSeedOrg "acme"; OCreateAgent org principal "bot" "live" (Some []) "h";
   OCreateTxn (MkTransaction "" org agent principal "" "refund" TxnZero None 0 0);
   OAddAction (zero_action <| a_OrgID := org |> <| a_TransactionID := txn |> <| a_IdempotencyKey := "k1" |>);
   OCreateApproval (demo_approval org txn action agent); OSetTxnStatus org txn TxnAwaitingApproval].

Definition mem_waiting : World :=
  (exec_all (ST := memory_store) (waiting_calls "u0" "u1" "u2" "u3" "u5") demo_empty).2.
Definition pg_waiting : Pg := (exec_all (ST := postgres_store) (waiting_calls "g0" "g1" "u0" "u1" "u2") (new_pg None)).2.

Lemma mem_waiting_ok : exists l, ledger_ok l /\ store_ok (Store := memory_store) l mem_waiting.
Proof.
  destruct (exec_all_refines (ST := memory_store) (waiting_calls "u0" "u1" "u2" "u3" "u5") _ _ (mem_ok_New (MkRegistry ∅ ∅ ∅ ∅)))
    as (l & Hr & Hok); [|exists l; split; [exact (proj1 (spec_run_ok _ _ _ _ ledger_ok_empty Hr))|exact Hok]].
  cbn [callable waiting_calls]. repeat (split; [intros l Hl; cbn [admissible]|]); try done;
    rewrite ?(mo_orgs _ _ Hl), ?(mo_principals _ _ Hl), ?(mo_agents _ _ Hl), ?(mo_txns _ _ Hl), ?(mo_actions _ _ Hl);
    split_and?; first [in_dom|right; in_dom|intros ? [= <-]; in_dom|done].
Qed.

Lemma pg_waiting_ok : exists l, ledger_ok l /\ store_ok (Store := postgres_store) l pg_waiting.
Proof.
  destruct (exec_all_refines (ST := postgres_store) (waiting_calls "g0" "g1" "u0" "u1" "u2") _ _ (pg_ok_new None))
    as (l & Hr & Hok); [|exists l; split; [exact (proj1 (spec_run_ok _ _ _ _ ledger_ok_empty Hr))|exact Hok]].
  cbn [callable waiting_calls]. repeat (split; [intros l Hl; cbn [admissible]|]); try done;
    rewrite ?(po_orgs _ _ Hl), ?(po_principals _ _ Hl), ?(po_agents _ _ Hl), ?(po_txns _ _ Hl), ?(po_actions _ _ Hl);
    split_and?; first [in_dom|right; in_dom|intros ? [= <-]; in_dom|done].
Qed.

Definition demo_grant : DecideBody := MkDecideBody true "alice".
Definition demo_operator (org : string) : option Identity := Some (MkIdentity org "" true "op" "").

(** On each store the grant is recorded and answered. *)
Lemma decision_on_any_store_witness :
  (exists l ap l', store_ok (Store := memory_store) l mem_waiting /\ decision "u0" "u6" "alice" true l = Some (ap, l') /\
    store_ok (Store := memory_store) l'
      (run (handleDecideApproval (St := World) (demo_operator "u0") true "/v1/approvals/u6/decide" (Some demo_grant)) mem_waiting).2) /\
  (exists l ap l', store_ok (Store := postgres_store) l pg_waiting /\ decision "g0" "u3" "alice" true l = Some (ap, l') /\
    store_ok (Store := postgres_store) l'
      (run (handleDecideApproval (St := Pg) (demo_operator "g0") true "/v1/approvals/u3/decide" (Some demo_grant)) pg_waiting).2).
Proof.
  split.
  - destruct mem_waiting_ok as (l & Hl & Hok). exists l.
    assert (Hrefs : forall ap, l_approvals l !! "u6" = Some ap ->
      plain_id (ap_TransactionID ap) /\ forall aid, ap_ActionID ap = Some aid -> plain_id aid).
    { rewrite (mo_approvals _ _ Hok). vm_compute. intros ap [= <-]. split; [done|]. by intros aid [= <-]. }
    pose proof (decision_on_any_store l mem_waiting (demo_operator "u0") "/v1/approvals/u6/decide" "u6" demo_grant
      Hok Hl eq_refl ltac:(by vm_compute) eq_refl eq_refl Hrefs) as H.
    assert (Hc : rs_Code (run (handleDecideApproval (St := World) (demo_operator "u0") true "/v1/approvals/u6/decide"
      (Some demo_grant)) mem_waiting).1 = 200) by (vm_compute; reflexivity).
    change (decision (orgOf (demo_operator "u0")) "u6" (decider demo_grant) (db_Approve demo_grant) l)
      with (decision "u0" "u6" "alice" true l) in H.
    destruct (run _ mem_waiting) as [r s']. destruct (decision _ _ _ _ l) as [[ap l']|].
    + exists ap, l'. split; [exact Hok|]. split; [reflexivity|exact (proj2 H)].
    + destruct H as [H _]. cbn in Hc. congruence.
  - destruct pg_waiting_ok as (l & Hl & Hok). exists l.
    assert (Hrefs : forall ap, l_approvals l !! "u3" = Some ap ->
      canonical (ap_TransactionID ap) /\ forall aid, ap_ActionID ap = Some aid -> canonical aid).
    { rewrite (po_approvals _ _ Hok). vm_compute. intros ap [= <-]. split; [done|]. by intros aid [= <-]. }
    pose proof (decision_on_any_store l pg_waiting (demo_operator "g0") "/v1/approvals/u3/decide" "u3" demo_grant
      Hok Hl eq_refl ltac:(by vm_compute) ltac:(by vm_compute) ltac:(by vm_compute) Hrefs) as H.
    assert (Hc : rs_Code (run (handleDecideApproval (St := Pg) (demo_operator "g0") true "/v1/approvals/u3/decide"
      (Some demo_grant)) pg_waiting).1 = 200) by (vm_compute; reflexivity).
    change (decision (orgOf (demo_operator "g0")) "u3" (decider demo_grant) (db_Approve demo_grant) l)
      with (decision "g0" "u3" "alice" true l) in H.
    destruct (run _ pg_waiting) as [r s']. destruct (decision _ _ _ _ l) as [[ap l']|].
    + exists ap, l'. split; [exact Hok|]. split; [reflexivity|exact (proj2 H)].
    + destruct H as [H _]. cbn in Hc. congruence.
Defined.
