(* ===== verification/Findings.v ===== *)
(** * Findings: executions that show what the program does not guarantee

    Closed statements about concrete runs: a race of two executions of one
    action, amounts the policy engine does not see, an agent of an unknown
    principal, and a legacy secret that comes back. *)

From S2P Require Export Scenario PgWitnesses.

Open Scope Z_scope.

Section Race.
Context `{RT : Runtime} `{JE : JevEnv} `{SE : Secrets} `{UP : UuidParse} `{NT : Net}.

(** The first critical section of a program. *)
Definition one_step {A} (p : prog A) (w : World) : prog A * World :=
  match p with
  | Ret a => (Ret a, w)
  | Atomic m k => let '(x, w') := m w in (k x, w')
  end.

Lemma one_step_rtc ps1 (p : prog unit) ps2 w :
  rtc (pool_step client reconfigure) (ps1 ++ p :: ps2, w)
    (ps1 ++ (one_step p w).1 :: ps2, (one_step p w).2).
Proof.
  destruct p as [a|X m k]; cbn; [constructor|]. destruct (m w) as [x w'] eqn:Em.
  apply rtc_once. exact (step_run client reconfigure ps1 X m k ps2 w x w' Em).
Qed.

(** Two requests run [p]: the first stops after its first critical section,
    the second runs to its end, then the first goes on. *)
Definition race (p : prog unit) (w : World) : World :=
  let '(q, w1) := one_step p w in (run q (run p w1).2).2.

Lemma reachable_race p w : client p -> reachable w -> reachable (race p w).
Proof.
  intros Hp (ps & tools & Hr). unfold race.
  pose proof (one_step_rtc [] p (p :: ps) w) as H1. destruct (one_step p w) as [q w1].
  exists (Ret tt :: Ret tt :: ps), tools. etrans; [exact Hr|].
  eapply rtc_l; [by apply (step_spawn _ _ p)|]. eapply rtc_l; [by apply (step_spawn _ _ p)|].
  etrans; [exact H1|]. etrans; [apply (run_steps _ _ [q] ps p)|].
  apply (run_steps _ _ [] (Ret tt :: ps) q).
Qed.

End Race.

(** Two executions of the allowed refund u7 at the same time. *)
Definition demo_race : World := race (finish (ExecuteAllowed "u0" "u7")) demo_proposed.

(** C40: nothing stops two concurrent executions of one action: a reachable state
    in which the tool was called twice for the same action, under the same
    idempotency key, and two receipts were issued for it. *)
Theorem concurrent_double_execution :
  reachable demo_race /\
  a_ID ∘ call_action <$> w_calls demo_race = ["u7"; "u7"] /\
  a_IdempotencyKey ∘ call_action <$> w_calls demo_race = ["k1"; "k1"] /\
  r_ActionID <$> st_receiptsList (w_store demo_race) = ["u7"; "u7"].
Proof.
  split; [apply reachable_race; [constructor|exact reachable_demo_proposed]|].
  split; [vm_compute; reflexivity|]. split; vm_compute; reflexivity.
Qed.

(** The decision a refund with the given arguments gets from the seeded
    policies, and the amount recorded with the action. *)
Definition refund_decision (args : list (string * value)) : option PolicyEffect * option Z :=
  let w := serve (propose "stripe" "refund" "k9" args) demo_txn in
  match List.find (fun a => String.eqb (a_IdempotencyKey a) "k9") (map_to_list (st_actions (w_store w))).*2 with
  | Some a => (d_Effect <$> a_Decision a, a_AmountCents a)
  | None => (None, None)
  end.

(** An amount the gateway cannot read counts as no amount: a refund of a
    million cents given as a string, or under another key, is allowed. *)
Theorem unread_amount_is_allowed :
  refund_decision [("amount_cents", VString "1000000")] = (Some EffectAllow, None) /\
  refund_decision [("total_cents", VInt 1000000)] = (Some EffectAllow, None) /\
  refund_decision [("amount_cents", VInt 1000000)] = (Some EffectDeny, Some 1000000).
Proof. split; [vm_compute; reflexivity|]. split; vm_compute; reflexivity. Qed.

(** An amount in dollars overflows silently: it is allowed as negative. *)
Theorem overflowing_amount_is_allowed :
  refund_decision [("amount", VInt 92233720368547759)] = (Some EffectAllow, Some (-9223372036854775716)).
Proof. vm_compute; reflexivity. Qed.

(** A decimal dollar amount loses a cent: 19.99 is read as 1998 cents. *)
Theorem dollar_amount_truncated :
  extractCents (Some (<[ "amount" := VFloat (float_of_decimal 1999 2) ]> ∅)) = Some 1998.
Proof. vm_compute; reflexivity. Qed.

(** ** Registration *)

(** Registering an agent checks that its principal is a UUID, not that the
    organization has it: the memory store keeps the agent of a principal
    nobody is. *)
Definition orphan_body : RegisterBody := MkRegisterBody "u999" "bot" "staging" ["support"].

Definition orphan_agent : Response :=
  fst (run (handleRegisterAgent (Some (MkIdentity "u0" "" true "op" "")) (Some orphan_body)) demo_setup).

Lemma unknown_principal_accepted :
  match rs_Body orphan_agent with
  | BAgent a _ => rs_Code orphan_agent = 201 /\ ag_PrincipalID a = "u999" /\
      st_principals (w_store demo_setup) !! ag_PrincipalID a = None
  | _ => False
  end.
Proof. vm_compute. by split_and!. Qed.

(** ** Legacy secrets *)

(** An agent with a legacy secret is issued a key, and the key is revoked.
    The hash the fallback of Authenticate checks, before and after. *)
Definition legacy_on_postgres : option string * option string :=
  let s := (run (PgStore.SeedOrg "acme") (new_pg None)).2 in
  let s := (run (PgStore.CreateAgent "g0" "g1" "bot" "live" (Some []) "legacy") s).2 in
  let s := (run (PgSecrets.StoreCredential "g0" "u0" "k" "keyed") s).2 in
  let before := (run (PgSecrets.AgentCredentialHashes "g0") s).1 !! "u0" in
  let s := (run (PgSecrets.RevokeCredential "k") s).2 in
  (before, (run (PgSecrets.AgentCredentialHashes "g0") s).1 !! "u0").

Definition legacy_in_memory : option string * option string :=
  let w := (Store.SeedOrg "acme" demo_empty).2 in
  let w := (Store.CreateAgent "u0" "u1" "bot" "live" [] "legacy" w).2 in
  let w := (StoreSecrets.StoreCredential "u0" "u2" "k" "keyed" w).2 in
  let before := (StoreSecrets.AgentCredentialHashes "u0" w).1 !! "u2" in
  let w := (StoreSecrets.RevokeCredential "k" w).2 in
  (before, (StoreSecrets.AgentCredentialHashes "u0" w).1 !! "u2").

(** The key replaces the legacy secret on both stores.  Revoking the key
    leaves the agent without a secret in memory; on Postgres the legacy
    secret authenticates again. *)
Lemma legacy_secret_returns :
  legacy_in_memory = (Some "keyed", None) /\ legacy_on_postgres = (Some "keyed", Some "legacy").
Proof. split; vm_compute; reflexivity. Qed.
